(* ===== verification/_CoqProject ===== *)
-Q . S2P
Prelude.v
RustFmt.v
RustStr.v
RustPath.v
WasiTypes.v
Policy.v
InodeTable.v
FileSystem.v
FsOps.v
Services.v
InodeWf.v
Walk.v
FsWf.v
FsInv.v
FsSystem.v
FsSafe.v
Demo.v
FsProps.v
FsData.v
FsReadAll.v
FsReach.v
PolicyProps.v
Transport.v
TransportProps.v
Framing.v
FramingProps.v
Session.v
Csr.v
Runtime.v
Enclave.v
Server.v
Proxy.v
Client.v
FsFiles.v
FsSpawn.v
FsBoot.v
SessionProps.v
RuntimeProps.v
Provision.v
EnclaveProps.v
Network.v
ProxyProps.v
Attest.v
ClientProps.v
EndToEnd.v
EnclaveDemo.v
SystemDemo.v
Host.v
Programs.v
Csv.v
Primes.v
Huffman.v
Psi.v
Gf256.v
Shamir.v
PolicyGen.v
Launch.v
PolicyGenProps.v
ClientCli.v
ClientCliProps.v
Platform.v
WasiMemory.v
WasiHost.v
Strace.v
Wasi.v
WasmApi.v
Wasmi.v
Wasmtime.v
WasiMemoryProps.v
WasiSim.v
WasiCalls.v
Engines.v
EngineRuns.v
Freestanding.v
FreestandingProps.v
WasiDemo.v
ToolsDemo.v
WasiProps.v
GuestIo.v
Findings.v
