(* ===== verification/Prelude.v ===== *)
(** * Veracruz: a verification development

    Veracruz runs a WebAssembly program on the data of several parties inside
    an enclave, under a global policy that all of them have seen.  This library
    models its Rust code, from the client that checks the enclave before it
    sends anything, through the server, the proxy that certifies enclaves and
    the TLS sessions, down to the bytes of the virtual filesystem the program
    works on, and proves what the code is relied on for.

    ** The parts of the program and where they are modelled

    A client ([Client]) talks to the enclave through the HTTP interface of the
    Veracruz server ([Server]), which passes TLS records to the enclave over a
    connection ([Framing]) and had the enclave attested by the proxy
    attestation server ([Proxy]) when it started it ([Launch]).  In the enclave a loop
    ([Enclave]) takes the server's messages and calls the managers.  A client's
    bytes arrive at a TLS session of the enclave ([Session]), are
    reassembled into requests ([Transport]), and are dispatched by the runtime
    manager ([Runtime]), which holds the policy ([Policy]) and the virtual
    filesystem ([InodeTable], [FileSystem], [FsOps], [Services]).  A request to
    execute starts one of two engines ([Wasmi], [Wasmtime]) on a handler of
    that filesystem; the program's host calls go through the WASI wrapper
    ([Wasi], over [WasiMemory], [WasiHost], [Strace], [Platform]).  The policy
    is written by a tool ([PolicyGen]), a participant runs the client from its
    command line ([ClientCli]), and programs can be tried without an enclave
    ([Freestanding]); these three work on the files of their machine ([Host]).
    Five of the programs that come with Veracruz, with the generators of their
    inputs, are modelled too ([Shamir], [Huffman], [Primes], [Psi], [Csv]),
    over the files a program sees ([Programs]).

    - [Prelude]: outcomes of Rust calls ([Ok], [Err], [Abort] for a panic or a
      self-deadlock), the state-and-error monad [ST], Hoare triples and
      [preserves], machine integers with the build profile that decides
      whether overflow panics or wraps, slices, little-endian bytes, hash maps
      with an arbitrary iteration order.
    - [RustFmt]: formatting and parsing of numbers, splitting at whitespace.
      [RustStr]: further methods of [str], signed integers and floating-point
      numbers in texts.
      [RustPath]: [std::path] as the code uses it.  [WasiTypes]: the data of
      the [wasi_types] crate; its bit set of rights is a class with laws.
    - [Policy], [PolicyProps]: [policy-utils/src/].
    - [InodeTable]: [InodeImpl], [InodeEntry], [InodeTable] of
      [execution-engine/src/fs.rs].  [FileSystem]: descriptors, handlers,
      [spawn] and the preopened directories.  [FsOps]: the other operations
      of [FileSystem].  [Services]: writing, which may run the native services
      of [native_modules/aes.rs] and [postcard.rs].
    - [FsSystem]: the handlers of all principals over the shared state, as a
      step relation.  [InodeWf], [FsWf], [FsInv]: the invariant and its
      preservation.  [Walk]: path lookup as a relation, and what the
      creation of directories leaves as it was.  [FsSafe],
      [FsReadAll]: termination.  [FsProps], [FsData], [FsFiles], [FsReach]:
      the properties.  [FsSpawn]: files through new handlers.  [FsBoot]: a
      filesystem can always be made.
    - [Transport], [TransportProps]: [transport-protocol/src/custom.rs] and
      the message types of [transport_protocol.proto].
    - [Session], [SessionProps]: [session-manager/src/] and
      [lookup_ciphersuite] of [veracruz-utils].
    - [Runtime], [RuntimeProps]: [runtime-manager/src/managers/] and [execute]
      of [execution-engine/src/lib.rs].  [Provision]: from a request that
      writes to requests that read and run.
    - [Csr]: [veracruz-utils/src/csr.rs].  [Framing], [FramingProps]:
      [io-utils/src/], [fd.rs], [raw_fd.rs] and [tcp.rs].
    - [Enclave], [EnclaveProps]: [runtime_manager_linux.rs],
      [runtime_manager_nitro.rs] and [runtime_manager_icecap.rs], with the
      messages of [veracruz-utils/src/runtime_manager_message.rs].
    - [Server]: [veracruz-server/src/], the handlers of [server.rs] and the
      three platforms, and [io-utils/src/http.rs].  [Network]: the server and
      the enclave at the ends of a connection.  [Launch]: the
      processes of the enclave on the three platforms, with
      [io-utils/src/nitro.rs] and [vsocket.rs].
    - [Proxy], [ProxyProps]: [proxy-attestation-server/src/].  [Attest]: the
      server, the enclave and the proxy together.
    - [Client], [ClientProps]: [veracruz-client/src/veracruz_client.rs].
      [EndToEnd]: the client, the server and the enclave together.
    - [Host]: the files and streams of the machine a tool runs on.
      [PolicyGen], [PolicyGenProps]: [test-collateral/generate-policy/].
      [ClientCli], [ClientCliProps]: [veracruz-client/src/cli.rs].
      [Freestanding], [FreestandingProps]: [sdk/freestanding-execution-engine/].
    - [Programs]: files, random numbers and the [postcard] format as the
      programs of [sdk/rust-examples/] and the generators of
      [sdk/data-generators/] use them.  [Gf256], [Shamir]:
      [shamir-secret-sharing].  [Huffman]: [huffman-encoding].  [Primes]: [prime-numbers-generator].  [Psi]:
      [private-set-intersection] and [private-set-intersection-sum].
      [Csv]: [csv-encoder].
    - [Platform]: [platform-services/src/], the three platforms.
    - [WasiMemory], [WasiMemoryProps]: the trait [MemoryHandler] of
      [wasi/common.rs] and its two implementations.  [WasiHost], [Wasi]: the
      wrapper and its 46 calls.  [Strace]: [wasi/strace.rs].
    - [WasmApi], [Wasmi]: [wasi/wasmi.rs]; [Wasmtime]: [wasi/wasmtime.rs].
    - [WasiSim], [WasiCalls]: every call of the wrapper as a value, and the
      simulation between two hosts.  [Engines], [EngineRuns]: the engines
      compared, and as implementations of the class the runtime manager uses.
      [WasiProps], [GuestIo]: further properties of the layer.
    - [Demo], [WasiDemo], [EnclaveDemo], [SystemDemo], [ToolsDemo]: concrete
      instances of every parameter and small states, on which the witnesses
      evaluate.  [Findings]:
      behaviours worth a second look.

    ** How code is modelled

    A method that mutates [self] is a function in [ST S E A]: the state goes
    in and comes out on every outcome, since Rust does not roll back.  Integers
    are [Z] with their width written out at each operation.  A mutex that a
    single thread takes and releases within a call is not modelled; the lock
    of a native service is, since services can call each other.  A result of
    an operation the model has to cut short would be [Abort OutOfFuel].

    Code that is not in the repository is a class whose fields are the
    operations the sources call, with a second class for the documented laws a
    theorem needs: [WasiRights], [NativeLibs] (PSA cipher, postcard),
    [PolicyLibs] (SHA-256, hex, serde), [ProtobufMessage], [TlsLibs] (rustls,
    mbedtls), [MbedtlsCsr], [Stream], [StreamErrors], [Bincode], [RingBuffer]
    (connections and their messages), [PsaAttestation], [NitroAttestation],
    [CoseVerify], [NitroDocuments], [OpenSSL], [Rng] (attestation), [Base64],
    [Curl], [Reqwest], [Mbedtls], [Webpki], [X509Parser], [ClientFiles],
    [PlatformImp] and [OsLibs] (the system's clocks and
    entropy), [StructLayout], [WasiCodes] and [ErrNoCodes] (numbers and layouts
    of [wasi_types]), [RuntimeValues] and [WasmiLib], [WasmtimeLib], and for
    the tools [HostSystem], [NetAddr], [Chrono], [DataEncoding], [Regex] and
    [SerdeJson]; for the processes of the enclave [Machine] and [NitroJson];
    for the programs [GuestFiles], [GuestDirs], [ThreadRng], [StdRng],
    [SeedableRng], [WriteSome], [Postcard], [Toml] and [CsvReader].  Every law
    class has an instance in a demo file, in a small module beside the
    theorems, or beside its definition.
    Three interfaces lie between components of the program: [WasmEngines] with
    [WasmEnginesLaws], which [Runtime] uses and [EngineRuns] discharges for the
    two engines; [VeracruzServer], which the HTTP handlers use and the three
    platforms implement, over an [EnclaveLink]; and [MemoryHandler] with [MemoryHandlerLaws], which [Wasi]
    uses and [WasiMemoryProps] discharges for the two memories.

    ** Fuel

    - A native service that a write triggers runs with one unit per service:
      enough, since a running service is locked ([FsSafe],
      [sys_call_terminates]).
    - The recursive read of a directory runs with one unit per inode: enough,
      since a subdirectory has a larger inode than its parent ([FsReadAll]).
    - The loop that feeds a TLS connection runs with one unit per byte: enough,
      since a connection that takes no byte ends the loop
      ([send_tls_data_feeds]).
    - The loops that send and receive a buffer run with one unit per byte and
      any number of idle turns: enough on a stream where every call makes
      progress ([messages_delivered]).
    - The loop of the server that fetches the records of a session runs with
      any number of turns: the work the connection has to write is enough
      ([tls_data_ends]).
    - A WebAssembly program need not terminate, so that the engines take any
      number of steps as an argument; their theorems hold for every number.
    - The freestanding engine copies directories of the host with any bound
      on their depth, and its theorem holds for every one.
    - The loops that wait for an enclave, to be started, connected or
      terminated, take any number of turns, and so does the loop that draws
      identifiers until one is new; their theorems hold for every number.
      The loop over the shares of a secret needs one turn more than there are
      files ([shamir_secret_recovered]).
    - The sieve runs with one unit per number, and the loop that joins
      Huffman trees with one per tree: enough ([primes_generated],
      [huffman_roundtrip]).
    - Numbers are printed with 64 digits at most, enough for 64 bits in any
      base.

    ** What the theorems show

    - The system: an enclave that the server has started serves the
      certificate of an attested key; nothing secret leaves a client before
      its checks; what a client writes reaches its session in the enclave and
      the answers come back; the proxy certifies only what a verified token
      says, and each challenge once; the connection changes nothing, and the
      enclave's loops do nothing but call the managers.
    - The filesystem: every reachable state is well formed, inodes never
      disappear or change kind, services are erased and unlocked between
      calls, every call terminates; a handler never exceeds the rights the
      policy gives its principal, a missing right is refused without effect;
      writes splice, reads slice, whole files round trip.
    - The runtime manager: its invariant, that outsiders are denied, that
      access implies a right in the policy, that digests are enforced, that a
      shutdown clears the state, that the reported hash is that of the loaded
      policy, that sessions are isolated and their IDs fresh; what a client
      has provisioned is what others read and what is run.
    - The processes: the server that was started runs one process more, of the
      binary that was measured; failure and shutdown leave none behind, but in
      the cases the theorem names.
    - The protocol and the sessions: reassembly, independence of sessions,
      round trips of requests; attribution of messages; the order of
      configuration.
    - The engines: both meet the contract the runtime manager relies on, they
      agree with each other on every well-typed host call, tracing changes
      nothing else, what a program writes it reads back, listings and
      arguments stay within their buffers.
    - The policy: exactly when it is accepted, and the tables derived from it.
    - The tools: a policy that was generated loads, with the digests, the
      measurement and the rights that were asked for; a run of the client that
      succeeds did all it was asked, with checked enclaves; programs under the
      freestanding engine get no more than the rights of its table.
    - The programs: a secret is recovered from enough shares, and the tables
      compute in the field of 256 elements; one share less excludes a value
      for each byte; a Huffman code is decoded; the sieve leaves the primes;
      the intersections are those of the tables; and what the CSV encoder
      writes, row by row.
    - The findings: a digest that is bypassed, a read that panics, an error
      that is reported as success, processes that are left behind, a text that
      is lost, entries that appear in a row that is not theirs.

    ** What is not modelled

    Threads: the manager's entry points, the handlers of the server and those
    of the proxy run one after the other, which their mutexes enforce up to the
    order; the threads that copy the output of an enclave or wait for a
    signal.  Setting up listeners, and the HTTP frameworks; the command lines of the server and of
    the proxy, which parse options and start them; the declarations of the
    options of the tools, and what the tools print for their users; the
    driver of the IceCap console; tests; the other generators of test data and
    example programs, most of which compute with floating-point numbers.
    Memory: an allocation that is refused, but for the capacities that the
    source itself exceeds.  Fields and methods of TLS connections, certificates and protobuf
    beyond what the code reads.  Time: expiry is asked of the libraries, and
    not compared by the code that is built. *)

From Stdlib Require Export ZArith Lia Ascii String.
From Stdlib Require Import Strings.Byte.
From stdpp Require Export gmap strings list fin_maps.
#[export] Set Default Goal Selector "!".

(** The hint database of the development: the lemmas that close the routine
    goals of the component files. *)
Create HintDb veracruz.

(** ** Outcomes and the state-and-error monad *)

(** Why a run stops without returning.  [OutOfFuel] is an artefact of the
    model: the development proves where it never occurs. *)
Inductive abort :=
  | SliceOutOfRange
  | CapacityOverflow
  | ArithmeticOverflow
  | MutexReentered
  | AssertionFailed
  | UnwrapOnErr
  | Unreachable
  | NotImplemented
  | OutOfFuel.

(** The outcome of a Rust call returning [Result<A, E>]: a value, an error
    value, or no return at all (a panic, or a self-deadlock on a mutex). *)
Inductive outcome (E A : Type) :=
  | Ok (a : A)
  | Err (e : E)
  | Abort (p : abort).
Arguments Ok {_ _} _.
Arguments Err {_ _} _.
Arguments Abort {_ _} _.

#[export] Instance abort_eq_dec : EqDecision abort.
Proof. solve_decision. Defined.
#[export] Instance outcome_eq_dec {E A} `{EqDecision E, EqDecision A} :
  EqDecision (outcome E A).
Proof. solve_decision. Defined.

Definition is_ok {E A} (r : outcome E A) : bool :=
  match r with Ok _ => true | _ => false end.

(** Code that threads a mutable state [S] and fails with [E].  The state is
    returned on every outcome: Rust does not roll back on [Err]. *)
Definition ST (S E A : Type) : Type := S → outcome E A * S.

Section monad.
Context {S E : Type}.

Definition ret {A} (a : A) : ST S E A := λ s, (Ok a, s).
Definition throw {A} (e : E) : ST S E A := λ s, (Err e, s).
Definition panic {A} (p : abort) : ST S E A := λ s, (Abort p, s).

Definition bind {A B} (m : ST S E A) (k : A → ST S E B) : ST S E B := λ s,
  match m s with
  | (Ok a, s') => k a s'
  | (Err e, s') => (Err e, s')
  | (Abort p, s') => (Abort p, s')
  end.

Definition lift {A} (r : outcome E A) : ST S E A := λ s, (r, s).
Definition get : ST S E S := λ s, (Ok s, s).
Definition put (s' : S) : ST S E unit := λ _, (Ok tt, s').
Definition gets {A} (f : S → A) : ST S E A := λ s, (Ok (f s), s).
Definition modify (f : S → S) : ST S E unit := λ s, (Ok tt, f s).

(** [o.ok_or(e)?] *)
Definition ok_or {A} (o : option A) (e : E) : ST S E A := λ s,
  match o with Some a => (Ok a, s) | None => (Err e, s) end.

(** [if b { return Err(e) }] *)
Definition fail_if (b : bool) (e : E) : ST S E unit := λ s,
  if b then (Err e, s) else (Ok tt, s).

(** [match m { r => k r }]: run [m] and continue with its [Result]. *)
Definition try_match {A B} (m : ST S E A) (ok : A → ST S E B) (err : E → ST S E B) :
  ST S E B := λ s,
  match m s with
  | (Ok a, s') => ok a s'
  | (Err e, s') => err e s'
  | (Abort p, s') => (Abort p, s')
  end.

(** Run [f] on the state when [m] returns, with a value or an error: the
    end of the scope of a lock guard, or a clean-up before [result]. *)
Definition finally {A} (m : ST S E A) (f : S → S) : ST S E A := λ s,
  match m s with
  | (Ok a, s') => (Ok a, f s')
  | (Err e, s') => (Err e, f s')
  | (Abort p, s') => (Abort p, s')
  end.

(** [for x in l { acc = body(acc, x)?; }] *)
Fixpoint fold_st {A X} (body : A → X → ST S E A) (l : list X) (acc : A) : ST S E A :=
  match l with
  | [] => ret acc
  | x :: l' => bind (body acc x) (fold_st body l')
  end.
End monad.

(** Run [m] on a part of the state, as a method call on a field does. *)
Definition zoom {S T E A} (get : S → T) (set : T → S → S) (m : ST T E A) : ST S E A :=
  λ s, let '(r, t) := m (get s) in (r, set t s).

(** [m.map_err(f)] *)
Definition map_err {S E F A} (f : E → F) (m : ST S E A) : ST S F A := λ s,
  match m s with
  | (Ok a, s') => (Ok a, s')
  | (Err e, s') => (Err (f e), s')
  | (Abort p, s') => (Abort p, s')
  end.

Declare Scope st_scope.
Delimit Scope st_scope with st.
Notation "'let!' x ':=' m 'in' k" := (bind m (λ x, k))
  (at level 10, x binder, m at level 100, k at level 200,
   format "'[v' 'let!'  x  ':='  m  'in' '//' k ']'") : st_scope.
Notation "'do!' m 'in' k" := (bind m (λ _, k))
  (at level 10, m at level 100, k at level 200,
   format "'[v' 'do!'  m  'in' '//' k ']'") : st_scope.
Open Scope st_scope.

(** ** Reasoning rules for the monad *)

Section rules.
Context {S E : Type}.
Implicit Types (P X : S → Prop).

Lemma bind_ok {A B} (m : ST S E A) (k : A → ST S E B) s b s'' :
  bind m k s = (Ok b, s'') ↔ ∃ a s', m s = (Ok a, s') ∧ k a s' = (Ok b, s'').
Proof.
  unfold bind. split.
  - destruct (m s) as [[a|e|p] s'] eqn:Hm; intros Hk; simplify_eq. eauto.
  - by intros (a & s' & -> & Hk).
Qed.

(** Every outcome of [m] from a state in [P]: a returned value satisfies
    [Q]; on an error or an abort the state left behind satisfies [X]. *)
Definition triple {A} P (m : ST S E A) (Q : A → S → Prop) X : Prop := ∀ s, P s →
  match m s with (Ok a, s') => Q a s' | (Err _, s') | (Abort _, s') => X s' end.

Definition preserves {A} P (m : ST S E A) : Prop := triple P m (λ _, P) P.

Lemma preserves_run {A} P (m : ST S E A) s : preserves P m → P s → P (m s).2.
Proof. intros Hm Hs. specialize (Hm s Hs). by destruct (m s) as [[] ?]. Qed.

Lemma triple_conseq {A} P P' (m : ST S E A) Q Q' X X' :
  triple P m Q X → (∀ s, P' s → P s) → (∀ a s, Q a s → Q' a s) → (∀ s, X s → X' s) →
  triple P' m Q' X'.
Proof.
  intros Hm HP HQ HX s Hs. specialize (Hm s (HP s Hs)).
  destruct (m s) as [[] ?]; auto.
Qed.

Lemma triple_and {A} P P' (m : ST S E A) Q Q' X X' :
  triple P m Q X → triple P' m Q' X' →
  triple (λ s, P s ∧ P' s) m (λ a s, Q a s ∧ Q' a s) (λ s, X s ∧ X' s).
Proof.
  intros H H' s [Hs Hs']. specialize (H s Hs). specialize (H' s Hs').
  by destruct (m s) as [[] ?].
Qed.

Lemma triple_pure {A} P (φ : Prop) (m : ST S E A) Q X :
  (φ → triple P m Q X) → triple (λ s, P s ∧ φ) m Q X.
Proof. intros Hm s [Hs Hφ]. exact (Hm Hφ s Hs). Qed.

Lemma triple_ret {A} P (a : A) Q X : (∀ s, P s → Q a s) → triple P (ret a) Q X.
Proof. intros HQ s Hs. apply HQ, Hs. Qed.

Lemma triple_throw {A} P (e : E) (Q : A → S → Prop) X :
  (∀ s, P s → X s) → triple P (throw e) Q X.
Proof. intros HX s Hs. apply HX, Hs. Qed.

Lemma triple_panic {A} P p (Q : A → S → Prop) X :
  (∀ s, P s → X s) → triple P (panic p) Q X.
Proof. intros HX s Hs. apply HX, Hs. Qed.

Lemma triple_bind {A B} P (m : ST S E A) R (k : A → ST S E B) Q X :
  triple P m R X → (∀ a, triple (R a) (k a) Q X) → triple P (bind m k) Q X.
Proof.
  intros Hm Hk s Hs. unfold bind. specialize (Hm s Hs).
  destruct (m s) as [[a|e|p] s']; [apply Hk, Hm|done|done].
Qed.

Lemma triple_lift {A} P (r : outcome E A) Q X :
  (∀ s, P s → match r with Ok a => Q a s | _ => X s end) → triple P (lift r) Q X.
Proof. intros HQ s Hs. specialize (HQ s Hs). unfold lift. by destruct r. Qed.

Lemma triple_ok_or {A} P (o : option A) e Q X :
  (∀ s, P s → match o with Some a => Q a s | None => X s end) →
  triple P (ok_or o e) Q X.
Proof. intros HQ s Hs. specialize (HQ s Hs). unfold ok_or. by destruct o. Qed.

Lemma triple_fail_if P b e Q X :
  (∀ s, P s → if b : bool then X s else Q tt s) → triple P (fail_if b e) Q X.
Proof. intros HQ s Hs. specialize (HQ s Hs). unfold fail_if. by destruct b. Qed.

Lemma triple_gets {A} P (f : S → A) Q X :
  (∀ s, P s → Q (f s) s) → triple P (gets f) Q X.
Proof. intros HQ s Hs. apply HQ, Hs. Qed.

Lemma triple_modify P f Q X :
  (∀ s, P s → Q tt (f s)) → triple P (modify f) Q X.
Proof. intros HQ s Hs. apply HQ, Hs. Qed.

Lemma triple_try_match {A B} P (m : ST S E A) R X' (ok : A → ST S E B) err Q X :
  triple P m R X' → (∀ s, X' s → X s) →
  (∀ a, triple (R a) (ok a) Q X) → (∀ e, triple X' (err e) Q X) →
  triple P (try_match m ok err) Q X.
Proof.
  intros Hm HX Hok Herr s Hs. unfold try_match. specialize (Hm s Hs).
  destruct (m s) as [[a|e|p] s']; [apply Hok, Hm|apply Herr, Hm|apply HX, Hm].
Qed.

Lemma triple_finally {A} P (m : ST S E A) Q' X' f (Q : A → S → Prop) X :
  triple P m Q' X' → (∀ a s, Q' a s → Q a (f s)) → (∀ s, X' s → X (f s) ∧ X s) →
  triple P (finally m f) Q X.
Proof.
  intros Hm HQ HX s Hs. unfold finally. specialize (Hm s Hs).
  destruct (m s) as [[a|e|p] s']; [apply HQ, Hm|apply (HX s' Hm)|apply (HX s' Hm)].
Qed.

Lemma triple_fold {A B} (I : A → S → Prop) X (body : A → B → ST S E A) l acc :
  (∀ a x, x ∈ l → triple (I a) (body a x) I X) →
  triple (I acc) (fold_st body l acc) I X.
Proof.
  revert acc. induction l as [|x l IH]; intros acc Hbody; simpl.
  - by apply triple_ret.
  - eapply triple_bind; [apply Hbody, elem_of_cons; by left|].
    intros a. apply IH. intros a' x' Hx'. apply Hbody, elem_of_cons. by right.
Qed.

(** *** Invariants *)

Lemma preserves_ret {A} P (a : A) : preserves P (ret a).
Proof. by apply triple_ret. Qed.
Lemma preserves_throw {A} P (e : E) : preserves P (throw (A:=A) e).
Proof. by apply triple_throw. Qed.
Lemma preserves_panic {A} P p : preserves P (panic (A:=A) p).
Proof. by apply triple_panic. Qed.
Lemma preserves_get P : preserves P get.
Proof. by intros s Hs. Qed.
Lemma preserves_lift {A} P (r : outcome E A) : preserves P (lift r).
Proof. intros s Hs. by destruct r. Qed.
Lemma preserves_ok_or {A} P (o : option A) e : preserves P (ok_or o e).
Proof. intros s Hs. by destruct o. Qed.
Lemma preserves_fail_if P b e : preserves P (fail_if b e).
Proof. intros s Hs. by destruct b. Qed.
Lemma preserves_bind {A B} P (m : ST S E A) (k : A → ST S E B) :
  preserves P m → (∀ a, preserves P (k a)) → preserves P (bind m k).
Proof. intros Hm Hk. by apply triple_bind with (R := λ _, P). Qed.
Lemma preserves_bind_lift {A B} P (r : outcome E A) (k : A → ST S E B) :
  (∀ a, r = Ok a → preserves P (k a)) → preserves P (bind (lift r) k).
Proof. intros Hk s Hs. unfold bind, lift. destruct r; [by apply Hk|done..]. Qed.
Lemma preserves_try_match {A B} P (m : ST S E A) (ok : A → ST S E B) err :
  preserves P m → (∀ a, preserves P (ok a)) → (∀ e, preserves P (err e)) →
  preserves P (try_match m ok err).
Proof. intros Hm Hok Herr. by apply triple_try_match with (R := λ _, P) (X' := P). Qed.
Lemma preserves_fold {A B} P (body : A → B → ST S E A) l acc :
  (∀ a x, preserves P (body a x)) → preserves P (fold_st body l acc).
Proof. intros Hb. apply (triple_fold (λ _, P)). intros a x _. apply Hb. Qed.
Lemma preserves_finally {A} P (m : ST S E A) f :
  preserves P m → (∀ s, P s → P (f s)) → preserves P (finally m f).
Proof. intros Hm Hf. by apply triple_finally with (Q' := λ _, P) (X' := P); auto. Qed.

(** Add facts that the code establishes to an invariant it keeps. *)
Lemma preserves_weaken {A} P (m : ST S E A) Q :
  triple P m (λ a s, P s ∧ Q a s) P → preserves P m.
Proof. intros Hm. eapply triple_conseq; [exact Hm|..]; naive_solver. Qed.

(** Code that keeps [P], where more than [P] is known to fail. *)
Lemma triple_keep {A} P (m : ST S E A) X :
  preserves P m → (∀ s, P s → X s) → triple P m (λ _, P) X.
Proof. intros Hm HX. by eapply triple_conseq; [exact Hm|..]. Qed.
End rules.

#[export] Hint Resolve preserves_ret preserves_throw preserves_panic preserves_get
  preserves_lift preserves_ok_or preserves_fail_if : veracruz.

(** Decompose a monadic program into the calls it makes, and close those with
    the hints of the component. *)
Ltac preserve :=
  lazymatch goal with |- triple ?P ?m _ _ => change (preserves P m) | _ => idtac end;
  repeat first
    [ solve [eauto with veracruz]
    | match goal with
      | |- preserves _ (bind _ _) => apply preserves_bind; [|intros ?]
      | |- preserves _ (try_match _ _ _) => apply preserves_try_match; [|intros ?..]
      | |- preserves _ (fold_st _ _ _) => apply preserves_fold; intros ? ?
      | |- preserves _ (match ?x with _ => _ end) => destruct x
      end ].

(** ** Runs that returned a value

    What each construct of the monad did when it returned a value; [inv_run]
    takes such runs apart. *)

Lemma zoom_ok {S T E X} (get : S → T) set (m : ST T E X) s x s' :
  zoom get set m s = (Ok x, s') → ∃ t, m (get s) = (Ok x, t) ∧ s' = set t s.
Proof. unfold zoom. destruct (m (get s)) as [o t]. intros [= -> <-]. by exists t. Qed.

Lemma bind_inv {S E X Y} (m : ST S E X) (k : X → ST S E Y) s y s' :
  bind m k s = (Ok y, s') → ∃ x s1, m s = (Ok x, s1) ∧ k x s1 = (Ok y, s').
Proof. unfold bind. destruct (m s) as [[x|e|p] s1]; [|done..]. intros Hk. by exists x, s1. Qed.

Lemma ret_inv {S E X} (x y : X) (s s' : S) : ret (E:=E) x s = (Ok y, s') → x = y ∧ s = s'.
Proof. by intros [= -> ->]. Qed.
Lemma lift_inv {S E X} (o : outcome E X) (x : X) (s s' : S) : lift o s = (Ok x, s') → o = Ok x ∧ s = s'.
Proof. by intros [= -> ->]. Qed.
Lemma ok_or_inv {S E X} (o : option X) (e : E) x (s s' : S) :
  ok_or o e s = (Ok x, s') → o = Some x ∧ s = s'.
Proof. unfold ok_or. destruct o; [|done]. by intros [= -> ->]. Qed.
Lemma fail_if_inv {S E} b (e : E) u (s s' : S) : fail_if b e s = (Ok u, s') → b = false ∧ s = s'.
Proof. unfold fail_if. destruct b; [done|]. by intros [= _ ->]. Qed.
Lemma map_err_inv {S E F X} (f : E → F) (m : ST S E X) s x s' :
  map_err f m s = (Ok x, s') → m s = (Ok x, s').
Proof. unfold map_err. destruct (m s) as [[] ?]; [|done..]. by intros [= -> ->]. Qed.
Lemma get_inv {S E} (s x s' : S) : get (E:=E) s = (Ok x, s') → s = x ∧ s = s'.
Proof. by intros [= -> ->]. Qed.
Lemma modify_inv {S E} f u (s s' : S) : modify (E:=E) f s = (Ok u, s') → s' = f s.
Proof. by intros [= _ ->]. Qed.
Lemma put_inv {S E} t u (s s' : S) : put (E:=E) t s = (Ok u, s') → s' = t.
Proof. by intros [= _ ->]. Qed.

Ltac inv_run :=
  repeat match goal with
  | H : bind _ _ _ = (Ok _, _) |- _ =>
      let x := fresh "x" in let s := fresh "s" in let Hx := fresh "Hx" in
      apply bind_inv in H as (x & s & Hx & H)
  | H : ret _ _ = (Ok _, _) |- _ => apply ret_inv in H as [? ?]; subst
  | H : throw _ _ = (Ok _, _) |- _ => discriminate H
  | H : panic _ _ = (Ok _, _) |- _ => discriminate H
  | H : lift _ _ = (Ok _, _) |- _ => apply lift_inv in H as [? ?]; subst
  | H : ok_or _ _ _ = (Ok _, _) |- _ => apply ok_or_inv in H as [? ?]; subst
  | H : fail_if _ _ _ = (Ok _, _) |- _ => apply fail_if_inv in H as [? ?]; subst
  | H : map_err _ _ _ = (Ok _, _) |- _ => apply map_err_inv in H
  | H : get _ = (Ok _, _) |- _ => apply get_inv in H as [? ?]; subst
  | H : modify _ _ = (Ok _, _) |- _ => apply modify_inv in H; subst
  | H : put _ _ = (Ok _, _) |- _ => apply put_inv in H; subst
  end.

(** ** Termination

    A run from [P] that returns, with a value or an error, ends in [Q]; a run
    that does not return was not cut short by the fuel of the model. *)
Definition safe {S E A} (P : S → Prop) (m : ST S E A) (Q : S → Prop) : Prop := ∀ s, P s →
  match m s with (Ok _, s') | (Err _, s') => Q s' | (Abort p, _) => p ≠ OutOfFuel end.

Definition fueled {E A} (r : outcome E A) : Prop := r ≠ Abort OutOfFuel.

Section safe.
Context {S E : Type}.
Implicit Types P Q R : S → Prop.

Lemma safe_conseq {A} P P' (m : ST S E A) Q Q' :
  safe P m Q → (∀ s, P' s → P s) → (∀ s, Q s → Q' s) → safe P' m Q'.
Proof.
  intros Hm HP HQ s Hs. specialize (Hm s (HP s Hs)). destruct (m s) as [[] ?]; auto.
Qed.
Lemma safe_ret {A} P (a : A) : safe (E:=E) P (ret a) P.
Proof. by intros s Hs. Qed.
Lemma safe_throw {A} P (e : E) : safe P (throw (A:=A) e) P.
Proof. by intros s Hs. Qed.
Lemma safe_panic {A} P p : p ≠ OutOfFuel → safe P (panic (E:=E) (A:=A) p) P.
Proof. by intros Hp s Hs. Qed.
Lemma safe_get P : safe (E:=E) P get P.
Proof. by intros s Hs. Qed.
Lemma safe_lift {A} P (r : outcome E A) : fueled r → safe P (lift r) P.
Proof. intros Hr s Hs. unfold lift. destruct r; [done|done|congruence]. Qed.
Lemma safe_ok_or {A} P (o : option A) e : safe (E:=E) P (ok_or o e) P.
Proof. intros s Hs. by destruct o. Qed.
Lemma safe_fail_if P b e : safe (E:=E) P (fail_if b e) P.
Proof. intros s Hs. by destruct b. Qed.
Lemma safe_modify P f Q : (∀ s, P s → Q (f s)) → safe (E:=E) P (modify f) Q.
Proof. intros Hf s Hs. by apply Hf. Qed.
Lemma safe_bind {A B} P (m : ST S E A) (k : A → ST S E B) :
  safe P m P → (∀ a, safe P (k a) P) → safe P (bind m k) P.
Proof.
  intros Hm Hk s Hs. unfold bind. specialize (Hm s Hs).
  destruct (m s) as [[a|e|p] s']; [by apply Hk|done|done].
Qed.
Lemma safe_try_match {A B} P (m : ST S E A) (ok : A → ST S E B) err :
  safe P m P → (∀ a, safe P (ok a) P) → (∀ e, safe P (err e) P) →
  safe P (try_match m ok err) P.
Proof.
  intros Hm Hok Herr s Hs. unfold try_match. specialize (Hm s Hs).
  destruct (m s) as [[a|e|p] s']; [by apply Hok|by apply Herr|done].
Qed.
Lemma safe_finally {A} P (m : ST S E A) Q f R :
  safe P m Q → (∀ s, Q s → R (f s)) → safe P (finally m f) R.
Proof.
  intros Hm Hf s Hs. unfold finally. specialize (Hm s Hs).
  destruct (m s) as [[a|e|p] s']; auto.
Qed.
Lemma safe_fold {A B} P (body : A → B → ST S E A) l acc :
  (∀ a x, safe P (body a x) P) → safe P (fold_st body l acc) P.
Proof.
  intros Hb. revert acc. induction l as [|x l IH]; intros acc; simpl; [apply safe_ret|].
  by apply safe_bind.
Qed.
Lemma safe_fold_in {A B} P (body : A → B → ST S E A) l acc :
  (∀ a x, x ∈ l → safe P (body a x) P) → safe P (fold_st body l acc) P.
Proof.
  revert acc. induction l as [|x l IH]; intros acc Hb; simpl; [apply safe_ret|].
  apply safe_bind; [apply Hb, elem_of_cons; by left|].
  intros a. apply IH. intros a' x' Hx. apply Hb, elem_of_cons. by right.
Qed.
(** An invariant kept on every outcome is kept on the outcomes that return. *)
Lemma safe_preserves {A} P Q (m : ST S E A) :
  safe P m P → preserves Q m → safe (λ s, P s ∧ Q s) m (λ s, P s ∧ Q s).
Proof.
  intros Hm HQ s [Hs Hs']. specialize (Hm s Hs). specialize (HQ s Hs').
  by destruct (m s) as [[] ?].
Qed.
End safe.

#[export] Hint Resolve safe_ret safe_throw safe_get safe_ok_or safe_fail_if safe_lift : veracruz.
#[export] Hint Extern 1 (fueled (Ok _)) => discriminate : veracruz.
#[export] Hint Extern 1 (safe _ (panic _) _) => apply safe_panic; discriminate : veracruz.

(** As [preserve], for [safe]. *)
Ltac safely :=
  repeat first
    [ solve [eauto with veracruz]
    | match goal with
      | |- safe _ (bind _ _) _ => apply safe_bind; [|intros ?]
      | |- safe _ (try_match _ _ _) _ => apply safe_try_match; [|intros ?..]
      | |- safe _ (fold_st _ _ _) _ => apply safe_fold; intros ? ?
      | |- safe _ (match ?x with _ => _ end) _ => destruct x
      end ].

Lemma safe_zoom {S T E A} (g : S → T) (f : T → S → S) (m : ST T E A) (P : S → Prop) :
  safe (λ _, True) m (λ _, True) → (∀ s t, P s → P (f t s)) → safe P (zoom g f m) P.
Proof.
  intros Hm Hf s Hs. specialize (Hm (g s) I). unfold zoom.
  destruct (m (g s)) as [[] t]; auto.
Qed.

Lemma triple_zoom {S T E A} (g : S → T) (f : T → S → S) (m : ST T E A) P Q X P' Q' X' :
  triple P m Q X →
  (∀ s, P' s → P (g s)) →
  (∀ a s t, P' s → Q a t → Q' a (f t s)) → (∀ s t, P' s → X t → X' (f t s)) →
  triple P' (zoom g f m) Q' X'.
Proof.
  intros Hm HP HQ HX s Hs. specialize (Hm (g s) (HP s Hs)). unfold zoom.
  destruct (m (g s)) as [[] t]; eauto.
Qed.

(** Case analysis on the monadic code of a hypothesis [run = (Ok _, _)]. *)
Ltac st_step H :=
  match type of H with
  | bind _ _ _ = (Ok _, _) => apply bind_ok in H as (? & ? & ? & H)
  | ret _ _ = (_, _) => unfold ret in H
  | throw _ _ = (_, _) => unfold throw in H
  | panic _ _ = (_, _) => unfold panic in H
  | lift _ _ = (_, _) => unfold lift in H
  | gets _ _ = (_, _) => unfold gets in H
  | get _ = (_, _) => unfold get in H
  | put _ _ = (_, _) => unfold put in H
  | modify _ _ = (_, _) => unfold modify in H
  | fail_if ?b _ _ = (_, _) => unfold fail_if in H; destruct b eqn:?
  | ok_or ?o _ _ = (_, _) => unfold ok_or in H; destruct o eqn:?
  end.
Ltac st_inv :=
  repeat (simplify_eq/=;
    match goal with H : _ _ = (Ok _, _) |- _ => st_step H end); simplify_eq/=.

(** ** Machine integers

    Rust integers are [Z] values kept in range by the operations.  Whether
    [+] on an overflow panics or wraps is the build's [overflow-checks]
    setting, and whether [debug_assert!] is compiled its [debug-assertions]
    setting; both are parameters of the model. *)

Class BuildProfile := { overflow_checks : bool; debug_assertions : bool }.

Abbreviation u8_bound := 256%Z (only parsing).
Abbreviation u16_bound := 65536%Z (only parsing).
Abbreviation u32_bound := 4294967296%Z (only parsing).
Abbreviation i64_bound := 9223372036854775808%Z (only parsing).
Abbreviation u64_bound := 18446744073709551616%Z (only parsing).

Section machine.
Context {BP : BuildProfile} {E : Type}.
Local Open Scope Z_scope.

Definition checked_add (bound a b : Z) : option Z :=
  if a + b <? bound then Some (a + b) else None.

Definition unsigned_add (bound a b : Z) : outcome E Z :=
  if a + b <? bound then Ok (a + b)
  else if overflow_checks then Abort ArithmeticOverflow
  else Ok ((a + b) mod bound).

Definition unsigned_mul (bound a b : Z) : outcome E Z :=
  if a * b <? bound then Ok (a * b)
  else if overflow_checks then Abort ArithmeticOverflow
  else Ok ((a * b) mod bound).

Definition u32_add : Z → Z → outcome E Z := unsigned_add u32_bound.
Definition u32_mul : Z → Z → outcome E Z := unsigned_mul u32_bound.
Definition u64_add : Z → Z → outcome E Z := unsigned_add u64_bound.
(** The supported targets are 64-bit: [usize] is [u64]. *)
Definition usize_add : Z → Z → outcome E Z := unsigned_add u64_bound.

(** [i64::abs], whose only overflow is at [i64::MIN]. *)
Definition i64_abs (a : Z) : outcome E Z :=
  if a =? - i64_bound then
    if overflow_checks then Abort ArithmeticOverflow else Ok a
  else Ok (Z.abs a).

(** The cast [a as i64] of a [usize]. *)
Definition as_i64 (a : Z) : Z := if a <? i64_bound then a else a - u64_bound.

Definition debug_assert {S} (b : bool) : ST S E unit :=
  if debug_assertions && negb b then panic AssertionFailed else ret tt.

Lemma unsigned_add_small bound a b :
  a + b < bound → unsigned_add bound a b = Ok (a + b).
Proof. intros Hlt. unfold unsigned_add. by rewrite (proj2 (Z.ltb_lt _ _) Hlt). Qed.

Lemma unsigned_add_ok bound a b c :
  0 < bound → unsigned_add bound a b = Ok c → 0 ≤ a + b →
  0 ≤ c < bound ∧ (a + b < bound → c = a + b).
Proof.
  unfold unsigned_add. intros Hb Hc Hab.
  destruct (Z.ltb_spec (a + b) bound); [simplify_eq; lia|].
  destruct overflow_checks; simplify_eq.
  split; [by apply Z.mod_pos_bound|lia].
Qed.

Lemma unsigned_mul_small bound a b :
  a * b < bound → unsigned_mul bound a b = Ok (a * b).
Proof. intros Hlt. unfold unsigned_mul. by rewrite (proj2 (Z.ltb_lt _ _) Hlt). Qed.

Lemma unsigned_add_fueled bound a b : fueled (unsigned_add bound a b).
Proof. unfold unsigned_add, fueled. by repeat case_match. Qed.

Lemma i64_abs_fueled a : fueled (i64_abs a).
Proof. unfold i64_abs, fueled. by repeat case_match. Qed.

Lemma debug_assert_safe {S} (P : S → Prop) b : safe P (debug_assert b) P.
Proof. unfold debug_assert. safely. Qed.

Lemma unsigned_add_triple {S} (P : S → Prop) bound a b :
  0 < bound → 0 ≤ a + b →
  triple P (lift (unsigned_add bound a b)) (λ c s, P s ∧ 0 ≤ c < bound) P.
Proof.
  intros Hb Hab. apply triple_lift. intros s Hs.
  destruct (unsigned_add bound a b) eqn:Hadd; [|done|done].
  by apply unsigned_add_ok in Hadd as [? _].
Qed.
End machine.

Abbreviation bytes := (list Byte.byte) (only parsing).

#[export] Instance byte_eq_dec : EqDecision Byte.byte := Byte.byte_eq_dec.

(** [v.len()] *)
Definition len {A} (v : list A) : Z := Z.of_nat (length v).

Lemma len_nonneg {A} (v : list A) : (0 ≤ len v)%Z.
Proof. unfold len. lia. Qed.
Lemma len_app {A} (l k : list A) : (len (l ++ k) = len l + len k)%Z.
Proof. unfold len. rewrite length_app. lia. Qed.

(** ** Bytes and little-endian integers *)

Definition byte_val (b : Byte.byte) : Z := Z.of_N (Byte.to_N b).
(** [z as u8] *)
Definition byte_of (z : Z) : Byte.byte := default Byte.x00 (Byte.of_N (Z.to_N (z mod 256))).

(** [uN::to_le_bytes], on [n] bytes, and [uN::from_le_bytes]. *)
Fixpoint to_le_bytes (n : nat) (z : Z) : bytes :=
  match n with O => [] | S n' => byte_of z :: to_le_bytes n' (z / 256)%Z end.
Fixpoint from_le_bytes (l : bytes) : Z :=
  match l with [] => 0%Z | b :: l' => (byte_val b + 256 * from_le_bytes l')%Z end.

Lemma byte_val_range b : (0 ≤ byte_val b < 256)%Z.
Proof. unfold byte_val. pose proof (Byte.to_N_bounded b). lia. Qed.

Lemma byte_of_val b : byte_of (byte_val b) = b.
Proof.
  unfold byte_of. rewrite Z.mod_small by apply byte_val_range.
  unfold byte_val. by rewrite N2Z.id, Byte.of_to_N.
Qed.

Lemma byte_val_of z : byte_val (byte_of z) = (z mod 256)%Z.
Proof.
  unfold byte_of, byte_val. pose proof (Z.mod_pos_bound z 256 ltac:(lia)) as Hz.
  destruct (Byte.of_N (Z.to_N (z mod 256))) as [b|] eqn:Hb; simpl.
  - apply Byte.to_of_N in Hb. rewrite Hb. lia.
  - apply Byte.of_N_None_iff in Hb. lia.
Qed.

Lemma length_to_le_bytes n z : length (to_le_bytes n z) = n.
Proof. revert z. induction n as [|n IH]; intros z; simpl; auto. Qed.

(** The round trips: an integer of [n] bytes, and a list of [n] bytes. *)
Lemma from_to_le_bytes n z : from_le_bytes (to_le_bytes n z) = (z mod 256 ^ Z.of_nat n)%Z.
Proof.
  revert z. induction n as [|n IH]; intros z; [by rewrite Z.mod_1_r|].
  simpl to_le_bytes. simpl from_le_bytes. rewrite IH, byte_val_of, Nat2Z.inj_succ.
  rewrite Z.pow_succ_r by lia. by rewrite Z.rem_mul_r by lia.
Qed.

Lemma to_from_le_bytes l : to_le_bytes (length l) (from_le_bytes l) = l.
Proof.
  induction l as [|b l IH]; [done|]. simpl. pose proof (byte_val_range b).
  f_equal.
  - transitivity (byte_of (byte_val b)); [|apply byte_of_val].
    unfold byte_of. do 3 f_equal. rewrite (Z.mul_comm 256). apply Z.mod_add. lia.
  - rewrite (Z.mul_comm 256), Z.div_add by lia. by rewrite Z.div_small by lia.
Qed.

Lemma from_le_bytes_range l : (0 ≤ from_le_bytes l < 256 ^ len l)%Z.
Proof.
  unfold len. induction l as [|b l IH]; [done|]. simpl from_le_bytes. simpl length.
  rewrite Nat2Z.inj_succ, Z.pow_succ_r by lia. pose proof (byte_val_range b). lia.
Qed.

(** ** Vectors *)

(** [&v[lo..hi]] *)
Definition index_slice {E A} (v : list A) (lo hi : Z) : outcome E (list A) :=
  if ((lo <=? hi) && (hi <=? len v))%Z
  then Ok (take (Z.to_nat (hi - lo)) (drop (Z.to_nat lo) v))
  else Abort SliceOutOfRange.

(** [Vec::resize] to [n] elements: truncate, or extend with [b]; a [Vec] has
    at most [isize::MAX] bytes. *)
Definition vec_resize {E A} (v : list A) (n : Z) (b : A) : outcome E (list A) :=
  if (n <? i64_bound)%Z
  then Ok (take (Z.to_nat n) v ++ replicate (Z.to_nat n - length v) b)
  else Abort CapacityOverflow.

(** [dst[lo..hi].copy_from_slice(src)]: the range must lie in [dst] and have
    the length of [src]. *)
Definition copy_into {E A} (dst : list A) (lo hi : Z) (src : list A) : outcome E (list A) :=
  if ((lo <=? hi) && (hi <=? len dst) && (len src =? hi - lo))%Z
  then Ok (take (Z.to_nat lo) dst ++ src ++ drop (Z.to_nat hi) dst)
  else Abort SliceOutOfRange.

Section vec.
Context {E A : Type}.
Implicit Types v w : list A.
Local Open Scope Z_scope.

Lemma vec_resize_Ok v n b w :
  vec_resize (E:=E) v n b = Ok w ↔
  n < i64_bound ∧ w = take (Z.to_nat n) v ++ replicate (Z.to_nat n - length v) b.
Proof. unfold vec_resize. destruct (Z.ltb_spec n i64_bound); naive_solver lia. Qed.

Lemma vec_resize_len v n b w : 0 ≤ n → vec_resize (E:=E) v n b = Ok w → len w = n.
Proof.
  rewrite vec_resize_Ok. unfold len. intros Hn [_ ->].
  rewrite length_app, length_take, length_replicate. lia.
Qed.

Lemma copy_into_Ok v lo hi src w :
  copy_into (E:=E) v lo hi src = Ok w ↔
  lo ≤ hi ∧ hi ≤ len v ∧ len src = hi - lo ∧
  w = take (Z.to_nat lo) v ++ src ++ drop (Z.to_nat hi) v.
Proof.
  unfold copy_into.
  destruct (Z.leb_spec lo hi), (Z.leb_spec hi (len v)), (Z.eqb_spec (len src) (hi - lo));
    simpl; naive_solver lia.
Qed.

Lemma copy_into_in v lo hi src :
  lo ≤ hi ≤ len v → len src = hi - lo →
  copy_into (E:=E) v lo hi src =
    Ok (take (Z.to_nat lo) v ++ src ++ drop (Z.to_nat hi) v).
Proof. intros [??] ?. by apply copy_into_Ok. Qed.

Lemma vec_resize_fueled v n b : fueled (vec_resize (E:=E) v n b).
Proof. unfold vec_resize, fueled. by case_match. Qed.

Lemma copy_into_fueled v lo hi src : fueled (copy_into (E:=E) v lo hi src).
Proof. unfold copy_into, fueled. by case_match. Qed.

Lemma vec_resize_in v n b :
  n < i64_bound →
  vec_resize (E:=E) v n b =
    Ok (take (Z.to_nat n) v ++ replicate (Z.to_nat n - length v) b).
Proof. intros ?. by apply vec_resize_Ok. Qed.
End vec.

(** ** Hash maps

    A [HashMap] iterates in an order its hash state picks.  The model takes
    the order as a parameter and knows only that the entries are visited
    exactly once. *)
Class HashOrder := {
  hash_iter {K V : Type} `{Countable K} : gmap K V → list (K * V);
}.
Class HashOrderLaws (H : HashOrder) : Prop := {
  hash_iter_perm {K V} `{Countable K} (m : gmap K V) : hash_iter m ≡ₚ map_to_list m;
}.

Section hash_iter.
Context `{HL : HashOrderLaws}.

Lemma elem_of_hash_iter {K V} `{Countable K} (m : gmap K V) k v :
  (k, v) ∈ hash_iter m ↔ m !! k = Some v.
Proof. by rewrite hash_iter_perm, elem_of_map_to_list. Qed.

Lemma NoDup_fst_hash_iter {K V} `{Countable K} (m : gmap K V) : NoDup (hash_iter m).*1.
Proof. rewrite hash_iter_perm. apply NoDup_fst_map_to_list. Qed.

Lemma length_hash_iter {K V} `{Countable K} (m : gmap K V) : length (hash_iter m) = size m.
Proof. by rewrite hash_iter_perm, length_map_to_list. Qed.
End hash_iter.

(** The order of the map representation is one possible hash order. *)
Definition map_order : HashOrder := {| hash_iter K V _ _ m := map_to_list m |}.
Lemma map_order_laws : HashOrderLaws map_order.
Proof. done. Qed.

#[export] Hint Resolve len_nonneg unsigned_add_fueled i64_abs_fueled debug_assert_safe
  vec_resize_fueled copy_into_fueled : veracruz.
#[export] Hint Extern 1 (fueled (u32_add _ _)) => apply unsigned_add_fueled : veracruz.
#[export] Hint Extern 1 (fueled (u64_add _ _)) => apply unsigned_add_fueled : veracruz.
#[export] Hint Extern 1 (fueled (usize_add _ _)) => apply unsigned_add_fueled : veracruz.
