(* ===== verification/RustFmt.v ===== *)
(** * Formatting and parsing of the Rust standard library

    The part of [std::fmt] and of the methods of [str] that the sources use:
    numbers as text in several radices, [parse::<u32>], and
    [split_whitespace]. *)

From S2P Require Import Prelude.
Local Open Scope Z_scope.

(** ** Formatting of numbers *)

Definition char (n : nat) : string := String (Ascii.ascii_of_nat n) EmptyString.
Definition dquote : string := char 34.
Definition newline : string := char 10.

(** The digits [0] to [9] and [a] to [f]. *)
Definition digit (d : Z) : Ascii.ascii :=
  Ascii.ascii_of_nat (Z.to_nat (if d <? 10 then 48 + d else 87 + d)).

(** The fuel is the number of binary digits of a [u64], an upper bound on the
    number of digits in any radix. *)
Fixpoint fmt_digits (fuel : nat) (radix n : Z) (acc : string) : string :=
  match fuel with
  | O => acc
  | S fuel' =>
      let acc := String (digit (n mod radix)) acc in
      if n / radix =? 0 then acc else fmt_digits fuel' radix (n / radix) acc
  end.

Definition fmt_radix (radix n : Z) : string := fmt_digits 64 radix n EmptyString.

(** [{}], [{:x}] and [{:o}] *)
Definition fmt_dec (n : Z) : string :=
  if n <? 0 then ("-" ++ fmt_radix 10 (- n))%string else fmt_radix 10 n.
Definition fmt_hex (n : Z) : string := fmt_radix 16 n.
Definition fmt_oct (n : Z) : string := fmt_radix 8 n.

(** [{:02}], [{:03o}]: leading zeros up to a width *)
Definition zero_pad (width : nat) (s : string) : string :=
  String.append (string_of_list_ascii (replicate (width - String.length s) "0"%char)) s.
Definition fmt_dec2 (n : Z) : string := zero_pad 2 (fmt_dec n).
Definition fmt_oct3 (n : Z) : string := zero_pad 3 (fmt_oct n).

(** ** Parsing of numbers *)

Definition digit_val (c : ascii) : option Z :=
  let n := Z.of_nat (nat_of_ascii c) in
  if (48 <=? n) && (n <=? 57) then Some (n - 48) else None.

(** The digits so far are worth [acc]; overflow is an error. *)
Fixpoint parse_digits (bound : Z) (s : string) (acc : Z) : option Z :=
  match s with
  | EmptyString => Some acc
  | String c s' =>
      d ← digit_val c;
      let acc := 10 * acc + d in
      if acc <? bound then parse_digits bound s' acc else None
  end.

(** [str::parse::<u32>]; a sign [+] is allowed. *)
Definition parse_u32 (s : string) : option Z :=
  match s with
  | EmptyString => None
  | String "+" EmptyString => None
  | String "+" s' => parse_digits u32_bound s' 0
  | _ => parse_digits u32_bound s 0
  end.

(** ** Splitting at whitespace *)

(** The number of bytes of the whitespace character, in UTF-8, that a string
    begins with; zero when it begins with another one. *)
Definition ws_len (l : list ascii) : nat :=
  match nat_of_ascii <$> l with
  | (9 | 10 | 11 | 12 | 13 | 32) :: _ => 1
  | 194 :: (133 | 160) :: _ => 2
  | 225 :: 154 :: 128 :: _ => 3
  | 226 :: 128 :: (128 | 129 | 130 | 131 | 132 | 133 | 134 | 135 | 136 | 137 | 138
                   | 168 | 169 | 175) :: _ => 3
  | 226 :: 129 :: 159 :: _ => 3
  | 227 :: 128 :: 128 :: _ => 3
  | _ => 0
  end%nat.

Definition emit (cur : list ascii) (rest : list string) : list string :=
  match cur with [] => rest | _ => string_of_list_ascii cur :: rest end.

(** [skip] bytes belong to a character that was dealt with; [cur] is the
    current field. *)
Fixpoint split_ws (l : list ascii) (skip : nat) (cur : list ascii) : list string :=
  match l with
  | [] => emit cur []
  | c :: l' =>
      match skip with
      | S skip' => split_ws l' skip' cur
      | O =>
          match ws_len l with
          | O => split_ws l' 0 (cur ++ [c])
          | S k => emit cur (split_ws l' k [])
          end
      end
  end.

(** [str::split_whitespace] *)
Definition split_whitespace (s : string) : list string := split_ws (list_ascii_of_string s) 0 [].

(** ** Numbers are read back *)

Lemma digit_val_digit d : 0 ≤ d < 10 → digit_val (digit d) = Some d.
Proof.
  intros Hd. assert (d ∈ seqZ 0 10) as Hin by (apply elem_of_seqZ; lia).
  revert d Hin Hd. apply (Forall_forall (λ d, 0 ≤ d < 10 → digit_val (digit d) = Some d)).
  repeat (apply Forall_cons; split; [done|]). apply Forall_nil; done.
Qed.

Lemma fmt_digits_S fuel n s :
  fmt_digits (S fuel) 10 n s =
    if n / 10 =? 0 then String (digit (n mod 10)) s
    else fmt_digits fuel 10 (n / 10) (String (digit (n mod 10)) s).
Proof. done. Qed.

Lemma parse_fmt_digits bound fuel n s :
  0 ≤ n < bound → n < 10 ^ Z.of_nat (S fuel) →
  parse_digits bound (fmt_digits (S fuel) 10 n s) 0 = parse_digits bound s n.
Proof.
  revert n s. induction fuel as [|fuel IH]; intros n s Hn Hf; rewrite fmt_digits_S;
    pose proof (Z.mod_pos_bound n 10 ltac:(lia)) as Hm; pose proof (Z.div_mod n 10 ltac:(lia)) as Hd.
  - change (10 ^ Z.of_nat 1) with 10 in Hf. assert (n / 10 = 0) as Hz by (apply Z.div_small; lia).
    rewrite Hz. simpl. rewrite digit_val_digit by lia. simpl.
    rewrite (proj2 (Z.ltb_lt _ _)) by lia. f_equal. lia.
  - destruct (Z.eqb_spec (n / 10) 0) as [Hz|Hz].
    + simpl. rewrite digit_val_digit by lia. simpl. rewrite (proj2 (Z.ltb_lt _ _)) by lia. f_equal. lia.
    + rewrite IH.
      * simpl. rewrite digit_val_digit by lia. simpl.
        rewrite <- Hd, (proj2 (Z.ltb_lt _ _)) by lia. done.
      * pose proof (Z.div_pos n 10 ltac:(lia) ltac:(lia)). lia.
      * rewrite Nat2Z.inj_succ, Z.pow_succ_r in Hf by lia. apply Z.div_lt_upper_bound; lia.
Qed.

(** Characters that are visible ASCII, and the digits among them. *)
Definition graphic (c : ascii) : Prop := (33 ≤ nat_of_ascii c ≤ 126)%nat.
Definition is_digit (c : ascii) : Prop := is_Some (digit_val c).

Lemma is_digit_graphic c : is_digit c → graphic c.
Proof. unfold is_digit, graphic, digit_val. case_match eqn:Hc; [|intros []; done]. lia. Qed.

Lemma fmt_digits_digits fuel n s :
  0 ≤ n → Forall is_digit (list_ascii_of_string s) →
  Forall is_digit (list_ascii_of_string (fmt_digits fuel 10 n s)).
Proof.
  revert n s. induction fuel as [|fuel IH]; intros n s Hn Hs; simpl; [done|].
  assert (Forall is_digit (list_ascii_of_string (String (digit (n mod 10)) s))) as Hs'.
  { simpl. constructor; [|done]. unfold is_digit. rewrite digit_val_digit by (apply Z.mod_pos_bound; lia).
    done. }
  case_match; [done|]. apply IH; [|done]. apply Z.div_pos; lia.
Qed.

Lemma fmt_digits_nonempty fuel n s : s ≠ EmptyString → fmt_digits fuel 10 n s ≠ EmptyString.
Proof.
  revert n s. induction fuel as [|fuel IH]; intros n s Hs; simpl; [done|]. case_match; [done|].
  by apply IH.
Qed.

Lemma fmt_dec_nonneg n : 0 ≤ n → fmt_dec n = fmt_digits 64 10 n EmptyString.
Proof. intros Hn. unfold fmt_dec. destruct (Z.ltb_spec n 0); [lia|done]. Qed.

Lemma fmt_dec_digits n : 0 ≤ n → Forall is_digit (list_ascii_of_string (fmt_dec n)).
Proof. intros Hn. rewrite fmt_dec_nonneg by done. apply fmt_digits_digits; [done|by apply Forall_nil]. Qed.

Lemma fmt_dec_nonempty n : 0 ≤ n → fmt_dec n ≠ EmptyString.
Proof.
  intros Hn. rewrite fmt_dec_nonneg by done. change 64%nat with (S 63). rewrite fmt_digits_S.
  case_match; [done|]. by apply fmt_digits_nonempty.
Qed.

(** A number that is printed is parsed as itself. *)
Lemma parse_u32_fmt_dec n : 0 ≤ n < u32_bound → parse_u32 (fmt_dec n) = Some n.
Proof.
  intros Hn. pose proof (fmt_dec_digits n ltac:(lia)) as Hd.
  pose proof (fmt_dec_nonempty n ltac:(lia)) as Hne.
  assert (parse_u32 (fmt_dec n) = parse_digits u32_bound (fmt_dec n) 0) as ->.
  { destruct (fmt_dec n) as [|c s]; [done|]. simpl in Hd. apply Forall_cons in Hd as [Hc _].
    destruct c as [[] [] [] [] [] [] [] []]; try done; by destruct Hc. }
  rewrite fmt_dec_nonneg by lia. change 64%nat with (S 63). rewrite parse_fmt_digits; [done|done|].
  etransitivity; [apply Hn|]. done.
Qed.

(** ** Fields are found again *)

Lemma ws_len_graphic c l : graphic c → ws_len (c :: l) = 0%nat.
Proof.
  unfold graphic. intros Hc. destruct c as [[] [] [] [] [] [] [] []]; try done;
    vm_compute in Hc; destruct Hc; exfalso; lia.
Qed.

Lemma split_ws_word l rest cur :
  Forall graphic l → split_ws (l ++ rest) 0 cur = split_ws rest 0 (cur ++ l).
Proof.
  intros Hl. revert cur. induction Hl as [|c l Hc _ IH]; intros cur; [by rewrite app_nil_r|].
  cbn [app split_ws]. rewrite ws_len_graphic by done. by rewrite IH, <- app_assoc.
Qed.

Lemma list_ascii_app s t :
  list_ascii_of_string (s ++ t)%string = list_ascii_of_string s ++ list_ascii_of_string t.
Proof. induction s as [|c s IH]; [done|]. simpl. by rewrite IH. Qed.

Lemma emit_word w rest :
  emit (list_ascii_of_string w) rest = if decide (w = EmptyString) then rest else w :: rest.
Proof.
  destruct w as [|c w]; [done|]. simpl. by rewrite string_of_list_ascii_of_string.
Qed.

(** A word, a space, and the rest. *)
Lemma split_whitespace_cons w s :
  Forall graphic (list_ascii_of_string w) →
  split_whitespace (w ++ " " ++ s)%string =
    if decide (w = EmptyString) then split_whitespace s else w :: split_whitespace s.
Proof.
  intros Hw. unfold split_whitespace. rewrite !list_ascii_app, split_ws_word by done.
  change (split_ws (list_ascii_of_string " " ++ ?l) 0 ?cur) with (emit cur (split_ws l 0 [])).
  apply emit_word.
Qed.

Lemma split_whitespace_word w :
  Forall graphic (list_ascii_of_string w) →
  split_whitespace w = if decide (w = EmptyString) then [] else [w].
Proof.
  intros Hw. unfold split_whitespace.
  rewrite <- (app_nil_r (list_ascii_of_string w)), split_ws_word by done. apply emit_word.
Qed.

(** Words joined by single spaces: those that are not empty. *)
Lemma split_whitespace_words (ws : list string) :
  Forall (λ w, Forall graphic (list_ascii_of_string w)) ws →
  split_whitespace (String.concat " " ws) = filter (λ w, w ≠ EmptyString) ws.
Proof.
  intros Hws. induction Hws as [|w ws Hg Hws IH]; [done|]. rewrite filter_cons.
  destruct ws as [|w' ws].
  - simpl. rewrite split_whitespace_word by done. repeat case_decide; done.
  - change (String.concat " " (w :: w' :: ws)) with (w ++ " " ++ String.concat " " (w' :: ws))%string.
    rewrite split_whitespace_cons, IH by done. repeat case_decide; done.
Qed.
