(* ===== verification/RustStr.v ===== *)
(** * More methods of [str]

    What the command-line tools use of the methods of [str]: [trim],
    [contains], [replace], [find], slices at character boundaries, and the
    numbers that [parse::<u64>] reads. *)

From S2P Require Import Prelude RustFmt.
Local Open Scope Z_scope.

(** [str::parse::<u64>]; a sign [+] is allowed. *)
Definition parse_u64 (s : string) : option Z :=
  match s with
  | EmptyString => None
  | String "+" EmptyString => None
  | String "+" s' => parse_digits u64_bound s' 0
  | _ => parse_digits u64_bound s 0
  end.

(** [s.contains(c)] for a text of one character *)
Definition contains_char (c : ascii) (s : string) : bool :=
  existsb (Ascii.eqb c) (list_ascii_of_string s).

(** ** [trim] *)

(** [skip] bytes belong to a whitespace character that was dealt with. *)
Fixpoint trim_start_bytes (l : list ascii) (skip : nat) : list ascii :=
  match l with
  | [] => []
  | c :: l' =>
      match skip with
      | S skip' => trim_start_bytes l' skip'
      | O => match ws_len l with O => l | S k => trim_start_bytes l' k end
      end
  end.

(** A text ends where only whitespace follows. *)
Fixpoint trim_end_bytes (l : list ascii) : list ascii :=
  match l with
  | [] => []
  | c :: l' => match trim_start_bytes l 0 with [] => [] | _ => c :: trim_end_bytes l' end
  end.

Definition trim (s : string) : string :=
  string_of_list_ascii (trim_end_bytes (trim_start_bytes (list_ascii_of_string s) 0)).

(** ** [replace] *)

Fixpoint starts_with (pat l : list ascii) : bool :=
  match pat, l with
  | [], _ => true
  | a :: pat', b :: l' => Ascii.eqb a b && starts_with pat' l'
  | _ :: _, [] => false
  end.

(** Occurrences are found from the left and do not overlap; [skip] bytes
    belong to the last one.  The pattern is not empty. *)
Fixpoint replace_bytes (pat rep l : list ascii) (skip : nat) : list ascii :=
  match l with
  | [] => []
  | c :: l' =>
      match skip with
      | S skip' => replace_bytes pat rep l' skip'
      | O =>
          if starts_with pat l then rep ++ replace_bytes pat rep l' (length pat - 1)
          else c :: replace_bytes pat rep l' 0
      end
  end.

Definition replace (pat rep s : string) : string :=
  string_of_list_ascii
    (replace_bytes (list_ascii_of_string pat) (list_ascii_of_string rep) (list_ascii_of_string s) 0).

(** ** Slices *)

(** A byte that is not the first of its character, in UTF-8 *)
Definition continuation (c : ascii) : bool := (128 <=? N_of_ascii c)%N && (N_of_ascii c <=? 191)%N.

(** [s[0..n]] panics beyond the end and within a character. *)
Definition slice_to (n : nat) (s : string) : outcome Empty_set string :=
  let l := list_ascii_of_string s in
  if (length l <? n)%nat then Abort SliceOutOfRange
  else match l !! n with
       | Some c => if continuation c then Abort SliceOutOfRange else Ok (string_of_list_ascii (take n l))
       | None => Ok s
       end.

(** [s.find(c)] with the parts before and after it *)
Fixpoint split_at_char (c : ascii) (s : string) : option (string * string) :=
  match s with
  | EmptyString => None
  | String a s' =>
      if Ascii.eqb a c then Some (EmptyString, s')
      else match split_at_char c s' with Some (x, y) => Some (String a x, y) | None => None end
  end.

(** * Numbers in texts

    What [str::parse] reads as a signed integer or as a floating-point number.
    A floating-point number is its bits: [parse::<f32>] and [parse::<f64>]
    give the binary number nearest to the decimal one, the even one of two. *)

Local Open Scope Z_scope.

(** ** Integers *)

(** [str::parse::<u8>]; a sign [+] is allowed. *)
Definition parse_u8 (s : string) : option Z :=
  match s with
  | EmptyString => None
  | String "+" EmptyString => None
  | String "+" s' => parse_digits u8_bound s' 0
  | _ => parse_digits u8_bound s 0
  end.

(** [str::parse::<iN>] for the integers from [- half] to [half - 1] *)
Definition parse_signed (half : Z) (s : string) : option Z :=
  match s with
  | EmptyString => None
  | String "+" EmptyString | String "-" EmptyString => None
  | String "+" s' => parse_digits half s' 0
  | String "-" s' => Z.opp <$> parse_digits (half + 1) s' 0
  | _ => parse_digits half s 0
  end.
Definition parse_i32 : string → option Z := parse_signed 2147483648.
Definition parse_i64 : string → option Z := parse_signed i64_bound.

(** ** Floating-point numbers *)

(** A format: the bits of the significand, the exponent of the smallest
    number, and the bits of infinity, above the largest number, of [NAN] and
    of the sign *)
Record float_format := mkFormat { precision : Z; least_exponent : Z; infinity_bits : Z; nan_bits : Z; sign_bit : Z }.
Definition binary32 : float_format := mkFormat 24 (-149) (255 * 2 ^ 23) (255 * 2 ^ 23 + 2 ^ 22) (2 ^ 31).
Definition binary64 : float_format := mkFormat 53 (-1074) (2047 * 2 ^ 52) (2047 * 2 ^ 52 + 2 ^ 51) (2 ^ 63).

(** The integer nearest to [num / den] *)
Definition round_half_even (num den : Z) : Z :=
  let q := num / den in
  match 2 * (num mod den) ?= den with
  | Lt => q
  | Gt => q + 1
  | Eq => if Z.even q then q else q + 1
  end.

(** [num / den] in units of [2 ^ e] *)
Definition scaled (num den e : Z) : Z * Z := if 0 <=? e then (num, den * 2 ^ e) else (num * 2 ^ (- e), den).

(** The bits of the number nearest to [num / den], which is positive: with the
    exponent [e] of its unit, either the significand has all its bits or [e] is
    the least one. *)
Definition float_bits (f : float_format) (num den : Z) : Z :=
  let l := Z.log2 num - Z.log2 den in
  let below := let '(a, b) := scaled num den l in if a <? b then l - 1 else l in
  let e := Z.max (least_exponent f) (below - (precision f - 1)) in
  let '(a, b) := scaled num den e in
  Z.min (infinity_bits f) ((e - least_exponent f) * 2 ^ (precision f - 1) + round_half_even a b).

(** The digits at the start, with their number and what follows *)
Fixpoint take_digits (s : string) (acc : Z) (n : nat) : Z * nat * string :=
  match s with
  | EmptyString => (acc, n, s)
  | String c s' =>
      match digit_val c with Some d => take_digits s' (10 * acc + d) (S n) | None => (acc, n, s) end
  end.

(** The digits of an exponent count until they are worth 65536. *)
Fixpoint take_exponent (s : string) (acc : Z) : Z * string :=
  match s with
  | EmptyString => (acc, s)
  | String c s' =>
      match digit_val c with
      | Some d => take_exponent s' (if acc <? 65536 then 10 * acc + d else acc)
      | None => (acc, s)
      end
  end.

Definition split_sign (s : string) : bool * string :=
  match s with
  | String "-" s' => (true, s')
  | String "+" s' => (false, s')
  | _ => (false, s)
  end.

Definition parse_exponent (s : string) : option Z :=
  match s with
  | EmptyString => Some 0
  | String c s' =>
      if (Ascii.eqb c "e" || Ascii.eqb c "E") then
        let '(negative, s'') := split_sign s' in
        match s'' with
        | String c' _ =>
            match digit_val c', take_exponent s'' 0 with
            | Some _, (e, EmptyString) => Some (if negative : bool then - e else e)
            | _, _ => None
            end
        | EmptyString => None
        end
      else None
  end.

(** A number without sign: its digits as an integer, and the power of ten *)
Definition parse_decimal (s : string) : option (Z * Z) :=
  let '(m, n, rest) := take_digits s 0 0 in
  let '(m, n, fraction, rest) :=
    match rest with
    | String "." rest' => let '(m', n', rest'') := take_digits rest' m 0 in (m', (n + n')%nat, n', rest'')
    | _ => (m, n, 0%nat, rest)
    end in
  if Nat.eqb n 0 then None
  else match parse_exponent rest with Some e => Some (m, e - Z.of_nat fraction) | None => None end.

Definition lower (c : ascii) : ascii :=
  let n := nat_of_ascii c in if (65 <=? n)%nat && (n <=? 90)%nat then ascii_of_nat (n + 32) else c.
Definition to_lower (s : string) : string := string_of_list_ascii (lower <$> list_ascii_of_string s).

(** The bits without the sign *)
Definition parse_magnitude (f : float_format) (s : string) : option Z :=
  match parse_decimal s with
  | Some (0, _) => Some 0
  | Some (m, e) =>
      Some (if 0 <=? e then float_bits f (m * 10 ^ e) 1 else float_bits f m (10 ^ (- e)))
  | None =>
      if bool_decide (to_lower s ∈ ["inf"; "infinity"]) then Some (infinity_bits f)
      else if bool_decide (to_lower s = "nan") then Some (nan_bits f) else None
  end.

Definition parse_float (f : float_format) (s : string) : option Z :=
  let '(negative, s') := split_sign s in
  bits ← parse_magnitude f s'; Some (if negative : bool then sign_bit f + bits else bits).
Definition parse_f32 : string → option Z := parse_float binary32.
Definition parse_f64 : string → option Z := parse_float binary64.

(** ** Some numbers *)

Example parse_f64_numbers :
  parse_f64 "0.1" = Some 4591870180066957722 ∧ parse_f64 "-1.5e3" = Some 13877683922067783680 ∧
  parse_f64 "4.9e-324" = Some 1 ∧ parse_f64 "1e999" = Some (2047 * 2 ^ 52) ∧
  parse_f64 "1.7976931348623157e308" = Some (2047 * 2 ^ 52 - 1) ∧ parse_f64 "." = None ∧
  parse_f64 ".5" = Some (1022 * 2 ^ 52) ∧ parse_f64 "5." = Some (1025 * 2 ^ 52 + 2 ^ 50) ∧
  parse_f64 "-0" = Some (2 ^ 63) ∧ parse_f64 "1e" = None ∧ parse_f64 " 1" = None ∧
  parse_f32 "3.14" = Some 1078523331 ∧ parse_f32 "16777217" = Some 1266679808 ∧
  parse_f32 "+Inf" = Some 2139095040 ∧ parse_i32 "-2147483648" = Some (-2147483648) ∧
  parse_i32 "2147483648" = None.
Proof. split_and!; by vm_compute. Qed.

(** ** The nearest number *)

Lemma round_half_even_nearest num den :
  0 < den → 0 ≤ num → 2 * Z.abs (num - round_half_even num den * den) ≤ den.
Proof.
  intros Hd Hn. unfold round_half_even. pose proof (Z.mod_pos_bound num den Hd).
  pose proof (Z.div_mod num den ltac:(lia)) as Hq.
  destruct (Z.compare_spec (2 * (num mod den)) den); [destruct (Z.even _)|..]; lia.
Qed.

(** No integer is nearer. *)
Lemma round_half_even_least num den k :
  0 < den → 0 ≤ num → Z.abs (num - round_half_even num den * den) ≤ Z.abs (num - k * den).
Proof.
  intros Hd Hn. pose proof (round_half_even_nearest num den Hd Hn) as Hr.
  destruct (decide (k = round_half_even num den)) as [->|Hk]; [done|]. nia.
Qed.

(** An integer is exact. *)
Lemma round_half_even_exact k den : 0 < den → round_half_even (k * den) den = k.
Proof.
  intros Hd. unfold round_half_even. rewrite Z.mod_mul, Z.div_mul by lia.
  destruct (Z.compare_spec (2 * 0) den); lia.
Qed.

Lemma parse_signed_range half s z : 0 < half → parse_signed half s = Some z → - half ≤ z < half.
Proof.
  intros Hh.
  assert (∀ b t acc n, 0 ≤ acc < b → parse_digits b t acc = Some n → 0 ≤ n < b) as Hd.
  { intros b t. induction t as [|c t IH]; intros acc n Hacc; simpl; [intros [= <-]; lia|].
    destruct (digit_val c) as [d|] eqn:Hc; simpl; [|done].
    destruct (Z.ltb_spec (10 * acc + d) b); [|done]. apply IH.
    unfold digit_val in Hc. destruct (Z.leb_spec 48 (Z.of_nat (nat_of_ascii c))); simpl in Hc; [|done].
    destruct (Z.leb_spec (Z.of_nat (nat_of_ascii c)) 57); simpl in Hc; simplify_eq; lia. }
  assert (∀ t n, parse_digits half t 0 = Some n → - half ≤ n < half) as Hp.
  { intros t n Ht. apply Hd in Ht; lia. }
  assert (∀ t n, Z.opp <$> parse_digits (half + 1) t 0 = Some n → - half ≤ n < half) as Hm.
  { intros t n (m & Ht & ->)%fmap_Some. apply Hd in Ht; lia. }
  unfold parse_signed. intros H.
  repeat (case_match; try (by eauto); try discriminate).
Qed.
