(* ===== verification/RustPath.v ===== *)
(** * Paths of the Rust standard library

    The part of [std::path] the sources use, on Unix: parsing a path into
    components, comparison and ordering by components, [parent],
    [file_name], [ancestors], [strip_prefix] and [push]; and hash maps with
    [PathBuf] keys.  A path keeps its bytes, which some operations return to
    the program, next to its components, which decide equality. *)

From S2P Require Import Prelude.

Inductive Component :=
  | RootDir
  | CurDir
  | ParentDir
  | Normal (name : string).

#[export] Instance Component_eq_dec : EqDecision Component.
Proof. solve_decision. Defined.

#[export] Instance Component_countable : Countable Component.
Proof.
  refine (inj_countable'
    (λ c, match c with RootDir => inl 0 | CurDir => inl 1 | ParentDir => inl 2 | Normal s => inr s end)
    (λ x, match x with inl 0 => RootDir | inl 1 => CurDir | inl _ => ParentDir | inr s => Normal s end) _).
  by intros [].
Defined.

(** [Component::as_os_str] *)
Definition as_os_str (c : Component) : string :=
  match c with RootDir => "/" | CurDir => "." | ParentDir => ".." | Normal s => s end.

(** The pieces between the separators. *)
Fixpoint split_slash (s : string) : list string :=
  match s with
  | EmptyString => [""]
  | String c s' =>
      if decide (c = "/"%char) then "" :: split_slash s'
      else match split_slash s' with [] => [String c ""] | x :: xs => String c x :: xs end
  end.

(** A piece in the body of a path: empty pieces and [.] are normalised away. *)
Definition body_component (s : string) : option Component :=
  if decide (s = "" ∨ s = ".") then None
  else if decide (s = "..") then Some ParentDir
  else Some (Normal s).

(** [Path::components]: a leading [/] is the root, a leading [.] is kept. *)
Definition relative_components (l : list string) : list Component :=
  match l with
  | [] => []
  | x :: rest =>
      if decide (x = ".") then CurDir :: omap body_component rest
      else omap body_component (x :: rest)
  end.
Definition components (s : string) : list Component :=
  match s with
  | EmptyString => []
  | String c s' =>
      if decide (c = "/"%char) then RootDir :: omap body_component (split_slash s')
      else relative_components (split_slash s)
  end.

Record Path := mkPath { p_raw : string; p_comps : list Component }.

#[export] Instance Path_eq_dec : EqDecision Path.
Proof. solve_decision. Defined.

(** [Path::new], [PathBuf::from] *)
Definition path (s : string) : Path := mkPath s (components s).

(** [p == q] on paths. *)
Definition path_eqb (p q : Path) : bool := bool_decide (p_comps p = p_comps q).

(** The text of a component list; on one component, its own text. *)
Fixpoint join_comps (cs : list Component) : string :=
  match cs with
  | [] => ""
  | [c] => as_os_str c
  | RootDir :: cs' => "/" +:+ join_comps cs'
  | c :: cs' => as_os_str c +:+ "/" +:+ join_comps cs'
  end.

Definition of_comps (cs : list Component) : Path := mkPath (join_comps cs) cs.

(** [Path::parent] *)
Definition parent (p : Path) : option Path :=
  match last (p_comps p) with
  | None | Some RootDir => None
  | Some _ => Some (of_comps (removelast (p_comps p)))
  end.

(** [Path::file_name] *)
Definition file_name (p : Path) : option string :=
  match last (p_comps p) with Some (Normal s) => Some s | _ => None end.

(** [Path::ancestors]: the path itself, then its parent, and so on. *)
Fixpoint ancestors_from (n : nat) (p : Path) : list Path :=
  match n with
  | O => [p]
  | S n' => p :: match parent p with Some q => ancestors_from n' q | None => [] end
  end.
Definition ancestors (p : Path) : list Path := ancestors_from (length (p_comps p)) p.

(** The rest of [l] after the prefix [pre]. *)
Fixpoint strip_list (pre l : list Component) : option (list Component) :=
  match pre, l with
  | [], _ => Some l
  | c :: pre', d :: l' => if decide (c = d) then strip_list pre' l' else None
  | _ :: _, [] => None
  end.

(** [Path::strip_prefix] *)
Definition strip_prefix (p base : Path) : option Path :=
  of_comps <$> strip_list (p_comps base) (p_comps p).

Fixpoint ends_with_slash (s : string) : bool :=
  match s with
  | EmptyString => false
  | String c EmptyString => bool_decide (c = "/"%char)
  | String _ s' => ends_with_slash s'
  end.

(** [PathBuf::push]: an absolute argument replaces the path. *)
Definition push (p q : Path) : Path :=
  match p_comps q with
  | RootDir :: _ => q
  | _ =>
      path (if bool_decide (p_raw p = "") || ends_with_slash (p_raw p)
            then p_raw p +:+ p_raw q else p_raw p +:+ "/" +:+ p_raw q)
  end.

(** ** Hash maps keyed by paths

    Keys are equal when their components are; the stored key is the one of
    the first insertion. *)
Abbreviation PathMap V := (gmap (list Component) (string * V)).

Section path_map.
Context {V : Type}.

Definition pm_get (p : Path) (m : PathMap V) : option V := snd <$> m !! p_comps p.

Definition pm_insert (p : Path) (v : V) (m : PathMap V) : PathMap V :=
  <[p_comps p := (match m !! p_comps p with Some (raw, _) => raw | None => p_raw p end, v)]> m.

Definition pm_iter `{HashOrder} (m : PathMap V) : list (Path * V) :=
  (λ e : list Component * (string * V), (mkPath e.2.1 e.1, e.2.2)) <$> hash_iter m.

Lemma pm_get_insert (p q : Path) (v : V) (m : PathMap V) :
  pm_get q (pm_insert p v m) = if decide (p_comps p = p_comps q) then Some v else pm_get q m.
Proof.
  unfold pm_get, pm_insert. rewrite lookup_insert. by case_decide.
Qed.
End path_map.

(** ** Properties of paths *)

Lemma strip_list_app pre l : strip_list pre (pre ++ l) = Some l.
Proof. induction pre as [|c pre IH]; simpl; [done|]. by rewrite decide_True. Qed.

Lemma strip_list_Some pre l rest : strip_list pre l = Some rest ↔ l = pre ++ rest.
Proof.
  split; [|intros ->; apply strip_list_app].
  revert l. induction pre as [|c pre IH]; intros l Hs; simpl in *; [congruence|].
  destruct l as [|d l]; [done|]. case_decide as Heq; [|done]. subst. by rewrite (IH l).
Qed.

(** ** Well-formed components

    The components of a parsed path name themselves: parsing the text of one
    gives it back. *)
Definition comp_ok (c : Component) : Prop := components (as_os_str c) = [c].

(** What the filesystem needs of a path: its components are well formed, and
    the text of a one-component path parses to that component. *)
Definition path_ok (p : Path) : Prop :=
  Forall comp_ok (p_comps p) ∧ ∀ c, p_comps p = [c] → components (p_raw p) = [c].

Definition no_slash (s : string) : Prop := split_slash s = [s].

Lemma split_slash_cons c s :
  split_slash (String c s) =
    if decide (c = "/"%char) then "" :: split_slash s
    else match split_slash s with [] => [String c ""] | x :: xs => String c x :: xs end.
Proof. done. Qed.

Lemma split_slash_pieces s : split_slash s ≠ [] ∧ Forall no_slash (split_slash s).
Proof.
  induction s as [|c s [Hne IH]].
  - split; [done|]. by repeat constructor.
  - rewrite split_slash_cons. case_decide as Hc.
    + split; [done|]. by constructor.
    + destruct (split_slash s) as [|x xs]; [done|]. split; [done|].
      apply Forall_cons in IH as [Hx Hxs]. constructor; [|done].
      unfold no_slash in *. by rewrite split_slash_cons, decide_False, Hx.
Qed.

Lemma body_component_ok s c : no_slash s → body_component s = Some c → comp_ok c.
Proof.
  unfold body_component, comp_ok. intros Hs Hc.
  case_decide as Hdot; [done|]. case_decide as Hdd; simplify_eq/=; [done|].
  destruct s as [|a s]; [by destruct Hdot; left|].
  unfold components. case_decide as Ha.
  - unfold no_slash in Hs. rewrite split_slash_cons, decide_True in Hs by done.
    destruct (split_slash_pieces s) as [Hne _]. by destruct (split_slash s); simplify_eq.
  - rewrite Hs. unfold relative_components. rewrite decide_False by tauto. simpl.
    unfold body_component. by rewrite !decide_False by tauto.
Qed.

Lemma omap_body_ok l : Forall no_slash l → Forall comp_ok (omap body_component l).
Proof.
  induction 1 as [|s l Hs _ IH]; simpl; [done|].
  destruct (body_component s) as [c|] eqn:Hc; [|done].
  constructor; [by eapply body_component_ok|done].
Qed.

Lemma components_ok s : Forall comp_ok (components s).
Proof.
  unfold components. destruct s as [|a s]; [done|]. case_decide.
  - constructor; [done|]. apply omap_body_ok, split_slash_pieces.
  - destruct (split_slash_pieces (String a s)) as [_ Hs]. unfold relative_components.
    destruct (split_slash (String a s)) as [|x rest]; [done|].
    case_decide; [|by apply omap_body_ok].
    constructor; [done|]. apply Forall_cons in Hs as [_ Hs]. by apply omap_body_ok.
Qed.

Lemma path_path_ok s : path_ok (path s).
Proof. split; [apply components_ok|]. by intros c. Qed.

Lemma of_comps_ok cs : Forall comp_ok cs → path_ok (of_comps cs).
Proof.
  intros Hcs. split; [done|]. simpl. intros c ->. rewrite Forall_singleton in Hcs. by destruct c.
Qed.

Lemma strip_prefix_ok p b q : path_ok p → strip_prefix p b = Some q → path_ok q.
Proof.
  unfold strip_prefix. intros [Hp _] Hq.
  destruct (strip_list _ _) as [rest|] eqn:Hs; simplify_eq/=.
  apply strip_list_Some in Hs. rewrite Hs in Hp. apply Forall_app in Hp as [_ Hp].
  by apply of_comps_ok.
Qed.

Lemma parent_ok p q : path_ok p → parent p = Some q → path_ok q.
Proof.
  unfold parent. intros [Hp _] Hq.
  assert (q = of_comps (removelast (p_comps p))) as ->.
  { destruct (last (p_comps p)) as [[]|]; congruence. }
  apply of_comps_ok. destruct (decide (p_comps p = [])) as [->|Hne]; [done|].
  rewrite (app_removelast_last RootDir Hne) in Hp. by apply Forall_app in Hp as [].
Qed.

#[export] Hint Resolve components_ok path_path_ok of_comps_ok strip_prefix_ok parent_ok
  : veracruz.

(** ** Well-formed keys

    In a map built by insertions, a stored key parses to the components it is
    filed under. *)
Section keys.
Context {V : Type}.

Definition keys_ok (m : PathMap V) : Prop :=
  ∀ cs raw v, m !! cs = Some (raw, v) → components raw = cs.

Lemma keys_ok_empty : keys_ok ∅.
Proof. intros cs raw v. by rewrite lookup_empty. Qed.

Lemma keys_ok_insert s v m : keys_ok m → keys_ok (pm_insert (path s) v m).
Proof.
  intros Hm cs raw v'. unfold pm_insert. rewrite lookup_insert. simpl.
  case_decide; [|apply Hm]. subst. intros Heq.
  destruct (m !! components s) as [[raw' v0]|] eqn:Hl; simplify_eq; [by eapply Hm|done].
Qed.

Lemma elem_of_pm_iter `{HashOrderLaws} (m : PathMap V) p v :
  (p, v) ∈ pm_iter m ↔ m !! p_comps p = Some (p_raw p, v).
Proof.
  unfold pm_iter. rewrite list_elem_of_fmap. split.
  - intros ([cs [raw v']] & Heq & Hin). simplify_eq/=. by apply elem_of_hash_iter in Hin.
  - intros Hl. exists (p_comps p, (p_raw p, v)). split; [by destruct p|].
    by apply elem_of_hash_iter.
Qed.

Lemma pm_iter_ok `{HashOrderLaws} (m : PathMap V) p v :
  keys_ok m → (p, v) ∈ pm_iter m → p = path (p_raw p).
Proof.
  rewrite elem_of_pm_iter. intros Hm Hl. destruct p as [raw cs]. simpl in *.
  apply Hm in Hl as <-. done.
Qed.
End keys.

#[export] Hint Resolve keys_ok_empty keys_ok_insert : veracruz.
