(* ===== verification/WasiTypes.v ===== *)
(** * The interface of the [wasi_types] crate

    The crate is a git submodule of the repository, so its code is not
    translated.  Its plain data (error codes, records, enumerations, flag
    sets) are the types below, with the constructors and fields the sources
    name.  [Rights], a bit set with operations, is a class: the operations
    the sources call, and the laws of a bit set they rely on.  The instance
    [bitset_rights] at the end shows that the laws can be met. *)

From Stdlib Require Import NArith Eqdep_dec Bool.
From S2P Require Import Prelude RustPath.

Module ErrNo.
Inductive t :=
  | Success | Access | Again | BadF | Busy | Canceled | Exist | IlSeq | Inval | IsDir
  | NFile | NameTooLong | NoEnt | NoMem | NoSys | NotDir | SPipe.
#[export] Instance t_eq_dec : EqDecision t.
Proof. solve_decision. Defined.
End ErrNo.
Export (hints) ErrNo.

Inductive FileType := Unknown | Directory_t | RegularFile.
Inductive Whence := Current | End_ | Start.
Inductive Advice := AdviceNormal | Sequential | Random | WillNeed | DontNeed | NoReuse.

#[export] Instance FileType_eq_dec : EqDecision FileType.
Proof. solve_decision. Defined.
#[export] Instance Advice_eq_dec : EqDecision Advice.
Proof. solve_decision. Defined.

(** [Fd] is a [u32], [Inode] a [u64], [FileSize] a [u64], [FileDelta] an
    [i64], [Timestamp] a [u64] of nanoseconds. *)
Abbreviation Fd := Z (only parsing).
Abbreviation Inode := Z (only parsing).
Abbreviation FileSize := Z (only parsing).
Abbreviation FileDelta := Z (only parsing).
Abbreviation Timestamp := Z (only parsing).
Abbreviation FdFlags := Z (only parsing).
Definition FdFlags_empty : FdFlags := 0%Z.

(** Flag sets, by their members. *)
Record OpenFlags := mkOpenFlags
  { CREATE : bool; DIRECTORY : bool; EXCL : bool; TRUNC : bool }.
Definition OpenFlags_empty : OpenFlags := mkOpenFlags false false false false.
Record SetTimeFlags := mkSetTimeFlags
  { ATIME : bool; ATIME_NOW : bool; MTIME : bool; MTIME_NOW : bool }.

Record FileStat := mkFileStat
  { device : Z; st_inode : Inode; st_file_type : FileType; num_links : Z;
    file_size : FileSize; atime : Timestamp; mtime : Timestamp; ctime : Timestamp }.

Record DirEnt := mkDirEnt
  { d_next : Z; d_inode : Inode; d_name_len : Z; d_file_type : FileType }.

Inductive PreopenType := PreopenDir (name_len : Z).
Record Prestat := mkPrestat { resource_type : PreopenType }.

(** ** Rights *)

(** The rights the sources name. *)
Inductive right_name :=
  | FD_DATASYNC | FD_READ | FD_SEEK | FD_FDSTAT_SET_FLAGS | FD_SYNC | FD_TELL | FD_WRITE
  | FD_ADVISE | PATH_CREATE_DIRECTORY | PATH_CREATE_FILE | PATH_LINK_SOURCE
  | PATH_LINK_TARGET | PATH_OPEN | FD_READDIR | PATH_READLINK | PATH_RENAME_SOURCE
  | PATH_RENAME_TARGET | PATH_FILESTAT_GET | PATH_FILESTAT_SET_SIZE
  | PATH_FILESTAT_SET_TIMES | FD_FILESTAT_SET_SIZE | FD_FILESTAT_SET_TIMES | PATH_SYMLINK
  | PATH_REMOVE_DIRECTORY | PATH_UNLINK_FILE | SOCK_SHUTDOWN | FD_EXECUTE.

#[export] Instance right_name_eq_dec : EqDecision right_name.
Proof. solve_decision. Defined.

Class WasiRights := {
  Rights : Type;
  right_of : right_name → Rights;
  rights_all : Rights;
  rights_empty : Rights;
  rights_inter : Rights → Rights → Rights;
  rights_union : Rights → Rights → Rights;
  rights_contains : Rights → Rights → bool;
  rights_bits : Rights → Z;
  rights_from_bits : Z → option Rights;
  rights_from_bits_truncate : Z → Rights;
}.

(** What the sources rely on: [contains] is inclusion of bit sets, [&], [|]
    and [all] are its meet, join and top, and the bits determine the set. *)
Class WasiRightsLaws (WR : WasiRights) : Prop := {
  contains_refl r : rights_contains r r = true;
  contains_inter_l a b c :
    rights_contains (rights_inter a b) c = rights_contains a c && rights_contains b c;
  contains_union_r a b c :
    rights_contains a (rights_union b c) = rights_contains a b && rights_contains a c;
  contains_all r : rights_contains rights_all r = true;
  contains_trans a b c :
    rights_contains a b = true → rights_contains b c = true → rights_contains a c = true;
  from_bits_bits r : rights_from_bits (rights_bits r) = Some r;
  from_bits_truncate_bits r : rights_from_bits_truncate (rights_bits r) = r;
  bits_nonneg r : (0 ≤ rights_bits r)%Z;
}.

Section rights.
Context `{WL : WasiRightsLaws}.

Lemma contains_inter_sub_l a b : rights_contains a (rights_inter a b) = true.
Proof.
  pose proof (contains_inter_l a b (rights_inter a b)) as H.
  rewrite contains_refl in H. by apply eq_sym, andb_true_iff in H as [].
Qed.

Lemma contains_inter_sub_r a b : rights_contains b (rights_inter a b) = true.
Proof.
  pose proof (contains_inter_l a b (rights_inter a b)) as H.
  rewrite contains_refl in H. by apply eq_sym, andb_true_iff in H as [].
Qed.
End rights.
#[export] Hint Resolve contains_refl contains_all contains_inter_sub_l contains_inter_sub_r
  : veracruz.

(** ** A bit-set instance

    The bit positions of the WASI snapshot preview 1 interface, with
    [FD_EXECUTE], the right Veracruz adds, after the last of them. *)
Module BitsetRights.

Definition bit (r : right_name) : N :=
  match r with
  | FD_DATASYNC => 0 | FD_READ => 1 | FD_SEEK => 2 | FD_FDSTAT_SET_FLAGS => 3 | FD_SYNC => 4
  | FD_TELL => 5 | FD_WRITE => 6 | FD_ADVISE => 7 | PATH_CREATE_DIRECTORY => 9
  | PATH_CREATE_FILE => 10 | PATH_LINK_SOURCE => 11 | PATH_LINK_TARGET => 12
  | PATH_OPEN => 13 | FD_READDIR => 14 | PATH_READLINK => 15 | PATH_RENAME_SOURCE => 16
  | PATH_RENAME_TARGET => 17 | PATH_FILESTAT_GET => 18 | PATH_FILESTAT_SET_SIZE => 19
  | PATH_FILESTAT_SET_TIMES => 20 | FD_FILESTAT_SET_SIZE => 22 | FD_FILESTAT_SET_TIMES => 23
  | PATH_SYMLINK => 24 | PATH_REMOVE_DIRECTORY => 25 | PATH_UNLINK_FILE => 26
  | SOCK_SHUTDOWN => 28 | FD_EXECUTE => 29
  end%N.

Definition ALL : N := N.ones 30.

Definition valid (n : N) : bool := (N.land n ALL =? n)%N.
Definition bitset : Type := { n : N | valid n = true }.

Lemma bitset_eq (a b : bitset) : proj1_sig a = proj1_sig b → a = b.
Proof.
  destruct a as [a Ha], b as [b Hb]; simpl. intros ->. f_equal.
  apply UIP_dec, bool_dec.
Qed.

Lemma truncate_valid n : valid (N.land n ALL) = true.
Proof. apply N.eqb_eq. by rewrite <- N.land_assoc, N.land_diag. Qed.

Definition truncate (n : N) : bitset := exist _ (N.land n ALL) (truncate_valid n).

Definition contains (a b : bitset) : bool :=
  (N.land (proj1_sig a) (proj1_sig b) =? proj1_sig b)%N.

Definition from_bits (z : Z) : option bitset :=
  match bool_dec (valid (Z.to_N z)) true with
  | left H => Some (exist _ (Z.to_N z) H)
  | right _ => None
  end.

Definition rights : WasiRights := {|
  Rights := bitset;
  right_of r := truncate (N.shiftl 1 (bit r));
  rights_all := truncate ALL;
  rights_empty := truncate 0;
  rights_inter a b := truncate (N.land (proj1_sig a) (proj1_sig b));
  rights_union a b := truncate (N.lor (proj1_sig a) (proj1_sig b));
  rights_contains := contains;
  rights_bits a := Z.of_N (proj1_sig a);
  rights_from_bits := from_bits;
  rights_from_bits_truncate z := truncate (Z.to_N z);
|}.

Lemma valid_truncate (a : bitset) : N.land (proj1_sig a) ALL = proj1_sig a.
Proof. destruct a as [a Ha]; simpl. by apply N.eqb_eq. Qed.

(** Inclusion of bit sets, bit by bit. *)
Lemma contains_spec (a b : bitset) :
  contains a b = true ↔
  ∀ i, N.testbit (proj1_sig b) i = true → N.testbit (proj1_sig a) i = true.
Proof.
  unfold contains. rewrite N.eqb_eq. split.
  - intros Heq i Hi. rewrite <- Heq, N.land_spec, andb_true_iff in Hi. tauto.
  - intros Hi. apply N.bits_inj. intros i. rewrite N.land_spec. specialize (Hi i).
    destruct (N.testbit (proj1_sig b) i); [|apply andb_false_r]. by rewrite Hi.
Qed.

Lemma truncate_id (n : N) : N.land n ALL = n → proj1_sig (truncate n) = n.
Proof. done. Qed.

Lemma inter_bits (a b : bitset) :
  proj1_sig (truncate (N.land (proj1_sig a) (proj1_sig b))) =
  N.land (proj1_sig a) (proj1_sig b).
Proof. simpl. by rewrite <- N.land_assoc, valid_truncate. Qed.

Lemma union_bits (a b : bitset) :
  proj1_sig (truncate (N.lor (proj1_sig a) (proj1_sig b))) =
  N.lor (proj1_sig a) (proj1_sig b).
Proof. simpl. by rewrite N.land_lor_distr_l, !valid_truncate. Qed.

Lemma bool_iff (a b : bool) : (a = true ↔ b = true) → a = b.
Proof. destruct a, b; intuition congruence. Qed.

Lemma laws : WasiRightsLaws rights.
Proof.
  split; simpl.
  - intros r. by apply contains_spec.
  - intros a b c. apply bool_iff. rewrite andb_true_iff, !contains_spec, inter_bits.
    setoid_rewrite N.land_spec. setoid_rewrite andb_true_iff. naive_solver.
  - intros a b c. apply bool_iff. rewrite andb_true_iff, !contains_spec, union_bits.
    setoid_rewrite N.lor_spec. setoid_rewrite orb_true_iff. naive_solver.
  - intros r. apply contains_spec. intros i Hi.
    rewrite <- valid_truncate, N.land_spec, andb_true_iff in Hi. simpl. tauto.
  - intros a b c. rewrite !contains_spec. naive_solver.
  - intros [n Hn]. unfold from_bits. simpl.
    destruct (bool_dec (valid (Z.to_N (Z.of_N n))) true) as [H|H].
    + f_equal. apply bitset_eq. apply N2Z.id.
    + destruct H. by rewrite N2Z.id.
  - intros r. apply bitset_eq. simpl. by rewrite N2Z.id, valid_truncate.
  - intros r. apply N2Z.is_nonneg.
Qed.
End BitsetRights.
