(* ===== verification/Policy.v ===== *)
(** * The global policy ([policy-utils])

    Principals and their rights, programs, identities, the policy record with
    its validation, and the tables the runtime derives from it.

    Sources: [policy-utils/src/policy.rs], [principal.rs], [expiry.rs],
    [parsers.rs], [lib.rs], [error.rs].

    The blocks under [#[cfg(features = "std")]] of [assert_valid] are not
    translated: the key is misspelt ([feature]), so no build contains them. *)

From Stdlib Require Import Sorting.Sorted.
From stdpp Require Import pretty sorting lexico.
From S2P Require Import Prelude RustPath WasiTypes.

(** ** Standard stream paths and platforms ([lib.rs]) *)

Definition CANONICAL_STDIN_FILE_PATH : string := "stdin".
Definition CANONICAL_STDOUT_FILE_PATH : string := "stdout".
Definition CANONICAL_STDERR_FILE_PATH : string := "stderr".

Inductive Platform := Linux | Nitro | IceCap | Mock.
Inductive PlatformError := InvalidPlatform (s : string).

Definition Platform_from_str (s : string) : outcome PlatformError Platform :=
  if decide (s = "nitro") then Ok Nitro
  else if decide (s = "icecap") then Ok IceCap
  else if decide (s = "linux") then Ok Linux
  else Err (InvalidPlatform s).

Definition Platform_fmt (p : Platform) : string :=
  match p with Linux => "linux" | Nitro => "nitro" | IceCap => "icecap" | Mock => "mock" end.

(** ** Errors ([error.rs]) *)

Inductive PolicyError :=
  | SerdeJsonError
  | InvalidClientCertificateError (cert : string)
  | HexDecodeError
  | CertificateFormatError (msg : string)
  | DuplicatedClientIDError (id : Z)
  | MissingPolicyFieldError (field : string).

#[export] Instance PolicyError_eq_dec : EqDecision PolicyError.
Proof. solve_decision. Defined.

(** ** Expiry timepoints ([expiry.rs]) *)

Record Timepoint := mkTimepoint
  { year : Z; month : Z; day : Z; hour : Z; minute : Z }.

Definition Timepoint_new (year month day hour minute : Z) : outcome PolicyError Timepoint :=
  if (59 <? minute)%Z then
    Err (CertificateFormatError ("invalid expiry minute " +:+ pretty minute))
  else if (23 <? hour)%Z then
    Err (CertificateFormatError ("invalid expiry hour " +:+ pretty hour))
  else if (31 <? day)%Z then
    Err (CertificateFormatError ("invalid expiry day " +:+ pretty day))
  else if (12 <? month)%Z then
    Err (CertificateFormatError ("invalid expiry month " +:+ pretty month))
  else Ok (mkTimepoint year month day hour minute).

Definition Timepoint_as_tuple (t : Timepoint) : Z * Z * Z * Z * Z * Z :=
  (year t, month t, day t, hour t, minute t, 0%Z).

(** ** Principals and rights ([principal.rs]) *)

Inductive Principal :=
  | InternalSuperUser
  | Participant (id : Z)
  | ProgramP (name : string)
  | NoCap.

#[export] Instance Principal_eq_dec : EqDecision Principal.
Proof. solve_decision. Defined.
#[export] Instance Principal_countable : Countable Principal.
Proof.
  refine (inj_countable'
    (λ p, match p with
          | InternalSuperUser => inl true | NoCap => inl false
          | Participant i => inr (inl i) | ProgramP s => inr (inr s) end)
    (λ x, match x with
          | inl true => InternalSuperUser | inl false => NoCap
          | inr (inl i) => Participant i | inr (inr s) => ProgramP s end) _).
  by intros [].
Defined.

Record FileRights := mkFileRights { fr_file_name : string; fr_rights : Z }.

Record FileHash := mkFileHash { fh_file_path : string; fh_hash : string }.

Inductive ExecutionStrategy := Interpretation | JIT.

Record Program := mkProgram
  { program_file_name : string; program_id : Z; program_file_rights : list FileRights }.

Record Identity (U : Type) := mkIdentity
  { certificate : U; identity_id : Z; file_rights : list FileRights }.
Arguments mkIdentity {U} _ _ _.
Arguments certificate {U} _.
Arguments identity_id {U} _.
Arguments file_rights {U} _.

Section rights_map.
Context {WR : WasiRights}.

Definition compute_right_map (l : list FileRights) : PathMap Rights :=
  foldl (λ acc fr,
    pm_insert (path (fr_file_name fr)) (rights_from_bits_truncate (fr_rights fr)) acc) ∅ l.

Definition Program_file_rights_map (p : Program) : PathMap Rights :=
  compute_right_map (program_file_rights p).

Definition Identity_file_rights_map {U} (i : Identity U) : PathMap Rights :=
  compute_right_map (file_rights i).
End rights_map.

(** The table of rights of every principal. *)
Abbreviation RightsTable := (gmap Principal (PathMap Rights)).

(** [s.ends_with(suffix)] *)
Definition ends_with (suffix s : string) : bool :=
  bool_decide (String.substring (String.length s - String.length suffix) (String.length suffix) s
               = suffix ∧ String.length suffix ≤ String.length s).

Definition Identity_assert_valid (i : Identity string) : outcome PolicyError unit :=
  if ends_with "-----END CERTIFICATE-----" (certificate i) then Ok tt
  else Err (CertificateFormatError (certificate i)).

(** ** The policy ([policy.rs]) *)

Record Policy := mkPolicy {
  identities : list (Identity string);
  programs : list Program;
  file_hashes : list FileHash;
  veracruz_server_url : string;
  enclave_cert_expiry : Timepoint;
  ciphersuite : string;
  runtime_manager_hash_linux : option string;
  runtime_manager_hash_nitro : option string;
  runtime_manager_hash_icecap : option string;
  proxy_attestation_server_url : string;
  proxy_service_cert : string;
  debug : bool;
  execution_strategy : ExecutionStrategy;
  enable_clock : bool;
  max_memory_mib : Z;
  policy_hash : option string;
}.

(** The loop of [assert_valid], with the IDs seen so far. *)
Fixpoint assert_valid_loop (client_ids : list Z) (l : list (Identity string)) :
  outcome PolicyError unit :=
  match l with
  | [] => Ok tt
  | i :: l' =>
      match Identity_assert_valid i with
      | Ok _ =>
          if bool_decide (identity_id i ∈ client_ids)
          then Err (DuplicatedClientIDError (identity_id i))
          else assert_valid_loop (client_ids ++ [identity_id i]) l'
      | Err e => Err e
      | Abort p => Abort p
      end
  end.

Definition Policy_assert_valid (p : Policy) : outcome PolicyError unit :=
  assert_valid_loop [] (identities p).

Definition Policy_new
    (identities : list (Identity string)) (programs : list Program)
    (veracruz_server_url : string) (enclave_cert_expiry : Timepoint) (ciphersuite : string)
    (hash_linux hash_nitro hash_icecap : option string)
    (proxy_attestation_server_url proxy_service_cert : string) (debug : bool)
    (execution_strategy : ExecutionStrategy) (file_hashes : list FileHash)
    (enable_clock : bool) (max_memory_mib : Z) : outcome PolicyError Policy :=
  let policy := {|
    identities := identities; programs := programs; file_hashes := file_hashes;
    veracruz_server_url := veracruz_server_url; enclave_cert_expiry := enclave_cert_expiry;
    ciphersuite := ciphersuite; runtime_manager_hash_linux := hash_linux;
    runtime_manager_hash_nitro := hash_nitro; runtime_manager_hash_icecap := hash_icecap;
    proxy_attestation_server_url := proxy_attestation_server_url;
    proxy_service_cert := proxy_service_cert; debug := debug;
    execution_strategy := execution_strategy; enable_clock := enable_clock;
    max_memory_mib := max_memory_mib; policy_hash := None |} in
  match Policy_assert_valid policy with
  | Ok _ => Ok policy
  | Err e => Err e
  | Abort p => Abort p
  end.

(** Libraries the policy code calls: SHA-256 (through [veracruz-utils]), the
    [hex] crate and the derived [serde_json] reader. *)
Class PolicyLibs := {
  sha256 : bytes → bytes;
  hex_encode : bytes → string;
  hex_decode : string → option bytes;
  policy_from_str : string → option Policy;
}.
Class PolicyLibsLaws (PL : PolicyLibs) : Prop := {
  sha256_length b : length (sha256 b) = 32%nat;
  hex_decode_encode b : hex_decode (hex_encode b) = Some b;
  (** [policy_hash] is [#[serde(skip)]] *)
  policy_from_str_hash s p : policy_from_str s = Some p → policy_hash p = None;
}.

Definition set_policy_hash (h : option string) (p : Policy) : Policy := {|
  identities := identities p; programs := programs p; file_hashes := file_hashes p;
  veracruz_server_url := veracruz_server_url p; enclave_cert_expiry := enclave_cert_expiry p;
  ciphersuite := ciphersuite p; runtime_manager_hash_linux := runtime_manager_hash_linux p;
  runtime_manager_hash_nitro := runtime_manager_hash_nitro p;
  runtime_manager_hash_icecap := runtime_manager_hash_icecap p;
  proxy_attestation_server_url := proxy_attestation_server_url p;
  proxy_service_cert := proxy_service_cert p; debug := debug p;
  execution_strategy := execution_strategy p; enable_clock := enable_clock p;
  max_memory_mib := max_memory_mib p; policy_hash := h |}.

(** [str::as_bytes] *)
Definition as_bytes (s : string) : bytes := String.list_byte_of_string s.

Section policy.
Context {PL : PolicyLibs} {WR : WasiRights}.

Definition Policy_from_json (json : string) : outcome PolicyError Policy :=
  match policy_from_str json with
  | None => Err SerdeJsonError
  | Some policy =>
      match Policy_assert_valid policy with
      | Ok _ => Ok (set_policy_hash (Some (hex_encode (sha256 (as_bytes json)))) policy)
      | Err e => Err e
      | Abort p => Abort p
      end
  end.

Definition runtime_manager_hash (p : Policy) (platform : Platform) :
  outcome PolicyError string :=
  match platform with
  | Linux =>
      match runtime_manager_hash_linux p with
      | Some hash => Ok hash
      | None => Err (MissingPolicyFieldError "runtime_manager_hash_linux")
      end
  | Nitro | Mock =>
      match runtime_manager_hash_nitro p with
      | Some hash => Ok hash
      | None => Err (MissingPolicyFieldError "runtime_manager_hash_nitro")
      end
  | IceCap =>
      match runtime_manager_hash_icecap p with
      | Some hash => Ok hash
      | None => Err (MissingPolicyFieldError "runtime_manager_hash_icecap")
      end
  end.

Definition expected_shutdown_list (p : Policy) : list Z :=
  foldl (λ acc i, acc ++ [identity_id i]) [] (identities p).

Fixpoint check_client_id_loop (cert : string) (l : list (Identity string)) :
  outcome PolicyError Z :=
  match l with
  | [] => Err (InvalidClientCertificateError cert)
  | i :: l' =>
      if bool_decide (certificate i = cert) then Ok (identity_id i)
      else check_client_id_loop cert l'
  end.
Definition check_client_id (p : Policy) (cert : string) : outcome PolicyError Z :=
  check_client_id_loop cert (identities p).

Definition get_rights_table (p : Policy) : RightsTable :=
  let table := foldl (λ t i,
    <[Participant (identity_id i) := Identity_file_rights_map i]> t) ∅ (identities p) in
  foldl (λ t pr,
    <[ProgramP (program_file_name pr) := Program_file_rights_map pr]> t) table (programs p).

Fixpoint file_hash_loop (t : PathMap bytes) (l : list FileHash) :
  outcome PolicyError (PathMap bytes) :=
  match l with
  | [] => Ok t
  | fh :: l' =>
      match hex_decode (fh_hash fh) with
      | None => Err HexDecodeError
      | Some h => file_hash_loop (pm_insert (path (fh_file_path fh)) h t) l'
      end
  end.
Definition get_file_hash_table (p : Policy) : outcome PolicyError (PathMap bytes) :=
  file_hash_loop ∅ (file_hashes p).
End policy.

(** ** The inputs of a program *)

(** [Ord for Path]: components compare in the order of the variants of
    [Component], and names by their bytes. *)
Definition comp_key (c : Component) : list N :=
  match c with
  | RootDir => [0%N]
  | CurDir => [1%N]
  | ParentDir => [2%N]
  | Normal s => 3%N :: (Byte.to_N <$> as_bytes s)
  end.
Definition path_key (p : Path) : list (list N) := comp_key <$> p_comps p.

Definition path_le (p q : Path) : Prop :=
  lexico (path_key p) (path_key q) ∨ path_key p = path_key q.

#[export] Instance path_le_dec : RelDecision path_le.
Proof.
  intros p q. unfold path_le.
  destruct (trichotomyT lexico (path_key p) (path_key q)) as [[Hlt|Heq]|Hgt].
  - left. by left.
  - left. by right.
  - right. intros [Hlt|Heq].
    + apply (irreflexivity lexico (path_key p)). etransitivity; [exact Hlt|exact Hgt].
    + rewrite Heq in Hgt. exact (irreflexivity lexico _ Hgt).
Defined.

Section inputs.
Context {WR : WasiRights} {HO : HashOrder}.

Definition get_required_inputs (right_map : PathMap Rights) : list Path :=
  let rst := foldl (λ acc e,
    if rights_contains e.2 (rights_union (right_of FD_READ) (right_of PATH_OPEN))
    then acc ++ [e.1] else acc) [] (pm_iter right_map) in
  merge_sort path_le rst.

Definition get_input_table (p : Policy) : outcome PolicyError (gmap string (list Path)) :=
  Ok (foldl (λ t pr,
    <[program_file_name pr := get_required_inputs (Program_file_rights_map pr)]> t)
    ∅ (programs p)).
End inputs.

(** ** Parsers ([parsers.rs]) *)

(** [OsStr::to_str] succeeds on UTF-8 ([core::str::from_utf8]). *)
Definition in_range (lo hi : N) (a : ascii) : bool :=
  ((lo <=? N_of_ascii a) && (N_of_ascii a <=? hi))%N.
Definition cont_byte : ascii → bool := in_range 128 191.
Fixpoint utf8_valid (s : string) : bool :=
  match s with
  | EmptyString => true
  | String a s1 =>
      if in_range 0 127 a then utf8_valid s1
      else match s1 with
      | EmptyString => false
      | String b s2 =>
          if in_range 194 223 a then cont_byte b && utf8_valid s2
          else match s2 with
          | EmptyString => false
          | String c s3 =>
              if in_range 224 239 a then
                (if in_range 224 224 a then in_range 160 191 b
                 else if in_range 237 237 a then in_range 128 159 b else cont_byte b) &&
                cont_byte c && utf8_valid s3
              else match s3 with
              | EmptyString => false
              | String d s4 =>
                  in_range 240 244 a &&
                  (if in_range 240 240 a then in_range 144 191 b
                   else if in_range 244 244 a then in_range 128 143 b else cont_byte b) &&
                  cont_byte c && cont_byte d && utf8_valid s4
              end
          end
      end
  end.

(** [s.split(sep)] *)
Fixpoint split_char (sep : ascii) (s : string) : list string :=
  match s with
  | EmptyString => [""]
  | String c s' =>
      if decide (c = sep) then "" :: split_char sep s'
      else match split_char sep s' with [] => [String c ""] | x :: xs => String c x :: xs end
  end.

(** [s.splitn(2, sep)] *)
Fixpoint splitn2 (sep : ascii) (s : string) : string * option string :=
  match s with
  | EmptyString => ("", None)
  | String c s' =>
      if decide (c = sep) then ("", Some s')
      else let '(x, rest) := splitn2 sep s' in (String c x, rest)
  end.

(** The error carries the offending argument. *)
Definition parse_renamable_path (s : string) : outcome string (string * Path) :=
  if utf8_valid s then
    match splitn2 "=" s with
    | (name, Some p) => Ok (name, path p)
    | (p, None) => Ok (p, path p)
    end
  else Err s.

(** [collect] into a [Result]: the first error stops it. *)
Fixpoint collect {E A} (l : list (outcome E A)) : outcome E (list A) :=
  match l with
  | [] => Ok []
  | Ok a :: l' =>
      match collect l' with Ok as_ => Ok (a :: as_) | Err e => Err e | Abort p => Abort p end
  | Err e :: _ => Err e
  | Abort p :: _ => Abort p
  end.

Definition parse_renamable_paths (s : string) : outcome string (list (string * Path)) :=
  if utf8_valid s then collect (parse_renamable_path <$> split_char "," s) else Err s.

Definition starts_with_slash (s : string) : bool :=
  match s with String c _ => bool_decide (c = "/"%char) | EmptyString => false end.

Definition enforce_leading_backslash (p : string) : string :=
  let is_special_file :=
    bool_decide (p = CANONICAL_STDIN_FILE_PATH) ||
    bool_decide (p = CANONICAL_STDOUT_FILE_PATH) ||
    bool_decide (p = CANONICAL_STDERR_FILE_PATH) in
  if negb (starts_with_slash p) && negb is_special_file then "/" +:+ p else p.
