(* ===== verification/InodeTable.v ===== *)
(** * Inodes and the inode table

    The storage half of the synthetic filesystem: the data of an inode, its
    entry with the file status, and the table of inodes shared by every
    filesystem handler.

    Source: [execution-engine/src/fs.rs], [InodeImpl], [InodeEntry],
    [InodeTable], [TryFromOrErrNo], [strip_root_slash]. *)

From S2P Require Import Prelude RustPath WasiTypes Policy.

(** ** Conversions ([TryFromOrErrNo]) *)

(** [U::try_from(t)] for an unsigned [U] below [bound], with [Inval] on failure. *)
Definition try_from_or_errno (bound z : Z) : outcome ErrNo.t Z :=
  if ((0 <=? z) && (z <? bound))%Z then Ok z else Err ErrNo.Inval.

Definition strip_root_slash (p : Path) : Path :=
  match strip_prefix p (path "/") with Some q => q | None => p end.

(** ** The data of an inode ([InodeImpl]) *)

(** A native service is shared by reference ([Arc<Mutex<Box<dyn Service>>>]):
    the reference is an index into the store of services. *)
Inductive InodeImpl :=
  | NativeModule (service : nat) (input : bytes)
  | File (data : bytes)
  | Directory (entries : PathMap Inode).

Abbreviation I A := (ST InodeImpl ErrNo.t A).

Definition CURRENT_PATH_STR : string := ".".
Definition PARRENT_PATH_STR : string := "..".

Definition new_directory (current parent : Inode) : InodeImpl :=
  Directory (pm_insert (path PARRENT_PATH_STR) parent
              (pm_insert (path CURRENT_PATH_STR) current ∅)).

(** The bytes of a file or of the special file of a service. *)
Definition content (d : InodeImpl) : option bytes :=
  match d with NativeModule _ b | File b => Some b | Directory _ => None end.

Definition set_content (b : bytes) (d : InodeImpl) : InodeImpl :=
  match d with
  | NativeModule s _ => NativeModule s b
  | File _ => File b
  | Directory e => Directory e
  end.

Section impl.
Context {BP : BuildProfile}.

Definition InodeImpl_resize_file (size : FileSize) (fill_byte : Byte.byte) : I unit :=
  let! d := get in
  let! file := ok_or (content d) ErrNo.IsDir in
  let! n := lift (try_from_or_errno u64_bound size) in
  let! file' := lift (vec_resize file n fill_byte) in
  put (set_content file' d).

(** The bytes read replace the front of [buf]; the result is their number
    and the buffer.  [split_at] panics past the end of the file. *)
Definition read_bytes_from_offset (file buf : bytes) (offset : FileSize) :
  outcome ErrNo.t (Z * bytes) :=
  match try_from_or_errno u64_bound offset with
  | Ok offset =>
      if (offset <=? len file)%Z then
        let to_read := drop (Z.to_nat offset) file in
        let read_length := Nat.min (length buf) (length to_read) in
        Ok (Z.of_nat read_length, take read_length to_read ++ drop read_length buf)
      else Abort SliceOutOfRange
  | Err e => Err e
  | Abort p => Abort p
  end.

Definition InodeImpl_read_file (buf : bytes) (offset : FileSize) : I (Z * bytes) :=
  let! d := get in
  let! file := ok_or (content d) ErrNo.IsDir in
  lift (read_bytes_from_offset file buf offset).

Definition InodeImpl_write_file (buf : bytes) (offset : FileSize) : I Z :=
  let! d := get in
  let! file := ok_or (content d) ErrNo.IsDir in
  let! offset := lift (try_from_or_errno u64_bound offset) in
  let! stop := lift (usize_add offset (len buf)) in
  let! file := (if (len file <? stop)%Z then lift (vec_resize file stop Byte.x00) else ret file) in
  let! file := lift (copy_into file offset stop buf) in
  do! put (set_content file d) in
  ret (len buf).

Definition InodeImpl_truncate_file : I unit :=
  let! d := get in
  let! _file := ok_or (content d) ErrNo.IsDir in
  put (set_content [] d).

Definition InodeImpl_insert (p : Path) (inode : Inode) : I unit :=
  let! d := get in
  match d with
  | Directory path_table => put (Directory (pm_insert p inode path_table))
  | _ => throw ErrNo.NotDir
  end.

Definition InodeImpl_get_inode_by_path (p : Path) : I Inode :=
  let! d := get in
  match d with
  | Directory path_table => ok_or (pm_get p path_table) ErrNo.NoEnt
  | _ => throw ErrNo.NotDir
  end.

Definition InodeImpl_len : I FileSize :=
  let! d := get in
  ret (match d with
       | NativeModule _ f | File f => len f
       | Directory f => Z.of_nat (size f)
       end).

Definition InodeImpl_is_dir (d : InodeImpl) : bool :=
  match d with Directory _ => true | _ => false end.

Definition InodeImpl_is_service (d : InodeImpl) : bool :=
  match d with NativeModule _ _ => true | _ => false end.

Definition InodeImpl_service_handler : I (nat * bytes) :=
  let! d := get in
  match d with
  | NativeModule service input => ret (service, input)
  | _ => throw ErrNo.Inval
  end.
End impl.

(** ** Inode entries ([InodeEntry]) *)

Record InodeEntry := mkInodeEntry { file_stat : FileStat; data : InodeImpl }.

Definition set_data (d : InodeImpl) (e : InodeEntry) : InodeEntry :=
  mkInodeEntry (file_stat e) d.
Definition set_file_size (n : FileSize) (e : InodeEntry) : InodeEntry :=
  let s := file_stat e in
  mkInodeEntry (mkFileStat (device s) (st_inode s) (st_file_type s) (num_links s) n
                  (atime s) (mtime s) (ctime s)) (data e).
Definition set_atime (t : Timestamp) (e : InodeEntry) : InodeEntry :=
  let s := file_stat e in
  mkInodeEntry (mkFileStat (device s) (st_inode s) (st_file_type s) (num_links s)
                  (file_size s) t (mtime s) (ctime s)) (data e).
Definition set_mtime (t : Timestamp) (e : InodeEntry) : InodeEntry :=
  let s := file_stat e in
  mkInodeEntry (mkFileStat (device s) (st_inode s) (st_file_type s) (num_links s)
                  (file_size s) (atime s) t (ctime s)) (data e).

Abbreviation N_ A := (ST InodeEntry ErrNo.t A).

(** [self.data.op(..)] *)
Definition on_data {A} : I A → N_ A := zoom data set_data.

Section entry.
Context {BP : BuildProfile}.

Definition InodeEntry_resize_file (size : FileSize) (fill_byte : Byte.byte) : N_ unit :=
  do! on_data (InodeImpl_resize_file size fill_byte) in
  modify (set_file_size size).

Definition InodeEntry_read_file (buf : bytes) (offset : FileSize) : N_ (Z * bytes) :=
  on_data (InodeImpl_read_file buf offset).

Definition InodeEntry_write_file (buf : bytes) (offset : FileSize) : N_ Z :=
  let! rst := on_data (InodeImpl_write_file buf offset) in
  let! n := on_data InodeImpl_len in
  do! modify (set_file_size n) in
  ret rst.

Definition InodeEntry_truncate_file : N_ unit :=
  do! on_data InodeImpl_truncate_file in
  modify (set_file_size 0%Z).

Definition InodeEntry_insert (p : Path) (inode : Inode) : N_ unit :=
  on_data (InodeImpl_insert p inode).

Definition InodeEntry_get_inode_by_path (p : Path) : N_ Inode :=
  on_data (InodeImpl_get_inode_by_path p).

Definition InodeEntry_is_dir (e : InodeEntry) : bool := InodeImpl_is_dir (data e).
Definition InodeEntry_is_service (e : InodeEntry) : bool := InodeImpl_is_service (data e).
Definition InodeEntry_len : N_ FileSize := on_data InodeImpl_len.
Definition InodeEntry_service_handler : N_ (nat * bytes) := on_data InodeImpl_service_handler.
End entry.

(** ** The inode table ([InodeTable]) *)

Section table.
Context {BP : BuildProfile} {WR : WasiRights} {HO : HashOrder}.

Record InodeTable := mkInodeTable {
  table : gmap Z InodeEntry;
  rights_table : RightsTable;
  stdin : Inode;
  stdout : Inode;
  stderr : Inode;
  next_inode_candidate : Inode;
}.

Abbreviation T A := (ST InodeTable ErrNo.t A).

Definition set_table (m : gmap Z InodeEntry) (t : InodeTable) : InodeTable :=
  mkInodeTable m (rights_table t) (stdin t) (stdout t) (stderr t) (next_inode_candidate t).
Definition set_next_inode (n : Inode) (t : InodeTable) : InodeTable :=
  mkInodeTable (table t) (rights_table t) (stdin t) (stdout t) (stderr t) n.
Definition set_stdin (n : Inode) (t : InodeTable) : InodeTable :=
  mkInodeTable (table t) (rights_table t) n (stdout t) (stderr t) (next_inode_candidate t).
Definition set_stdout (n : Inode) (t : InodeTable) : InodeTable :=
  mkInodeTable (table t) (rights_table t) (stdin t) n (stderr t) (next_inode_candidate t).
Definition set_stderr (n : Inode) (t : InodeTable) : InodeTable :=
  mkInodeTable (table t) (rights_table t) (stdin t) (stdout t) n (next_inode_candidate t).

Definition ROOT_DIRECTORY : string := "/".
Definition ROOT_DIRECTORY_INODE : Inode := 2%Z.

Definition InodeTable_insert (inode : Inode) (e : InodeEntry) : T unit :=
  modify (λ t, set_table (<[inode := e]> (table t)) t).

Definition InodeTable_get (inode : Inode) : T InodeEntry :=
  let! t := get in ok_or (table t !! inode) ErrNo.NoEnt.

(** [self.get_mut(&inode)?.op(..)]: run a method of the entry in place. *)
Definition InodeTable_get_mut {A} (inode : Inode) (op : N_ A) : T A :=
  let! e := InodeTable_get inode in
  let '(r, e') := op e in
  do! InodeTable_insert inode e' in
  lift r.

Definition InodeTable_is_dir (inode : Inode) : T bool :=
  let! t := get in
  ret (match table t !! inode with Some e => InodeEntry_is_dir e | None => false end).

Definition get_rights (principal : Principal) : T (PathMap Rights) :=
  let! t := get in ok_or (rights_table t !! principal) ErrNo.Access.

(** One step of a path lookup: the entry named by a component. *)
Definition lookup_component (last : Inode) (c : Component) : T Inode :=
  let! e := InodeTable_get last in
  lift (InodeEntry_get_inode_by_path (path (as_os_str c)) e).1.

Definition get_inode_by_inode_path (parent_inode : Inode) (p : Path) : T (Inode * InodeEntry) :=
  let! inode := fold_st lookup_component (p_comps p) parent_inode in
  let! e := InodeTable_get inode in
  ret (inode, e).

Definition new_inode : T Inode :=
  let! t := get in
  let cur := next_inode_candidate t in
  do! fail_if (bool_decide (is_Some (table t !! cur))) ErrNo.NFile in
  let! next := ok_or (checked_add u64_bound cur 1) ErrNo.NFile in
  do! modify (set_next_inode next) in
  ret cur.

(** [self.table.get_mut(&parent).ok_or(NoEnt)?.insert(path, new_inode)?] *)
Definition attach (parent : Inode) (p : Path) (new_inode : Inode) : T unit :=
  InodeTable_get_mut parent (InodeEntry_insert p new_inode).

Definition new_file_stat (inode : Inode) (ty : FileType) (size : FileSize) : FileStat :=
  mkFileStat 0 inode ty 0 size 0 0 0.

Definition add_dir (parent : Inode) (p : Path) (new_inode : Inode) : T unit :=
  let node := mkInodeEntry (new_file_stat new_inode Directory_t 0)
                (new_directory new_inode parent) in
  do! (if bool_decide (parent ≠ new_inode) then attach parent p new_inode else ret tt) in
  InodeTable_insert new_inode node.

(** One iteration of [add_all_dir]. *)
Definition add_all_dir_step (parent : Inode) (c : Component) : T Inode :=
  match c with
  | Normal name =>
      try_match (get_inode_by_inode_path parent (path name))
        (λ r, ret r.1)
        (λ e, match e with
              | ErrNo.NoEnt =>
                  let! new_inode := new_inode in
                  do! add_dir parent (path name) new_inode in
                  ret new_inode
              | e => throw e
              end)
  | _ => throw ErrNo.Inval
  end.

Definition add_all_dir (parent : Inode) (p : Path) : T Inode :=
  fold_st add_all_dir_step (p_comps p) parent.

(** The directory a new file goes to and the name it gets there. *)
Definition add_file_target (parent_inode : Inode) (p : Path) : T (Inode * Path) :=
  let! parent_path := ok_or (parent p) ErrNo.Inval in
  if path_eqb parent_path (path "") then ret (parent_inode, p)
  else
    let! name := ok_or (file_name p) ErrNo.Inval in
    do! add_all_dir parent_inode parent_path in
    let! r := get_inode_by_inode_path parent_inode parent_path in
    ret (r.1, path name).

Definition add_file (parent_inode : Inode) (p : Path) (new_inode : Inode)
    (raw_file_data : bytes) : T unit :=
  let! target := add_file_target parent_inode p in
  let! size := lift (try_from_or_errno u64_bound (len raw_file_data)) in
  do! InodeTable_insert new_inode
        (mkInodeEntry (new_file_stat new_inode RegularFile size) (File raw_file_data)) in
  if bool_decide (target.1 ≠ new_inode) then attach target.1 target.2 new_inode else ret tt.

Definition install_standard_streams_inode : T unit :=
  let! i := new_inode in
  do! modify (set_stdin i) in
  do! add_file i (path CANONICAL_STDIN_FILE_PATH) i [] in
  let! i := new_inode in
  do! modify (set_stdout i) in
  do! add_file i (path CANONICAL_STDOUT_FILE_PATH) i [] in
  let! i := new_inode in
  do! modify (set_stderr i) in
  add_file i (path CANONICAL_STDERR_FILE_PATH) i [].

(** [InodeTable::new]: the table after the two initialisation calls. *)
Definition InodeTable_init (rights_table : RightsTable) : InodeTable :=
  mkInodeTable ∅ rights_table 0 1 2 (ROOT_DIRECTORY_INODE + 1).
Definition InodeTable_new (rights_table : RightsTable) : outcome ErrNo.t InodeTable :=
  match
    (do! add_dir ROOT_DIRECTORY_INODE (path ROOT_DIRECTORY) ROOT_DIRECTORY_INODE in
     install_standard_streams_inode) (InodeTable_init rights_table)
  with
  | (Ok _, t) => Ok t
  | (Err e, _) => Err e
  | (Abort p, _) => Abort p
  end.

Definition install_service (ps : Path * nat) : T unit :=
  let! i := new_inode in
  do! add_file ROOT_DIRECTORY_INODE (strip_root_slash ps.1) i [] in
  let! t := get in
  let! e := ok_or (table t !! i) ErrNo.Inval in
  InodeTable_insert i (set_data (NativeModule ps.2 []) e).

Definition InodeTable_install_services (services : list (Path * nat)) : T unit :=
  fold_st (λ _, install_service) services tt.

(** One entry of a directory listing; [index] is its position. *)
Definition dir_ent (index : Z) (p : Path) (inode : Inode) : T (DirEnt * bytes) :=
  let path_byte := as_bytes (p_raw p) in
  let! index := lift (try_from_or_errno u64_bound index) in
  let! next := lift (u64_add index 1) in
  let! name_len := lift (try_from_or_errno u32_bound (len path_byte)) in
  let! e := InodeTable_get inode in
  ret (mkDirEnt next inode name_len (st_file_type (file_stat e)), path_byte).

Fixpoint read_dir_loop (index : Z) (l : list (Path * Inode)) : T (list (DirEnt * bytes)) :=
  match l with
  | [] => ret []
  | (p, inode) :: l' =>
      let! ent := dir_ent index p inode in
      let! rest := read_dir_loop (index + 1)%Z l' in
      ret (ent :: rest)
  end.

(** [inode_table.get(&inode)?.read_dir(&inode_table)] *)
Definition read_dir (inode : Inode) : T (list (DirEnt * bytes)) :=
  let! e := InodeTable_get inode in
  match data e with
  | Directory d => read_dir_loop 0 (pm_iter d)
  | _ => throw ErrNo.NotDir
  end.
End table.

(** ** Files as byte sequences

    The contents after a write: the old bytes, extended with zeros up to the
    offset, with the buffer written over them. *)
Definition splice (file : bytes) (off : nat) (buf : bytes) : bytes :=
  take off (file ++ replicate (off - length file) Byte.x00) ++ buf ++
  drop (off + length buf) file.

Lemma length_splice file off buf :
  length (splice file off buf) = Nat.max (length file) (off + length buf).
Proof.
  unfold splice. rewrite !length_app, length_take, length_app, length_replicate, length_drop. lia.
Qed.

Lemma lookup_splice file off buf i :
  splice file off buf !! i =
    if decide (off ≤ i < off + length buf) then buf !! (i - off)
    else if decide (i < length file) then file !! i
    else if decide (i < off) then Some Byte.x00 else None.
Proof.
  unfold splice.
  assert (length (take off (file ++ replicate (off - length file) Byte.x00)) = off) as Hlen.
  { rewrite length_take, length_app, length_replicate. lia. }
  case_decide as Hin.
  - rewrite lookup_app_r by lia. rewrite lookup_app_l by lia. f_equal. lia.
  - destruct (decide (i < off)) as [Hlt|Hge].
    + rewrite lookup_app_l by lia. rewrite lookup_take_lt by lia. case_decide.
      * by rewrite lookup_app_l by lia.
      * rewrite lookup_app_r by lia. apply lookup_replicate_2. lia.
    + rewrite lookup_app_r by lia. rewrite lookup_app_r by lia. rewrite lookup_drop.
      replace (off + length buf + (i - _ - length buf)) with i by lia.
      case_decide; [done|]. apply lookup_ge_None_2. lia.
Qed.

Section file_content.
Context {BP : BuildProfile}.
Local Open Scope Z_scope.

Lemma try_from_or_errno_Ok bound z z' :
  try_from_or_errno bound z = Ok z' ↔ z' = z ∧ 0 ≤ z < bound.
Proof.
  unfold try_from_or_errno.
  destruct (Z.leb_spec 0 z), (Z.ltb_spec z bound); simpl; naive_solver lia.
Qed.

Lemma try_from_or_errno_in bound z : 0 ≤ z < bound → try_from_or_errno bound z = Ok z.
Proof. intros Hz. by apply try_from_or_errno_Ok. Qed.

Lemma try_from_triple {S} (P : S → Prop) bound z :
  triple P (lift (try_from_or_errno bound z)) (λ z' s, P s ∧ z' = z ∧ 0 ≤ z < bound) P.
Proof.
  apply triple_lift. intros s Hs.
  destruct (try_from_or_errno bound z) eqn:Hz; [|done|done].
  by apply try_from_or_errno_Ok in Hz.
Qed.

(** A write succeeds exactly when the end of the written range fits a [Vec],
    and its result is [splice]. *)
Lemma InodeImpl_write_file_ok buf off d file :
  content d = Some file → 0 ≤ off < u64_bound → len file < i64_bound →
  (off + len buf < i64_bound ∨ off + len buf ≤ len file) →
  InodeImpl_write_file buf off d =
    (Ok (len buf), set_content (splice file (Z.to_nat off) buf) d).
Proof.
  intros Hc Hoff Hfile Hfit. pose proof (len_nonneg buf). pose proof (len_nonneg file).
  unfold InodeImpl_write_file, bind, get, ok_or, lift, ret, put, usize_add. simpl.
  rewrite Hc, try_from_or_errno_in, unsigned_add_small by lia.
  destruct (Z.ltb_spec (len file) (off + len buf)) as [Hgrow|Hin].
  - rewrite vec_resize_in by lia. unfold len in *. rewrite copy_into_in.
    2, 3: unfold len; rewrite ?length_app, ?length_take, ?length_replicate; lia.
    do 3 f_equal. unfold splice. f_equal.
    + rewrite (take_ge file) by lia. rewrite !take_app, !take_replicate. do 2 f_equal. lia.
    + f_equal. rewrite !drop_ge; [done|lia|].
      rewrite length_app, length_take, length_replicate. lia.
  - rewrite copy_into_in by lia. do 3 f_equal. unfold splice, len in *. f_equal.
    + rewrite take_app_le by lia. done.
    + do 2 f_equal. lia.
Qed.

(** The other outcomes leave the file as it was. *)
Lemma InodeImpl_write_file_inv buf off d :
  (∀ file, content d = Some file → len file < i64_bound) →
  (∃ file, content d = Some file ∧ 0 ≤ off < u64_bound ∧
     (off + len buf < i64_bound ∨ off + len buf ≤ len file) ∧
     InodeImpl_write_file buf off d =
       (Ok (len buf), set_content (splice file (Z.to_nat off) buf) d)) ∨
  (is_ok (InodeImpl_write_file buf off d).1 = false ∧ (InodeImpl_write_file buf off d).2 = d).
Proof.
  intros Hfile. destruct (content d) as [file|] eqn:Hc.
  2: { right. unfold InodeImpl_write_file, bind, get, ok_or. simpl. by rewrite Hc. }
  specialize (Hfile file eq_refl). pose proof (len_nonneg buf).
  destruct (decide (0 ≤ off < u64_bound)) as [Hoff|Hoff].
  2: { right. unfold InodeImpl_write_file, bind, get, ok_or, lift. simpl. rewrite Hc.
       destruct (try_from_or_errno u64_bound off) eqn:Ht; [|done|done].
       by apply try_from_or_errno_Ok in Ht as [_ ?]. }
  destruct (decide (off + len buf < i64_bound ∨ off + len buf ≤ len file)) as [Hfit|Hfit].
  { left. exists file. eauto using InodeImpl_write_file_ok. }
  right. unfold InodeImpl_write_file, bind, get, ok_or, lift, put, ret, usize_add. simpl.
  rewrite Hc, try_from_or_errno_in by done.
  unfold unsigned_add. destruct (Z.ltb_spec (off + len buf) u64_bound) as [Hs|Hs].
  - destruct (Z.ltb_spec (len file) (off + len buf)); [|lia].
    unfold vec_resize. by destruct (Z.ltb_spec (off + len buf) i64_bound); [lia|].
  - destruct overflow_checks; [done|].
    assert (∀ f : bytes, copy_into (E:=ErrNo.t) f off ((off + len buf) mod u64_bound) buf
              = Abort SliceOutOfRange) as Habort.
    { intros f. unfold copy_into.
      destruct (Z.eqb_spec (len buf) ((off + len buf) mod u64_bound - off)) as [He|_].
      - pose proof (Z.mod_pos_bound (off + len buf) u64_bound). lia.
      - by rewrite andb_false_r. }
    destruct (len file <? _); [|by rewrite Habort].
    unfold vec_resize. destruct (_ <? i64_bound); [by rewrite Habort|done].
Qed.

Lemma InodeImpl_resize_file_inv size fill d :
  (∃ file, content d = Some file ∧ 0 ≤ size < i64_bound ∧
     InodeImpl_resize_file size fill d =
       (Ok tt, set_content (take (Z.to_nat size) file ++
                             replicate (Z.to_nat size - length file) fill) d)) ∨
  (is_ok (InodeImpl_resize_file size fill d).1 = false ∧
   (InodeImpl_resize_file size fill d).2 = d).
Proof.
  unfold InodeImpl_resize_file, bind, get, ok_or, lift, put. simpl.
  destruct (content d) as [file|] eqn:Hc; [|by right].
  destruct (try_from_or_errno u64_bound size) as [z| |] eqn:Ht; [|by right..].
  apply try_from_or_errno_Ok in Ht as [-> ?].
  unfold vec_resize. destruct (Z.ltb_spec size i64_bound); [|by right].
  left. exists file. split_and!; (lia || done).
Qed.

(** ** Entries *)

Definition file_content (e : InodeEntry) : option bytes := content (data e).

Lemma InodeEntry_write_file_ok buf off e file :
  file_content e = Some file → 0 ≤ off < u64_bound → len file < i64_bound →
  (off + len buf < i64_bound ∨ off + len buf ≤ len file) →
  let file' := splice file (Z.to_nat off) buf in
  InodeEntry_write_file buf off e =
    (Ok (len buf), set_file_size (len file') (set_data (set_content file' (data e)) e)).
Proof.
  intros Hc Hoff Hlen Hfit file'.
  unfold InodeEntry_write_file, on_data, zoom, bind. simpl.
  rewrite (InodeImpl_write_file_ok _ _ _ file) by done. simpl.
  unfold InodeImpl_len, file_content, content in *.
  destruct (data e); simplify_eq; done.
Qed.

Lemma InodeEntry_read_file_ok buf off e file :
  file_content e = Some file → 0 ≤ off ≤ len file → len file < i64_bound →
  let n := Nat.min (length buf) (length file - Z.to_nat off) in
  InodeEntry_read_file buf off e =
    (Ok (Z.of_nat n, take n (drop (Z.to_nat off) file) ++ drop n buf), e).
Proof.
  intros Hc Hoff Hlen n.
  unfold InodeEntry_read_file, on_data, zoom, InodeImpl_read_file, bind, get, ok_or, lift. simpl.
  unfold file_content in Hc. rewrite Hc. unfold read_bytes_from_offset.
  rewrite try_from_or_errno_in by lia.
  destruct (Z.leb_spec off (len file)); [|lia]. rewrite length_drop. by destruct e.
Qed.
End file_content.
