(* ===== verification/FileSystem.v ===== *)
(** * Filesystem handlers

    The operations of the synthetic filesystem: a handler ([FileSystem]) with
    its descriptor table, over the inode table and the native services that
    all handlers share.

    Sources: [execution-engine/src/fs.rs], [FdEntry], [FileSystem] and the
    [Service] trait; [execution-engine/src/native_modules/].

    The mutexes are modelled as follows.  The inode table's lock is taken and
    released within each access, so it is never contended in a single thread
    and its [Busy] error does not occur.  A service's lock is held while the
    service runs, and the service may write to the filesystem: re-entering it
    does not return ([MutexReentered]). *)

From S2P Require Import Prelude RustPath WasiTypes Policy InodeTable.

(** ** Native services ([native_modules]) *)

(** [native_modules/aes.rs] *)
Record AesCounterModeService := mkAes {
  aes_key : bytes;
  aes_iv : bytes;
  aes_input_path : Path;
  aes_output_path : Path;
  aes_is_encryption : bool;
}.

Definition AesCounterModeService_new : AesCounterModeService :=
  mkAes (replicate 16 Byte.x00) (replicate 16 Byte.x00) (path "") (path "") false.

Definition AesCounterModeService_reset (_ : AesCounterModeService) : AesCounterModeService :=
  mkAes (replicate 16 Byte.x00) (replicate 16 Byte.x00) (path "") (path "") false.

(** [native_modules/postcard.rs]; [char] and the floating-point numbers are
    kept as their bits. *)
Inductive Enum1 :=
  | ENUM1_1 (x : Z) | ENUM1_2 (x : Z) | ENUM1_3 (c : Z) | ENUM1_4 (cs : list Z).
Record Struct1 := mkStruct1 {
  s1_f1 : Z; s1_f2 : Z; s1_f3 : Z; s1_i1 : Z; s1_i2 : Z; s1_i3 : Z;
  s1_c1 : Z; s1_c2 : Z; s1_c3 : Z; s1_e1 : Enum1 }.
Record Struct2 := mkStruct2 {
  s2_u1 : Z; s2_u2 : Z; s2_u3 : Z; s2_t1 : Struct1; s2_array1 : list Z; s2_array2 : list Z;
  s2_e1 : Enum1 }.
Inductive Enum2 := ENUM2_1 (s : Struct2) | ENUM2_2 (a : list Z) | ENUM2_3 (x : Z).
Record Struct3 := mkStruct3 { s3_e1 : Enum2; s3_e2 : Enum2; s3_e3 : Enum2 }.

(** The implementations of the trait [Service] behind [Box<dyn Service>]. *)
Inductive Service :=
  | PostcardService
  | AesService (st : AesCounterModeService).

(** The derived [Deserialize] reads the fields in order; a [PathBuf] is read
    from its text. *)
Definition AesCounterModeService_of_fields
    (r : bytes * bytes * string * string * bool) : AesCounterModeService :=
  let '(key, iv, input_path, output_path, is_encryption) := r in
  mkAes key iv (path input_path) (path output_path) is_encryption.

(** Libraries the services call: the [postcard] and [serde_json] codecs and
    the PSA cipher (with [true] for [encrypt]), which fills an output buffer
    of the given length and returns it with the number of bytes produced. *)
Class NativeLibs := {
  postcard_aes : bytes → option (bytes * bytes * string * string * bool);
  postcard_structs : bytes → option (list Struct3);
  json_structs : list Struct3 → option bytes;
  psa_init : bool;
  psa_key : Type;
  psa_import : bytes → option psa_key;
  psa_cipher : bool → psa_key → bytes → bytes → nat → option (bytes * Z);
}.

(** ** State *)

Section filesystem.
Context {BP : BuildProfile} {WR : WasiRights} {HO : HashOrder} {NL : NativeLibs}.

Record FdStat := mkFdStat {
  fs_file_type : FileType; flags : FdFlags; rights_base : Rights; rights_inheriting : Rights }.

Record FdEntry := mkFdEntry {
  fe_inode : Inode; fd_stat : FdStat; offset : FileSize;
  advice : list (FileSize * FileSize * Advice) }.

Record FileSystem := mkFileSystem {
  fd_table : gmap Z FdEntry;
  next_fd_candidate : Fd;
  prestat_table : gmap Z Path;
}.

(** A service with the state of its mutex. *)
Record service_cell := mkCell { sc_service : Service; sc_locked : bool }.

(** What the handlers share through [Arc]: the inode table and the services. *)
Record World := mkWorld { inode_table : InodeTable; services : list service_cell }.

Record fs_state := mkState { handle : FileSystem; world : World }.

Abbreviation M A := (ST fs_state ErrNo.t A).

Definition set_fd_table (m : gmap Z FdEntry) (s : fs_state) : fs_state :=
  mkState (mkFileSystem m (next_fd_candidate (handle s)) (prestat_table (handle s))) (world s).
Definition set_next_fd (fd : Fd) (s : fs_state) : fs_state :=
  mkState (mkFileSystem (fd_table (handle s)) fd (prestat_table (handle s))) (world s).
Definition set_prestat_table (m : gmap Z Path) (s : fs_state) : fs_state :=
  mkState (mkFileSystem (fd_table (handle s)) (next_fd_candidate (handle s)) m) (world s).
Definition set_inode_table (t : InodeTable) (s : fs_state) : fs_state :=
  mkState (handle s) (mkWorld t (services (world s))).
Definition set_services (l : list service_cell) (s : fs_state) : fs_state :=
  mkState (handle s) (mkWorld (inode_table (world s)) l).

Definition FIRST_FD : Fd := 3%Z.
Definition DEFAULT_RIGHTS : Rights := rights_all.

(** [Rights::NAME] *)
Local Coercion right_of : right_name >-> Rights.

(** ** Internal auxiliary methods *)

(** [self.lock_inode_table()?.op(..)] *)
Definition lock_inode_table {A} (op : ST InodeTable ErrNo.t A) : M A :=
  zoom (λ s, inode_table (world s)) set_inode_table op.

(** [self.fd_table.get(&fd).ok_or(ErrNo::BadF)?] *)
Definition fd_get (fd : Fd) : M FdEntry :=
  let! s := get in ok_or (fd_table (handle s) !! fd) ErrNo.BadF.

Definition fd_insert (fd : Fd) (e : FdEntry) : M unit :=
  modify (λ s, set_fd_table (<[fd := e]> (fd_table (handle s))) s).

(** [*self.fd_table.get_mut(&fd).ok_or(ErrNo::BadF)? = f(..)] *)
Definition fd_update (fd : Fd) (f : FdEntry → FdEntry) : M unit :=
  let! e := fd_get fd in fd_insert fd (f e).

Definition set_offset (n : FileSize) (e : FdEntry) : FdEntry :=
  mkFdEntry (fe_inode e) (fd_stat e) n (advice e).
Definition set_flags (fl : FdFlags) (e : FdEntry) : FdEntry :=
  let st := fd_stat e in
  mkFdEntry (fe_inode e)
    (mkFdStat (fs_file_type st) fl (rights_base st) (rights_inheriting st))
    (offset e) (advice e).
Definition push_advice (a : FileSize * FileSize * Advice) (e : FdEntry) : FdEntry :=
  mkFdEntry (fe_inode e) (fd_stat e) (offset e) (advice e ++ [a]).

Definition install_fd (fd : Fd) (file_type : FileType) (inode : Inode)
    (rights_base rights_inheriting : Rights) : M unit :=
  fd_insert fd (mkFdEntry inode
    (mkFdStat file_type FdFlags_empty rights_base rights_inheriting) 0 []).

Definition new_fd : M Fd :=
  let! s := get in
  let cur := next_fd_candidate (handle s) in
  do! fail_if (Z.testbit cur 31 || bool_decide (is_Some (fd_table (handle s) !! cur)))
        ErrNo.NFile in
  let! next := lift (u32_add cur 1) in
  do! modify (set_next_fd next) in
  ret cur.

Definition check_right (fd : Fd) (rights : Rights) : M unit :=
  let! e := fd_get fd in
  if rights_contains (rights_base (fd_stat e)) rights then ret tt else throw ErrNo.Access.

Definition get_inode_by_fd (fd : Fd) : M Inode :=
  let! e := fd_get fd in ret (fe_inode e).

Definition get_inode_by_fd_path (fd : Fd) (p : Path) : M Inode :=
  let! parent_inode := get_inode_by_fd fd in
  let! r := lock_inode_table (get_inode_by_inode_path parent_inode p) in
  ret r.1.

(** The descriptor and inode a standard stream name stands for. *)
Definition std_stream_target (t : InodeTable) (name : string) : option (Fd * Inode) :=
  if decide (name = CANONICAL_STDIN_FILE_PATH) then Some (0%Z, stdin t)
  else if decide (name = CANONICAL_STDOUT_FILE_PATH) then Some (1%Z, stdout t)
  else if decide (name = CANONICAL_STDERR_FILE_PATH) then Some (2%Z, stderr t)
  else None.

Definition install_standard_stream (std_stream : FileRights) : M unit :=
  let! s := get in
  match std_stream_target (inode_table (world s)) (fr_file_name std_stream) with
  | None => ret tt
  | Some (fd_number, inode_number) =>
      let! bits := lift (try_from_or_errno u64_bound (fr_rights std_stream)) in
      let! rights := ok_or (rights_from_bits bits) ErrNo.Inval in
      install_fd fd_number RegularFile inode_number rights rights
  end.

Definition install_standard_streams_fd (std_streams_table : list FileRights) : M unit :=
  fold_st (λ _, install_standard_stream) std_streams_table tt.

Definition is_std_stream (name : string) : bool :=
  bool_decide (name = CANONICAL_STDIN_FILE_PATH) ||
  bool_decide (name = CANONICAL_STDOUT_FILE_PATH) ||
  bool_decide (name = CANONICAL_STDERR_FILE_PATH).

(** The [filter_map] that extracts the rights of the standard streams. *)
Definition std_stream_rights (e : Path * Rights) : option FileRights :=
  if is_std_stream (p_raw e.1) then
    match try_from_or_errno u32_bound (rights_bits e.2) with
    | Ok rights_u32 => Some (mkFileRights (p_raw e.1) rights_u32)
    | _ => None
    end
  else None.

Definition is_std_path (p : Path) : bool :=
  path_eqb p (path CANONICAL_STDIN_FILE_PATH) ||
  path_eqb p (path CANONICAL_STDOUT_FILE_PATH) ||
  path_eqb p (path CANONICAL_STDERR_FILE_PATH).

(** One iteration of the loop of [install_prestat]: the index counts on. *)
Definition install_prestat_dir (index : Z) (e : Path * Rights) : M Z :=
  let! index_u32 := lift (try_from_or_errno u32_bound index) in
  let! new_fd := lift (u32_add index_u32 FIRST_FD) in
  let relative_path := strip_root_slash e.1 in
  let! new_inode :=
    (if path_eqb relative_path (path "") then ret ROOT_DIRECTORY_INODE
     else lock_inode_table (add_all_dir ROOT_DIRECTORY_INODE relative_path)) in
  do! install_fd new_fd Unknown new_inode e.2 e.2 in
  do! modify (λ s, set_prestat_table (<[new_fd := e.1]> (prestat_table (handle s))) s) in
  ret (index + 1)%Z.

Definition install_prestat (rights_table : PathMap Rights) : M unit :=
  let entries := pm_iter rights_table in
  do! install_standard_streams_fd (omap std_stream_rights entries) in
  do! fold_st install_prestat_dir
        (filter (λ e : Path * Rights, is_std_path e.1 = false) entries) 0%Z in
  let! n := lift (try_from_or_errno u32_bound (Z.of_nat (size rights_table))) in
  let! next := lift (u32_add FIRST_FD n) in
  modify (set_next_fd next).

(** A new handler over the same shared state. *)
Definition empty_handle : FileSystem := mkFileSystem ∅ FIRST_FD ∅.

(** Run [op] on the handler [h] instead of [self]; the shared state is kept,
    [self] is not touched, and the other handler's final value is returned. *)
Definition with_handle {E A} (h : FileSystem) (op : ST fs_state E A) :
  ST fs_state E (A * FileSystem) := λ s,
  match op (mkState h (world s)) with
  | (Ok a, s') => (Ok (a, handle s'), mkState (handle s) (world s'))
  | (Err e, s') => (Err e, mkState (handle s) (world s'))
  | (Abort p, s') => (Abort p, mkState (handle s) (world s'))
  end.

Definition spawn (principal : Principal) : M FileSystem :=
  let! rights := lock_inode_table (get_rights principal) in
  let! r := with_handle empty_handle (install_prestat rights) in
  ret r.2.
End filesystem.
