(* ===== verification/FsOps.v ===== *)
(** * Operations of a filesystem handler

    The Rust-style WASI operations of [FileSystem], the native services they
    trigger, and the interface used by the Veracruz runtime.

    Sources: [execution-engine/src/fs.rs] ([impl FileSystem]),
    [execution-engine/src/native_modules/aes.rs] and [postcard.rs]. *)

From S2P Require Import Prelude RustPath WasiTypes Policy InodeTable FileSystem.

Abbreviation M A := (ST fs_state ErrNo.t A).

Section ops.
Context {BP : BuildProfile} {WR : WasiRights} {HO : HashOrder} {NL : NativeLibs}.

(** [Rights::NAME] *)
Local Coercion right_of : right_name >-> Rights.

(** ** Descriptors *)

Definition fd_advise (fd : Fd) (off length : FileSize) (adv : Advice) : M unit :=
  do! check_right fd FD_ADVISE in
  fd_update fd (push_advice (off, length, adv)).

Definition fd_allocate (fd : Fd) (off length : FileSize) : M unit := throw ErrNo.NoSys.

(** The special file of a service is emptied when a descriptor on it is closed. *)
Definition fd_close (fd : Fd) : M unit :=
  let! inode := get_inode_by_fd fd in
  do! lock_inode_table (InodeTable_get_mut inode
        (let! f := get in
         if InodeEntry_is_service f then InodeEntry_truncate_file else ret tt)) in
  let! _e := fd_get fd in
  modify (λ s, set_fd_table (delete fd (fd_table (handle s))) s).

Definition fd_datasync (fd : Fd) : M unit :=
  do! check_right fd FD_DATASYNC in throw ErrNo.NoSys.

Definition fd_fdstat_get (fd : Fd) : M FdStat :=
  let! e := fd_get fd in ret (fd_stat e).

Definition fd_fdstat_set_flags (fd : Fd) (fl : FdFlags) : M unit :=
  do! check_right fd FD_FDSTAT_SET_FLAGS in
  fd_update fd (set_flags fl).

(** The source assigns to a copy of the descriptor's status. *)
Definition fd_fdstat_set_rights (fd : Fd) (base inheriting : Rights) : M unit :=
  let! e := fd_get fd in
  let st := fd_stat e in
  let st := mkFdStat (fs_file_type st) (flags st) base (rights_inheriting st) in
  let _st := mkFdStat (fs_file_type st) (flags st) (rights_base st) inheriting in
  ret tt.

Definition fd_filestat_get (fd : Fd) : M FileStat :=
  let! inode := get_inode_by_fd fd in
  let! e := lock_inode_table (InodeTable_get inode) in
  ret (file_stat e).

Definition fd_filestat_set_size (fd : Fd) (size : FileSize) : M unit :=
  do! check_right fd FD_FILESTAT_SET_SIZE in
  let! inode := get_inode_by_fd fd in
  lock_inode_table (InodeTable_get_mut inode (InodeEntry_resize_file size Byte.x00)).

(** The cascade of [if]s shared by the two [set_times] operations. *)
Definition set_times (at_ mt : Timestamp) (fl : SetTimeFlags) (now : Timestamp)
    (e : InodeEntry) : InodeEntry :=
  if ATIME_NOW fl then set_atime now e
  else if MTIME_NOW fl then set_mtime now e
  else if ATIME fl then set_atime at_ e
  else if MTIME fl then set_mtime mt e
  else e.

Definition fd_filestat_set_times (fd : Fd) (at_ mt : Timestamp) (fl : SetTimeFlags)
    (now : Timestamp) : M unit :=
  do! check_right fd FD_FILESTAT_SET_TIMES in
  let! inode := get_inode_by_fd fd in
  lock_inode_table (InodeTable_get_mut inode (modify (set_times at_ mt fl now))).

(** ** Reading *)

(** The loop over the buffers: offset, total and the buffers filled so far. *)
Definition pread_step (f : InodeEntry) (acc : FileSize * Z * list bytes) (buf : bytes) :
  M (FileSize * Z * list bytes) :=
  let '(off, total, done) := acc in
  let! r := lift (InodeEntry_read_file buf off f).1 in
  let! delta := lift (try_from_or_errno u64_bound r.1) in
  let! off' := lift (u64_add off delta) in
  let! total' := lift (usize_add total r.1) in
  ret (off', total', done ++ [r.2]).

Definition fd_pread (fd : Fd) (bufs : list bytes) (off : FileSize) : M (Z * list bytes) :=
  do! check_right fd FD_READ in
  let! inode := get_inode_by_fd fd in
  let! f := lock_inode_table (InodeTable_get inode) in
  let! r := fold_st (pread_step f) bufs (off, 0%Z, []) in
  ret (r.1.2, r.2).

Definition fd_prestat_get (fd : Fd) : M Prestat :=
  let! s := get in
  let! p := ok_or (prestat_table (handle s) !! fd) ErrNo.BadF in
  let! name_len := lift (try_from_or_errno u32_bound (Z.of_nat (String.length (p_raw p)))) in
  ret (mkPrestat (PreopenDir name_len)).

Definition fd_prestat_dir_name (fd : Fd) : M Path :=
  let! s := get in
  ok_or (prestat_table (handle s) !! fd) ErrNo.BadF.

Definition new_base_offset (whence : Whence) (off size : FileSize) : FileSize :=
  match whence with Current => off | End_ => size | Start => 0%Z end.

Definition fd_seek (fd : Fd) (delta : FileDelta) (whence : Whence) : M FileSize :=
  do! check_right fd FD_SEEK in
  let! e := fd_get fd in
  let! f := lock_inode_table (InodeTable_get (fe_inode e)) in
  let size := file_size (file_stat f) in
  let base := new_base_offset whence (offset e) size in
  let! new_offset :=
    (if (0 <=? delta)%Z then
       let! a := lift (i64_abs delta) in
       let! d := lift (try_from_or_errno u64_bound a) in
       let! t_offset := lift (u64_add base d) in
       do! (if (size <? t_offset)%Z then fd_filestat_set_size fd t_offset else ret tt) in
       ret t_offset
     else
       let! a := lift (i64_abs delta) in
       let! d := lift (try_from_or_errno u64_bound a) in
       do! fail_if (base <? d)%Z ErrNo.SPipe in
       ret (base - d)%Z) in
  do! fd_update fd (set_offset new_offset) in
  ret new_offset.

Definition fd_read (fd : Fd) (bufs : list bytes) : M (Z * list bytes) :=
  do! check_right fd FD_READ in
  let! e := fd_get fd in
  let! r := fd_pread fd bufs (offset e) in
  do! fd_seek fd (as_i64 r.1) Current in
  ret r.

Definition fd_readdir (fd : Fd) (cookie : Z) : M (list (DirEnt * bytes)) :=
  do! check_right fd FD_READDIR in
  let! dir_inode := get_inode_by_fd fd in
  let! dirs := lock_inode_table (read_dir dir_inode) in
  let! cookie := lift (try_from_or_errno u64_bound cookie) in
  if (len dirs <? cookie)%Z then ret [] else ret (drop (Z.to_nat cookie) dirs).

Definition fd_renumber (old_fd new_fd : Fd) : M unit :=
  let! e := fd_get old_fd in
  let! s := get in
  match fd_table (handle s) !! new_fd with
  | None =>
      do! fd_insert new_fd e in
      modify (λ s, set_fd_table (delete old_fd (fd_table (handle s))) s)
  | Some _ => throw ErrNo.BadF
  end.

Definition fd_sync (fd : Fd) : M unit :=
  do! check_right fd FD_SYNC in ret tt.

Definition fd_tell (fd : Fd) : M FileSize :=
  do! check_right fd FD_TELL in
  let! e := fd_get fd in ret (offset e).

(** ** Paths *)

Definition create_directory_step (last : Inode) (c : Component) : M Inode :=
  match c with
  | Normal name =>
      let! new_inode := lock_inode_table new_inode in
      do! lock_inode_table (add_dir last (path name) new_inode) in
      ret new_inode
  | _ => throw ErrNo.Inval
  end.

Definition path_create_directory (fd : Fd) (p : Path) : M unit :=
  do! check_right fd PATH_CREATE_DIRECTORY in
  let! parent_inode := get_inode_by_fd fd in
  let! is_dir := lock_inode_table (InodeTable_is_dir parent_inode) in
  do! fail_if (negb is_dir) ErrNo.NotDir in
  do! try_match (get_inode_by_fd_path fd p) (λ _, throw ErrNo.Exist) (λ _, ret tt) in
  do! fold_st create_directory_step (p_comps p) parent_inode in
  ret tt.

Definition path_filestat_get (fd : Fd) (p : Path) : M FileStat :=
  do! check_right fd PATH_FILESTAT_GET in
  let! inode := get_inode_by_fd_path fd p in
  let! e := lock_inode_table (InodeTable_get inode) in
  ret (file_stat e).

Definition path_filestat_set_times (fd : Fd) (p : Path) (at_ mt : Timestamp)
    (fl : SetTimeFlags) (now : Timestamp) : M unit :=
  do! check_right fd PATH_FILESTAT_SET_TIMES in
  let! inode := get_inode_by_fd_path fd p in
  lock_inode_table (InodeTable_get_mut inode (modify (set_times at_ mt fl now))).

(** The inode [path_open] opens: an existing one, or a new file. *)
Definition path_open_inode (fd : Fd) (parent_inode : Inode) (p : Path) (oflags : OpenFlags) :
  M Inode :=
  try_match (get_inode_by_fd_path fd p)
    (λ inode,
      do! fail_if (EXCL oflags) ErrNo.Exist in
      let! is_dir := lock_inode_table (InodeTable_is_dir inode) in
      do! fail_if (DIRECTORY oflags && negb is_dir) ErrNo.NotDir in
      ret inode)
    (λ e,
      do! fail_if (negb (CREATE oflags)) e in
      do! check_right fd PATH_CREATE_FILE in
      let! new_inode := lock_inode_table new_inode in
      do! lock_inode_table (add_file parent_inode p new_inode []) in
      ret new_inode).

Definition path_open (fd : Fd) (p : Path) (oflags : OpenFlags) (base inheriting : Rights)
    (fl : FdFlags) : M Fd :=
  do! check_right fd PATH_OPEN in
  let! parent_inode := get_inode_by_fd fd in
  let! is_dir := lock_inode_table (InodeTable_is_dir parent_inode) in
  do! fail_if (negb is_dir) ErrNo.NotDir in
  let! e := fd_get fd in
  let fd_inheriting := rights_inheriting (fd_stat e) in
  let base := rights_inter base fd_inheriting in
  let inheriting := rights_inter inheriting fd_inheriting in
  let! inode := path_open_inode fd parent_inode p oflags in
  do! (if TRUNC oflags then
         do! check_right fd PATH_FILESTAT_SET_SIZE in
         lock_inode_table (InodeTable_get_mut inode InodeEntry_truncate_file)
       else ret tt) in
  let! new_fd := new_fd in
  let! f := lock_inode_table (InodeTable_get inode) in
  do! fd_insert new_fd
        (mkFdEntry inode (mkFdStat (st_file_type (file_stat f)) fl base inheriting)
           0 [(0%Z, file_size (file_stat f), AdviceNormal)]) in
  ret new_fd.

(** ** Unsupported operations *)

Definition path_readlink (fd : Fd) (p : Path) : M bytes :=
  do! check_right fd PATH_READLINK in throw ErrNo.NoSys.
Definition path_remove_directory (fd : Fd) (p : Path) : M unit :=
  do! check_right fd PATH_REMOVE_DIRECTORY in throw ErrNo.NoSys.
Definition path_rename (old_fd : Fd) (old_path : Path) (new_fd : Fd) (new_path : Path) : M unit :=
  do! check_right old_fd PATH_RENAME_SOURCE in
  do! check_right new_fd PATH_RENAME_TARGET in throw ErrNo.NoSys.
Definition path_link (old_fd : Fd) (old_path : Path) (new_fd : Fd) (new_path : Path) : M unit :=
  do! check_right old_fd PATH_LINK_SOURCE in
  do! check_right new_fd PATH_LINK_TARGET in throw ErrNo.NoSys.
Definition path_symlink (old_path : Path) (fd : Fd) (new_path : Path) : M unit :=
  do! check_right fd PATH_SYMLINK in throw ErrNo.NoSys.
Definition path_unlink_file (fd : Fd) (p : Path) : M unit :=
  do! check_right fd PATH_UNLINK_FILE in throw ErrNo.NoSys.
Definition poll_oneoff : M Z := throw ErrNo.NoSys.
Definition sock_recv (socket : Fd) : M (Z * Z) :=
  do! check_right socket FD_READ in throw ErrNo.NoSys.
Definition sock_send (socket : Fd) : M Z :=
  do! check_right socket FD_WRITE in throw ErrNo.NoSys.
Definition sock_shutdown (socket : Fd) : M unit :=
  do! check_right socket SOCK_SHUTDOWN in throw ErrNo.NoSys.

(** ** Anonymous files *)

Definition fd_create : M Fd :=
  let! inode := lock_inode_table new_inode in
  do! lock_inode_table (InodeTable_insert inode
        (mkInodeEntry (new_file_stat inode RegularFile 0) (File []))) in
  let! new_fd := new_fd in
  do! fd_insert new_fd
        (mkFdEntry inode (mkFdStat RegularFile FdFlags_empty rights_all rights_all)
           0 [(0%Z, 0%Z, AdviceNormal)]) in
  ret new_fd.

(** ** The preopened descriptor of a path *)

Definition prestat_of (h : FileSystem) (p : Path) : option Fd :=
  (λ r : nat * (Z * Path), r.2.1) <$>
    list_find (λ e : Z * Path, path_eqb e.2 p = true) (hash_iter (prestat_table h)).

Fixpoint find_prestat_in (h : FileSystem) (l : list Path) : option (Fd * Path) :=
  match l with
  | [] => None
  | parent_path :: l' =>
      match prestat_of h parent_path with
      | Some fd => Some (fd, parent_path)
      | None => find_prestat_in h l'
      end
  end.

Definition find_prestat (p : Path) : M (Fd * Path) :=
  let! s := get in
  let! r := ok_or (find_prestat_in (handle s) (ancestors p)) ErrNo.Access in
  let! rel := ok_or (strip_prefix p r.2) ErrNo.Inval in
  ret (r.1, rel).

(** [vec![0u8; n]] *)
Definition zeroed (n : Z) : M bytes := lift (vec_resize [] n Byte.x00).

Definition read_file_by_absolute_path (p : Path) : M bytes :=
  let! r := find_prestat p in
  let! fd := path_open r.1 r.2 OpenFlags_empty DEFAULT_RIGHTS DEFAULT_RIGHTS FdFlags_empty in
  let! e := fd_get fd in
  do! fail_if (negb (rights_contains (rights_base (fd_stat e)) (rights_union FD_READ FD_SEEK)))
        ErrNo.Access in
  let! st := fd_filestat_get fd in
  let! vec := zeroed (file_size st) in
  let! r := fd_read fd [vec] in
  let vec := concat r.2 in
  do! debug_assert (r.1 =? len vec)%Z in
  do! fd_close fd in
  ret vec.

Definition read_std_stream (fd : Fd) : M bytes :=
  let! inode := get_inode_by_fd fd in
  let! e := lock_inode_table (InodeTable_get inode) in
  let! n := lift (InodeEntry_len e).1 in
  let! vec := zeroed n in
  let! r := fd_read fd [vec] in
  let vec := concat r.2 in
  do! debug_assert (r.1 =? len vec)%Z in
  ret vec.

Definition read_stdout : M bytes := read_std_stream 1%Z.
Definition read_stderr : M bytes := read_std_stream 2%Z.

(** [fuel] bounds the depth of the directory tree. *)
Fixpoint read_all_files (fuel : nat) (p : Path) : M (list (Path * bytes)) :=
  match fuel with
  | O => panic OutOfFuel
  | S fuel' =>
      let! r := lock_inode_table
                  (get_inode_by_inode_path ROOT_DIRECTORY_INODE (strip_root_slash p)) in
      let! is_dir := lock_inode_table (InodeTable_is_dir r.1) in
      if is_dir then
        let! all_dir := lock_inode_table (read_dir r.1) in
        fold_st (λ rst ent,
          let sub := path (String.string_of_list_byte ent.2) in
          if path_eqb sub (path ".") || path_eqb sub (path "..") then ret rst
          else
            let! files := read_all_files fuel' (push p sub) in
            ret (rst ++ files)) all_dir []
      else
        let! buf := read_file_by_absolute_path p in
        ret [(p, buf)]
  end.

Definition read_all_files_by_absolute_path (p : Path) : M (list (Path * bytes)) :=
  let! s := get in
  read_all_files (S (size (table (inode_table (world s))))) p.

Definition is_executable (principal : Principal) (p : Path) : M bool :=
  let! vfs := spawn principal in
  let! _r := with_handle vfs (
    let! r := find_prestat p in
    let! fd := path_open r.1 r.2 OpenFlags_empty DEFAULT_RIGHTS DEFAULT_RIGHTS FdFlags_empty in
    check_right fd FD_EXECUTE) in
  ret true.
End ops.
