(* ===== verification/Services.v ===== *)
(** * Writing, and the native services it triggers

    A write to the special file of a service runs the service, which reads
    and writes files through a clone of the writer's handler and so may write
    to the special file of another service.  The operations are first defined
    over the function that runs a service, then tied with a fuel bounding the
    nesting; [fd_pwrite] starts with one unit per service, which is enough
    because a running service is locked ([fd_pwrite_fuel]).

    Sources: [execution-engine/src/fs.rs] ([fd_pwrite], [fd_write],
    [write_file_by_absolute_path], [write_stdin], [FileSystem::new]),
    [execution-engine/src/native_modules/aes.rs] and [postcard.rs]. *)

From S2P Require Import Prelude RustPath WasiTypes Policy InodeTable FileSystem FsOps.

(** [Service::name] *)
Definition Service_name (svc : Service) : string :=
  match svc with
  | PostcardService => "Postcard Service"
  | AesService _ => "Counter mode AES Service"
  end.

Section services.
Context {BP : BuildProfile} {WR : WasiRights} {HO : HashOrder} {NL : NativeLibs}.

(** [Rights::NAME] *)
Local Coercion right_of : right_name >-> Rights.

(** ** The store of services *)

Definition service_set (sid : nat) (c : service_cell) (s : fs_state) : fs_state :=
  set_services (<[sid := c]> (services (world s))) s.

(** [service.lock()]; a reference always points to a service. *)
Definition service_lock (sid : nat) : M Service :=
  let! s := get in
  match services (world s) !! sid with
  | None => panic UnwrapOnErr
  | Some c =>
      if sc_locked c then panic MutexReentered
      else
        do! modify (service_set sid (mkCell (sc_service c) true)) in
        ret (sc_service c)
  end.

(** The end of the lock guard's scope. *)
Definition service_unlock (sid : nat) (s : fs_state) : fs_state :=
  match services (world s) !! sid with
  | None => s
  | Some c => service_set sid (mkCell (sc_service c) false) s
  end.

(** Assign to [*self] in a method of the service. *)
Definition service_assign (sid : nat) (svc : Service) (s : fs_state) : fs_state :=
  match services (world s) !! sid with
  | None => s
  | Some c => service_set sid (mkCell svc (sc_locked c)) s
  end.

(** [Service::try_parse]: the parsed request becomes the state of the AES service. *)
Definition try_parse (svc : Service) (input : bytes) : Service * bool :=
  match svc with
  | PostcardService => (PostcardService, true)
  | AesService st =>
      match postcard_aes input with
      | Some request => (AesService (AesCounterModeService_of_fields request), true)
      | None => (AesService st, false)
      end
  end.

Definition service_valid_input (inode : Inode) : M bool :=
  let! e := lock_inode_table (InodeTable_get inode) in
  match data e with
  | NativeModule sid input =>
      let! svc := service_lock sid in
      let r := try_parse svc input in
      do! modify (service_assign sid r.1) in
      do! modify (service_unlock sid) in
      ret r.2
  | _ => throw ErrNo.Inval
  end.

(** ** Operations over the function that runs a service *)
Section with_serve.
Variable serve : nat → bytes → M unit.

(** [service.lock()] and [service.serve(&mut self.service_fs()?, &input)]. *)
Definition call_service (sid : nat) (input : bytes) : M unit :=
  let! _svc := service_lock sid in
  let! s := get in
  finally
    (do! with_handle (handle s) (serve sid input) in ret tt)
    (service_unlock sid).

(** The loop over the buffers, on the entry under the lock. *)
Definition pwrite_step (acc : FileSize * Z) (buf : bytes) : N_ (FileSize * Z) :=
  let! delta := InodeEntry_write_file buf acc.1 in
  let! d := lift (try_from_or_errno u64_bound delta) in
  let! off := lift (u64_add acc.1 d) in
  let! total := lift (usize_add acc.2 delta) in
  ret (off, total).

Definition fd_pwrite_with (fd : Fd) (bufs : list bytes) (off : FileSize) : M Z :=
  do! check_right fd FD_WRITE in
  let! inode := get_inode_by_fd fd in
  let! r := lock_inode_table (InodeTable_get_mut inode (
    let! acc := fold_st pwrite_step bufs (off, 0%Z) in
    let! f := get in
    ret (acc.2, InodeEntry_is_service f))) in
  let! invoke := (if r.2 : bool then service_valid_input inode else ret false) in
  do! (if invoke : bool then
         let! h := lock_inode_table (InodeTable_get_mut inode InodeEntry_service_handler) in
         call_service h.1 h.2
       else ret tt) in
  ret r.1.

Definition fd_write_with (fd : Fd) (bufs : list bytes) : M Z :=
  do! check_right fd FD_WRITE in
  let! e := fd_get fd in
  let! rst := fd_pwrite_with fd bufs (offset e) in
  do! fd_seek fd (as_i64 rst) Current in
  ret rst.

Definition write_file_by_absolute_path_with (p : Path) (data : bytes) (is_append : bool) :
  M unit :=
  let! r := find_prestat p in
  let oflag := mkOpenFlags true false false (negb is_append) in
  let! fd := path_open r.1 r.2 oflag DEFAULT_RIGHTS DEFAULT_RIGHTS FdFlags_empty in
  let! e := fd_get fd in
  do! fail_if (negb (rights_contains (rights_base (fd_stat e))
                       (rights_union FD_WRITE FD_SEEK))) ErrNo.Access in
  do! (if is_append then let! _n := fd_seek fd 0 End_ in ret tt else ret tt) in
  let! _n := fd_write_with fd [data] in
  fd_close fd.

(** [PostcardService::serve] *)
Definition postcard_serve (inputs : bytes) : M unit :=
  let! v := ok_or (postcard_structs inputs) ErrNo.Inval in
  let! json := ok_or (json_structs v) ErrNo.Inval in
  write_file_by_absolute_path_with (path "/services/postcard_result.dat") json false.

Definition encryption_decryption (st : AesCounterModeService) : M unit :=
  let! input := read_file_by_absolute_path (aes_input_path st) in
  do! fail_if (negb psa_init) ErrNo.Canceled in
  let! key := ok_or (psa_import (aes_key st)) ErrNo.Canceled in
  let! r := ok_or (psa_cipher (aes_is_encryption st) key (aes_iv st) input (length input))
              ErrNo.Canceled in
  let! output := lift (vec_resize r.1 r.2 Byte.x00) in
  write_file_by_absolute_path_with (aes_output_path st) output true.

(** [AesCounterModeService::serve]: the state is erased whatever the result. *)
Definition aes_serve (sid : nat) (st : AesCounterModeService) : M unit :=
  finally (encryption_decryption st)
    (service_assign sid (AesService (AesCounterModeService_reset st))).

Definition serve_body (sid : nat) (input : bytes) : M unit :=
  let! s := get in
  match sc_service <$> services (world s) !! sid with
  | Some PostcardService => postcard_serve input
  | Some (AesService st) => aes_serve sid st
  | None => panic UnwrapOnErr
  end.
End with_serve.

(** ** Tying the knot *)

Fixpoint serve (fuel : nat) (sid : nat) (input : bytes) : M unit :=
  match fuel with
  | O => panic OutOfFuel
  | S fuel' => serve_body (serve fuel') sid input
  end.

Definition service_fuel (s : fs_state) : nat := length (services (world s)).

Definition fd_pwrite (fd : Fd) (bufs : list bytes) (off : FileSize) : M Z := λ s,
  fd_pwrite_with (serve (service_fuel s)) fd bufs off s.

Definition fd_write (fd : Fd) (bufs : list bytes) : M Z := λ s,
  fd_write_with (serve (service_fuel s)) fd bufs s.

Definition write_file_by_absolute_path (p : Path) (data : bytes) (is_append : bool) : M unit :=
  λ s, write_file_by_absolute_path_with (serve (service_fuel s)) p data is_append s.

Definition write_stdin (buf : bytes) : M Z := fd_write 0%Z [buf].

(** ** Creating the filesystem *)

Definition initial_rights : PathMap Rights :=
  pm_insert (path CANONICAL_STDERR_FILE_PATH) rights_all
    (pm_insert (path CANONICAL_STDOUT_FILE_PATH) rights_all
      (pm_insert (path CANONICAL_STDIN_FILE_PATH) rights_all
        (pm_insert (path "/") rights_all ∅))).

Definition initial_services : list service_cell :=
  [mkCell PostcardService false; mkCell (AesService AesCounterModeService_new) false].

Definition FileSystem_install_services (l : list (Path * nat)) : M unit :=
  lock_inode_table (InodeTable_install_services l).

(** [FileSystem::new]: the root handler and the shared state it creates. *)
Definition FileSystem_new (rights_table : RightsTable) : outcome ErrNo.t fs_state :=
  match InodeTable_new rights_table with
  | Ok t =>
      match
        (do! install_prestat initial_rights in
         FileSystem_install_services
           [(path "/services/postcard_string.dat", 0); (path "/services/aesctr.dat", 1)])
          (mkState empty_handle (mkWorld t initial_services))
      with
      | (Ok _, s) => Ok s
      | (Err e, _) => Err e
      | (Abort p, _) => Abort p
      end
  | Err e => Err e
  | Abort p => Abort p
  end.
End services.
