(* ===== verification/InodeWf.v ===== *)
(** * Well-formedness of the inode table

    The invariant of the shared storage and its preservation by the
    operations of the table, on every outcome.  The invariant says that the
    recorded size of a file is the length of its bytes, that directory
    entries are never dangling, that [.] and [..] are present, that a
    subdirectory has a larger inode than its parent (so the directory graph
    below [..] is acyclic), and that unused inode numbers are unused. *)

From S2P Require Import Prelude RustPath WasiTypes Policy InodeTable.

(** A directory at inode [i], whose entries live in [m]. *)
Record dir_wf (m : gmap Z InodeEntry) (i : Z) (d : PathMap Z) : Prop := {
  dw_self : pm_get (path ".") d = Some i;
  dw_parent : is_Some (pm_get (path "..") d);
  dw_targets cs raw j : d !! cs = Some (raw, j) →
    ∃ e, m !! j = Some e ∧
      (cs ≠ [CurDir] → cs ≠ [ParentDir] → InodeEntry_is_dir e = true → (i < j)%Z);
  dw_keys cs raw j : d !! cs = Some (raw, j) →
    components raw = cs ∧ ∃ c, cs = [c] ∧ c ≠ RootDir;
}.

(** The entry of inode [i]; [n] is the number of services. *)
Definition entry_wf (n : nat) (m : gmap Z InodeEntry) (i : Z) (e : InodeEntry) : Prop :=
  st_inode (file_stat e) = i ∧
  match data e with
  | File b =>
      st_file_type (file_stat e) = RegularFile ∧
      file_size (file_stat e) = len b ∧ (len b < i64_bound)%Z
  | NativeModule sid b =>
      st_file_type (file_stat e) = RegularFile ∧
      file_size (file_stat e) = len b ∧ (len b < i64_bound)%Z ∧ sid < n
  | Directory d =>
      st_file_type (file_stat e) = Directory_t ∧ file_size (file_stat e) = 0%Z ∧ dir_wf m i d
  end.

Section wf.
Context {BP : BuildProfile} {WR : WasiRights} {HO : HashOrder}.
Abbreviation T A := (ST InodeTable ErrNo.t A).

Record table_wf (n : nat) (t : InodeTable) : Prop := {
  tw_next : (ROOT_DIRECTORY_INODE < next_inode_candidate t < u64_bound)%Z;
  tw_dom i : is_Some (table t !! i) → (ROOT_DIRECTORY_INODE ≤ i < next_inode_candidate t)%Z;
  tw_root : ∃ e, table t !! ROOT_DIRECTORY_INODE = Some e ∧ InodeEntry_is_dir e = true;
  tw_entry i e : table t !! i = Some e → entry_wf n (table t) i e;
  tw_streams : is_Some (table t !! stdin t) ∧ is_Some (table t !! stdout t) ∧
    is_Some (table t !! stderr t);
  tw_rights pr m : rights_table t !! pr = Some m → keys_ok m;
}.

(** [t] evolved from [t0]: inodes stay, and stay files or directories; the
    rights of the principals do not change. *)
Record extends (t0 t : InodeTable) : Prop := {
  ex_table i e0 : table t0 !! i = Some e0 →
    ∃ e, table t !! i = Some e ∧ InodeEntry_is_dir e = InodeEntry_is_dir e0;
  ex_next : (next_inode_candidate t0 ≤ next_inode_candidate t)%Z;
  ex_rights : rights_table t = rights_table t0;
  ex_streams : stdin t = stdin t0 ∧ stdout t = stdout t0 ∧ stderr t = stderr t0;
}.

#[export] Instance extends_preorder : PreOrder extends.
Proof.
  split.
  - intros t. split; eauto with lia.
  - intros t1 t2 t3 [H12 N12 R12 [? [? ?]]] [H23 N23 R23 [? [? ?]]].
    split; [|lia|congruence|split_and!; congruence].
    intros i e1 He1. destruct (H12 i e1 He1) as (e2 & He2 & Hd2).
    destruct (H23 i e2 He2) as (e3 & He3 & Hd3). exists e3. split; congruence.
Qed.

(** The invariant the operations keep, relative to a past table [t0]. *)
Definition tinv (n : nat) (t0 t : InodeTable) : Prop := table_wf n t ∧ extends t0 t.

(** Updating the table at one inode, with an entry of the same kind. *)
Lemma dir_wf_mono m m' i d :
  (∀ j e, m !! j = Some e → ∃ e', m' !! j = Some e' ∧
     InodeEntry_is_dir e' = InodeEntry_is_dir e) →
  dir_wf m i d → dir_wf m' i d.
Proof.
  intros Hm [Hself Hpar Htgt Hkeys]. split; [done|done| |done].
  intros cs raw j Hd. destruct (Htgt cs raw j Hd) as (e & He & Hlt).
  destruct (Hm j e He) as (e' & He' & Hdir). exists e'. split; [done|].
  rewrite Hdir. done.
Qed.

Lemma entry_wf_mono n m m' i e :
  (∀ j e, m !! j = Some e → ∃ e', m' !! j = Some e' ∧
     InodeEntry_is_dir e' = InodeEntry_is_dir e) →
  entry_wf n m i e → entry_wf n m' i e.
Proof.
  intros Hm [Hi He]. split; [done|]. destruct (data e); [done|done|].
  destruct He as (? & ? & ?). eauto using dir_wf_mono.
Qed.

Lemma insert_same_kind (m : gmap Z InodeEntry) i e e' :
  m !! i = Some e → InodeEntry_is_dir e' = InodeEntry_is_dir e →
  ∀ j f, m !! j = Some f → ∃ f', <[i:=e']> m !! j = Some f' ∧
     InodeEntry_is_dir f' = InodeEntry_is_dir f.
Proof.
  intros Hi Hk j f Hj. destruct (decide (i = j)) as [->|Hne].
  - rewrite lookup_insert_eq. exists e'. split; congruence.
  - rewrite lookup_insert_ne by done. eauto.
Qed.

Lemma insert_fresh (m : gmap Z InodeEntry) i e' :
  m !! i = None →
  ∀ j f, m !! j = Some f → ∃ f', <[i:=e']> m !! j = Some f' ∧
     InodeEntry_is_dir f' = InodeEntry_is_dir f.
Proof. intros Hi j f Hj. exists f. by rewrite lookup_insert_ne by congruence. Qed.

(** Replacing the entry of an inode. *)
Lemma tinv_update n t0 t i e e' :
  tinv n t0 t → table t !! i = Some e → InodeEntry_is_dir e' = InodeEntry_is_dir e →
  entry_wf n (<[i:=e']> (table t)) i e' →
  tinv n t0 (set_table (<[i:=e']> (table t)) t).
Proof.
  intros [[Hnext Hdom Hroot Hent Hstd Hrt] Hext] Hi Hk Hwf.
  pose proof (insert_same_kind _ _ _ _ Hi Hk) as Hsame. split; [split; simpl|].
  - done.
  - intros j [f Hj]. apply Hdom. rewrite lookup_insert in Hj.
    case_decide; subst; eauto.
  - destruct Hroot as (r & Hr & Hrd). destruct (Hsame _ _ Hr) as (r' & Hr' & Hrd').
    exists r'. split; congruence.
  - intros j f. rewrite lookup_insert. case_decide as Hj; intros Hf; simplify_eq.
    + done.
    + eauto using entry_wf_mono.
  - assert (∀ j, is_Some (table t !! j) → is_Some (<[i:=e']> (table t) !! j)) as Hkeep.
    { intros j [f Hf]. destruct (Hsame _ _ Hf) as (f' & Hf' & _). eauto. }
    naive_solver.
  - exact Hrt.
  - etransitivity; [exact Hext|]. by split; [exact Hsame|simpl; lia| |].
Qed.

(** Adding a fresh inode. *)
Lemma tinv_add n t0 t i e :
  tinv n t0 t → table t !! i = None →
  (ROOT_DIRECTORY_INODE ≤ i < next_inode_candidate t)%Z →
  entry_wf n (<[i:=e]> (table t)) i e →
  tinv n t0 (set_table (<[i:=e]> (table t)) t).
Proof.
  intros [[Hnext Hdom Hroot Hent Hstd Hrt] Hext] Hi Hlt Hwf.
  pose proof (insert_fresh _ _ e Hi) as Hsame. split; [split; simpl|].
  - done.
  - intros j [f Hj]. rewrite lookup_insert in Hj. case_decide; subst; eauto.
  - destruct Hroot as (r & Hr & Hrd). destruct (Hsame _ _ Hr) as (r' & Hr' & Hrd').
    exists r'. split; congruence.
  - intros j f. rewrite lookup_insert. case_decide as Hj; intros Hf; simplify_eq.
    + done.
    + eauto using entry_wf_mono.
  - assert (∀ j, is_Some (table t !! j) → is_Some (<[i:=e]> (table t) !! j)) as Hkeep.
    { intros j [f Hf]. destruct (Hsame _ _ Hf) as (f' & Hf' & _). eauto. }
    naive_solver.
  - exact Hrt.
  - etransitivity; [exact Hext|]. by split; [exact Hsame|simpl; lia| |].
Qed.

(** ** Reading the table *)

Lemma InodeTable_get_triple (P : InodeTable → Prop) i :
  triple P (InodeTable_get i) (λ e t, P t ∧ table t !! i = Some e) P.
Proof.
  intros t Ht. unfold InodeTable_get, bind, get, ok_or. simpl.
  destruct (table t !! i) eqn:?; simpl; auto.
Qed.

Lemma InodeTable_is_dir_triple (P : InodeTable → Prop) i :
  triple P (InodeTable_is_dir i)
    (λ b t, P t ∧ (b = true → ∃ e, table t !! i = Some e ∧ InodeEntry_is_dir e = true)) P.
Proof.
  intros t Ht. unfold InodeTable_is_dir, bind, get, ret. simpl.
  destruct (table t !! i); split; naive_solver.
Qed.

Lemma get_rights_triple (P : InodeTable → Prop) pr :
  triple P (get_rights pr) (λ r t, P t ∧ rights_table t !! pr = Some r) P.
Proof.
  intros t Ht. unfold get_rights, bind, get, ok_or. simpl.
  destruct (rights_table t !! pr) eqn:?; simpl; auto.
Qed.

Lemma lookup_component_pure i c t : (lookup_component i c t).2 = t.
Proof.
  unfold lookup_component, InodeTable_get, bind, get, ok_or, lift. simpl.
  by destruct (table t !! i).
Qed.

Lemma fold_lookup_pure cs i t : (fold_st lookup_component cs i t).2 = t.
Proof.
  revert i. induction cs as [|c cs IH]; intros i; simpl; [done|].
  unfold bind. pose proof (lookup_component_pure i c t) as Hp.
  destruct (lookup_component i c t) as [[] t']; simpl in *; subst; eauto.
Qed.

Lemma get_inode_by_inode_path_pure i p t : (get_inode_by_inode_path i p t).2 = t.
Proof.
  unfold get_inode_by_inode_path, bind. pose proof (fold_lookup_pure (p_comps p) i t) as Hp.
  destruct (fold_st _ _ _ t) as [[] t']; simpl in *; subst; [|done|done].
  unfold InodeTable_get, bind, get, ok_or, ret. simpl. by destruct (table _ !! _).
Qed.

Lemma get_inode_by_inode_path_triple (P : InodeTable → Prop) i p :
  triple P (get_inode_by_inode_path i p) (λ r t, P t ∧ table t !! r.1 = Some r.2) P.
Proof.
  unfold get_inode_by_inode_path.
  apply triple_bind with (R := λ _, P).
  - intros t Ht. pose proof (fold_lookup_pure (p_comps p) i t) as Hp.
    destruct (fold_st _ _ _ t) as [[] t']; simpl in *; by subst.
  - intros j. eapply triple_bind; [apply InodeTable_get_triple|].
    intros e. by apply triple_ret.
Qed.

Lemma read_dir_pure i t : (read_dir i t).2 = t.
Proof.
  unfold read_dir. assert (∀ l k t, (read_dir_loop k l t).2 = t) as Hloop.
  { clear. induction l as [|[p j] l IH]; intros k t; simpl; [done|].
    unfold dir_ent, InodeTable_get, bind, get, ok_or, lift, ret.
    destruct (try_from_or_errno _ k); simpl; [|done|done].
    destruct (u64_add _ _); simpl; [|done|done].
    destruct (try_from_or_errno _ _); simpl; [|done|done].
    destruct (table t !! j); simpl; [|done].
    specialize (IH (k + 1)%Z t). by destruct (read_dir_loop _ l t) as [[] ?]. }
  unfold InodeTable_get, bind, get, ok_or. simpl.
  destruct (table t !! i) as [e|]; [|done]. destruct (data e); [done|done|apply Hloop].
Qed.

(** ** Allocating inodes *)

Definition fresh (i : Z) (t : InodeTable) : Prop :=
  (ROOT_DIRECTORY_INODE < i < next_inode_candidate t)%Z ∧
  ∀ j, is_Some (table t !! j) → (j < i)%Z.

Lemma new_inode_triple n t0 :
  triple (tinv n t0) new_inode (λ i t, tinv n t0 t ∧ fresh i t) (tinv n t0).
Proof.
  intros t Ht. pose proof Ht as [[Hnext Hdom Hroot Hent Hstd Hrt] Hext].
  unfold new_inode, bind, get, fail_if, ok_or, checked_add, modify, ret. simpl.
  case_bool_decide; [done|]. destruct (Z.ltb_spec (next_inode_candidate t + 1) u64_bound); [|done].
  split; [split; [split; simpl|]|].
  - lia.
  - intros i Hi. specialize (Hdom i Hi). lia.
  - done.
  - done.
  - done.
  - done.
  - etransitivity; [exact Hext|]. split; simpl; eauto with lia.
  - split; simpl; [lia|]. intros j Hj. apply Hdom in Hj. lia.
Qed.

(** ** Updating an entry in place *)

Definition einv (n : nat) (m : gmap Z InodeEntry) (i : Z) (k : bool) (e : InodeEntry) : Prop :=
  entry_wf n m i e ∧ InodeEntry_is_dir e = k.

Lemma get_mut_triple {A} n t0 i (op : N_ A) (Q : A → Prop) :
  (∀ m k, triple (einv n m i k) op (λ a e, einv n m i k e ∧ Q a) (einv n m i k)) →
  triple (tinv n t0) (InodeTable_get_mut i op) (λ a t, tinv n t0 t ∧ Q a) (tinv n t0).
Proof.
  intros Hop t Ht. unfold InodeTable_get_mut, InodeTable_get, bind, get, ok_or. simpl.
  destruct (table t !! i) as [e|] eqn:Hi; [|done].
  assert (einv n (table t) i (InodeEntry_is_dir e) e) as He.
  { split; [|done]. destruct Ht as [[] _]. eauto. }
  specialize (Hop _ _ e He).
  assert (∀ e', einv n (table t) i (InodeEntry_is_dir e) e' →
    tinv n t0 (set_table (<[i:=e']> (table t)) t)) as Hup.
  { intros e' [Hwf Hk]. eapply tinv_update; eauto using entry_wf_mono, insert_same_kind. }
  destruct (op e) as [[a|err|p] e']; simpl; [destruct Hop|..]; auto.
Qed.

Lemma get_mut_preserves {A} n t0 i (op : N_ A) :
  (∀ m k, preserves (einv n m i k) op) → preserves (tinv n t0) (InodeTable_get_mut i op).
Proof.
  intros Hop. eapply triple_conseq; [apply (get_mut_triple n t0 i op (λ _, True))|..];
    [|naive_solver..].
  intros m k. eapply triple_conseq; [apply Hop|naive_solver..].
Qed.

(** ** Operations on entries *)

Lemma content_bound n m i e file :
  entry_wf n m i e → content (data e) = Some file → (len file < i64_bound)%Z.
Proof. intros [_ He] Hc. destruct (data e); simplify_eq/=; naive_solver. Qed.

(** Replacing the bytes of a file together with its size. *)
Lemma einv_set_content n m i k e file file' size :
  einv n m i k e → content (data e) = Some file → (len file' < i64_bound)%Z →
  size = len file' →
  einv n m i k (set_file_size size (set_data (set_content file' (data e)) e)).
Proof.
  intros [[Hi He] Hk] Hc Hlen ->.
  unfold einv, entry_wf, InodeEntry_is_dir, InodeImpl_is_dir in *.
  simpl. destruct (data e); simplify_eq/=; naive_solver.
Qed.

Lemma einv_set_same_data n m i k e : einv n m i k e → einv n m i k (set_data (data e) e).
Proof. by destruct e. Qed.

Lemma InodeEntry_write_file_preserves n m i k buf off :
  preserves (einv n m i k) (InodeEntry_write_file buf off).
Proof.
  intros e He. pose proof (λ file, content_bound n m i e file (proj1 He)) as Hb.
  destruct (InodeImpl_write_file_inv buf off (data e) Hb) as
    [(file & Hc & Hoff & Hfit & _)|[Hr Hs]].
  - specialize (Hb file Hc). rewrite (InodeEntry_write_file_ok _ _ _ file) by done.
    eapply einv_set_content; [done|done| |done].
    unfold len in *. rewrite length_splice. lia.
  - unfold InodeEntry_write_file, on_data, zoom, bind.
    destruct (InodeImpl_write_file buf off (data e)) as [[] d]; simplify_eq/=;
      by apply einv_set_same_data.
Qed.

Lemma InodeEntry_resize_file_preserves n m i k size fill :
  preserves (einv n m i k) (InodeEntry_resize_file size fill).
Proof.
  intros e He. unfold InodeEntry_resize_file, on_data, zoom, bind, modify.
  destruct (InodeImpl_resize_file_inv size fill (data e)) as
    [(file & Hc & Hsize & ->)|[Hr Hs]].
  - eapply einv_set_content; [done|done|..];
      unfold len; rewrite length_app, length_take, length_replicate; lia.
  - destruct (InodeImpl_resize_file size fill (data e)) as [[] d]; simplify_eq/=;
      by apply einv_set_same_data.
Qed.

Lemma InodeEntry_truncate_file_preserves n m i k :
  preserves (einv n m i k) InodeEntry_truncate_file.
Proof.
  intros e He.
  unfold InodeEntry_truncate_file, InodeImpl_truncate_file, on_data, zoom, bind, get, ok_or,
    put, modify. simpl.
  destruct (content (data e)) as [file|] eqn:Hc; [|by apply einv_set_same_data].
  by eapply einv_set_content.
Qed.

Lemma modify_times_preserves n m i k f :
  (∀ e, data (f e) = data e ∧ st_inode (file_stat (f e)) = st_inode (file_stat e) ∧
     st_file_type (file_stat (f e)) = st_file_type (file_stat e) ∧
     file_size (file_stat (f e)) = file_size (file_stat e)) →
  preserves (einv n m i k) (modify (E:=ErrNo.t) f).
Proof.
  intros Hf e [He Hk]. destruct (Hf e) as (Hd & Hi & Ht & Hs).
  unfold modify, einv, entry_wf, InodeEntry_is_dir in *. by rewrite Hd, Hi, Ht, Hs.
Qed.

(** ** Attaching an inode to a directory *)

(** A name a new inode may get: not [.], [..] or the root. *)
Definition name_ok (p : Path) : Prop :=
  components (p_raw p) = p_comps p ∧ ∃ s, p_comps p = [Normal s].

Lemma dir_wf_insert m i d p j e :
  dir_wf m i d → name_ok p → m !! j = Some e → (InodeEntry_is_dir e = true → i < j)%Z →
  dir_wf m i (pm_insert p j d).
Proof.
  intros [Hself Hpar Htgt Hkeys] (Hraw & s & Hs) Hj Hlt. split.
  - by rewrite pm_get_insert, decide_False by (by rewrite Hs).
  - by rewrite pm_get_insert, decide_False by (by rewrite Hs).
  - intros cs raw j'. unfold pm_insert. rewrite lookup_insert.
    case_decide; intros; simplify_eq; eauto.
  - intros cs raw j'. unfold pm_insert. rewrite lookup_insert.
    case_decide as Hcs; intros Heq; [|by eauto]. subst cs.
    destruct (d !! p_comps p) as [[raw' ?]|] eqn:Hd; simplify_eq; [by eauto|].
    rewrite Hs in *. eauto.
Qed.

Lemma attach_run parent p i t :
  attach parent p i t =
    match table t !! parent with
    | None => (Err ErrNo.NoEnt, t)
    | Some e =>
        match data e with
        | Directory d =>
            (Ok tt, set_table (<[parent := set_data (Directory (pm_insert p i d)) e]> (table t)) t)
        | _ => (Err ErrNo.NotDir, t)
        end
    end.
Proof.
  unfold attach, InodeTable_get_mut, InodeTable_get, bind, get, ok_or. simpl.
  destruct (table t !! parent) as [e|] eqn:He; [|done].
  unfold InodeEntry_insert, on_data, zoom, InodeImpl_insert, bind, get, throw, put,
    InodeTable_insert, modify, lift. simpl.
  destruct e as [st []]; simpl; rewrite ?insert_id by done; by destruct t.
Qed.

Lemma attach_triple n t0 parent p i :
  name_ok p →
  triple (λ t, tinv n t0 t ∧ ∃ e, table t !! i = Some e ∧
            (InodeEntry_is_dir e = true → parent < i)%Z)
    (attach parent p i) (λ _, tinv n t0) (tinv n t0).
Proof.
  intros Hp t [Ht (e & He & Hlt)]. rewrite attach_run.
  destruct (table t !! parent) as [pe|] eqn:Hpe; [|done].
  destruct (data pe) as [| |d] eqn:Hd; [done|done|].
  pose proof Ht as [[_ _ _ Hent _ _] _]. pose proof (Hent _ _ Hpe) as [Hst Hpwf].
  rewrite Hd in Hpwf. destruct Hpwf as (Hty & Hsz & Hdir).
  assert (InodeEntry_is_dir pe = true) as Hpd.
  { unfold InodeEntry_is_dir. by rewrite Hd. }
  eapply tinv_update; [done|exact Hpe|by rewrite Hpd|].
  split; [done|]. simpl. split_and!; [done|done|].
  eapply dir_wf_mono; [by eapply insert_same_kind; [exact Hpe|rewrite Hpd]|].
  by eapply dir_wf_insert.
Qed.

Lemma new_directory_wf m i parent :
  is_Some (m !! i) → is_Some (m !! parent) →
  dir_wf m i (pm_insert (path PARRENT_PATH_STR) parent
               (pm_insert (path CURRENT_PATH_STR) i ∅)).
Proof.
  intros [e He] [pe Hpe].
  assert (∀ cs raw j, pm_insert (path PARRENT_PATH_STR) parent
            (pm_insert (path CURRENT_PATH_STR) i ∅) !! cs = Some (raw, j) →
          (cs = [ParentDir] ∧ raw = ".." ∧ j = parent) ∨ (cs = [CurDir] ∧ raw = "." ∧ j = i))
    as Hcases.
  { intros cs raw j. unfold pm_insert. simpl.
    rewrite lookup_insert. case_decide; [naive_solver|].
    rewrite lookup_insert. case_decide; [naive_solver|]. by rewrite lookup_empty. }
  split.
  - by rewrite !pm_get_insert.
  - by rewrite pm_get_insert, decide_True.
  - intros cs raw j Hd. apply Hcases in Hd. naive_solver.
  - intros cs raw j Hd. apply Hcases in Hd as [(-> & -> & ->)|(-> & -> & ->)]; eauto.
Qed.

Lemma add_dir_triple n t0 parent p i :
  name_ok p →
  triple (λ t, tinv n t0 t ∧ fresh i t ∧ parent ≠ i) (add_dir parent p i)
    (λ _ t, tinv n t0 t ∧ is_Some (table t !! i)) (tinv n t0).
Proof.
  intros Hp t (Ht & [Hi Hfresh] & Hne).
  assert (table t !! i = None) as Hnone.
  { apply eq_None_not_Some. intros Hs. apply Hfresh in Hs. lia. }
  unfold add_dir, bind. rewrite bool_decide_true by done.
  set (node := mkInodeEntry _ _). set (t1 := set_table (<[i:=node]> (table t)) t).
  rewrite attach_run. destruct (table t !! parent) as [pe|] eqn:Hpe; [|done].
  destruct (data pe) as [| |d] eqn:Hd; [done|done|].
  assert (tinv n t0 t1) as Ht1.
  { apply tinv_add; [done|done|lia|]. split; [done|]. simpl. split_and!; [done|done|].
    apply new_directory_wf; [by rewrite lookup_insert_eq|].
    by rewrite lookup_insert_ne, Hpe. }
  assert (table t1 !! i = Some node) as Hnode by (simpl; by rewrite lookup_insert_eq).
  pose proof (attach_triple n t0 parent p i Hp t1) as Hatt.
  rewrite attach_run in Hatt. simpl in Hatt.
  rewrite (lookup_insert_ne (table t) i parent), Hpe, Hd in Hatt by congruence.
  unfold InodeTable_insert, modify. simpl.
  rewrite insert_insert_ne by congruence.
  split; [|rewrite lookup_insert_ne, lookup_insert_eq by congruence; eauto].
  apply Hatt. split; [done|]. exists node. split; [done|]. intros _. apply Hfresh. eauto.
Qed.

(** ** Creating directories and files *)

(** An inode number that was allocated but is not in the table yet. *)
Definition reserved (i : Z) (t : InodeTable) : Prop :=
  table t !! i = None ∧ (ROOT_DIRECTORY_INODE < i < next_inode_candidate t)%Z.

Lemma fresh_reserved i t : fresh i t → reserved i t.
Proof.
  intros [Hi Hlt]. split; [|done]. apply eq_None_not_Some. intros Hs. apply Hlt in Hs. lia.
Qed.

Lemma reserved_ne i j t : reserved i t → is_Some (table t !! j) → j ≠ i.
Proof. intros [Hi _] [e He] ->. congruence. Qed.

Lemma new_inode_table t : table (new_inode t).2 = table t.
Proof.
  unfold new_inode, bind, get, fail_if, ok_or, checked_add, modify, ret. simpl.
  case_bool_decide; [done|]. by destruct (_ <? _)%Z.
Qed.

Lemma new_inode_reserved i :
  triple (reserved i) new_inode (λ j t, reserved i t ∧ j ≠ i) (reserved i).
Proof.
  intros t [Hi Hlt].
  unfold new_inode, bind, get, fail_if, ok_or, checked_add, modify, ret. simpl.
  case_bool_decide; [done|]. destruct (_ <? _)%Z; [|done]. unfold reserved. simpl.
  split_and!; [done|lia..].
Qed.

Lemma add_dir_reserved i parent p j :
  j ≠ i → triple (reserved i) (add_dir parent p j) (λ _, reserved i) (reserved i).
Proof.
  intros Hne t [Hi Hlt]. unfold add_dir, bind.
  assert (∀ m e, m !! i = None → reserved i (set_table (<[j:=e]> m) t)) as Hins.
  { intros m e Hm. split; simpl; [by rewrite lookup_insert_ne|done]. }
  case_bool_decide as Hp; [|by apply Hins]. rewrite attach_run.
  destruct (table t !! parent) as [pe|] eqn:Hpe; [|done].
  assert (parent ≠ i) by congruence.
  destruct (data pe); [done|done|]. apply Hins. simpl. by rewrite lookup_insert_ne.
Qed.

(** The condition kept while directories are created: the current parent
    exists, and the inodes in [R] stay reserved. *)
Definition walk_inv (n : nat) (t0 : InodeTable) (R : Z → Prop) (t : InodeTable) : Prop :=
  tinv n t0 t ∧ ∀ i, R i → reserved i t.
Definition walk_at (n : nat) (t0 : InodeTable) (R : Z → Prop) (j : Z) (t : InodeTable) : Prop :=
  walk_inv n t0 R t ∧ is_Some (table t !! j).

Lemma triple_forall {A B} (R : B → Prop) (P : B → InodeTable → Prop) (m : T A)
    (Q : B → A → InodeTable → Prop) (X : B → InodeTable → Prop) :
  (∀ b, R b → triple (P b) m (Q b) (X b)) →
  triple (λ t, ∀ b, R b → P b t) m (λ a t, ∀ b, R b → Q b a t) (λ t, ∀ b, R b → X b t).
Proof.
  intros Hm t Ht. assert (∀ b, R b → match m t with
    | (Ok a, t') => Q b a t' | (Err _, t') | (Abort _, t') => X b t' end) as H.
  { intros b Hb. exact (Hm b Hb t (Ht b Hb)). }
  by destruct (m t) as [[] ?].
Qed.

Lemma new_inode_walk n t0 R :
  triple (walk_inv n t0 R) new_inode
    (λ j t, walk_inv n t0 R t ∧ fresh j t ∧ ¬ R j) (walk_inv n t0 R).
Proof.
  eapply triple_conseq;
    [apply triple_and; [apply new_inode_triple|
       apply (triple_forall R reserved _ _ _ (λ i _, new_inode_reserved i))]|..];
    unfold walk_inv; naive_solver.
Qed.

Lemma add_dir_walk n t0 R parent p j :
  name_ok p → ¬ R j →
  triple (λ t, walk_inv n t0 R t ∧ fresh j t ∧ parent ≠ j) (add_dir parent p j)
    (λ _, walk_at n t0 R j) (walk_inv n t0 R).
Proof.
  intros Hp HR.
  eapply triple_conseq;
    [apply triple_and; [apply (add_dir_triple n t0 parent p j Hp)|
       apply (triple_forall R reserved _ (λ i _, reserved i) reserved)]|..];
    [|unfold walk_at, walk_inv; naive_solver..].
  intros i Hi. apply add_dir_reserved. congruence.
Qed.

Lemma comp_ok_name s : comp_ok (Normal s) → name_ok (path s).
Proof. intros Hs. split; [done|]. eauto. Qed.

Lemma add_all_dir_step_triple n t0 R j c :
  comp_ok c →
  triple (walk_at n t0 R j) (add_all_dir_step j c) (walk_at n t0 R) (walk_inv n t0 R).
Proof.
  intros Hc. destruct c as [| | |s]; simpl; [by apply triple_throw; intros ? []..|].
  eapply triple_try_match; [apply get_inode_by_inode_path_triple|by intros ? []|..].
  - intros [j' e]. apply triple_ret. intros t [[Ht _] He]. split; [done|eauto].
  - intros []; try (by apply triple_throw; intros ? []).
    apply triple_bind with
      (R := λ j' t, (walk_inv n t0 R t ∧ fresh j' t ∧ j ≠ j') ∧ ¬ R j').
    + intros t [Ht Hj].
      pose proof (new_inode_walk n t0 R t Ht) as Hn.
      pose proof (λ i, reserved_ne i j) as Hne.
      pose proof (new_inode_table t) as Htab.
      destruct (new_inode t) as [[j'| |] t']; simpl in *; [|done|done].
      destruct Hn as (Hw & Hf & HnR). split_and!; [done|done| |done].
      eapply Hne; [by apply fresh_reserved|by rewrite Htab].
    + intros j'. apply triple_pure. intros HnR.
      eapply triple_bind; [by apply add_dir_walk; [apply comp_ok_name|]|].
      intros []. by apply triple_ret.
Qed.

Lemma add_all_dir_triple n t0 R j p :
  path_ok p →
  triple (walk_at n t0 R j) (add_all_dir j p) (walk_at n t0 R) (walk_inv n t0 R).
Proof.
  intros [Hp _]. apply triple_fold. intros j' c Hc. apply add_all_dir_step_triple.
  by eapply Forall_forall in Hp; [|exact Hc].
Qed.

Lemma single_component p q :
  parent p = Some q → path_eqb q (path "") = true → ∃ c, p_comps p = [c] ∧ c ≠ RootDir.
Proof.
  unfold parent, path_eqb. intros Hq Heq%bool_decide_eq_true.
  destruct (last (p_comps p)) as [c|] eqn:Hl; [|done].
  exists c. apply last_Some in Hl as [l Hl]. rewrite Hl, removelast_last in Hq.
  destruct c; simplify_eq/=; rewrite Hl; split; (done || congruence).
Qed.

Lemma file_name_ok p s : path_ok p → file_name p = Some s → name_ok (path s).
Proof.
  unfold file_name. intros [Hp _] Hs. apply comp_ok_name.
  destruct (last (p_comps p)) as [[]|] eqn:Hl; simplify_eq.
  apply last_Some in Hl as [l Hl]. rewrite Hl, Forall_app, Forall_singleton in Hp. apply Hp.
Qed.

(** The paths a new file may have below its parent. *)
Definition creatable (p : Path) : Prop :=
  path_ok p ∧ p_comps p ≠ [CurDir] ∧ p_comps p ≠ [ParentDir].

Lemma add_file_target_triple n t0 R j p :
  creatable p →
  triple (walk_at n t0 R j) (add_file_target j p)
    (λ r t, walk_inv n t0 R t ∧ name_ok r.2) (walk_inv n t0 R).
Proof.
  intros (Hp & Hcur & Hpar). unfold add_file_target.
  destruct (parent p) as [pp|] eqn:Hpp; [|by intros t []].
  apply triple_bind with (R := λ q t, walk_at n t0 R j t ∧ q = pp).
  { apply triple_ok_or. naive_solver. }
  intros q. apply triple_pure. intros ->.
  destruct (path_eqb pp (path "")) eqn:Heq.
  - apply triple_ret. intros t [Ht _]. split; [done|].
    destruct (single_component _ _ Hpp Heq) as (c & Hc & Hroot).
    destruct c as [| | |s]; try congruence.
    split; simpl; [|by eauto]. destruct Hp as [_ Hraw]. rewrite Hc. by apply Hraw.
  - apply triple_bind with (R := λ s t, walk_at n t0 R j t ∧ file_name p = Some s).
    { apply triple_ok_or. intros t Ht. destruct (file_name p); [done|apply Ht]. }
    intros s. apply triple_pure. intros Hs.
    eapply triple_bind; [by apply add_all_dir_triple; eauto using parent_ok|].
    intros j'. eapply triple_bind.
    + eapply triple_conseq; [apply get_inode_by_inode_path_triple with (P := walk_inv n t0 R)|..];
        [by intros ? []|intros a t H; exact H|done].
    + intros [j'' e]. apply triple_ret. intros t [Ht _]. eauto using file_name_ok.
Qed.

Lemma attach_lookup i e parent p j :
  parent ≠ i →
  triple (λ t, table t !! i = Some e) (attach parent p j)
    (λ _ t, table t !! i = Some e) (λ t, table t !! i = Some e).
Proof.
  intros Hne t Ht. rewrite attach_run. destruct (table t !! parent) as [pe|]; [|done].
  destruct (data pe); [done|done|]. simpl. by rewrite lookup_insert_ne.
Qed.

Definition file_node (i : Z) (b : bytes) : InodeEntry :=
  mkInodeEntry (new_file_stat i RegularFile (len b)) (File b).

Lemma add_file_triple n t0 i parent p b :
  creatable p → (len b < i64_bound)%Z →
  triple (λ t, tinv n t0 t ∧ reserved i t ∧ is_Some (table t !! parent))
    (add_file parent p i b)
    (λ _ t, tinv n t0 t ∧ table t !! i = Some (file_node i b)) (tinv n t0).
Proof.
  intros Hp Hb. unfold add_file.
  apply triple_bind with (R := λ r t, walk_inv n t0 (eq i) t ∧ name_ok r.2).
  { eapply triple_conseq; [by apply (add_file_target_triple n t0 (eq i))|..];
      unfold walk_at, walk_inv; naive_solver. }
  intros [j q]. apply triple_pure. simpl. intros Hq.
  rewrite try_from_or_errno_in by (pose proof (len_nonneg b); lia).
  apply triple_bind with (R := λ z t, walk_inv n t0 (eq i) t ∧ z = len b).
  { by apply triple_lift. }
  intros z. apply triple_pure. intros ->. fold (file_node i b).
  apply triple_bind with (R := λ _ t, tinv n t0 t ∧ table t !! i = Some (file_node i b)).
  { apply triple_modify. intros t [Ht Hres]. destruct (Hres i eq_refl) as [Hnone Hlt].
    split; [|simpl; by rewrite lookup_insert_eq].
    apply tinv_add; [done|done|lia|]. by repeat split. }
  intros []. case_bool_decide as Hne; [|by apply triple_ret].
  eapply triple_conseq;
    [apply triple_and; [by apply attach_triple|by apply (attach_lookup i (file_node i b))]|..].
  - intros t [Ht Hi]. split; [|done]. split; [done|]. by eexists.
  - naive_solver.
  - naive_solver.
Qed.

(** ** The initial table *)

Definition initial_inodes : gmap Z InodeEntry :=
  <[5%Z := file_node 5 []]> (<[4%Z := file_node 4 []]> (<[3%Z := file_node 3 []]>
    {[2%Z := mkInodeEntry (new_file_stat 2 Directory_t 0) (new_directory 2 2)]})).

Lemma InodeTable_new_eq rt :
  InodeTable_new rt = Ok (mkInodeTable initial_inodes rt 3 4 5 6).
Proof. reflexivity. Qed.

Lemma InodeTable_new_wf n rt t :
  (∀ pr m, rt !! pr = Some m → keys_ok m) → InodeTable_new rt = Ok t → table_wf n t.
Proof.
  intros Hrt. rewrite InodeTable_new_eq. intros [= <-].
  assert (∀ i e, initial_inodes !! i = Some e →
    (i = 2%Z ∧ e = mkInodeEntry (new_file_stat 2 Directory_t 0) (new_directory 2 2)) ∨
    ((i = 3 ∨ i = 4 ∨ i = 5)%Z ∧ e = file_node i [])) as Hcases.
  { intros i e. unfold initial_inodes. rewrite !lookup_insert, lookup_singleton.
    repeat case_decide; naive_solver. }
  split; simpl; unfold ROOT_DIRECTORY_INODE.
  - lia.
  - intros i [e He]. apply Hcases in He. lia.
  - by eexists.
  - intros i e He. apply Hcases in He as [[-> ->]|[_ ->]]; [|by repeat split].
    split; [done|]. simpl. split_and!; [done|done|]. by apply new_directory_wf; eexists.
  - by split_and!; eexists.
  - done.
Qed.

Lemma install_service_triple n t0 p sid :
  creatable (strip_root_slash p) → sid < n →
  preserves (tinv n t0) (install_service (p, sid)).
Proof.
  intros Hp Hsid. unfold install_service.
  eapply triple_bind; [apply new_inode_triple|]. intros i. simpl.
  apply triple_bind with (R := λ _ t, tinv n t0 t ∧ table t !! i = Some (file_node i [])).
  { eapply triple_conseq; [by apply (add_file_triple n t0 i ROOT_DIRECTORY_INODE)|..];
      [|done..].
    intros t [Ht Hf]. split_and!; [done|by apply fresh_reserved|].
    destruct Ht as [[_ _ (e & He & _) _ _ _] _]. eauto. }
  intros []. intros t [Ht Hi]. unfold bind, get, ok_or, InodeTable_insert, modify. simpl.
  rewrite Hi. simpl. eapply tinv_update; [done|exact Hi|done|]. by repeat split.
Qed.
End wf.
