(* ===== verification/Walk.v ===== *)
(** * Path lookup as a walk

    Looking a path up in the inode table, as a function of the directories
    alone: the reference the executable lookup is proved equal to. *)

From S2P Require Import Prelude RustPath WasiTypes Policy InodeTable InodeWf.

Section walk.
Context {BP : BuildProfile} {WR : WasiRights} {HO : HashOrder}.

Definition dir_of (e : InodeEntry) : option (PathMap Z) :=
  match data e with Directory d => Some d | _ => None end.

(** The directories of a table, by inode. *)
Definition dirs (t : InodeTable) : gmap Z (PathMap Z) := omap dir_of (table t).

Lemma lookup_dirs t i : dirs t !! i = table t !! i ≫= dir_of.
Proof. apply lookup_omap. Qed.

Lemma lookup_dirs_Some t i d :
  dirs t !! i = Some d ↔ ∃ e, table t !! i = Some e ∧ data e = Directory d.
Proof.
  rewrite lookup_dirs. split.
  - destruct (table t !! i) as [e|]; [|done]. simpl. unfold dir_of.
    destruct (data e) eqn:?; [done|done|]. naive_solver.
  - intros (e & -> & He). simpl. unfold dir_of. by rewrite He.
Qed.

Fixpoint walk (D : gmap Z (PathMap Z)) (i : Z) (cs : list Component) : option Z :=
  match cs with
  | [] => Some i
  | c :: cs' =>
      d ← D !! i; j ← pm_get (path (as_os_str c)) d; walk D j cs'
  end.

Lemma walk_app D i cs cs' :
  walk D i (cs ++ cs') = j ← walk D i cs; walk D j cs'.
Proof.
  revert i. induction cs as [|c cs IH]; intros i; simpl; [done|].
  destruct (D !! i) as [d|]; [|done]. simpl. destruct (pm_get _ d); [|done]. simpl. apply IH.
Qed.

Lemma lookup_component_run i c t :
  lookup_component i c t =
    (match table t !! i with
     | None => Err ErrNo.NoEnt
     | Some e =>
         match dir_of e with
         | None => Err ErrNo.NotDir
         | Some d =>
             match pm_get (path (as_os_str c)) d with Some j => Ok j | None => Err ErrNo.NoEnt end
         end
     end, t).
Proof.
  unfold lookup_component, InodeTable_get, bind, get, ok_or, lift. simpl.
  destruct (table t !! i) as [e|]; [|done].
  unfold InodeEntry_get_inode_by_path, on_data, zoom, InodeImpl_get_inode_by_path, bind, get, ok_or,
    dir_of. destruct (data e); [done|done|]. by destruct (pm_get _ _).
Qed.

Lemma fold_lookup_walk cs i t :
  (∃ j, walk (dirs t) i cs = Some j ∧ fold_st lookup_component cs i t = (Ok j, t)) ∨
  (∃ err, walk (dirs t) i cs = None ∧ fold_st lookup_component cs i t = (Err err, t)).
Proof.
  revert i. induction cs as [|c cs IH]; intros i; simpl; [left; eauto|].
  unfold bind. rewrite lookup_component_run, lookup_dirs.
  destruct (table t !! i) as [e|]; simpl; [|eauto]. destruct (dir_of e) as [d|]; simpl; [|eauto].
  destruct (pm_get _ d) as [j|]; simpl; eauto.
Qed.

Lemma lookup_ok i p t j e :
  get_inode_by_inode_path i p t = (Ok (j, e), t) ↔
  walk (dirs t) i (p_comps p) = Some j ∧ table t !! j = Some e.
Proof.
  unfold get_inode_by_inode_path, bind.
  destruct (fold_lookup_walk (p_comps p) i t) as [(j' & -> & ->)|(err & -> & ->)]; [|naive_solver].
  unfold InodeTable_get, bind, get, ok_or, ret. simpl.
  destruct (table t !! j') eqn:Hj'; naive_solver.
Qed.

(** A lookup fails only when the walk does, if no entry is dangling. *)
Lemma lookup_err i p t n err :
  table_wf n t → is_Some (table t !! i) →
  get_inode_by_inode_path i p t = (Err err, t) → walk (dirs t) i (p_comps p) = None.
Proof.
  intros Hwf Hi. destruct (walk (dirs t) i (p_comps p)) as [j|] eqn:Hw; [|done].
  assert (is_Some (table t !! j)) as [e He].
  { clear -Hwf Hi Hw. revert i Hi Hw. generalize (p_comps p). intros cs.
    induction cs as [|c cs IH]; intros i Hi; simpl; [naive_solver|].
    destruct (dirs t !! i) as [d|] eqn:Hd; [|done]. simpl.
    destruct (pm_get _ d) as [k|] eqn:Hk; [|done]. simpl. apply IH.
    apply lookup_dirs_Some in Hd as (e & He & Hde).
    destruct (tw_entry _ _ Hwf _ _ He) as [_ Hew]. rewrite Hde in Hew.
    destruct Hew as (_ & _ & [_ _ Htgt _]). unfold pm_get in Hk.
    destruct (d !! _) as [[raw k']|] eqn:Hdk; simplify_eq/=.
    destruct (Htgt _ _ _ Hdk) as (e' & He' & _). eauto. }
  assert (get_inode_by_inode_path i p t = (Ok (j, e), t)) as -> by by apply lookup_ok.
  done.
Qed.

Lemma is_dir_dirs i t :
  match table t !! i with Some e => InodeEntry_is_dir e | None => false end =
  bool_decide (is_Some (dirs t !! i)).
Proof.
  rewrite lookup_dirs. destruct (table t !! i) as [e|]; simpl.
  - unfold InodeEntry_is_dir, dir_of. by destruct (data e).
  - done.
Qed.
End walk.

(** * Directories that grow

    How the creation of directories changes a table: nothing that was there
    moves, and what is new leads only to new directories.  Creating the
    directories of a path is a step of this kind, so that walks along paths
    survive it.

    Source: [execution-engine/src/fs.rs], [add_dir], [add_all_dir], [add_file]. *)

Definition is_normal (c : Component) : Prop := match c with Normal _ => True | _ => False end.

Section grow.
Context {BP : BuildProfile} {WR : WasiRights} {HO : HashOrder}.

(** ** Walks down a tree *)

(** A walk along ordinary names to a directory goes to larger inodes. *)
Lemma walk_increases n t cs j k :
  table_wf n t → Forall is_normal cs → Forall comp_ok cs → walk (dirs t) j cs = Some k →
  is_Some (dirs t !! k) → (j ≤ k)%Z ∧ (cs ≠ [] → j < k)%Z.
Proof.
  intros Hwf. revert j. induction cs as [|c cs IH]; intros j Hn Hok Hw Hk; simpl in Hw.
  { simplify_eq. split; [lia|done]. }
  apply Forall_cons in Hn as [Hc Hn]. apply Forall_cons in Hok as [Hcok Hok].
  destruct (dirs t !! j) as [d|] eqn:Hd; [|done]. simpl in Hw.
  destruct (pm_get (path (as_os_str c)) d) as [m|] eqn:Hm; [|done]. simpl in Hw.
  destruct (IH m Hn Hok Hw Hk) as [Hle _].
  assert (is_Some (dirs t !! m)) as Hmd.
  { destruct cs as [|c' cs]; simpl in Hw; [by simplify_eq|]. destruct (dirs t !! m); [eauto|done]. }
  apply lookup_dirs_Some in Hd as (e & He & Hed).
  destruct (tw_entry _ _ Hwf _ _ He) as [_ Hew]. rewrite Hed in Hew.
  destruct Hew as (_ & _ & [_ _ Htgt _]). unfold pm_get in Hm. cbn [path p_comps] in Hm.
  unfold comp_ok in Hcok. rewrite Hcok in Hm.
  destruct (d !! [c]) as [[raw m']|] eqn:Hdm; simplify_eq/=.
  destruct (Htgt _ _ _ Hdm) as (em & Hem & Hlt).
  destruct Hmd as [dm Hdm']. apply lookup_dirs_Some in Hdm' as (em' & Hem' & Hemd).
  rewrite Hem in Hem'. simplify_eq.
  assert (j < m)%Z; [|split; [lia|intros; lia]].
  apply Hlt; [by destruct c|by destruct c|]. unfold InodeEntry_is_dir. by rewrite Hemd.
Qed.

(** Changing the directory a walk ends in does not change the walk. *)
Lemma walk_update_last n t cs j k d' :
  table_wf n t → Forall is_normal cs → Forall comp_ok cs → walk (dirs t) j cs = Some k →
  is_Some (dirs t !! k) → walk (<[k := d']> (dirs t)) j cs = Some k.
Proof.
  intros Hwf. revert j. induction cs as [|c cs IH]; intros j Hn Hok Hw Hk; [done|].
  destruct (walk_increases n t _ j k Hwf Hn Hok Hw Hk) as [_ Hlt].
  specialize (Hlt ltac:(done)). simpl in *.
  rewrite lookup_insert_ne by lia.
  apply Forall_cons in Hn as [Hc Hn]. apply Forall_cons in Hok as [Hcok Hok].
  destruct (dirs t !! j) as [d|]; [|done]. simpl in *.
  destruct (pm_get _ d) as [m|]; [|done]. simpl in *. by apply IH.
Qed.

(** From [r] the names [cs] lead to [j]. *)
Definition names_walk (t : InodeTable) (r : Z) (cs : list Component) (j : Z) : Prop :=
  Forall is_normal cs ∧ Forall comp_ok cs ∧ walk (dirs t) r cs = Some j.

Lemma names_walk_nil t j : names_walk t j [] j.
Proof. by split_and!. Qed.

Lemma add_all_dir_normal cs j t k t' :
  fold_st add_all_dir_step cs j t = (Ok k, t') → Forall is_normal cs.
Proof.
  revert j t. induction cs as [|c cs IH]; intros j t; simpl; [constructor|].
  rewrite bind_ok. intros (m & t1 & Hstep & Hrest). constructor; [|by eapply IH].
  by destruct c.
Qed.

(** ** Adding a file *)

Lemma attach_dirs parent p i t t' :
  attach parent p i t = (Ok tt, t') →
  ∃ d, dirs t !! parent = Some d ∧ dirs t' = <[parent := pm_insert p i d]> (dirs t).
Proof.
  rewrite attach_run. destruct (table t !! parent) as [e|] eqn:He; [|done].
  destruct (data e) as [| |d] eqn:Hd; [done|done|]. intros [= <-]. exists d.
  split; [apply lookup_dirs_Some; eauto|]. apply map_eq. intros k.
  rewrite lookup_dirs. simpl. rewrite !lookup_insert. case_decide; [done|].
  by rewrite <- lookup_dirs.
Qed.

Lemma insert_file_dirs i e t :
  table t !! i = None → dir_of e = None → dirs (set_table (<[i := e]> (table t)) t) = dirs t.
Proof.
  intros Hi He. apply map_eq. intros k. rewrite !lookup_dirs. simpl. rewrite lookup_insert.
  case_decide; [|done]. subst. by rewrite Hi.
Qed.

Lemma parent_file_name p pp name :
  parent p = Some pp → file_name p = Some name →
  p_comps p = p_comps pp ++ [Normal name].
Proof.
  unfold parent, file_name. destruct (last (p_comps p)) as [[]|] eqn:Hl; intros; simplify_eq/=.
  apply last_Some in Hl as [l Hl]. by rewrite Hl, removelast_last.
Qed.

(** ** Growth *)

(** [t'] has the files and entries of [t]; a name that is new in it leads to
    a new directory, and a new directory leads to new directories only. *)
Record grows (t t' : InodeTable) : Prop := {
  gr_dirs i d : dirs t !! i = Some d →
    ∃ d', dirs t' !! i = Some d' ∧ ∀ q j, pm_get q d = Some j → pm_get q d' = Some j;
  gr_files i e : table t !! i = Some e → dir_of e = None → table t' !! i = Some e;
  gr_back i d' c j : is_Some (table t !! i) → dirs t' !! i = Some d' → is_normal c → comp_ok c →
    pm_get (path (as_os_str c)) d' = Some j →
    (∃ d, dirs t !! i = Some d ∧ pm_get (path (as_os_str c)) d = Some j) ∨
    (table t !! j = None ∧ is_Some (dirs t' !! j));
  gr_new i d' c j : table t !! i = None → dirs t' !! i = Some d' → is_normal c → comp_ok c →
    pm_get (path (as_os_str c)) d' = Some j → table t !! j = None ∧ is_Some (dirs t' !! j);
  gr_newdir i : table t !! i = None → is_Some (table t' !! i) → is_Some (dirs t' !! i);
}.

Lemma grows_table t t' i : grows t t' → is_Some (table t !! i) → is_Some (table t' !! i).
Proof.
  intros Hg [e He]. destruct (dir_of e) as [d|] eqn:Hd.
  - destruct (gr_dirs _ _ Hg i d) as (d' & Hd' & _); [by rewrite lookup_dirs, He|].
    apply lookup_dirs_Some in Hd' as (e' & He' & _). eauto.
  - exists e. by apply (gr_files _ _ Hg).
Qed.

Lemma grows_absent t t' i : grows t t' → table t' !! i = None → table t !! i = None.
Proof.
  intros Hg Hi. destruct (table t !! i) eqn:He; [|done].
  destruct (grows_table t t' i Hg) as [? ?]; [eauto|congruence].
Qed.

Lemma grows_dir t t' i : grows t t' → is_Some (dirs t !! i) → is_Some (dirs t' !! i).
Proof. intros Hg [d Hd]. destruct (gr_dirs _ _ Hg i d Hd) as (d' & Hd' & _). eauto. Qed.

#[export] Instance grows_preorder : PreOrder grows.
Proof.
  split.
  - intros t. split; [naive_solver..| |].
    + intros i d c j Hi Hd. by rewrite lookup_dirs, Hi in Hd.
    + intros i Hi [? ?]. congruence.
  - intros t1 t2 t3 H12 H23. split.
    + intros i d Hd. destruct (gr_dirs _ _ H12 i d Hd) as (d2 & Hd2 & H2).
      destruct (gr_dirs _ _ H23 i d2 Hd2) as (d3 & Hd3 & H3). eauto.
    + intros i e He Hn. apply (gr_files _ _ H23); [by apply (gr_files _ _ H12)|done].
    + intros i d c j Hi Hd Hc Hok Hj.
      destruct (gr_back _ _ H23 i d c j (grows_table _ _ _ H12 Hi) Hd Hc Hok Hj)
        as [(d2 & Hd2 & Hj2)|[Hj2 ?]]; [|eauto using grows_absent].
      destruct (gr_back _ _ H12 i d2 c j Hi Hd2 Hc Hok Hj2) as [?|[? ?]]; eauto using grows_dir.
    + intros i d c j Hi Hd Hc Hok Hj. destruct (table t2 !! i) as [e|] eqn:He.
      * destruct (gr_back _ _ H23 i d c j ltac:(eauto) Hd Hc Hok Hj)
          as [(d2 & Hd2 & Hj2)|[Hj2 ?]]; [|eauto using grows_absent].
        destruct (gr_new _ _ H12 i d2 c j Hi Hd2 Hc Hok Hj2). eauto using grows_dir.
      * destruct (gr_new _ _ H23 i d c j He Hd Hc Hok Hj). eauto using grows_absent.
    + intros i Hi Hi3. destruct (table t2 !! i) as [e|] eqn:He.
      * eapply grows_dir, (gr_newdir _ _ H12); eauto.
      * by apply (gr_newdir _ _ H23).
Qed.

(** A walk survives growth. *)
Lemma grows_walk t t' i cs j :
  grows t t' → walk (dirs t) i cs = Some j → walk (dirs t') i cs = Some j.
Proof.
  intros Hg. revert i. induction cs as [|c cs IH]; intros i; simpl; [done|].
  destruct (dirs t !! i) as [d|] eqn:Hd; [|done]. simpl.
  destruct (gr_dirs _ _ Hg i d Hd) as (d' & -> & Hq).
  destruct (pm_get _ d) as [k|] eqn:Hk; [|done]. simpl. rewrite (Hq _ _ Hk). simpl. apply IH.
Qed.

(** From a new directory, names lead to new inodes only. *)
Lemma grows_walk_new t t' i cs j :
  grows t t' → Forall is_normal cs → Forall comp_ok cs →
  table t !! i = None → walk (dirs t') i cs = Some j → table t !! j = None.
Proof.
  intros Hg. revert i. induction cs as [|c cs IH]; intros i Hn Hok Hi; simpl; [naive_solver|].
  apply Forall_cons in Hn as [Hc Hn]. apply Forall_cons in Hok as [Hcok Hok].
  destruct (dirs t' !! i) as [d|] eqn:Hd; [|done]. simpl.
  destruct (pm_get _ d) as [m|] eqn:Hm; [|done]. simpl.
  destruct (gr_new _ _ Hg i d c m Hi Hd Hc Hcok Hm). by apply IH.
Qed.

Lemma dir_target_exists n t i d q m :
  table_wf n t → dirs t !! i = Some d → pm_get q d = Some m → is_Some (table t !! m).
Proof.
  intros Hwf Hd Hm. apply lookup_dirs_Some in Hd as (e & He & Hde).
  destruct (tw_entry _ _ Hwf _ _ He) as [_ Hew]. rewrite Hde in Hew.
  destruct Hew as (_ & _ & [_ _ Htgt _]). unfold pm_get in Hm.
  destruct (d !! _) as [[raw k]|] eqn:Hdk; simplify_eq/=.
  destruct (Htgt _ _ _ Hdk) as (e' & He' & _). eauto.
Qed.

(** A walk along names that starts and ends at old inodes is an old walk. *)
Lemma grows_walk_back n t t' i cs j :
  table_wf n t → grows t t' → Forall is_normal cs → Forall comp_ok cs →
  is_Some (table t !! i) → is_Some (table t !! j) →
  walk (dirs t') i cs = Some j → walk (dirs t) i cs = Some j.
Proof.
  intros Hwf Hg. revert i. induction cs as [|c cs IH]; intros i Hn Hok Hi Hj; simpl; [done|].
  apply Forall_cons in Hn as [Hc Hn]. apply Forall_cons in Hok as [Hcok Hok].
  destruct (dirs t' !! i) as [d'|] eqn:Hd'; [|done]. simpl.
  destruct (pm_get _ d') as [m|] eqn:Hm; [|done]. simpl. intros Hw.
  destruct (gr_back _ _ Hg i d' c m Hi Hd' Hc Hcok Hm) as [(d & Hd & Hmd)|[Hno _]].
  - rewrite Hd. simpl. rewrite Hmd. simpl. eauto using dir_target_exists.
  - destruct Hj. by rewrite (grows_walk_new t t' m cs j) in * by done.
Qed.

(** ** Creating directories *)

Lemma new_directory_names i k c :
  is_normal c → comp_ok c → match new_directory i k with
    | Directory d => pm_get (path (as_os_str c)) d = None | _ => False end.
Proof.
  intros Hc Hok. simpl. unfold comp_ok in Hok. rewrite !pm_get_insert. simpl. rewrite Hok.
  by destruct c.
Qed.

(** Adding a fresh directory under a name that is free. *)
Lemma add_dir_grows k name i t t' d :
  k ≠ i → table t !! i = None → comp_ok (Normal name) →
  dirs t !! k = Some d → pm_get (path name) d = None →
  add_dir k (path name) i t = (Ok tt, t') →
  grows t t' ∧ dirs t' !! i = Some (match new_directory i k with Directory n => n | _ => ∅ end) ∧
  dirs t' !! k = Some (pm_insert (path name) i d).
Proof.
  intros Hki Hi Hname Hd Hfree. pose proof Hd as (e & He & Hde)%lookup_dirs_Some.
  unfold add_dir. rewrite bool_decide_true by done. unfold bind. rewrite attach_run, He, Hde.
  unfold InodeTable_insert, modify. intros [= <-].
  set (t' := set_table _ _).
  assert (∀ m, m ≠ i → m ≠ k → table t' !! m = table t !! m) as Hsame.
  { intros m Hmi Hmk. simpl. by rewrite !lookup_insert_ne. }
  assert (table t' !! i = Some (mkInodeEntry (new_file_stat i Directory_t 0) (new_directory i k))) as Hti
    by apply lookup_insert_eq.
  assert (table t' !! k = Some (set_data (Directory (pm_insert (path name) i d)) e)) as Htk
    by (simpl; by rewrite lookup_insert_ne, lookup_insert_eq by done).
  assert (dirs t' !! i = Some (match new_directory i k with Directory n => n | _ => ∅ end)) as Hdi
    by (by rewrite lookup_dirs, Hti).
  assert (dirs t' !! k = Some (pm_insert (path name) i d)) as Hdk by (by rewrite lookup_dirs, Htk).
  split; [|done]. split.
  - intros m dm Hm. destruct (decide (m = k)) as [->|Hmk].
    + rewrite Hd in Hm. simplify_eq. eexists. split; [exact Hdk|]. intros q j Hq.
      rewrite pm_get_insert. case_decide as Heq; [|done].
      unfold pm_get in Hfree, Hq. by rewrite <- Heq, Hfree in Hq.
    + exists dm. split; [|done]. rewrite lookup_dirs, Hsame, <- lookup_dirs; [done| |done].
      intros ->. by rewrite lookup_dirs, Hi in Hm.
  - intros m em Hm Hnd. rewrite Hsame; [done| |]; intros ->; [congruence|].
    rewrite He in Hm. simplify_eq. unfold dir_of in Hnd. by rewrite Hde in Hnd.
  - intros m dm c j [em Hm] Hdm Hc Hok Hj. destruct (decide (m = k)) as [->|Hmk].
    + rewrite Hdk in Hdm. simplify_eq. rewrite pm_get_insert in Hj. case_decide; [|by left; eauto].
      simplify_eq. right. by rewrite Hdi.
    + left. exists dm. rewrite lookup_dirs, Hsame, <- lookup_dirs in Hdm; [done|congruence|done].
  - intros m dm c j Hm Hdm Hc Hok Hj. destruct (decide (m = i)) as [->|Hmi].
    + rewrite Hdi in Hdm. pose proof (new_directory_names i k c Hc Hok) as Hno.
      injection Hdm as <-. simpl in Hno. by rewrite Hno in Hj.
    + rewrite lookup_dirs, Hsame, Hm in Hdm by congruence. done.
  - intros m Hm [em Hem]. destruct (decide (m = i)) as [->|Hmi]; [by rewrite Hdi|].
    rewrite Hsame, Hm in Hem by congruence. done.
Qed.

Lemma same_table_grows t t' : table t' = table t → grows t t'.
Proof.
  intros Htab. assert (dirs t' = dirs t) as Hd by (unfold dirs; by rewrite Htab).
  destruct (reflexivity (R:=grows) t) as [H1 H2 H3 H4 H5]. split; rewrite ?Hd, ?Htab; assumption.
Qed.

(** One component of [add_all_dir]: growth, and the component leads there. *)
Lemma add_all_dir_step_grows n t0 j c t k t' :
  comp_ok c → walk_at n t0 (λ _, False) j t → add_all_dir_step j c t = (Ok k, t') →
  grows t t' ∧ walk (dirs t') j [c] = Some k.
Proof.
  intros Hc [[[Hwf _] _] [e He]] Hrun. destruct c as [| | |name]; [done..|].
  unfold add_all_dir_step, try_match in Hrun.
  pose proof (get_inode_by_inode_path_pure j (path name) t) as Hpure.
  destruct (get_inode_by_inode_path j (path name) t) as [[[m em]|err|a] t1] eqn:Hl;
    simpl in Hpure; subst t1; [| |done].
  - unfold ret in Hrun. simplify_eq/=. split; [done|].
    apply lookup_ok in Hl as [Hw _]. simpl in Hw. unfold comp_ok in Hc. simpl in Hc.
    rewrite Hc in Hw. exact Hw.
  - destruct err; try done.
    apply (lookup_err j (path name) t n) in Hl; [|done|by eexists].
    apply bind_ok in Hrun as (i & t1 & Hnew & Hrun).
    apply bind_ok in Hrun as ([] & t2 & Hadd & Hret). unfold ret in Hret. simplify_eq.
    pose proof (new_inode_table t) as Htab. rewrite Hnew in Htab. simpl in Htab.
    assert (table t !! k = None) as Hk.
    { unfold new_inode, bind, get, fail_if, ok_or, modify, ret in Hnew. simpl in Hnew.
      destruct (table t !! _) eqn:Hn in Hnew; simpl in Hnew; [done|].
      destruct (checked_add _ _ _); by simplify_eq. }
    assert (j ≠ k) as Hjk by congruence.
    assert (dirs t1 = dirs t) as Hd1 by (unfold dirs; by rewrite Htab).
    pose proof Hadd as Hatt. unfold add_dir in Hatt. rewrite bool_decide_true in Hatt by done.
    apply bind_ok in Hatt as ([] & t3 & Hatt & _). apply attach_dirs in Hatt as (d & Hd & _).
    unfold comp_ok in Hc. simpl in Hl, Hc. rewrite Hc in Hl. simpl in Hl.
    rewrite <- Hd1, Hd in Hl. simpl in Hl.
    assert (pm_get (path name) d = None) as Hfree by (by destruct (pm_get (path name) d)).
    destruct (add_dir_grows j name k t1 t' d) as (Hg & _ & Hdj); try done; [by rewrite Htab|].
    split; [etrans; [by apply same_table_grows|done]|]. simpl. rewrite Hdj. simpl.
    rewrite pm_get_insert, decide_True by done. done.
Qed.

(** Creating the directories of a path: growth, and the path leads there. *)
Lemma add_all_dir_grows n t0 cs j t k t' :
  Forall comp_ok cs → walk_at n t0 (λ _, False) j t → fold_st add_all_dir_step cs j t = (Ok k, t') →
  grows t t' ∧ walk (dirs t') j cs = Some k.
Proof.
  revert j t. induction cs as [|c cs IH]; intros j t Hok Hat; simpl.
  { unfold ret. intros. by simplify_eq. }
  apply Forall_cons in Hok as [Hc Hok]. rewrite bind_ok. intros (m & t1 & Hstep & Hrest).
  destruct (add_all_dir_step_grows n t0 j c t m t1 Hc Hat Hstep) as [Hg1 Hw1].
  assert (walk_at n t0 (λ _, False) m t1) as Hat1.
  { pose proof (add_all_dir_step_triple n t0 (λ _, False) j c Hc t Hat) as Htr. by rewrite Hstep in Htr. }
  destruct (IH m t1 Hok Hat1 Hrest) as [Hg2 Hw2]. split; [by etrans|].
  pose proof (grows_walk _ _ _ _ _ Hg2 Hw1) as Hw. simpl in Hw.
  destruct (dirs t' !! j) as [d|]; [|done]. simpl in *.
  destruct (pm_get _ d); [|done]. simpl in *. by simplify_eq.
Qed.
End grow.
