(* ===== verification/FsWf.v ===== *)
(** * Well-formedness of filesystem handlers

    The invariant of a handler over the shared state: the table is well
    formed, and every open descriptor refers to an existing inode with an
    offset in range.  Every operation keeps it, on every outcome. *)

From S2P Require Import Prelude RustPath WasiTypes Policy InodeTable FileSystem FsOps Services.
From S2P Require Import InodeWf.

#[local] Arguments Z.testbit : simpl never.

Section fs_wf.
Context {BP : BuildProfile} {WR : WasiRights} {HO : HashOrder} {NL : NativeLibs}.

Record handle_wf (t : InodeTable) (h : FileSystem) : Prop := {
  hw_fds fd e : fd_table h !! fd = Some e →
    is_Some (table t !! fe_inode e) ∧ (0 ≤ offset e < u64_bound)%Z;
  hw_next : (0 ≤ next_fd_candidate h < u32_bound)%Z;
}.

(** The paths in the state of a service come from parsed text. *)
Definition service_ok (svc : Service) : Prop :=
  match svc with
  | PostcardService => True
  | AesService st => path_ok (aes_input_path st) ∧ path_ok (aes_output_path st)
  end.

(** The invariant, for [n] services and relative to a past table [t0]. *)
Record fs_inv (n : nat) (t0 : InodeTable) (s : fs_state) : Prop := {
  fi_table : tinv n t0 (inode_table (world s));
  fi_handle : handle_wf (inode_table (world s)) (handle s);
  fi_services : length (services (world s)) = n ∧
    Forall (λ c, service_ok (sc_service c)) (services (world s));
}.

Definition fs_wf (s : fs_state) : Prop :=
  fs_inv (length (services (world s))) (inode_table (world s)) s.

Lemma handle_wf_extends t t' h : extends t t' → handle_wf t h → handle_wf t' h.
Proof.
  intros Hext [Hfds Hnext]. split; [|done]. intros fd e He.
  destruct (Hfds fd e He) as [[x Hx] Hoff]. split; [|done].
  destruct (ex_table _ _ Hext _ _ Hx) as (y & Hy & _). eauto.
Qed.

Lemma empty_handle_wf t : handle_wf t empty_handle.
Proof.
  split; [intros fd e He; simpl in He; by rewrite lookup_empty in He|].
  done.
Qed.

(** ** Access to the table *)

Lemma lock_triple {A} n t0 (op : ST InodeTable ErrNo.t A) (P : InodeTable → Prop) Q :
  (∀ t1, triple (λ t, tinv n t1 t ∧ P t) op (λ a t, tinv n t1 t ∧ Q a t) (tinv n t1)) →
  triple (λ s, fs_inv n t0 s ∧ P (inode_table (world s))) (lock_inode_table op)
    (λ a s, fs_inv n t0 s ∧ Q a (inode_table (world s))) (fs_inv n t0).
Proof.
  intros Hop s [[Ht Hh Hs] HP]. unfold lock_inode_table, zoom.
  set (t := inode_table (world s)) in *.
  assert (tinv n t t) as Ht' by (split; [apply Ht|done]).
  pose proof (Hop t0 t (conj Ht HP)) as H0. pose proof (Hop t t (conj Ht' HP)) as H1.
  assert (∀ t', tinv n t0 t' → extends t t' → fs_inv n t0 (set_inode_table t' s)) as Hset.
  { intros t' Ht0 Hext. split; [done|by eapply handle_wf_extends|done]. }
  destruct (op t) as [[a|e|p] t'].
  - split; [|apply H0]. apply Hset; [apply H0|apply H1].
  - apply Hset; [apply H0|apply H1].
  - apply Hset; [apply H0|apply H1].
Qed.

Lemma lock_preserves {A} n t0 (op : ST InodeTable ErrNo.t A) :
  (∀ t1, preserves (tinv n t1) op) → preserves (fs_inv n t0) (lock_inode_table op).
Proof.
  intros Hop. eapply triple_conseq;
    [apply (lock_triple n t0 op (λ _, True) (λ _ _, True))|naive_solver..].
  intros t1. eapply triple_conseq; [apply Hop|naive_solver..].
Qed.

(** Reading the table in any way keeps the state. *)
Lemma lock_pure {A} (P : fs_state → Prop) (op : ST InodeTable ErrNo.t A) :
  (∀ t, (op t).2 = t) → preserves P (lock_inode_table op).
Proof.
  intros Hop s Hs. unfold lock_inode_table, zoom. pose proof (Hop (inode_table (world s))) as Hp.
  destruct (op _) as [[] t]; simpl in *; subst; by destruct s as [? []].
Qed.

Lemma InodeTable_get_pure i (t : InodeTable) : (InodeTable_get i t).2 = t.
Proof. unfold InodeTable_get, bind, get, ok_or. simpl. by destruct (table t !! i). Qed.

Lemma InodeTable_is_dir_pure i (t : InodeTable) : (InodeTable_is_dir i t).2 = t.
Proof. done. Qed.

Lemma get_rights_pure pr (t : InodeTable) : (get_rights pr t).2 = t.
Proof. unfold get_rights, bind, get, ok_or. simpl. by destruct (rights_table t !! pr). Qed.

Lemma lock_get_preserves (P : fs_state → Prop) i :
  preserves P (lock_inode_table (InodeTable_get i)).
Proof. apply lock_pure, InodeTable_get_pure. Qed.
Lemma lock_is_dir_preserves (P : fs_state → Prop) i :
  preserves P (lock_inode_table (InodeTable_is_dir i)).
Proof. apply lock_pure, InodeTable_is_dir_pure. Qed.
Lemma lock_get_rights_preserves (P : fs_state → Prop) pr :
  preserves P (lock_inode_table (get_rights pr)).
Proof. apply lock_pure, get_rights_pure. Qed.
Lemma lock_lookup_preserves (P : fs_state → Prop) i p :
  preserves P (lock_inode_table (get_inode_by_inode_path i p)).
Proof. apply lock_pure. intros t. apply get_inode_by_inode_path_pure. Qed.
Lemma lock_read_dir_preserves (P : fs_state → Prop) i :
  preserves P (lock_inode_table (read_dir i)).
Proof. apply lock_pure. intros t. apply read_dir_pure. Qed.

(** ** Access to the descriptors *)

Lemma fd_get_triple (P : fs_state → Prop) fd :
  triple P (fd_get fd) (λ e s, P s ∧ fd_table (handle s) !! fd = Some e) P.
Proof.
  intros s Hs. unfold fd_get, bind, get, ok_or. simpl.
  destruct (fd_table _ !! fd) eqn:?; simpl; auto.
Qed.

Lemma fd_get_preserves (P : fs_state → Prop) fd : preserves P (fd_get fd).
Proof. eapply preserves_weaken, fd_get_triple. Qed.

Lemma check_right_preserves (P : fs_state → Prop) fd r : preserves P (check_right fd r).
Proof.
  apply preserves_bind; [apply fd_get_preserves|]. intros e.
  destruct (rights_contains _ _); eauto with veracruz.
Qed.

Lemma get_inode_by_fd_preserves (P : fs_state → Prop) fd : preserves P (get_inode_by_fd fd).
Proof. apply preserves_bind; [apply fd_get_preserves|]. eauto with veracruz. Qed.

Lemma get_inode_by_fd_path_preserves (P : fs_state → Prop) fd p :
  preserves P (get_inode_by_fd_path fd p).
Proof.
  apply preserves_bind; [apply get_inode_by_fd_preserves|]. intros i.
  apply preserves_bind; [apply lock_lookup_preserves|]. eauto with veracruz.
Qed.

#[local] Hint Resolve lock_get_preserves lock_is_dir_preserves lock_get_rights_preserves
  lock_lookup_preserves lock_read_dir_preserves fd_get_preserves check_right_preserves
  get_inode_by_fd_preserves get_inode_by_fd_path_preserves : veracruz.

(** ** Updating the descriptor table *)

Lemma fd_insert_triple n t0 fd e :
  triple (λ s, fs_inv n t0 s ∧ is_Some (table (inode_table (world s)) !! fe_inode e) ∧
            (0 ≤ offset e < u64_bound)%Z)
    (fd_insert fd e) (λ _, fs_inv n t0) (fs_inv n t0).
Proof.
  intros s ([Ht [Hfds Hnext] Hs] & He & Hoff). split; [done| |done]. split; [|done].
  intros fd' e'. simpl. rewrite lookup_insert. case_decide; intros; simplify_eq; eauto.
Qed.

Lemma fd_update_preserves n t0 fd f :
  (∀ e, fe_inode (f e) = fe_inode e ∧
     ((0 ≤ offset e < u64_bound)%Z → (0 ≤ offset (f e) < u64_bound)%Z)) →
  preserves (fs_inv n t0) (fd_update fd f).
Proof.
  intros Hf. eapply triple_bind; [apply fd_get_triple|]. intros e.
  eapply triple_conseq; [apply (fd_insert_triple n t0)| |done..].
  intros s [Hs He]. destruct (Hf e) as [-> Hoff].
  destruct (hw_fds _ _ (fi_handle _ _ _ Hs) _ _ He). eauto.
Qed.

Lemma fd_delete_preserves n t0 fd :
  preserves (fs_inv n t0)
    (modify (E:=ErrNo.t) (λ s, set_fd_table (delete fd (fd_table (handle s))) s)).
Proof.
  apply triple_modify. intros s [Ht [Hfds Hnext] Hs]. split; [done| |done]. split; [|done].
  intros fd' e. simpl. rewrite lookup_delete_Some. naive_solver.
Qed.

Lemma new_fd_preserves n t0 : preserves (fs_inv n t0) new_fd.
Proof.
  intros s Hs. pose proof Hs as [Ht [Hfds Hnext] Hserv].
  unfold new_fd, bind, get, fail_if, lift, modify, ret, u32_add. simpl.
  match goal with |- context [if ?b then _ else _] => destruct b eqn:Hb end; [done|].
  apply orb_false_iff in Hb as [Hbit _].
  assert (next_fd_candidate (handle s) < 2147483648)%Z as Hlt.
  { destruct (Z.lt_ge_cases (next_fd_candidate (handle s)) 2147483648) as [|Hge]; [done|].
    exfalso. assert (Z.testbit (next_fd_candidate (handle s)) 31 = true); [|congruence].
    apply Z.testbit_true; [lia|].
    replace (next_fd_candidate (handle s) / 2 ^ 31)%Z with 1%Z; [done|].
    apply Z.div_unique with (r := (next_fd_candidate (handle s) - 2^31)%Z); lia. }
  rewrite unsigned_add_small by lia. split; [done| |done]. split; [done|]. simpl. lia.
Qed.

Lemma new_fd_world (P : World → Prop) :
  triple (λ s, P (world s)) new_fd (λ _ s, P (world s)) (λ _, True).
Proof.
  intros s Hs. unfold new_fd, bind, get, fail_if, lift, modify, ret, u32_add. simpl.
  destruct (_ || _)%bool; [done|]. by destruct (unsigned_add _ _ _).
Qed.

Lemma set_prestat_preserves n t0 f :
  preserves (fs_inv n t0)
    (modify (E:=ErrNo.t) (λ s, set_prestat_table (f s) s)).
Proof. apply triple_modify. intros s [Ht [] Hs]. split; [done|by split|done]. Qed.

(** ** Operations on descriptors *)

Lemma get_mut_lock_preserves {A} n t0 i (op : N_ A) :
  (∀ m k, preserves (einv n m i k) op) →
  preserves (fs_inv n t0) (lock_inode_table (InodeTable_get_mut i op)).
Proof. intros Hop. apply lock_preserves. intros t1. by apply get_mut_preserves. Qed.

Lemma fd_advise_wf n t0 fd off length adv :
  preserves (fs_inv n t0) (fd_advise fd off length adv).
Proof. unfold fd_advise. preserve. by apply fd_update_preserves. Qed.

Lemma fd_close_wf n t0 fd : preserves (fs_inv n t0) (fd_close fd).
Proof.
  unfold fd_close. preserve; [|apply fd_delete_preserves].
  apply get_mut_lock_preserves. intros m k. preserve.
  apply InodeEntry_truncate_file_preserves.
Qed.

Lemma fd_fdstat_set_flags_wf n t0 fd fl : preserves (fs_inv n t0) (fd_fdstat_set_flags fd fl).
Proof. unfold fd_fdstat_set_flags. preserve. by apply fd_update_preserves. Qed.

Lemma fd_filestat_set_size_wf n t0 fd size :
  preserves (fs_inv n t0) (fd_filestat_set_size fd size).
Proof.
  unfold fd_filestat_set_size. preserve. apply get_mut_lock_preserves. intros m k.
  apply InodeEntry_resize_file_preserves.
Qed.

Lemma set_times_lock_preserves n t0 i at_ mt fl now :
  preserves (fs_inv n t0)
    (lock_inode_table (InodeTable_get_mut i (modify (set_times at_ mt fl now)))).
Proof.
  apply get_mut_lock_preserves. intros m k. apply modify_times_preserves.
  intros e. unfold set_times. by repeat case_match.
Qed.

Lemma pread_step_preserves (P : fs_state → Prop) f acc buf : preserves P (pread_step f acc buf).
Proof. destruct acc as [[off total] done_]. unfold pread_step. preserve. Qed.

Lemma fd_pread_wf (P : fs_state → Prop) fd bufs off : preserves P (fd_pread fd bufs off).
Proof. unfold fd_pread. preserve. apply pread_step_preserves. Qed.

#[local] Hint Resolve fd_filestat_set_size_wf fd_close_wf fd_pread_wf set_times_lock_preserves
  new_fd_preserves : veracruz.

Lemma file_size_range n t0 s i f :
  fs_inv n t0 s → table (inode_table (world s)) !! i = Some f →
  (0 ≤ file_size (file_stat f) < u64_bound)%Z.
Proof.
  intros [[[_ _ _ Hent _ _] _] _ _] Hf. destruct (Hent _ _ Hf) as [_ Hwf].
  destruct (data f) as [? b|b|]; try pose proof (len_nonneg b); naive_solver lia.
Qed.

Lemma lock_get_triple (P X : fs_state → Prop) i :
  (∀ s, P s → X s) →
  triple P (lock_inode_table (InodeTable_get i))
    (λ f s, P s ∧ table (inode_table (world s)) !! i = Some f) X.
Proof.
  intros HX s Hs. apply HX in Hs as Hx. unfold lock_inode_table, zoom, InodeTable_get, bind, get, ok_or. simpl.
  destruct (table _ !! i) as [f|] eqn:Hf; unfold set_inode_table; simpl;
    destruct s as [? []]; done.
Qed.

(** The new offset of [fd_seek] is in range: it is a checked sum, or a
    difference that is not negative. *)
Lemma fd_seek_wf n t0 fd delta whence : preserves (fs_inv n t0) (fd_seek fd delta whence).
Proof.
  unfold fd_seek. apply preserves_bind; [eauto with veracruz|intros _].
  eapply triple_bind; [apply fd_get_triple|]. intros e.
  eapply triple_bind; [apply lock_get_triple; by intros s []|]. intros f.
  set (base := new_base_offset _ _ _).
  apply triple_conseq with (P := λ s, fs_inv n t0 s ∧ (0 ≤ base < u64_bound)%Z)
    (Q := λ _, fs_inv n t0) (X := fs_inv n t0); [| |done..].
  2: { intros s [[Hs He] Hf]. split; [done|].
       pose proof (hw_fds _ _ (fi_handle _ _ _ Hs) _ _ He) as [_ Hoff].
       pose proof (file_size_range _ _ _ _ _ Hs Hf).
       subst base. destruct whence; simpl; lia. }
  apply triple_pure. intros Hbase.
  apply triple_bind with (R := λ off s, fs_inv n t0 s ∧ (0 ≤ off < u64_bound)%Z).
  2: { intros off. apply triple_pure. intros Hnew. preserve. by apply fd_update_preserves. }
  destruct (0 <=? delta)%Z; (eapply triple_bind; [apply preserves_lift|intros a];
    eapply triple_bind; [apply try_from_triple|intros d]; apply triple_pure; intros [-> Ha]).
  - eapply triple_bind; [apply unsigned_add_triple; lia|]. intros z.
    apply triple_pure. intros Hz.
    apply triple_bind with (R := λ _, fs_inv n t0); [preserve|]. intros []. by apply triple_ret.
  - apply triple_bind with (R := λ _ s, fs_inv n t0 s ∧ (a ≤ base)%Z).
    { apply triple_fail_if. intros s Hs. by destruct (Z.ltb_spec base a). }
    intros _. apply triple_ret. intros s [Hs ?]. split; [done|lia].
Qed.

#[local] Hint Resolve fd_seek_wf : veracruz.

Lemma fd_read_wf n t0 fd bufs : preserves (fs_inv n t0) (fd_read fd bufs).
Proof. unfold fd_read. preserve. Qed.

Lemma fd_readdir_wf (P : fs_state → Prop) fd cookie : preserves P (fd_readdir fd cookie).
Proof. unfold fd_readdir. preserve. Qed.

Lemma fd_renumber_wf n t0 old_fd new_fd : preserves (fs_inv n t0) (fd_renumber old_fd new_fd).
Proof.
  eapply triple_bind; [apply fd_get_triple|]. intros e.
  intros s [Hs He]. unfold bind at 1, get. simpl.
  destruct (fd_table (handle s) !! new_fd); [done|].
  assert (triple (λ s, fs_inv n t0 s ∧ is_Some (table (inode_table (world s)) !! fe_inode e) ∧
    (0 ≤ offset e < u64_bound)%Z)
    (do! fd_insert new_fd e in
     modify (λ s, set_fd_table (delete old_fd (fd_table (handle s))) s))
    (λ _, fs_inv n t0) (fs_inv n t0)) as Hm.
  { eapply triple_bind; [apply fd_insert_triple|]. intros []. apply fd_delete_preserves. }
  apply Hm. split; [done|]. apply (hw_fds _ _ (fi_handle _ _ _ Hs) _ _ He).
Qed.

(** ** Operations on paths *)

Definition at_inode (n : nat) (t0 : InodeTable) (i : Z) (s : fs_state) : Prop :=
  fs_inv n t0 s ∧ is_Some (table (inode_table (world s)) !! i).

Lemma get_inode_by_fd_triple n t0 fd :
  triple (fs_inv n t0) (get_inode_by_fd fd) (at_inode n t0) (fs_inv n t0).
Proof.
  eapply triple_bind; [apply fd_get_triple|]. intros e. apply triple_ret. intros s [Hs He].
  split; [done|]. apply (hw_fds _ _ (fi_handle _ _ _ Hs) _ _ He).
Qed.

Lemma lock_walk_triple n t0 j (op : ST InodeTable ErrNo.t Z) :
  (∀ t1, triple (walk_at n t1 (λ _, False) j) op (walk_at n t1 (λ _, False))
           (walk_inv n t1 (λ _, False))) →
  triple (at_inode n t0 j) (lock_inode_table op) (at_inode n t0) (fs_inv n t0).
Proof.
  intros Hop. apply (lock_triple n t0 op (λ t, is_Some (table t !! j))
    (λ i t, is_Some (table t !! i))).
  intros t1. eapply triple_conseq; [apply (Hop t1)|unfold walk_at, walk_inv; naive_solver..].
Qed.

Lemma create_directory_step_triple n t0 j c :
  comp_ok c →
  triple (at_inode n t0 j) (create_directory_step j c) (at_inode n t0) (fs_inv n t0).
Proof.
  intros Hc. destruct c as [| | |s]; simpl; [by apply triple_throw; intros ? []..|].
  eapply triple_bind.
  - apply (lock_triple n t0 new_inode (λ t, is_Some (table t !! j))
      (λ i t, fresh i t ∧ j ≠ i)).
    intros t1. intros t [Ht Hj]. pose proof (new_inode_triple n t1 t Ht) as Hn.
    pose proof (new_inode_table t) as Htab.
    destruct (new_inode t) as [[i| |] t']; simpl in *; [|done|done].
    destruct Hn as [Ht' Hf]. split_and!; [done|done|].
    eapply reserved_ne; [by apply fresh_reserved|by rewrite Htab].
  - intros i. eapply triple_bind.
    + apply (lock_triple n t0 (add_dir j (path s) i) (λ t, fresh i t ∧ j ≠ i)
        (λ _ t, is_Some (table t !! i))).
      intros t1. eapply triple_conseq; [by apply add_dir_triple, comp_ok_name|naive_solver..].
    + intros []. by apply triple_ret.
Qed.

Lemma path_create_directory_wf n t0 fd p :
  path_ok p → preserves (fs_inv n t0) (path_create_directory fd p).
Proof.
  intros [Hp _]. unfold path_create_directory. apply preserves_bind; [eauto with veracruz|intros _].
  eapply triple_bind; [apply get_inode_by_fd_triple|]. intros j.
  assert (∀ A (m : M A), (∀ P, preserves P m) →
    triple (at_inode n t0 j) m (λ _, at_inode n t0 j) (fs_inv n t0)) as Hkeep.
  { intros A m Hm. eapply triple_conseq; [apply Hm|done|done|by intros ? []]. }
  eapply triple_bind; [apply Hkeep; eauto with veracruz|]. intros b.
  eapply triple_bind; [apply Hkeep; eauto with veracruz|]. intros [].
  eapply triple_bind; [apply Hkeep; intros P; preserve|]. intros [].
  apply triple_bind with (R := λ _, fs_inv n t0); [|intros _; apply preserves_ret].
  eapply triple_conseq; [apply triple_fold with (I := at_inode n t0)|done|by intros ?? []|done].
  intros j' c Hc. apply create_directory_step_triple. by eapply Forall_forall in Hp.
Qed.

Lemma new_fd_at n t0 i :
  triple (at_inode n t0 i) new_fd (λ _, at_inode n t0 i) (fs_inv n t0).
Proof.
  eapply triple_conseq;
    [apply triple_and; [apply (new_fd_preserves n t0)|
       apply (new_fd_world (λ w, is_Some (table (inode_table w) !! i)))]|..];
    unfold at_inode; naive_solver.
Qed.

Lemma fd_create_wf n t0 : preserves (fs_inv n t0) fd_create.
Proof.
  unfold fd_create.
  apply triple_bind with (R := λ i s, fs_inv n t0 s ∧ fresh i (inode_table (world s))).
  { eapply triple_conseq; [apply (lock_triple n t0 new_inode (λ _, True) fresh)|naive_solver..].
    intros t1. eapply triple_conseq; [apply new_inode_triple|naive_solver..]. }
  intros i. eapply triple_bind.
  { apply (lock_triple n t0 _ (fresh i) (λ _ t, is_Some (table t !! i))).
    intros t1. apply triple_modify. intros t [Ht Hf].
    destruct (fresh_reserved _ _ Hf) as [Hnone Hlt].
    split; [|simpl; rewrite lookup_insert_eq; eauto].
    apply tinv_add; [done|done|lia|]. by repeat split. }
  intros []. eapply triple_bind; [apply new_fd_at|].
  intros fd. eapply triple_bind.
  { eapply triple_conseq; [apply (fd_insert_triple n t0)| |done..].
    intros s [Hs Hi]. split_and!; done. }
  intros []. by apply triple_ret.
Qed.

(** *** [path_open] *)

(** The descriptor [fd] is open on the directory [j]. *)
Definition open_on (fd j : Z) (s : fs_state) : Prop :=
  (∃ e, fd_table (handle s) !! fd = Some e ∧ fe_inode e = j) ∧
  ∃ f, table (inode_table (world s)) !! j = Some f ∧ InodeEntry_is_dir f = true.

Lemma get_inode_by_fd_path_run fd j p s :
  open_on fd j s →
  get_inode_by_fd_path fd p s =
    (match (get_inode_by_inode_path j p (inode_table (world s))).1 with
     | Ok r => Ok r.1 | Err e => Err e | Abort a => Abort a end, s).
Proof.
  intros [(e & He & <-) _].
  unfold get_inode_by_fd_path, get_inode_by_fd, fd_get, lock_inode_table, zoom, bind, get,
    ok_or, ret. simpl. rewrite He.
  pose proof (get_inode_by_inode_path_pure (fe_inode e) p (inode_table (world s))) as Hp.
  destruct (get_inode_by_inode_path _ _ _) as [[] t]; simpl in *; subst;
    unfold set_inode_table; by destruct s as [? []].
Qed.

(** A directory finds itself under [.] and its parent under [..]. *)
Lemma lookup_dot n t j p c f :
  table_wf n t → table t !! j = Some f → InodeEntry_is_dir f = true →
  p_comps p = [c] → c = CurDir ∨ c = ParentDir →
  is_ok (get_inode_by_inode_path j p t).1 = true.
Proof.
  intros [_ _ _ Hent _ _] Hf Hdir Hp Hc. destruct (Hent _ _ Hf) as [_ Hwf].
  unfold InodeEntry_is_dir in Hdir. destruct (data f) as [| |d] eqn:Hd; [done|done|].
  destruct Hwf as (_ & _ & [Hself Hpar Htgt _]).
  assert (∃ k, pm_get (path (as_os_str c)) d = Some k ∧ is_Some (table t !! k)) as (k & Hk & e & He).
  { assert (is_Some (pm_get (path (as_os_str c)) d)) as [k Hk].
    { destruct Hc as [-> | ->]; [eexists; exact Hself|exact Hpar]. }
    exists k. split; [done|]. unfold pm_get in Hk.
    destruct (d !! _) as [[raw k']|] eqn:Hd'; simplify_eq/=.
    destruct (Htgt _ _ _ Hd') as (e & He & _). eauto. }
  unfold get_inode_by_inode_path. rewrite Hp. simpl.
  unfold bind, lookup_component, InodeTable_get, bind, get, ok_or, lift. simpl. rewrite Hf.
  unfold InodeEntry_get_inode_by_path, on_data, zoom, InodeImpl_get_inode_by_path, bind, get, ok_or.
  rewrite Hd. simpl. rewrite Hk. simpl. by rewrite He.
Qed.

Lemma path_open_create_triple n t0 fd j p oflags err :
  creatable p →
  triple (at_inode n t0 j)
    (do! fail_if (negb (CREATE oflags)) err in
     do! check_right fd (right_of PATH_CREATE_FILE) in
     let! new_inode := lock_inode_table new_inode in
     do! lock_inode_table (add_file j p new_inode []) in ret new_inode)
    (at_inode n t0) (fs_inv n t0).
Proof.
  intros Hp.
  apply triple_bind with (R := λ _, at_inode n t0 j).
  { apply triple_fail_if. intros s Hs. destruct (negb _); [apply Hs|done]. }
  intros []. apply triple_bind with (R := λ _, at_inode n t0 j).
  { eapply triple_conseq; [apply (check_right_preserves (at_inode n t0 j))|done|done|by intros ? []]. }
  intros []. eapply triple_bind.
  - apply (lock_triple n t0 new_inode (λ t, is_Some (table t !! j))
      (λ i t, reserved i t ∧ is_Some (table t !! j))).
    intros t1 t [Ht Hj]. pose proof (new_inode_triple n t1 t Ht) as Hn.
    pose proof (new_inode_table t) as Htab.
    destruct (new_inode t) as [[i| |] t']; simpl in *; [|done|done].
    destruct Hn as [Ht' Hf]. rewrite Htab. eauto using fresh_reserved.
  - intros i. eapply triple_bind.
    + apply (lock_triple n t0 (add_file j p i [])
        (λ t, reserved i t ∧ is_Some (table t !! j)) (λ _ t, is_Some (table t !! i))).
      intros t1. eapply triple_conseq; [by apply add_file_triple|naive_solver..].
    + intros []. by apply triple_ret.
Qed.

Lemma path_open_inode_triple n t0 fd j p oflags :
  path_ok p →
  triple (λ s, fs_inv n t0 s ∧ open_on fd j s) (path_open_inode fd j p oflags)
    (at_inode n t0) (fs_inv n t0).
Proof.
  intros Hp s [Hs Hopen]. pose proof Hopen as [_ (f & Hf & Hdir)].
  unfold path_open_inode, try_match. rewrite (get_inode_by_fd_path_run fd j) by done.
  pose proof (get_inode_by_inode_path_triple (λ _, True) j p (inode_table (world s)) Logic.I) as Hlook.
  pose proof (get_inode_by_inode_path_pure j p (inode_table (world s))) as Hpure.
  pose proof (λ c, lookup_dot n (inode_table (world s)) j p c f (proj1 (fi_table _ _ _ Hs)) Hf Hdir)
    as Hdot.
  destruct (get_inode_by_inode_path j p _) as [[[i e]|err|a] t]; simpl in *; subst t.
  - destruct Hlook as [_ Hi].
    assert (triple (at_inode n t0 i)
      (do! fail_if (EXCL oflags) ErrNo.Exist in
       let! is_dir := lock_inode_table (InodeTable_is_dir i) in
       do! fail_if (DIRECTORY oflags && negb is_dir) ErrNo.NotDir in ret i)
      (λ _, at_inode n t0 i) (at_inode n t0 i)) as Hm by preserve.
    assert (at_inode n t0 i s) as Hat by (split; [done|eauto]). specialize (Hm s Hat).
    revert Hm. unfold bind, fail_if, ret. destruct (EXCL oflags); [by intros []|].
    destruct (lock_inode_table _ s) as [[b| |] s']; [|by intros []..].
    destruct (DIRECTORY oflags && negb b); [by intros []|done].
  - assert (creatable p) as Hcreate.
    { split_and!; [done|intros Hc; by specialize (Hdot _ Hc (or_introl eq_refl))|
        intros Hc; by specialize (Hdot _ Hc (or_intror eq_refl))]. }
    apply (path_open_create_triple n t0 fd j p oflags err Hcreate). split; [done|eauto].
  - done.
Qed.

Lemma get_mut_lock_at {A} n t0 i (op : N_ A) j :
  (∀ m k, preserves (einv n m i k) op) →
  triple (at_inode n t0 j) (lock_inode_table (InodeTable_get_mut i op))
    (λ _, at_inode n t0 j) (fs_inv n t0).
Proof.
  intros Hop. apply (lock_triple n t0 _ (λ t, is_Some (table t !! j))
    (λ _ t, is_Some (table t !! j))).
  intros t1 t [Ht Hj]. pose proof (get_mut_preserves n t1 i op Hop t Ht) as H1.
  assert (tinv n t t) as Ht' by (split; [apply Ht|done]).
  pose proof (get_mut_preserves n t i op Hop t Ht') as H2.
  destruct (InodeTable_get_mut i op t) as [[] t']; [|done|done].
  split; [done|]. destruct Hj as [e He].
  destruct (ex_table _ _ (proj2 H2) _ _ He) as (e' & He' & _). eauto.
Qed.

Lemma path_open_wf n t0 fd p oflags base inheriting fl :
  path_ok p → preserves (fs_inv n t0) (path_open fd p oflags base inheriting fl).
Proof.
  intros Hp. unfold path_open. apply preserves_bind; [eauto with veracruz|intros []].
  apply triple_bind with
    (R := λ j s, fs_inv n t0 s ∧ ∃ e, fd_table (handle s) !! fd = Some e ∧ fe_inode e = j).
  { eapply triple_bind; [apply fd_get_triple|]. intros e. apply triple_ret. naive_solver. }
  intros j. apply triple_bind with (R := λ b s, fs_inv n t0 s ∧ (b = true → open_on fd j s)).
  { intros s [Hs He]. unfold lock_inode_table, zoom, InodeTable_is_dir, bind, get, ret. simpl.
    assert (set_inode_table (inode_table (world s)) s = s) as -> by by destruct s as [? []].
    split; [done|]. intros Hb. split; [done|].
    destruct (table (inode_table (world s)) !! j) as [f|]; [eauto|done]. }
  intros b. apply triple_bind with (R := λ _ s, fs_inv n t0 s ∧ open_on fd j s).
  { apply triple_fail_if. intros s [Hs Hb]. destruct b; simpl; auto. }
  intros []. apply triple_bind with (R := λ _ s, fs_inv n t0 s ∧ open_on fd j s).
  { eapply triple_conseq;
      [apply (fd_get_preserves (λ s, fs_inv n t0 s ∧ open_on fd j s))|done|done|by intros ? []]. }
  intros e. eapply triple_bind; [by apply path_open_inode_triple|]. intros i.
  apply triple_bind with (R := λ _, at_inode n t0 i).
  { destruct (TRUNC oflags); [|by apply triple_ret].
    apply triple_bind with (R := λ _, at_inode n t0 i).
    - eapply triple_conseq; [apply (check_right_preserves (at_inode n t0 i))|done|done|by intros ? []].
    - intros []. apply get_mut_lock_at. intros m k. apply InodeEntry_truncate_file_preserves. }
  intros []. eapply triple_bind; [apply new_fd_at|]. intros fd'.
  eapply triple_bind; [apply (lock_get_triple (at_inode n t0 i) (fs_inv n t0)); intros ? []; done|]. intros f.
  apply triple_bind with (R := λ _, fs_inv n t0); [|intros []; apply preserves_ret].
  eapply triple_conseq; [apply (fd_insert_triple n t0)| |done..].
  intros s [[Hs Hi] Hf]. split_and!; [done|done|simpl; lia..].
Qed.
End fs_wf.

#[export] Hint Resolve lock_get_preserves lock_is_dir_preserves lock_get_rights_preserves
  lock_lookup_preserves lock_read_dir_preserves fd_get_preserves check_right_preserves
  get_inode_by_fd_preserves get_inode_by_fd_path_preserves : veracruz.
