(* ===== verification/FsInv.v ===== *)
(** * The invariant over every operation

    The rest of the operations of a handler keep the invariant of [FsWf]: the
    creation of handlers, the whole-file operations of the runtime, and the
    native services with the writes they make.  The section ends with the
    step relation of the filesystem and its reachable states. *)

From S2P Require Import Prelude RustPath WasiTypes Policy InodeTable FileSystem FsOps Services.
From S2P Require Import InodeWf FsWf.

Section inv.
Context {BP : BuildProfile} {WR : WasiRights} {HO : HashOrder} {HL : HashOrderLaws HO}
  {NL : NativeLibs}.

(** ** New handlers *)

Lemma with_handle_triple {E A} n t0 h (op : ST fs_state E A) :
  (∀ t1, preserves (fs_inv n t1) op) →
  triple (λ s, fs_inv n t0 s ∧ handle_wf (inode_table (world s)) h) (with_handle h op)
    (λ r s, fs_inv n t0 s ∧ handle_wf (inode_table (world s)) r.2) (fs_inv n t0).
Proof.
  intros Hop s [[Ht Hh Hs] Hwf]. unfold with_handle.
  set (t := inode_table (world s)) in *. set (s1 := mkState h (world s)).
  assert (fs_inv n t s1) as H1 by (split; [split; [apply Ht|done]|done|done]).
  assert (fs_inv n t0 s1) as H0 by done.
  apply (Hop t) in H1. apply (Hop t0) in H0.
  assert (∀ s', fs_inv n t s' → fs_inv n t0 s' → fs_inv n t0 (mkState (handle s) (world s')))
    as Hback.
  { intros s' [[_ Hext] _ _] [Ht0 _ Hs0]. split; [done|by eapply handle_wf_extends|done]. }
  destruct (op s1) as [[a|e|p] s']; [|by apply Hback..].
  split; [by apply Hback|]. apply H0.
Qed.

Lemma install_fd_wf n t0 fd ty i base inh :
  triple (at_inode n t0 i) (install_fd fd ty i base inh) (λ _, fs_inv n t0) (fs_inv n t0).
Proof.
  eapply triple_conseq; [apply (fd_insert_triple n t0)| |done..].
  intros s [Hs Hi]. by split_and!.
Qed.

Lemma std_stream_target_exists n t0 s name fd i :
  fs_inv n t0 s → std_stream_target (inode_table (world s)) name = Some (fd, i) →
  at_inode n t0 i s.
Proof.
  intros Hs Heq. split; [done|]. destruct Hs as [[[_ _ _ _ Hstd _] _] _ _].
  unfold std_stream_target in Heq. repeat case_decide; naive_solver.
Qed.

Lemma install_standard_stream_wf n t0 fr : preserves (fs_inv n t0) (install_standard_stream fr).
Proof.
  intros s Hs. unfold install_standard_stream, bind at 1, get. simpl.
  destruct (std_stream_target _ _) as [[fd i]|] eqn:Heq; [|done].
  pose proof (std_stream_target_exists _ _ _ _ _ _ Hs Heq) as Hi.
  assert (triple (at_inode n t0 i)
    (let! bits := lift (try_from_or_errno u64_bound (fr_rights fr)) in
     let! rights := ok_or (rights_from_bits bits) ErrNo.Inval in
     install_fd fd RegularFile i rights rights) (λ _, fs_inv n t0) (fs_inv n t0)) as Hm;
    [|by apply Hm].
  eapply triple_bind; [by apply triple_keep; [apply preserves_lift|intros ? []]|].
  intros bits. eapply triple_bind; [by apply triple_keep; [apply preserves_ok_or|intros ? []]|].
  intros r. apply install_fd_wf.
Qed.

Lemma root_at n t0 s : fs_inv n t0 s → at_inode n t0 ROOT_DIRECTORY_INODE s.
Proof.
  intros Hs. split; [done|]. destruct Hs as [[[_ _ (e & He & _) _ _ _] _] _ _]. eauto.
Qed.

Lemma strip_root_slash_ok p : path_ok p → path_ok (strip_root_slash p).
Proof.
  unfold strip_root_slash. intros Hp. destruct (strip_prefix _ _) eqn:Hs; [|done].
  by eapply strip_prefix_ok.
Qed.

Lemma install_prestat_dir_wf n t0 index e :
  path_ok e.1 → preserves (fs_inv n t0) (install_prestat_dir index e).
Proof.
  intros Hp. unfold install_prestat_dir.
  apply preserves_bind; [eauto with veracruz|]. intros i32.
  apply preserves_bind; [eauto with veracruz|]. intros fd.
  apply triple_bind with (R := at_inode n t0).
  - destruct (path_eqb _ _); [apply triple_ret; apply root_at|].
    eapply triple_conseq; [apply (lock_walk_triple n t0 ROOT_DIRECTORY_INODE)|apply root_at|done..].
    intros t1. by apply add_all_dir_triple, strip_root_slash_ok.
  - intros i. eapply triple_bind; [apply install_fd_wf|]. intros [].
    apply preserves_bind; [apply set_prestat_preserves|]. eauto with veracruz.
Qed.

Lemma install_prestat_wf n t0 m : keys_ok m → preserves (fs_inv n t0) (install_prestat m).
Proof.
  intros Hm. unfold install_prestat. apply preserves_bind.
  { apply preserves_fold. intros _ fr. apply install_standard_stream_wf. }
  intros _. apply preserves_bind.
  { apply (triple_fold (λ _, fs_inv n t0)). intros index [p r] Hin.
    apply install_prestat_dir_wf. apply list_elem_of_filter in Hin as [_ Hin].
    rewrite (pm_iter_ok _ _ _ Hm Hin). apply path_path_ok. }
  intros _. eapply triple_bind; [apply try_from_triple|]. intros k. apply triple_pure.
  intros [-> Hk]. eapply triple_bind; [apply unsigned_add_triple; unfold FIRST_FD; lia|].
  intros next. apply triple_pure. intros Hnext. apply triple_modify.
  intros s [Ht [Hfds _] Hs]. by split; [|split|].
Qed.

Lemma spawn_triple n t0 pr :
  triple (fs_inv n t0) (spawn pr)
    (λ h s, fs_inv n t0 s ∧ handle_wf (inode_table (world s)) h) (fs_inv n t0).
Proof.
  unfold spawn. apply triple_bind with (R := λ m s, fs_inv n t0 s ∧ keys_ok m).
  { intros s Hs. unfold lock_inode_table, zoom, get_rights, bind, get, ok_or. simpl.
    assert (set_inode_table (inode_table (world s)) s = s) as Hid by by destruct s as [? []].
    destruct (rights_table _ !! pr) as [m|] eqn:Hm; simpl; rewrite Hid; [|done].
    split; [done|]. destruct Hs as [[[_ _ _ _ _ Hrt] _] _ _]. eauto. }
  intros m. apply triple_pure. intros Hm. eapply triple_bind.
  - eapply triple_conseq; [apply (with_handle_triple n t0 empty_handle)| |done..].
    + intros t1. by apply install_prestat_wf.
    + intros s Hs. split; [done|]. apply empty_handle_wf.
  - intros [[] h]. by apply triple_ret.
Qed.

(** ** Whole-file operations *)

Lemma find_prestat_triple (P : fs_state → Prop) p :
  path_ok p → triple P (find_prestat p) (λ r s, P s ∧ path_ok r.2) P.
Proof.
  intros Hp s Hs. unfold find_prestat, bind, get, ok_or, ret. simpl.
  destruct (find_prestat_in _ _) as [[fd q]|]; [|done]. simpl.
  destruct (strip_prefix p q) eqn:Hq; [|done]. eauto using strip_prefix_ok.
Qed.

#[local] Hint Resolve fd_read_wf fd_close_wf fd_seek_wf fd_filestat_set_size_wf : veracruz.

Lemma debug_assert_preserves {S} (P : S → Prop) b :
  preserves P (debug_assert (E:=ErrNo.t) b).
Proof. unfold debug_assert. destruct (_ && _); eauto with veracruz. Qed.

Lemma zeroed_preserves (P : fs_state → Prop) k : preserves P (zeroed k).
Proof. apply preserves_lift. Qed.

Lemma fd_filestat_get_preserves (P : fs_state → Prop) fd : preserves P (fd_filestat_get fd).
Proof. unfold fd_filestat_get. preserve. Qed.

#[local] Hint Resolve debug_assert_preserves zeroed_preserves fd_filestat_get_preserves
  : veracruz.

Lemma read_file_by_absolute_path_wf n t0 p :
  path_ok p → preserves (fs_inv n t0) (read_file_by_absolute_path p).
Proof.
  intros Hp. unfold read_file_by_absolute_path.
  eapply triple_bind; [by apply find_prestat_triple|]. intros r. apply triple_pure. intros Hr.
  preserve. by apply path_open_wf.
Qed.

Lemma read_std_stream_wf n t0 fd : preserves (fs_inv n t0) (read_std_stream fd).
Proof. unfold read_std_stream. preserve. Qed.

Lemma push_ok p q : path_ok q → path_ok (push p q).
Proof. unfold push. intros Hq. destruct (p_comps q) as [|[]]; eauto with veracruz. Qed.

Lemma read_all_files_wf n t0 fuel p :
  path_ok p → preserves (fs_inv n t0) (read_all_files fuel p).
Proof.
  revert p. induction fuel as [|fuel IH]; intros p Hp; simpl; [eauto with veracruz|].
  preserve; [apply IH, push_ok, path_path_ok|by apply read_file_by_absolute_path_wf].
Qed.

Lemma is_executable_wf n t0 pr p : path_ok p → preserves (fs_inv n t0) (is_executable pr p).
Proof.
  intros Hp. unfold is_executable. eapply triple_bind; [apply spawn_triple|]. intros h.
  apply triple_bind with (R := λ _, fs_inv n t0); [|intros _; apply preserves_ret].
  eapply triple_conseq; [apply (with_handle_triple n t0 h)|done|by intros ?? []|done].
  intros t1. eapply triple_bind; [by apply find_prestat_triple|]. intros r.
  apply triple_pure. intros Hr. preserve. by apply path_open_wf.
Qed.

(** ** Services *)

Lemma service_set_wf n t0 s sid c :
  fs_inv n t0 s → service_ok (sc_service c) → fs_inv n t0 (service_set sid c s).
Proof.
  intros [Ht Hh [Hlen Hok]] Hc. split; [done|done|]. simpl. split.
  - by rewrite length_insert.
  - by apply Forall_insert.
Qed.

Lemma cell_ok n t0 s sid c :
  fs_inv n t0 s → services (world s) !! sid = Some c → service_ok (sc_service c).
Proof. intros [_ _ [_ Hok]] Hc. by eapply Forall_lookup_1 in Hok. Qed.

Lemma service_unlock_wf n t0 s sid : fs_inv n t0 s → fs_inv n t0 (service_unlock sid s).
Proof.
  intros Hs. unfold service_unlock. destruct (services _ !! sid) as [c|] eqn:Hc; [|done].
  apply service_set_wf; [done|]. exact (cell_ok _ _ _ _ _ Hs Hc).
Qed.

Lemma service_assign_wf n t0 s sid svc :
  fs_inv n t0 s → service_ok svc → fs_inv n t0 (service_assign sid svc s).
Proof.
  intros Hs Hsvc. unfold service_assign. destruct (services _ !! sid); [|done].
  by apply service_set_wf.
Qed.

Lemma service_lock_triple n t0 sid :
  triple (fs_inv n t0) (service_lock sid) (λ svc s, fs_inv n t0 s ∧ service_ok svc) (fs_inv n t0).
Proof.
  intros s Hs. unfold service_lock, bind, get, modify, ret. simpl.
  destruct (services _ !! sid) as [c|] eqn:Hc; [|done]. destruct (sc_locked c); [done|].
  pose proof (cell_ok _ _ _ _ _ Hs Hc). split; [by apply service_set_wf|done].
Qed.

Lemma try_parse_ok svc input : service_ok svc → service_ok (try_parse svc input).1.
Proof.
  destruct svc; simpl; [done|]. intros Hst. destruct (postcard_aes input) as [[[[[]]]]|]; [|done].
  split; apply path_path_ok.
Qed.

Lemma service_valid_input_wf n t0 i : preserves (fs_inv n t0) (service_valid_input i).
Proof.
  unfold service_valid_input. apply preserves_bind; [eauto with veracruz|]. intros e.
  destruct (data e) as [sid input| |]; [|eauto with veracruz..].
  eapply triple_bind; [apply service_lock_triple|]. intros svc. apply triple_pure. intros Hsvc.
  apply preserves_bind.
  - apply triple_modify. intros s Hs. by apply service_assign_wf, try_parse_ok.
  - intros _. apply preserves_bind; [|eauto with veracruz].
    apply triple_modify. intros s. apply service_unlock_wf.
Qed.

Section with_serve.
Context (n : nat) (serve : nat → bytes → M unit).
Hypothesis serve_wf : ∀ t0 sid input, preserves (fs_inv n t0) (serve sid input).

Lemma call_service_wf t0 sid input : preserves (fs_inv n t0) (call_service serve sid input).
Proof using serve_wf HL.
  unfold call_service. eapply triple_bind; [apply service_lock_triple|]. intros svc.
  apply triple_pure. intros _ s Hs. unfold bind at 1, get. simpl.
  assert (triple (λ s', fs_inv n t0 s' ∧ handle_wf (inode_table (world s')) (handle s))
    (finally (do! with_handle (handle s) (serve sid input) in ret tt) (service_unlock sid))
    (λ _, fs_inv n t0) (fs_inv n t0)) as Hm; [|apply Hm; split; [done|apply Hs]].
  apply triple_finally with (Q' := λ _, fs_inv n t0) (X' := fs_inv n t0).
  - eapply triple_bind; [by apply with_handle_triple|]. intros r. by apply triple_ret; intros ? [].
  - intros _ s'. apply service_unlock_wf.
  - intros s' Hs'. split; [by apply service_unlock_wf|done].
Qed.

Lemma pwrite_step_wf m i k acc buf : preserves (einv n m i k) (pwrite_step acc buf).
Proof. unfold pwrite_step. preserve. apply InodeEntry_write_file_preserves. Qed.

Lemma service_handler_wf m i k : preserves (einv n m i k) InodeEntry_service_handler.
Proof.
  intros e He. unfold InodeEntry_service_handler, on_data, zoom, InodeImpl_service_handler, bind, get.
  simpl. destruct (data e) eqn:Hd; simpl; rewrite <- Hd; by apply einv_set_same_data.
Qed.

Lemma fd_pwrite_with_wf t0 fd bufs off :
  preserves (fs_inv n t0) (fd_pwrite_with serve fd bufs off).
Proof using serve_wf HL.
  unfold fd_pwrite_with. preserve.
  - apply get_mut_lock_preserves. intros m k. preserve. apply pwrite_step_wf.
  - apply service_valid_input_wf.
  - apply get_mut_lock_preserves. intros m k. apply service_handler_wf.
  - apply call_service_wf.
Qed.

Lemma fd_write_with_wf t0 fd bufs : preserves (fs_inv n t0) (fd_write_with serve fd bufs).
Proof using serve_wf HL. unfold fd_write_with. preserve. apply fd_pwrite_with_wf. Qed.

Lemma write_file_with_wf t0 p data is_append :
  path_ok p →
  preserves (fs_inv n t0) (write_file_by_absolute_path_with serve p data is_append).
Proof using serve_wf HL.
  intros Hp. unfold write_file_by_absolute_path_with.
  eapply triple_bind; [by apply find_prestat_triple|]. intros r. apply triple_pure. intros Hr.
  preserve; [by apply path_open_wf|apply fd_write_with_wf].
Qed.

Lemma serve_body_wf t0 sid input : preserves (fs_inv n t0) (serve_body serve sid input).
Proof using serve_wf HL.
  intros s Hs. unfold serve_body, bind at 1, get. simpl.
  destruct (services (world s) !! sid) as [[svc l]|] eqn:Hc; simpl; [|done].
  pose proof (cell_ok _ _ _ _ _ Hs Hc) as Hok. simpl in Hok. revert s Hs Hc.
  assert (preserves (fs_inv n t0) (match svc with
    | PostcardService => postcard_serve serve input
    | AesService st => aes_serve serve sid st end)) as Hm; [|intros s Hs _; by apply Hm].
  destruct svc as [|st].
  - unfold postcard_serve. preserve. apply write_file_with_wf, path_path_ok.
  - destruct Hok as [Hin Hout]. apply preserves_finally.
    + unfold encryption_decryption. preserve.
      * by apply read_file_by_absolute_path_wf.
      * by apply write_file_with_wf.
    + intros s Hs. apply service_assign_wf; [done|]. split; apply path_path_ok.
Qed.
End with_serve.

Lemma serve_wf n t0 fuel sid input : preserves (fs_inv n t0) (serve fuel sid input).
Proof.
  revert t0 sid input. induction fuel as [|fuel IH]; intros t0 sid input; simpl.
  - eauto with veracruz.
  - by apply serve_body_wf.
Qed.

Lemma fd_pwrite_wf n t0 fd bufs off : preserves (fs_inv n t0) (fd_pwrite fd bufs off).
Proof. intros s. apply fd_pwrite_with_wf. intros. apply serve_wf. Qed.

Lemma fd_write_wf n t0 fd bufs : preserves (fs_inv n t0) (fd_write fd bufs).
Proof. intros s. apply fd_write_with_wf. intros. apply serve_wf. Qed.

Lemma write_file_by_absolute_path_wf n t0 p data is_append :
  path_ok p → preserves (fs_inv n t0) (write_file_by_absolute_path p data is_append).
Proof. intros Hp s. apply write_file_with_wf; [|done]. intros. apply serve_wf. Qed.

(** ** The initial state *)

Lemma initial_rights_ok : keys_ok initial_rights.
Proof. unfold initial_rights. eauto with veracruz. Qed.

Lemma FileSystem_new_from rt s :
  (∀ pr m, rt !! pr = Some m → keys_ok m) → FileSystem_new rt = Ok s →
  ∃ t, InodeTable_new rt = Ok t ∧ fs_inv 2 t s.
Proof.
  intros Hrt. unfold FileSystem_new.
  destruct (InodeTable_new rt) as [t| |] eqn:Ht; [|done|done].
  pose proof (InodeTable_new_wf 2 rt t Hrt Ht) as Hwf.
  assert (preserves (fs_inv 2 t) (do! install_prestat initial_rights in
    FileSystem_install_services
      [(path "/services/postcard_string.dat", 0); (path "/services/aesctr.dat", 1)])) as Hm.
  { apply preserves_bind; [apply install_prestat_wf, initial_rights_ok|]. intros _.
    apply lock_preserves. intros t1. apply (triple_fold (λ _, tinv 2 t1)).
    intros [] [p sid] Hin. rewrite !elem_of_cons, elem_of_nil in Hin.
    destruct Hin as [[= -> ->]|[[= -> ->]|[]]]; (apply install_service_triple; [|lia]);
      (split_and!; [apply strip_root_slash_ok, path_path_ok|done|done]). }
  specialize (Hm (mkState empty_handle (mkWorld t initial_services))).
  destruct (bind _ _ _) as [[] s'] eqn:Hrun; [|done|done]. intros [= <-].
  exists t. split; [done|].
  apply Hm. split; simpl; [by split|apply empty_handle_wf|]. split; [done|].
  repeat constructor; apply path_path_ok.
Qed.

Lemma FileSystem_new_inv rt s :
  (∀ pr m, rt !! pr = Some m → keys_ok m) → FileSystem_new rt = Ok s →
  fs_inv 2 (inode_table (world s)) s ∧ rights_table (inode_table (world s)) = rt.
Proof.
  intros Hrt Hnew. destruct (FileSystem_new_from rt s Hrt Hnew) as (t & Ht & [[Hw Hext] Hh Hs]).
  split; [by split; [split|..]|]. rewrite (ex_rights _ _ Hext). rewrite InodeTable_new_eq in Ht.
  by injection Ht as <-.
Qed.
End inv.
