(* ===== verification/FsSystem.v ===== *)
(** * The filesystem as a system of handlers

    Every operation as a value of [syscall], the handlers of the principals
    over the shared state, and the steps the whole makes: a call through one
    handler, or a new handler for a principal.  A handler's call may fail,
    and changes the shared state all the same.

    Source: [execution-engine/src/fs.rs], the public interface of
    [FileSystem]. *)

From S2P Require Import Prelude RustPath WasiTypes Policy InodeTable FileSystem FsOps Services.
From S2P Require Import InodeWf FsWf FsInv.

Section system.
Context {BP : BuildProfile} {WR : WasiRights} {HO : HashOrder} {NL : NativeLibs}.

Inductive syscall :=
  | FdAdvise (fd : Fd) (off length : FileSize) (adv : Advice)
  | FdAllocate (fd : Fd) (off length : FileSize)
  | FdClose (fd : Fd)
  | FdDatasync (fd : Fd)
  | FdFdstatGet (fd : Fd)
  | FdFdstatSetFlags (fd : Fd) (fl : FdFlags)
  | FdFdstatSetRights (fd : Fd) (base inheriting : Rights)
  | FdFilestatGet (fd : Fd)
  | FdFilestatSetSize (fd : Fd) (size : FileSize)
  | FdFilestatSetTimes (fd : Fd) (at_ mt : Timestamp) (fl : SetTimeFlags) (now : Timestamp)
  | FdPread (fd : Fd) (bufs : list bytes) (off : FileSize)
  | FdPrestatGet (fd : Fd)
  | FdPrestatDirName (fd : Fd)
  | FdPwrite (fd : Fd) (bufs : list bytes) (off : FileSize)
  | FdRead (fd : Fd) (bufs : list bytes)
  | FdReaddir (fd : Fd) (cookie : Z)
  | FdRenumber (old_fd new_fd : Fd)
  | FdSeek (fd : Fd) (delta : FileDelta) (whence : Whence)
  | FdSync (fd : Fd)
  | FdTell (fd : Fd)
  | FdWrite (fd : Fd) (bufs : list bytes)
  | PathCreateDirectory (fd : Fd) (p : string)
  | PathFilestatGet (fd : Fd) (p : string)
  | PathFilestatSetTimes (fd : Fd) (p : string) (at_ mt : Timestamp) (fl : SetTimeFlags)
      (now : Timestamp)
  | PathLink (old_fd : Fd) (old_path : string) (new_fd : Fd) (new_path : string)
  | PathOpen (fd : Fd) (p : string) (oflags : OpenFlags) (base inheriting : Rights) (fl : FdFlags)
  | PathReadlink (fd : Fd) (p : string)
  | PathRemoveDirectory (fd : Fd) (p : string)
  | PathRename (old_fd : Fd) (old_path : string) (new_fd : Fd) (new_path : string)
  | PathSymlink (old_path : string) (fd : Fd) (new_path : string)
  | PathUnlinkFile (fd : Fd) (p : string)
  | PollOneoff
  | SockRecv (socket : Fd)
  | SockSend (socket : Fd)
  | SockShutdown (socket : Fd)
  | FdCreate
  | ReadFileByAbsolutePath (p : string)
  | ReadAllFilesByAbsolutePath (p : string)
  | WriteFileByAbsolutePath (p : string) (data : bytes) (is_append : bool)
  | ReadStdout
  | ReadStderr
  | WriteStdin (buf : bytes)
  | IsExecutable (principal : Principal) (p : string).

Definition void {A} (m : M A) : M unit := do! m in ret tt.

Definition run_call (c : syscall) : M unit :=
  match c with
  | FdAdvise fd off n adv => fd_advise fd off n adv
  | FdAllocate fd off n => fd_allocate fd off n
  | FdClose fd => fd_close fd
  | FdDatasync fd => fd_datasync fd
  | FdFdstatGet fd => void (fd_fdstat_get fd)
  | FdFdstatSetFlags fd fl => fd_fdstat_set_flags fd fl
  | FdFdstatSetRights fd base inh => fd_fdstat_set_rights fd base inh
  | FdFilestatGet fd => void (fd_filestat_get fd)
  | FdFilestatSetSize fd size => fd_filestat_set_size fd size
  | FdFilestatSetTimes fd at_ mt fl now => fd_filestat_set_times fd at_ mt fl now
  | FdPread fd bufs off => void (fd_pread fd bufs off)
  | FdPrestatGet fd => void (fd_prestat_get fd)
  | FdPrestatDirName fd => void (fd_prestat_dir_name fd)
  | FdPwrite fd bufs off => void (fd_pwrite fd bufs off)
  | FdRead fd bufs => void (fd_read fd bufs)
  | FdReaddir fd cookie => void (fd_readdir fd cookie)
  | FdRenumber o n => fd_renumber o n
  | FdSeek fd delta whence => void (fd_seek fd delta whence)
  | FdSync fd => fd_sync fd
  | FdTell fd => void (fd_tell fd)
  | FdWrite fd bufs => void (fd_write fd bufs)
  | PathCreateDirectory fd p => path_create_directory fd (path p)
  | PathFilestatGet fd p => void (path_filestat_get fd (path p))
  | PathFilestatSetTimes fd p at_ mt fl now => path_filestat_set_times fd (path p) at_ mt fl now
  | PathLink o op n np => path_link o (path op) n (path np)
  | PathOpen fd p oflags base inh fl => void (path_open fd (path p) oflags base inh fl)
  | PathReadlink fd p => void (path_readlink fd (path p))
  | PathRemoveDirectory fd p => path_remove_directory fd (path p)
  | PathRename o op n np => path_rename o (path op) n (path np)
  | PathSymlink op fd np => path_symlink (path op) fd (path np)
  | PathUnlinkFile fd p => path_unlink_file fd (path p)
  | PollOneoff => void poll_oneoff
  | SockRecv fd => void (sock_recv fd)
  | SockSend fd => void (sock_send fd)
  | SockShutdown fd => sock_shutdown fd
  | FdCreate => void fd_create
  | ReadFileByAbsolutePath p => void (read_file_by_absolute_path (path p))
  | ReadAllFilesByAbsolutePath p => void (read_all_files_by_absolute_path (path p))
  | WriteFileByAbsolutePath p data app => write_file_by_absolute_path (path p) data app
  | ReadStdout => void read_stdout
  | ReadStderr => void read_stderr
  | WriteStdin buf => void (write_stdin buf)
  | IsExecutable pr p => void (is_executable pr (path p))
  end.

(** ** The system *)

(** The shared state and the handlers over it. *)
Record system := mkSystem { sys_world : World; sys_handles : list FileSystem }.

(** The call returned, with a value or an error. *)
Definition returned {A} (r : outcome ErrNo.t A) : Prop :=
  match r with Abort _ => False | _ => True end.

Inductive sys_init (rt : RightsTable) : system → Prop :=
  | sys_init_new s : FileSystem_new rt = Ok s → sys_init rt (mkSystem (world s) [handle s]).

Inductive sys_step : system → system → Prop :=
  | step_call sys i h c r s' :
      sys_handles sys !! i = Some h →
      run_call c (mkState h (sys_world sys)) = (r, s') → returned r →
      sys_step sys (mkSystem (world s') (<[i := handle s']> (sys_handles sys)))
  | step_spawn sys i h pr h' s' :
      sys_handles sys !! i = Some h →
      spawn pr (mkState h (sys_world sys)) = (Ok h', s') →
      sys_step sys (mkSystem (world s') (sys_handles sys ++ [h']))
  | step_spawn_error sys i h pr e s' :
      sys_handles sys !! i = Some h →
      spawn pr (mkState h (sys_world sys)) = (Err e, s') →
      sys_step sys (mkSystem (world s') (sys_handles sys)).

Definition sys_reachable (rt : RightsTable) (sys : system) : Prop :=
  ∃ sys0, sys_init rt sys0 ∧ rtc sys_step sys0 sys.
End system.

Section invariant.
Context {BP : BuildProfile} {WR : WasiRights} {HO : HashOrder} {HL : HashOrderLaws HO}
  {NL : NativeLibs}.

#[local] Hint Resolve fd_advise_wf fd_close_wf fd_fdstat_set_flags_wf fd_filestat_set_size_wf
  set_times_lock_preserves fd_pread_wf fd_seek_wf fd_read_wf fd_readdir_wf fd_renumber_wf
  path_create_directory_wf fd_create_wf path_open_wf read_file_by_absolute_path_wf
  read_std_stream_wf read_all_files_wf is_executable_wf fd_pwrite_wf fd_write_wf
  write_file_by_absolute_path_wf fd_filestat_get_preserves : veracruz.

(** Every call keeps the invariant, whatever its outcome. *)
Lemma run_call_inv n t0 c : preserves (fs_inv n t0) (run_call c).
Proof.
  destruct c; simpl; unfold void, fd_allocate, fd_datasync, fd_fdstat_get, fd_fdstat_set_rights,
    fd_filestat_set_times, fd_prestat_get, fd_prestat_dir_name, fd_sync, fd_tell,
    path_filestat_get, path_filestat_set_times, path_link, path_readlink,
    path_remove_directory, path_rename, path_symlink, path_unlink_file, poll_oneoff,
    sock_recv, sock_send, sock_shutdown, read_all_files_by_absolute_path, read_stdout,
    read_stderr, write_stdin; preserve.
Qed.
End invariant.
