(* ===== verification/FsSafe.v ===== *)
(** * Termination of the writes, and the services' state

    A write to the special file of a service runs the service, which may
    write to other special files.  The nesting is bounded because a running
    service is locked: with one unit of fuel per service the model never runs
    out.  The same argument shows that a call that returns leaves every
    service unlocked and its state, the key included, erased. *)

From S2P Require Import Prelude RustPath WasiTypes Policy InodeTable FileSystem FsOps Services.
From S2P Require Import InodeWf FsWf FsInv.

(** ** Operations of the table *)

Section table_safe.
Context {BP : BuildProfile} {WR : WasiRights} {HO : HashOrder}.

Lemma try_from_fueled bound z : fueled (try_from_or_errno bound z).
Proof. unfold try_from_or_errno, fueled. by case_match. Qed.
#[local] Hint Resolve try_from_fueled : veracruz.

Lemma read_bytes_fueled file buf off : fueled (read_bytes_from_offset file buf off).
Proof.
  unfold read_bytes_from_offset, fueled. pose proof (try_from_fueled u64_bound off) as H.
  destruct (try_from_or_errno _ _); [by case_match|done|congruence].
Qed.

Lemma safe_fueled {S A} (P Q : S → Prop) (m : ST S ErrNo.t A) s :
  safe P m Q → P s → fueled (m s).1.
Proof. intros Hm Hs. specialize (Hm s Hs). destruct (m s) as [[] ?]; unfold fueled; naive_solver. Qed.

Abbreviation safe_true m := (safe (λ _, True) m (λ _, True)).

Lemma put_safe {S} (x : S) : safe_true (put (E:=ErrNo.t) x).
Proof. done. Qed.
Lemma modify_safe {S} (f : S → S) : safe_true (modify (E:=ErrNo.t) f).
Proof. done. Qed.
Lemma on_data_safe {A} (op : I A) : safe_true op → safe_true (on_data op).
Proof. intros Hop. by apply safe_zoom. Qed.
#[local] Hint Resolve put_safe modify_safe on_data_safe read_bytes_fueled : veracruz.

Lemma InodeEntry_write_file_safe buf off : safe_true (InodeEntry_write_file buf off).
Proof.
  unfold InodeEntry_write_file. safely; apply on_data_safe.
  - unfold InodeImpl_write_file. safely.
  - unfold InodeImpl_len. safely.
Qed.
Lemma InodeEntry_read_file_safe buf off : safe_true (InodeEntry_read_file buf off).
Proof. unfold InodeEntry_read_file, InodeImpl_read_file. apply on_data_safe. safely. Qed.
Lemma InodeEntry_resize_file_safe n b : safe_true (InodeEntry_resize_file n b).
Proof. unfold InodeEntry_resize_file. safely. apply on_data_safe. unfold InodeImpl_resize_file. safely. Qed.
Lemma InodeEntry_truncate_file_safe : safe_true InodeEntry_truncate_file.
Proof. unfold InodeEntry_truncate_file. safely. apply on_data_safe. unfold InodeImpl_truncate_file. safely. Qed.
Lemma InodeEntry_insert_safe p i : safe_true (InodeEntry_insert p i).
Proof. apply on_data_safe. unfold InodeImpl_insert. safely. Qed.
Lemma InodeEntry_get_inode_by_path_safe p : safe_true (InodeEntry_get_inode_by_path p).
Proof. apply on_data_safe. unfold InodeImpl_get_inode_by_path. safely. Qed.

Lemma InodeTable_get_mut_safe {A} i (op : N_ A) : safe_true op → safe_true (InodeTable_get_mut i op).
Proof.
  intros Hop. unfold InodeTable_get_mut, InodeTable_get, InodeTable_insert.
  apply safe_bind; [safely|]. intros a.
  pose proof (safe_fueled _ _ _ a Hop Logic.I). destruct (op a) as [r e]. safely.
Qed.
#[local] Hint Resolve InodeTable_get_mut_safe InodeEntry_write_file_safe
  InodeEntry_truncate_file_safe InodeEntry_insert_safe InodeEntry_resize_file_safe : veracruz.

Lemma get_inode_by_inode_path_safe i p : safe_true (get_inode_by_inode_path i p).
Proof.
  unfold get_inode_by_inode_path, lookup_component, InodeTable_get. safely.
  apply safe_lift. by eapply safe_fueled; [apply InodeEntry_get_inode_by_path_safe|].
Qed.
#[local] Hint Resolve get_inode_by_inode_path_safe : veracruz.

Lemma new_inode_safe : safe_true new_inode.
Proof. unfold new_inode. safely. Qed.
Lemma add_dir_safe parent p i : safe_true (add_dir parent p i).
Proof. unfold add_dir, attach, InodeTable_insert. safely. Qed.
#[local] Hint Resolve new_inode_safe add_dir_safe : veracruz.
Lemma add_all_dir_safe parent p : safe_true (add_all_dir parent p).
Proof. unfold add_all_dir, add_all_dir_step. safely. Qed.
#[local] Hint Resolve add_all_dir_safe : veracruz.
Lemma add_file_safe parent p i b : safe_true (add_file parent p i b).
Proof. unfold add_file, add_file_target, attach, InodeTable_insert. safely. Qed.

Lemma read_dir_safe i : safe_true (read_dir i).
Proof.
  unfold read_dir, InodeTable_get. safely. rename entries into d. generalize 0%Z (pm_iter d).
  intros z l. revert z. induction l as [|[p j] l IH]; intros z; simpl; [safely|].
  unfold dir_ent, InodeTable_get. safely.
Qed.
End table_safe.

#[export] Hint Resolve try_from_fueled get_inode_by_inode_path_safe new_inode_safe add_dir_safe
  add_all_dir_safe add_file_safe read_dir_safe InodeTable_get_mut_safe InodeEntry_write_file_safe
  InodeEntry_truncate_file_safe InodeEntry_resize_file_safe modify_safe : veracruz.

(** ** The discipline of the service locks *)

(** What [serve] leaves in the state of a service. *)
Definition erase (svc : Service) : Service :=
  match svc with
  | PostcardService => PostcardService
  | AesService st => AesService (AesCounterModeService_reset st)
  end.

(** The cells when the services of [L] are running: these are locked, with
    the state [L] gives; the others are unlocked and their state is erased. *)
Record disc (n : nat) (L : gmap nat Service) (cells : list service_cell) : Prop := {
  ds_length : length cells = n;
  ds_locked sid svc : L !! sid = Some svc → cells !! sid = Some (mkCell svc true);
  ds_free sid c : cells !! sid = Some c → L !! sid = None →
    sc_locked c = false ∧ erase (sc_service c) = sc_service c;
}.

Lemma disc_size n L cells : disc n L cells → size L ≤ n.
Proof.
  intros [Hlen Hlock _]. rewrite <- size_dom, <- (size_set_seq (C:=gset nat) 0 n).
  apply subseteq_size. intros sid Hsid. apply elem_of_dom in Hsid as [svc Hsvc].
  apply Hlock, lookup_lt_Some in Hsvc. apply elem_of_set_seq. lia.
Qed.

Lemma disc_lock n L cells sid c svc :
  disc n L cells → cells !! sid = Some c → L !! sid = None →
  disc n (<[sid := svc]> L) (<[sid := mkCell svc true]> cells).
Proof.
  intros [Hlen Hlock Hfree] Hc HL. apply lookup_lt_Some in Hc. split.
  - by rewrite length_insert.
  - intros sid' svc'. rewrite lookup_insert_Some. intros [[<- ->]|[Hne Hs]].
    + by apply list_lookup_insert_eq.
    + rewrite list_lookup_insert_ne by done. eauto.
  - intros sid' c'. rewrite lookup_insert_None. intros Hc' [HL' Hne].
    rewrite list_lookup_insert_ne in Hc' by done. eauto.
Qed.

Lemma disc_unlock n L cells sid svc :
  disc n (<[sid := svc]> L) cells → L !! sid = None → erase svc = svc →
  disc n L (<[sid := mkCell svc false]> cells).
Proof.
  intros [Hlen Hlock Hfree] HL Hsvc.
  pose proof (lookup_lt_Some _ _ _ (Hlock sid svc (lookup_insert_eq L sid svc))) as Hlt. split.
  - by rewrite length_insert.
  - intros sid' svc' Hs. rewrite list_lookup_insert_ne by congruence.
    apply Hlock. by rewrite lookup_insert_ne by congruence.
  - intros sid' c' Hc' HL'. destruct (decide (sid = sid')) as [->|Hne].
    + rewrite list_lookup_insert_eq in Hc' by done. by simplify_eq.
    + rewrite list_lookup_insert_ne in Hc' by done. apply (Hfree sid'); [done|].
      by rewrite lookup_insert_ne.
Qed.

Lemma disc_assign n L cells sid svc svc' :
  disc n (<[sid := svc]> L) cells →
  disc n (<[sid := svc']> L) (<[sid := mkCell svc' true]> cells).
Proof.
  intros [Hlen Hlock Hfree].
  pose proof (lookup_lt_Some _ _ _ (Hlock sid svc (lookup_insert_eq L sid svc))) as Hlt. split.
  - by rewrite length_insert.
  - intros sid' svc0. rewrite lookup_insert_Some. intros [[<- ->]|[Hne Hs]].
    + by apply list_lookup_insert_eq.
    + rewrite list_lookup_insert_ne by done. apply Hlock. by rewrite lookup_insert_ne.
  - intros sid' c'. rewrite lookup_insert_None. intros Hc' [HL' Hne].
    rewrite list_lookup_insert_ne in Hc' by done. apply (Hfree sid'); [done|].
    by rewrite lookup_insert_ne.
Qed.

Section services_safe.
Context {BP : BuildProfile} {WR : WasiRights} {HO : HashOrder} {NL : NativeLibs}.

Definition services_in (P : list service_cell → Prop) (s : fs_state) : Prop :=
  P (services (world s)).

Abbreviation keeps P m := (safe (services_in P) m (services_in P)).

Lemma lock_safe {A} P (op : ST InodeTable ErrNo.t A) :
  safe (λ _, True) op (λ _, True) → keeps P (lock_inode_table op).
Proof. intros Hop. by apply safe_zoom. Qed.

Lemma lock_get_safe P i : keeps P (lock_inode_table (InodeTable_get i)).
Proof. apply lock_safe. unfold InodeTable_get. safely. Qed.
Lemma lock_is_dir_safe P i : keeps P (lock_inode_table (InodeTable_is_dir i)).
Proof. apply lock_safe. unfold InodeTable_is_dir. safely. Qed.
Lemma lock_get_rights_safe P pr : keeps P (lock_inode_table (get_rights pr)).
Proof. apply lock_safe. unfold get_rights. safely. Qed.
Lemma modify_fds_safe P f : keeps P (modify (E:=ErrNo.t) (λ s, set_fd_table (f s) s)).
Proof. by apply safe_modify. Qed.
Lemma modify_prestat_safe P f : keeps P (modify (E:=ErrNo.t) (λ s, set_prestat_table (f s) s)).
Proof. by apply safe_modify. Qed.
Lemma modify_next_safe P n : keeps P (modify (E:=ErrNo.t) (set_next_fd n)).
Proof. by apply safe_modify. Qed.

#[local] Hint Resolve lock_safe lock_get_safe lock_is_dir_safe lock_get_rights_safe
  modify_fds_safe modify_prestat_safe modify_next_safe : veracruz.

Lemma fd_get_safe P fd : keeps P (fd_get fd).
Proof. unfold fd_get. safely. Qed.
#[local] Hint Resolve fd_get_safe : veracruz.
Lemma check_right_safe P fd r : keeps P (check_right fd r).
Proof. unfold check_right. safely. Qed.
Lemma get_inode_by_fd_safe P fd : keeps P (get_inode_by_fd fd).
Proof. unfold get_inode_by_fd. safely. Qed.
#[local] Hint Resolve check_right_safe get_inode_by_fd_safe : veracruz.
Lemma get_inode_by_fd_path_safe P fd p : keeps P (get_inode_by_fd_path fd p).
Proof. unfold get_inode_by_fd_path. safely. Qed.
Lemma fd_insert_safe P fd e : keeps P (fd_insert fd e).
Proof. unfold fd_insert. safely. Qed.
#[local] Hint Resolve get_inode_by_fd_path_safe fd_insert_safe : veracruz.
Lemma fd_update_safe P fd f : keeps P (fd_update fd f).
Proof. unfold fd_update. safely. Qed.
Lemma new_fd_safe P : keeps P new_fd.
Proof. unfold new_fd. safely. Qed.
#[local] Hint Resolve fd_update_safe new_fd_safe : veracruz.

Lemma fd_close_safe P fd : keeps P (fd_close fd).
Proof. unfold fd_close. safely. apply lock_safe, InodeTable_get_mut_safe. safely. Qed.
Lemma fd_filestat_set_size_safe P fd n : keeps P (fd_filestat_set_size fd n).
Proof. unfold fd_filestat_set_size. safely. Qed.
Lemma fd_filestat_get_safe P fd : keeps P (fd_filestat_get fd).
Proof. unfold fd_filestat_get. safely. Qed.
Lemma pread_step_safe P f acc buf : keeps P (pread_step f acc buf).
Proof.
  destruct acc as [[off total] bufs]. unfold pread_step. safely.
  apply safe_lift. by eapply safe_fueled; [apply InodeEntry_read_file_safe|].
Qed.
#[local] Hint Resolve fd_close_safe fd_filestat_set_size_safe fd_filestat_get_safe pread_step_safe
  : veracruz.
Lemma fd_pread_safe P fd bufs off : keeps P (fd_pread fd bufs off).
Proof. unfold fd_pread. safely. Qed.
Lemma fd_seek_safe P fd delta whence : keeps P (fd_seek fd delta whence).
Proof. unfold fd_seek. safely. Qed.
#[local] Hint Resolve fd_pread_safe fd_seek_safe : veracruz.
Lemma fd_read_safe P fd bufs : keeps P (fd_read fd bufs).
Proof. unfold fd_read. safely. Qed.
Lemma path_open_safe P fd p oflags base inh fl : keeps P (path_open fd p oflags base inh fl).
Proof. unfold path_open, path_open_inode. safely. Qed.
Lemma find_prestat_safe P p : keeps P (find_prestat p).
Proof. unfold find_prestat. safely. Qed.
#[local] Hint Resolve fd_read_safe path_open_safe find_prestat_safe : veracruz.
Lemma read_file_safe P p : keeps P (read_file_by_absolute_path p).
Proof. unfold read_file_by_absolute_path, zeroed. safely. Qed.
#[local] Hint Resolve read_file_safe : veracruz.
Lemma with_handle_safe {A} P h (op : M A) Q :
  safe (services_in P) op (services_in Q) →
  safe (services_in P) (with_handle h op) (services_in Q).
Proof.
  intros Hop s Hs. unfold with_handle. specialize (Hop (mkState h (world s)) Hs).
  by destruct (op _) as [[] s'].
Qed.

(** *** Running a service *)

Lemma lock_get_run i s :
  lock_inode_table (InodeTable_get i) s =
    (match table (inode_table (world s)) !! i with Some e => Ok e | None => Err ErrNo.NoEnt end, s).
Proof.
  unfold lock_inode_table, zoom, InodeTable_get, bind, get, ok_or. simpl.
  destruct (table _ !! i); unfold set_inode_table; by destruct s as [? []].
Qed.

Lemma service_handler_run i s e sid input :
  table (inode_table (world s)) !! i = Some e → data e = NativeModule sid input →
  lock_inode_table (InodeTable_get_mut i InodeEntry_service_handler) s = (Ok (sid, input), s).
Proof.
  intros He Hd. unfold lock_inode_table, zoom, InodeTable_get_mut, InodeTable_get, bind, get, ok_or.
  simpl. rewrite He.
  unfold InodeEntry_service_handler, on_data, zoom, InodeImpl_service_handler, bind, get.
  rewrite Hd. unfold ret, InodeTable_insert, modify, lift. simpl.
  assert (set_data (NativeModule sid input) e = e) as -> by (destruct e; simpl in *; by subst).
  rewrite insert_id by done. by destruct s as [? [[] ?]].
Qed.

Section with_serve.
Context (n : nat) (L : gmap nat Service) (serve : nat → bytes → M unit).
Hypothesis serve_safe : ∀ sid svc input, L !! sid = None →
  safe (services_in (disc n (<[sid := svc]> L))) (serve sid input)
    (services_in (disc n (<[sid := erase svc]> L))).

(** The cell of an idle service after [try_parse]. *)
Definition parsed (sid : nat) (svc : Service) (cells : list service_cell) : Prop :=
  L !! sid = None ∧ ∃ cells0 c, disc n L cells0 ∧ cells0 !! sid = Some c ∧
    cells = <[sid := mkCell svc false]> cells0.

Lemma call_service_safe sid svc input :
  safe (services_in (parsed sid svc)) (call_service serve sid input) (services_in (disc n L)).
Proof using serve_safe.
  intros s (HL & cells & c & Hd & Hc & Hcells).
  unfold call_service, service_lock, bind at 1 2 3, get. simpl. rewrite Hcells.
  assert (sid < length cells) as Hlt by by eapply lookup_lt_Some.
  rewrite list_lookup_insert_eq by done. simpl. unfold bind at 1, modify, ret. simpl.
  unfold bind at 1. simpl.
  match goal with |- context [finally ?m ?f ?st] => set (s1 := st) end.
  assert (safe (services_in (disc n (<[sid:=svc]> L)))
    (finally (do! with_handle (handle s) (serve sid input) in ret tt) (service_unlock sid))
    (services_in (disc n L))) as Hm.
  - apply safe_finally with (Q := services_in (disc n (<[sid := erase svc]> L))).
    + intros s' Hs'.
      pose proof (with_handle_safe _ (handle s) _ _ (serve_safe sid svc input HL) s' Hs') as Hw.
      unfold bind. by destruct (with_handle _ _ s') as [[] ?].
    + intros s' Hs'. pose proof (ds_locked _ _ _ Hs' sid (erase svc) (lookup_insert_eq _ _ _)) as Hsid.
      unfold services_in, service_unlock. rewrite Hsid. simpl.
      apply disc_unlock; [done|done|]. by destruct svc.
  - apply (Hm s1). unfold services_in. simpl.
    rewrite Hcells, list_insert_insert_eq. by eapply disc_lock.
Qed.

(** A write that makes the input of a service valid runs the service;
    between the two, the parsed request is in the unlocked cell. *)
Lemma invoke_safe {A} inode (x : A) :
  safe (services_in (disc n L))
    (let! invoke := service_valid_input inode in
     do! (if invoke : bool then
            let! h := lock_inode_table (InodeTable_get_mut inode InodeEntry_service_handler) in
            call_service serve h.1 h.2
          else ret tt) in ret x)
    (services_in (disc n L)).
Proof using serve_safe.
  intros s Hs. unfold bind at 1, service_valid_input. unfold bind at 1. rewrite lock_get_run.
  destruct (table _ !! inode) as [e|] eqn:He; [|done].
  destruct (data e) as [sid input| |] eqn:Hd; [|done|done].
  unfold bind, service_lock, bind, get. simpl.
  destruct (services (world s) !! sid) as [c|] eqn:Hc; [|done].
  destruct (sc_locked c) eqn:Hlk; [done|]. simpl.
  assert (L !! sid = None) as HL.
  { destruct (L !! sid) as [svc|] eqn:HL; [|done]. apply (ds_locked _ _ _ Hs) in HL. rewrite Hc in HL. by simplify_eq. }
  pose proof (ds_free _ _ _ Hs _ _ Hc HL) as [_ Herase].
  assert (sid < length (services (world s))) as Hlt by by eapply lookup_lt_Some.
  unfold service_assign, service_unlock, service_set. simpl.
  rewrite !list_lookup_insert_eq by (by rewrite ?length_insert). simpl.
  rewrite !list_lookup_insert_eq by (by rewrite ?length_insert). simpl.
  rewrite !list_insert_insert_eq.
  set (svc := (try_parse (sc_service c) input).1).
  match goal with |- context [set_services _ (set_services _ (set_services _ s))] =>
    set (s1 := set_services _ (set_services _ (set_services _ s))) end.
  assert (services_in (parsed sid svc) s1) as H1.
  { split; [done|]. by exists (services (world s)), c. }
  destruct ((try_parse (sc_service c) input).2) eqn:Hvalid.
  - rewrite (service_handler_run inode s1 e sid input) by done. simpl.
    pose proof (call_service_safe sid svc input s1 H1) as Hcall.
    by destruct (call_service serve sid input s1) as [[] ?].
  - simpl. assert (svc = sc_service c) as Hsame.
    { subst svc. destruct (sc_service c); simpl in *; [done|]. by destruct (postcard_aes input). }
    unfold services_in. simpl. rewrite Hsame.
    assert (mkCell (sc_service c) false = c) as Hcell by (destruct c; simpl in *; congruence).
    by rewrite Hcell, list_insert_id.
Qed.

Lemma fd_pwrite_with_safe fd bufs off : keeps (disc n L) (fd_pwrite_with serve fd bufs off).
Proof using serve_safe.
  unfold fd_pwrite_with. apply safe_bind; [eauto with veracruz|]. intros _.
  apply safe_bind; [eauto with veracruz|]. intros inode. apply safe_bind.
  - apply lock_safe, InodeTable_get_mut_safe. unfold pwrite_step. safely.
  - intros [total [|]]; [apply invoke_safe|]. by intros s Hs.
Qed.

Lemma fd_write_with_safe fd bufs : keeps (disc n L) (fd_write_with serve fd bufs).
Proof using serve_safe. unfold fd_write_with. safely. apply fd_pwrite_with_safe. Qed.

Lemma write_file_with_safe p data is_append :
  keeps (disc n L) (write_file_by_absolute_path_with serve p data is_append).
Proof using serve_safe.
  unfold write_file_by_absolute_path_with. safely. apply fd_write_with_safe.
Qed.
End with_serve.

Lemma serve_safe n fuel L sid svc input :
  L !! sid = None → n ≤ size L + fuel →
  safe (services_in (disc n (<[sid := svc]> L))) (serve fuel sid input)
    (services_in (disc n (<[sid := erase svc]> L))).
Proof.
  revert L sid svc input. induction fuel as [|fuel IH]; intros L sid svc input HL Hfuel s Hs.
  { apply disc_size in Hs. rewrite map_size_insert_None in Hs by done. lia. }
  assert (∀ sid' svc' input', <[sid := svc]> L !! sid' = None →
    safe (services_in (disc n (<[sid' := svc']> (<[sid := svc]> L)))) (serve fuel sid' input')
      (services_in (disc n (<[sid' := erase svc']> (<[sid := svc]> L))))) as Hserve.
  { intros sid' svc' input' HL'. apply IH; [done|]. rewrite map_size_insert_None by done. lia. }
  simpl. unfold serve_body, bind at 1, get. simpl.
  rewrite (ds_locked _ _ _ Hs sid svc (lookup_insert_eq _ _ _)). simpl.
  assert (safe (services_in (disc n (<[sid := svc]> L)))
    (match svc with
     | PostcardService => postcard_serve (serve fuel) input
     | AesService st => aes_serve (serve fuel) sid st
     end) (services_in (disc n (<[sid := erase svc]> L)))) as Hm; [|by apply Hm].
  clear s Hs. destruct svc as [|st]; simpl.
  - unfold postcard_serve. safely. by apply write_file_with_safe.
  - unfold aes_serve. eapply safe_finally.
    + unfold encryption_decryption. safely. by apply write_file_with_safe.
    + intros s Hs. pose proof (ds_locked _ _ _ Hs sid _ (lookup_insert_eq _ _ _)) as Hsid.
      unfold services_in, service_assign. rewrite Hsid. simpl.
      by eapply disc_assign.
Qed.
End services_safe.

#[export] Hint Resolve lock_safe lock_get_safe lock_is_dir_safe lock_get_rights_safe
  modify_fds_safe modify_prestat_safe modify_next_safe fd_get_safe check_right_safe
  get_inode_by_fd_safe get_inode_by_fd_path_safe fd_insert_safe fd_update_safe new_fd_safe
  fd_close_safe fd_filestat_set_size_safe fd_filestat_get_safe pread_step_safe fd_pread_safe
  fd_seek_safe fd_read_safe path_open_safe find_prestat_safe read_file_safe with_handle_safe
  : veracruz.
