(* ===== verification/Demo.v ===== *)
(** * A concrete filesystem

    Instances of the parameters of the model and states of a small run, on
    which the theorems of the other files are evaluated. *)

From S2P Require Import Prelude RustPath WasiTypes Policy InodeTable FileSystem FsOps Services.

Module Demo.
#[export] Instance profile : BuildProfile :=
  {| overflow_checks := true; debug_assertions := true |}.
#[export] Existing Instance BitsetRights.rights.
#[export] Existing Instance BitsetRights.laws.
#[export] Existing Instance map_order.
#[export] Existing Instance map_order_laws.

(** A cipher that adds nothing, and a request format with fixed fields: any
    input that starts with [A] asks to copy [/in] to [/out]. *)
#[export] Instance native_libs : NativeLibs := {|
  postcard_aes b :=
    match b with
    | Byte.x41 :: _ => Some (replicate 16 Byte.x01, replicate 16 Byte.x02, "/in", "/out", true)
    | _ => None
    end;
  postcard_structs b := Some [];
  json_structs l := Some (as_bytes "[]");
  psa_init := true;
  psa_key := unit;
  psa_import _ := Some tt;
  psa_cipher _ _ _ input _ := Some (input, len input);
|}.

Definition rights_of (l : list right_name) : Rights :=
  foldr (λ r acc, rights_union (right_of r) acc) rights_empty l.

Definition read_only : Rights := rights_of [PATH_OPEN; FD_READ; FD_SEEK; FD_READDIR].

Definition alice : Principal := Participant 1.
Definition prog : Principal := ProgramP "/program/p.wasm".

Definition rights_map (l : list (string * Rights)) : PathMap Rights :=
  foldr (λ e m, pm_insert (path e.1) e.2 m) ∅ l.

Definition demo_rights : RightsTable :=
  <[alice := rights_map [("/data", rights_all); ("stdin", rights_all)]]>
    {[prog := rights_map [("/data", read_only); ("stdout", rights_all)]]}.

Definition dummy : fs_state :=
  mkState empty_handle (mkWorld (InodeTable_init demo_rights) []).

(** The state a run leaves, and the value it returns. *)
Definition after {A} (m : M A) (s : fs_state) : fs_state := (m s).2.

Definition st0 : fs_state := match FileSystem_new demo_rights with Ok s => s | _ => dummy end.

Definition create : OpenFlags := mkOpenFlags true false false false.

(** The root handler opens the new file [/x] as descriptor 7. *)
Definition st1 : fs_state := after (path_open 3 (path "x") create rights_all rights_all FdFlags_empty) st0.

Definition fd_entry (s : fs_state) (fd : Fd) : FdEntry :=
  match fd_table (handle s) !! fd with
  | Some e => e
  | None => mkFdEntry 0 (mkFdStat Unknown FdFlags_empty rights_empty rights_empty) 0 []
  end.
Definition inode_entry (s : fs_state) (i : Inode) : InodeEntry :=
  match table (inode_table (world s)) !! i with
  | Some e => e
  | None => mkInodeEntry (new_file_stat 0 Unknown 0) (File [])
  end.
Definition hello : bytes := as_bytes "hello".

Lemma run_ok (m : M unit) s : is_ok (m s).1 = true → m s = (Ok tt, after m s).
Proof. unfold after. by destruct (m s) as [[[]| |] s']. Qed.

Lemma run_value {A} (m : M A) s a : (m s).1 = Ok a → m s = (Ok a, after m s).
Proof. unfold after. destruct (m s). by intros [= ->]. Qed.

(** The root handler writes [/data/f]; the program's handler, with the
    directory [/data] as descriptor 3, sees the shared state after that. *)
Definition st_data : fs_state := after (write_file_by_absolute_path (path "/data/f") hello false) st0.
Definition prog_handle : FileSystem :=
  match (spawn prog st_data).1 with Ok h => h | _ => empty_handle end.
Definition prog_view : fs_state := mkState prog_handle (world (after (spawn prog) st_data)).

Lemma prog_spawned : spawn prog st_data = (Ok prog_handle, after (spawn prog) st_data).
Proof.
  assert (is_ok (spawn prog st_data).1 = true) as Hok by by vm_compute.
  unfold prog_handle, after. destruct (spawn prog st_data) as [[] ?]; [reflexivity|discriminate..].
Qed.

(** ** A policy

    Lower-case hexadecimal, a constant for SHA-256, and a reader that knows
    one text. *)
Definition hex_digit (n : N) : ascii :=
  ascii_of_N (if (n <? 10)%N then 48 + n else 87 + n)%N.
Definition hex_value (c : ascii) : option N :=
  let n := N_of_ascii c in
  if ((48 <=? n) && (n <=? 57))%N then Some (n - 48)%N
  else if ((97 <=? n) && (n <=? 102))%N then Some (n - 87)%N
  else None.
Fixpoint to_hex (b : bytes) : string :=
  match b with
  | [] => EmptyString
  | x :: b' =>
      String (hex_digit (Byte.to_N x / 16)) (String (hex_digit (Byte.to_N x mod 16)) (to_hex b'))
  end.
Fixpoint of_hex (s : string) : option bytes :=
  match s with
  | EmptyString => Some []
  | String a (String b s') =>
      x ← hex_value a; y ← hex_value b; z ← Byte.of_N (16 * x + y); l ← of_hex s'; Some (z :: l)
  | _ => None
  end.

Lemma of_to_hex b : of_hex (to_hex b) = Some b.
Proof. induction b as [|x b IH]; [done|]. destruct x; cbn in *; by rewrite IH. Qed.

Definition pem (name : string) : string :=
  "-----BEGIN CERTIFICATE-----" +:+ name +:+ "-----END CERTIFICATE-----".

Definition bit_of (l : list right_name) : Z := rights_bits (rights_of l).

Definition demo_policy : Policy := {|
  identities :=
    [mkIdentity (pem "alice") 1
       [mkFileRights "/program/" (rights_bits rights_all); mkFileRights "/data" (rights_bits rights_all)];
     mkIdentity (pem "bob") 2 [mkFileRights "/data" (bit_of [PATH_OPEN; FD_READ; FD_SEEK])]];
  programs :=
    [mkProgram "/program/p.wasm" 0
       [mkFileRights "/data" (bit_of [PATH_OPEN; FD_READ; FD_SEEK; FD_READDIR]);
        mkFileRights "stdout" (rights_bits rights_all)]];
  file_hashes := [mkFileHash "/program/p.wasm" (to_hex (replicate 32 Byte.x07))];
  veracruz_server_url := "127.0.0.1:3017";
  enclave_cert_expiry := mkTimepoint 2030 1 1 0 0;
  ciphersuite := "TLS1_3_CHACHA20_POLY1305_SHA256";
  runtime_manager_hash_linux := Some "00"; runtime_manager_hash_nitro := None;
  runtime_manager_hash_icecap := None;
  proxy_attestation_server_url := "127.0.0.1:3010"; proxy_service_cert := pem "proxy";
  debug := false; execution_strategy := Interpretation; enable_clock := false;
  max_memory_mib := 256; policy_hash := None |}.

#[export] Instance policy_libs : PolicyLibs := {|
  sha256 b := replicate 32 (match b with [] => Byte.x00 | _ => Byte.x07 end);
  hex_encode := to_hex;
  hex_decode := of_hex;
  policy_from_str s := if decide (s = "{policy}") then Some demo_policy else None;
|}.
#[export] Instance policy_libs_laws : PolicyLibsLaws policy_libs.
Proof.
  split; [done|exact of_to_hex|]. intros s p. simpl. case_decide; [|done]. by intros [= <-].
Qed.
End Demo.
