(* ===== verification/FsProps.v ===== *)
(** * Capabilities of the filesystem

    What a handler may do: every operation checks the right it needs before
    it changes anything, and a handler never obtains a descriptor with rights
    beyond those its principal has in the policy.

    Source: [execution-engine/src/fs.rs]. *)

From S2P Require Import Prelude RustPath WasiTypes Policy InodeTable FileSystem FsOps Services.
From S2P Require Import InodeWf FsWf FsInv FsSystem FsSafe Demo.

Section checks.
Context {BP : BuildProfile} {WR : WasiRights} {HO : HashOrder} {NL : NativeLibs}.

(** ** Required rights *)

(** The descriptor and the right an operation needs first. *)
Definition required_right (c : syscall) : option (Fd * right_name) :=
  match c with
  | FdAdvise fd _ _ _ => Some (fd, FD_ADVISE)
  | FdDatasync fd => Some (fd, FD_DATASYNC)
  | FdFdstatSetFlags fd _ => Some (fd, FD_FDSTAT_SET_FLAGS)
  | FdFilestatSetSize fd _ => Some (fd, FD_FILESTAT_SET_SIZE)
  | FdFilestatSetTimes fd _ _ _ _ => Some (fd, FD_FILESTAT_SET_TIMES)
  | FdPread fd _ _ | FdRead fd _ | SockRecv fd => Some (fd, FD_READ)
  | FdPwrite fd _ _ | FdWrite fd _ | SockSend fd => Some (fd, FD_WRITE)
  | WriteStdin _ => Some (0%Z, FD_WRITE)
  | FdReaddir fd _ => Some (fd, FD_READDIR)
  | FdSeek fd _ _ => Some (fd, FD_SEEK)
  | FdSync fd => Some (fd, FD_SYNC)
  | FdTell fd => Some (fd, FD_TELL)
  | PathCreateDirectory fd _ => Some (fd, PATH_CREATE_DIRECTORY)
  | PathFilestatGet fd _ => Some (fd, PATH_FILESTAT_GET)
  | PathFilestatSetTimes fd _ _ _ _ _ => Some (fd, PATH_FILESTAT_SET_TIMES)
  | PathLink fd _ _ _ => Some (fd, PATH_LINK_SOURCE)
  | PathOpen fd _ _ _ _ _ => Some (fd, PATH_OPEN)
  | PathReadlink fd _ => Some (fd, PATH_READLINK)
  | PathRemoveDirectory fd _ => Some (fd, PATH_REMOVE_DIRECTORY)
  | PathRename fd _ _ _ => Some (fd, PATH_RENAME_SOURCE)
  | PathSymlink _ fd _ => Some (fd, PATH_SYMLINK)
  | PathUnlinkFile fd _ => Some (fd, PATH_UNLINK_FILE)
  | SockShutdown fd => Some (fd, SOCK_SHUTDOWN)
  | _ => None
  end.

(** The descriptor an operation works on, with or without a check. *)
Definition subject (c : syscall) : option Fd :=
  match c with
  | FdClose fd | FdFdstatGet fd | FdFdstatSetRights fd _ _ | FdFilestatGet fd
  | FdRenumber fd _ => Some fd
  | ReadStdout => Some 1%Z
  | ReadStderr => Some 2%Z
  | c => fst <$> required_right c
  end.

Lemma fd_get_run fd s :
  fd_get fd s =
    (match fd_table (handle s) !! fd with Some e => Ok e | None => Err ErrNo.BadF end, s).
Proof. unfold fd_get, bind, get, ok_or. simpl. by destruct (fd_table _ !! fd). Qed.

Lemma check_right_run fd r s :
  check_right fd r s =
    (match fd_table (handle s) !! fd with
     | None => Err ErrNo.BadF
     | Some e => if rights_contains (rights_base (fd_stat e)) r then Ok tt else Err ErrNo.Access
     end, s).
Proof.
  unfold check_right, bind. rewrite fd_get_run. destruct (fd_table _ !! fd) as [e|]; [|done].
  by destruct (rights_contains _ _).
Qed.

(** An operation that starts with a check that fails. *)
Lemma bind_check_fail {A} fd r (k : unit → M A) s e :
  check_right fd r s = (Err e, s) → bind (check_right fd r) k s = (Err e, s).
Proof. unfold bind. by intros ->. Qed.

Lemma void_fail {A} (m : M A) e s : m s = (Err e, s) → void m s = (Err e, s).
Proof. unfold void, bind. by intros ->. Qed.

Lemma run_call_check_fail c fd r s e :
  required_right c = Some (fd, r) → check_right fd (right_of r) s = (Err e, s) →
  run_call c s = (Err e, s).
Proof.
  intros Hreq Hfail. destruct c; simplify_eq/=; 
    first [by apply bind_check_fail | apply void_fail; by apply bind_check_fail].
Qed.

(** An operation whose descriptor lacks the right it requires fails with
    [Access] and changes nothing: neither the handler nor the shared state. *)
Theorem missing_right_denied c fd r s e :
  required_right c = Some (fd, r) → fd_table (handle s) !! fd = Some e →
  rights_contains (rights_base (fd_stat e)) (right_of r) = false →
  run_call c s = (Err ErrNo.Access, s).
Proof.
  intros Hreq He Hr. eapply run_call_check_fail; [done|].
  by rewrite check_right_run, He, Hr.
Qed.

(** An operation on a descriptor that is not open fails with [BadF] and
    changes nothing. *)
Theorem bad_descriptor_denied c fd s :
  subject c = Some fd → fd_table (handle s) !! fd = None →
  run_call c s = (Err ErrNo.BadF, s).
Proof.
  intros Hsub Hfd. assert (∀ r, check_right fd r s = (Err ErrNo.BadF, s)) as Hck.
  { intros r. by rewrite check_right_run, Hfd. }
  destruct (required_right c) as [[fd' r]|] eqn:Hreq.
  - eapply run_call_check_fail; [done|]. destruct c; simplify_eq/=; apply Hck.
  - assert (fd_get fd s = (Err ErrNo.BadF, s)) as Hget by by rewrite fd_get_run, Hfd.
    destruct c; simplify_eq/=;
      unfold void, fd_close, fd_fdstat_get, fd_fdstat_set_rights, fd_filestat_get, fd_renumber,
        read_stdout, read_stderr, read_std_stream, get_inode_by_fd, bind; by rewrite Hget.
Qed.
End checks.

(** ** Confinement *)

Section confinement.
Context {BP : BuildProfile} {WR : WasiRights} {WL : WasiRightsLaws WR} {HO : HashOrder}
  {HL : HashOrderLaws HO} {NL : NativeLibs}.

(** The rights of a descriptor are within one of the rights in [B]. *)
Definition within (B : list Rights) (e : FdEntry) : Prop :=
  ∃ r, r ∈ B ∧ rights_contains r (rights_base (fd_stat e)) = true ∧
    rights_contains r (rights_inheriting (fd_stat e)) = true.

Definition confined (B : list Rights) (h : FileSystem) : Prop :=
  ∀ fd e, fd_table h !! fd = Some e → within B e.

Abbreviation keeps B m := (preserves (λ s, confined B (handle s)) m).

Lemma lock_confined {A} B (op : ST InodeTable ErrNo.t A) : keeps B (lock_inode_table op).
Proof.
  intros s Hs. unfold lock_inode_table, zoom. by destruct (op _) as [[] t].
Qed.

Lemma with_handle_confined {A} B h (op : M A) : keeps B (with_handle h op).
Proof. intros s Hs. unfold with_handle. by destruct (op _) as [[] t]. Qed.

Lemma modify_confined B f :
  (∀ s, fd_table (handle (f s)) = fd_table (handle s)) → keeps B (modify (E:=ErrNo.t) f).
Proof.
  intros Hf s Hs. unfold modify, confined. rewrite Hf. exact Hs.
Qed.

Lemma delete_confined B fd :
  keeps B (modify (E:=ErrNo.t) (λ s, set_fd_table (delete fd (fd_table (handle s))) s)).
Proof. intros s Hs fd' e. simpl. rewrite lookup_delete_Some. intros []. by eapply Hs. Qed.

Lemma fd_insert_confined B fd e :
  within B e → keeps B (fd_insert fd e).
Proof.
  intros He s Hs fd' e'. simpl. rewrite lookup_insert_Some.
  intros [[_ <-]|[_ ?]]; [done|by eapply Hs].
Qed.

Lemma fd_get_confined B fd :
  triple (λ s, confined B (handle s)) (fd_get fd)
    (λ e s, confined B (handle s) ∧ within B e) (λ s, confined B (handle s)).
Proof.
  eapply triple_conseq; [apply (fd_get_triple (λ s, confined B (handle s)))|done| |done].
  intros e s [Hs He]. split; [done|]. by eapply Hs.
Qed.

Lemma fd_update_confined B fd f :
  (∀ e, rights_base (fd_stat (f e)) = rights_base (fd_stat e) ∧
     rights_inheriting (fd_stat (f e)) = rights_inheriting (fd_stat e)) →
  keeps B (fd_update fd f).
Proof.
  intros Hf. eapply triple_bind; [apply fd_get_confined|]. intros e. apply triple_pure.
  intros (r & Hr & Hb & Hi). apply fd_insert_confined. destruct (Hf e) as [Hfb Hfi].
  exists r. by rewrite Hfb, Hfi.
Qed.

#[local] Hint Resolve lock_confined with_handle_confined delete_confined : veracruz.
#[local] Hint Extern 1 (preserves _ (modify _)) => by apply modify_confined : veracruz.
#[local] Hint Extern 1 (preserves _ (fd_update _ _)) => by apply fd_update_confined : veracruz.

Lemma new_fd_confined B : keeps B new_fd.
Proof. unfold new_fd. preserve. Qed.
Lemma fd_close_confined B fd : keeps B (fd_close fd).
Proof. unfold fd_close. preserve. Qed.
Lemma fd_filestat_set_size_confined B fd size : keeps B (fd_filestat_set_size fd size).
Proof. unfold fd_filestat_set_size. preserve. Qed.
#[local] Hint Resolve new_fd_confined fd_close_confined fd_filestat_set_size_confined
  fd_pread_wf : veracruz.
Lemma fd_seek_confined B fd delta whence : keeps B (fd_seek fd delta whence).
Proof. unfold fd_seek. preserve. Qed.
#[local] Hint Resolve fd_seek_confined : veracruz.
Lemma fd_read_confined B fd bufs : keeps B (fd_read fd bufs).
Proof. unfold fd_read. preserve. Qed.

(** The rights of the new descriptor are cut down to what the descriptor it
    is opened from may pass on. *)
Lemma path_open_confined B fd p oflags base inh fl :
  keeps B (path_open fd p oflags base inh fl).
Proof.
  unfold path_open. do 4 (apply preserves_bind; [eauto with veracruz|intros ?]).
  eapply triple_bind; [apply fd_get_confined|]. intros e. apply triple_pure. intros He.
  apply preserves_bind; [unfold path_open_inode; preserve|]. intros inode. preserve.
  apply fd_insert_confined. destruct He as (r & Hr & _ & Hinh). exists r. simpl.
  split_and!; [done|..]; (eapply contains_trans; [exact Hinh|]; apply contains_inter_sub_r).
Qed.

Lemma find_prestat_preserves (P : fs_state → Prop) p : preserves P (find_prestat p).
Proof. unfold find_prestat. preserve. Qed.
#[local] Hint Resolve fd_read_confined path_open_confined find_prestat_preserves
  debug_assert_preserves zeroed_preserves fd_filestat_get_preserves : veracruz.

Lemma read_file_confined B p : keeps B (read_file_by_absolute_path p).
Proof. unfold read_file_by_absolute_path. preserve. Qed.
#[local] Hint Resolve read_file_confined : veracruz.

Lemma read_all_files_confined B fuel p : keeps B (read_all_files fuel p).
Proof.
  revert p. induction fuel as [|fuel IH]; intros p; simpl; [eauto with veracruz|]. preserve.
Qed.

Lemma services_confined B f :
  (∀ s, handle (f s) = handle s) → keeps B (modify (E:=ErrNo.t) f).
Proof. intros Hf. apply modify_confined. intros s. by rewrite Hf. Qed.

Lemma service_valid_input_confined B i : keeps B (service_valid_input i).
Proof.
  unfold service_valid_input, service_lock. preserve; apply services_confined; intros s;
    unfold service_assign, service_unlock; by repeat case_match.
Qed.

Lemma call_service_confined B serve sid input : keeps B (call_service serve sid input).
Proof.
  unfold call_service, service_lock. preserve. apply preserves_finally; [preserve|].
  intros s Hs. unfold service_unlock. by case_match.
Qed.
#[local] Hint Resolve service_valid_input_confined call_service_confined : veracruz.

Lemma fd_pwrite_with_confined B serve fd bufs off : keeps B (fd_pwrite_with serve fd bufs off).
Proof. unfold fd_pwrite_with. preserve. Qed.
#[local] Hint Resolve fd_pwrite_with_confined : veracruz.
Lemma fd_write_with_confined B serve fd bufs : keeps B (fd_write_with serve fd bufs).
Proof. unfold fd_write_with. preserve. Qed.
#[local] Hint Resolve fd_write_with_confined : veracruz.
Lemma write_file_with_confined B serve p data app :
  keeps B (write_file_by_absolute_path_with serve p data app).
Proof. unfold write_file_by_absolute_path_with. preserve. Qed.

Lemma fd_renumber_confined B o n : keeps B (fd_renumber o n).
Proof.
  unfold fd_renumber. eapply triple_bind; [apply fd_get_confined|]. intros e. apply triple_pure.
  intros He. preserve. by apply fd_insert_confined.
Qed.

Lemma create_directory_confined B fd p : keeps B (path_create_directory fd p).
Proof. unfold path_create_directory, create_directory_step. preserve. Qed.

Lemma fd_pwrite_confined B fd bufs off : keeps B (fd_pwrite fd bufs off).
Proof. intros s. apply fd_pwrite_with_confined. Qed.
Lemma fd_write_confined B fd bufs : keeps B (fd_write fd bufs).
Proof. intros s. apply fd_write_with_confined. Qed.
Lemma write_file_confined B p data app : keeps B (write_file_by_absolute_path p data app).
Proof. intros s. apply write_file_with_confined. Qed.

#[local] Hint Resolve fd_renumber_confined create_directory_confined fd_pwrite_confined
  fd_write_confined write_file_confined read_all_files_confined fd_readdir_wf : veracruz.

(** [fd_create] makes an anonymous file, with every right on it. *)
Definition creates_file (c : syscall) : bool := match c with FdCreate => true | _ => false end.

Lemma run_call_confined B c : creates_file c = false → keeps B (run_call c).
Proof.
  intros Hc. destruct c; simplify_eq/=; unfold void, fd_allocate, fd_datasync, fd_fdstat_get,
    fd_fdstat_set_rights, fd_fdstat_set_flags, fd_advise, fd_filestat_set_times, fd_prestat_get,
    fd_prestat_dir_name, fd_sync, fd_tell, path_filestat_get, path_filestat_set_times, path_link,
    path_readlink, path_remove_directory, path_rename, path_symlink, path_unlink_file, poll_oneoff,
    sock_recv, sock_send, sock_shutdown, read_all_files_by_absolute_path, read_stdout, read_stderr,
    read_std_stream, write_stdin, is_executable, spawn; preserve.
Qed.
End confinement.

Section spawn.
Context {BP : BuildProfile} {WR : WasiRights} {WL : WasiRightsLaws WR} {HO : HashOrder}
  {HL : HashOrderLaws HO} {NL : NativeLibs}.

(** The rights a rights map gives out. *)
Definition granted (m : PathMap Rights) : list Rights := (pm_iter m).*2.

Lemma install_standard_stream_confined m e fr :
  e ∈ pm_iter m → std_stream_rights e = Some fr →
  preserves (λ s, confined (granted m) (handle s)) (install_standard_stream fr).
Proof.
  intros Hin Hfr. unfold install_standard_stream. apply preserves_bind; [eauto with veracruz|].
  intros s. destruct (std_stream_target _ _) as [[fd i]|]; [|eauto with veracruz].
  unfold std_stream_rights in Hfr. destruct (is_std_stream _); [|done].
  destruct (try_from_or_errno u32_bound (rights_bits e.2)) as [bits| |] eqn:Hbits; simplify_eq/=.
  apply try_from_or_errno_Ok in Hbits as [-> Hbits].
  rewrite try_from_or_errno_in by lia.
  intros s0 Hs0. unfold bind, lift. simpl. rewrite from_bits_bits. simpl.
  unfold install_fd. apply (fd_insert_confined (granted m)); [|done].
  exists e.2. split; [apply list_elem_of_fmap; eauto|]. simpl. by rewrite contains_refl.
Qed.

Lemma install_prestat_confined m :
  preserves (λ s, confined (granted m) (handle s)) (install_prestat m).
Proof.
  unfold install_prestat. apply preserves_bind.
  { apply (triple_fold (λ _ s, confined (granted m) (handle s))). intros [] fr Hfr.
    apply list_elem_of_omap in Hfr as (e & He & Hfr). by eapply install_standard_stream_confined. }
  intros _. apply preserves_bind.
  { apply (triple_fold (λ _ s, confined (granted m) (handle s))). intros index e He.
    apply list_elem_of_filter in He as [_ He]. unfold install_prestat_dir.
    preserve; [apply lock_confined| |by apply modify_confined].
    apply fd_insert_confined. exists e.2. simpl.
    split_and!; [apply list_elem_of_fmap; eauto|apply contains_refl..]. }
  intros _. preserve. by apply modify_confined.
Qed.

Lemma spawn_confined pr s h s' :
  spawn pr s = (Ok h, s') →
  ∃ m, rights_table (inode_table (world s)) !! pr = Some m ∧ confined (granted m) h.
Proof.
  unfold spawn. rewrite bind_ok. intros (m & s1 & Hm & Hrest).
  apply bind_ok in Hrest as ([[] h'] & s2 & Hw & [= <- <-]). simpl.
  exists m. unfold lock_inode_table, zoom, get_rights, bind, get, ok_or in Hm. simpl in Hm.
  destruct (rights_table _ !! pr) as [m'|]; simplify_eq/=. split; [done|].
  unfold with_handle in Hw.
  match type of Hw with context [install_prestat m ?st] =>
    pose proof (install_prestat_confined m st) as Hc end. simpl in Hc.
  destruct (install_prestat _ _) as [[] s3]; simplify_eq/=. apply Hc.
  intros fd e. simpl. by rewrite lookup_empty.
Qed.

(** A call through a handler, whatever the shared state has become since the
    last one. *)
Inductive handler_step : FileSystem → FileSystem → Prop :=
  | handler_call h w c r s' :
      creates_file c = false → run_call c (mkState h w) = (r, s') →
      handler_step h (handle s').

Lemma steps_confined B h0 h : confined B h0 → rtc handler_step h0 h → confined B h.
Proof.
  intros Hc Hsteps. induction Hsteps as [|h1 h2 h3 Hstep _ IH]; [done|]. apply IH.
  destruct Hstep as [h w c r s' Hcf Hrun].
  pose proof (preserves_run _ _ (mkState h w) (run_call_confined B c Hcf) Hc) as Hp.
  by rewrite Hrun in Hp.
Qed.

End spawn.

Section witnesses.
Import Demo.
Local Open Scope Z_scope.

Lemma missing_right_denied_witness :
  run_call (PathCreateDirectory 3 "d") prog_view = (Err ErrNo.Access, prog_view).
Proof.
  refine (missing_right_denied (PathCreateDirectory 3 "d") 3 PATH_CREATE_DIRECTORY prog_view
    (fd_entry prog_view 3) eq_refl _ _); by vm_compute.
Defined.

Lemma bad_descriptor_denied_witness : run_call (FdClose 9) prog_view = (Err ErrNo.BadF, prog_view).
Proof. refine (bad_descriptor_denied (FdClose 9) 9 prog_view eq_refl _). by vm_compute. Defined.

Lemma handler_call_step h w c :
  creates_file c = false → handler_step h (handle (run_call c (mkState h w)).2).
Proof. intros Hc. by apply (handler_call h w c (run_call c (mkState h w)).1); [|destruct (run_call _ _)]. Qed.

(** The program opens the file with every right it can ask for. *)
Definition prog_opened : FileSystem :=
  handle (after (run_call (PathOpen 3 "f" OpenFlags_empty rights_all rights_all FdFlags_empty))
    prog_view).

Lemma prog_opened_step : handler_step prog_handle prog_opened.
Proof. unfold prog_opened, after, prog_view. by apply handler_call_step. Qed.

End witnesses.
