(* ===== verification/FsData.v ===== *)
(** * Reading and writing through descriptors

    The functional behaviour of the data operations on regular files: a write
    is a splice of the bytes of the file, a read returns a slice of them, and
    a seek moves the offset, growing the file when it moves past its end.

    Source: [execution-engine/src/fs.rs], [fd_pwrite], [fd_pread], [fd_write],
    [fd_read], [fd_seek], [fd_tell], [fd_close], [fd_renumber]. *)

From S2P Require Import Prelude RustPath WasiTypes Policy InodeTable FileSystem FsOps Services.
From S2P Require Import InodeWf FsWf FsInv FsSystem FsSafe FsProps Demo.

Lemma splice_nil_r file off : off ≤ length file → splice file off [] = file.
Proof.
  intros Hoff. unfold splice. simpl. rewrite Nat.add_0_r, take_app_le by lia.
  replace (off - length file) with 0 by lia. by rewrite take_drop.
Qed.

Lemma splice_app file off x y :
  splice (splice file off x) (off + length x) y = splice file off (x ++ y).
Proof.
  apply list_eq. intros i. rewrite !lookup_splice, !length_splice, length_app.
  repeat case_decide; try lia; try done.
  - rewrite lookup_app_r by lia. f_equal. lia.
  - by rewrite lookup_app_l by lia.
Qed.

Section data.
Context {BP : BuildProfile} {WR : WasiRights} {HO : HashOrder} {NL : NativeLibs}.
Local Open Scope Z_scope.

(** The descriptor [fd] is open on the regular file [i], whose entry is [f]
    and whose bytes are [b]. *)
Record on_file (s : fs_state) (fd i : Z) (e : FdEntry) (f : InodeEntry) (b : bytes) : Prop := {
  of_fd : fd_table (handle s) !! fd = Some e;
  of_inode : fe_inode e = i;
  of_entry : table (inode_table (world s)) !! i = Some f;
  of_data : data f = File b;
  of_len : len b < i64_bound;
}.

Definition has_right (e : FdEntry) (r : right_name) : Prop :=
  rights_contains (rights_base (fd_stat e)) (right_of r) = true.

(** The entry and the state with new bytes in the file. *)
Definition with_bytes (b : bytes) (f : InodeEntry) : InodeEntry :=
  set_file_size (len b) (set_data (File b) f).
Definition set_entry (i : Z) (f : InodeEntry) (s : fs_state) : fs_state :=
  let t := inode_table (world s) in
  set_inode_table (set_table (<[i := f]> (table t)) t) s.

Lemma get_inode_by_fd_run fd s :
  get_inode_by_fd fd s =
    (match fd_table (handle s) !! fd with Some e => Ok (fe_inode e) | None => Err ErrNo.BadF end, s).
Proof. unfold get_inode_by_fd, bind. rewrite fd_get_run. by destruct (fd_table _ !! fd). Qed.

(** ** Writing *)

(** The bytes after writing the buffers one after the other. *)
Definition written (b : bytes) (off : Z) (bufs : list bytes) : bytes :=
  match bufs with [] => b | _ => splice b (Z.to_nat off) (concat bufs) end.

Lemma written_cons b off buf bufs :
  0 ≤ off →
  written (splice b (Z.to_nat off) buf) (off + len buf) bufs = written b off (buf :: bufs).
Proof.
  intros Hoff. destruct bufs as [|buf' bufs]; simpl; [by rewrite app_nil_r|].
  rewrite <- (splice_app b _ buf). unfold len. by replace (Z.to_nat (off + Z.of_nat (length buf)))
    with (Z.to_nat off + length buf)%nat by lia.
Qed.

Lemma len_splice b off buf : 0 ≤ off → len (splice b (Z.to_nat off) buf) = Z.max (len b) (off + len buf).
Proof. intros Hoff. unfold len. rewrite length_splice. lia. Qed.

Lemma pwrite_step_run buf off total f b :
  data f = File b → len b < i64_bound → 0 ≤ off → 0 ≤ total →
  off + len buf < i64_bound → total + len buf < u64_bound →
  pwrite_step (off, total) buf f =
    (Ok (off + len buf, total + len buf), with_bytes (splice b (Z.to_nat off) buf) f).
Proof.
  intros Hd Hb Hoff Ht Hfit Htot. pose proof (len_nonneg buf).
  unfold pwrite_step, bind. simpl.
  rewrite (InodeEntry_write_file_ok buf off f b); [|by unfold file_content; rewrite Hd|lia..].
  unfold lift, u64_add, usize_add. rewrite try_from_or_errno_in, !unsigned_add_small by lia.
  by rewrite Hd.
Qed.

Lemma with_bytes_twice b b' f : with_bytes b' (with_bytes b f) = with_bytes b' f.
Proof. done. Qed.

Lemma pwrite_loop_run bufs b off total f :
  data f = File b → len b < i64_bound → 0 ≤ off → 0 ≤ total →
  off + len (concat bufs) < i64_bound → total + len (concat bufs) < u64_bound →
  fold_st pwrite_step bufs (off, total) f =
    (Ok (off + len (concat bufs), total + len (concat bufs)),
     match bufs with [] => f | _ => with_bytes (written b off bufs) f end).
Proof.
  revert b off total f. induction bufs as [|buf bufs IH]; intros b off total f Hd Hb Hoff Ht Hfit Htot;
    cbn [fold_st concat]; cbn [concat] in *.
  { unfold ret, len. simpl. by rewrite !Z.add_0_r. }
  rewrite len_app in *. pose proof (len_nonneg buf). pose proof (len_nonneg (concat bufs)).
  unfold bind. rewrite (pwrite_step_run buf off total f b) by (done || lia).
  rewrite (IH (splice b (Z.to_nat off) buf)); [|done|rewrite len_splice by lia; lia|lia..].
  rewrite !Z.add_assoc, written_cons by done. f_equal.
  destruct bufs; [|done]. simpl. by rewrite app_nil_r.
Qed.

(** The body of [fd_pwrite] on a regular file, whatever runs the services. *)
Lemma fd_pwrite_with_run serve fd bufs off s i e f b :
  on_file s fd i e f b → has_right e FD_WRITE → bufs ≠ [] →
  0 ≤ off → off + len (concat bufs) < i64_bound →
  fd_pwrite_with serve fd bufs off s =
    (Ok (len (concat bufs)),
     set_entry i (with_bytes (splice b (Z.to_nat off) (concat bufs)) f) s).
Proof.
  intros [Hfd Hi Hf Hd Hb] Hr Hne Hoff Hfit. pose proof (len_nonneg (concat bufs)).
  unfold fd_pwrite_with, bind at 1. rewrite check_right_run, Hfd, Hr.
  unfold bind at 1. rewrite get_inode_by_fd_run, Hfd, Hi.
  unfold bind at 1, lock_inode_table, zoom, InodeTable_get_mut, InodeTable_get.
  unfold bind at 1 2, get, ok_or. simpl. rewrite Hf.
  unfold bind at 1. rewrite (pwrite_loop_run bufs b) by (done || lia).
  destruct bufs as [|buf bufs]; [done|]. simpl. done.
Qed.

(** ** Reading *)

(** The bytes a read of [k] bytes at [off] returns. *)
Definition slice (b : bytes) (off k : nat) : bytes := take k (drop off b).

Lemma length_slice b off k : length (slice b off k) = Nat.min k (length b - off).
Proof. unfold slice. by rewrite length_take, length_drop. Qed.

Lemma slice_app b off k m : slice b off k ++ slice b (off + k) m = slice b off (k + m).
Proof. unfold slice. by rewrite <- take_take_drop, drop_drop. Qed.

Lemma drop_length_add (x y : bytes) m : drop (length x + m) (x ++ y) = drop m y.
Proof. by rewrite <- drop_drop, drop_app_length. Qed.

Lemma pread_loop_run bufs b off total done_ f s :
  data f = File b → len b < i64_bound → 0 ≤ off ≤ len b → 0 ≤ total ≤ off →
  ∃ bufs', let n := Z.min (len (concat bufs)) (len b - off) in
    fold_st (pread_step f) bufs (off, total, done_) s =
      (Ok (off + n, total + n, done_ ++ bufs'), s) ∧
    concat bufs' = slice b (Z.to_nat off) (Z.to_nat n) ++ drop (Z.to_nat n) (concat bufs) ∧
    Forall2 (λ x y, length x = length y) bufs bufs'.
Proof.
  revert off total done_. induction bufs as [|buf bufs IH]; intros off total done_ Hd Hb Hoff Ht.
  { exists []. assert (Z.min (len (concat (@nil bytes))) (len b - off) = 0) as -> by (unfold len in *; simpl; lia).
    cbn. by rewrite !Z.add_0_r, app_nil_r. }
  set (k := Z.min (len buf) (len b - off)).
  destruct (IH (off + k) (total + k)
    (done_ ++ [slice b (Z.to_nat off) (Z.to_nat k) ++ drop (Z.to_nat k) buf])) as
    (bufs' & Hrun & Hcat & Hlen); [done|done|unfold len in *; lia|unfold len in *; lia|].
  exists ((slice b (Z.to_nat off) (Z.to_nat k) ++ drop (Z.to_nat k) buf) :: bufs').
  assert (Z.min (len (concat (buf :: bufs))) (len b - off) =
    k + Z.min (len (concat bufs)) (len b - (off + k))) as Hn.
  { cbn [concat]. rewrite len_app. subst k. unfold len. lia. }
  cbn zeta. rewrite Hn. split_and!.
  - cbn [fold_st]. unfold bind at 1, pread_step at 1. unfold bind at 1.
    rewrite (InodeEntry_read_file_ok buf off f b); [|by unfold file_content; rewrite Hd|lia..].
    assert (Z.of_nat (Nat.min (length buf) (length b - Z.to_nat off)) = k) as Hk.
    { subst k. unfold len in *. lia. }
    assert (Nat.min (length buf) (length b - Z.to_nat off) = Z.to_nat k) as Hk'
      by (subst k; unfold len in *; lia).
    assert (0 ≤ k ≤ len b) by (subst k; unfold len in *; lia).
    unfold lift. cbn [fst snd]. rewrite Hk, Hk'. unfold bind, u64_add, usize_add.
    rewrite try_from_or_errno_in, !unsigned_add_small by lia.
    unfold ret. fold (slice b (Z.to_nat off) (Z.to_nat k)).
    rewrite Hrun, !Z.add_assoc, <- app_assoc. done.
  - cbn [concat]. rewrite Hcat.
    set (m := Z.min (len (concat bufs)) (len b - (off + k))) in *.
    rewrite !Z2Nat.inj_add by (subst m k; unfold len in *; lia).
    destruct (decide (k = len buf)) as [Hk|Hk].
    + assert (Z.to_nat k = length buf) as Hk' by (unfold len in *; lia).
      rewrite Hk', drop_all, app_nil_r, app_assoc, slice_app. by rewrite drop_length_add.
    + assert (m = 0) as -> by (subst m k; unfold len in *; lia).
      assert (Z.to_nat k ≤ length buf)%nat by (subst k; unfold len in *; lia).
      simpl. rewrite Nat.add_0_r, drop_app_le, app_assoc by done. done.
  - constructor; [|done]. rewrite length_app, length_slice, length_drop.
    subst k. unfold len in *. lia.
Qed.

Lemma fd_pread_run fd bufs off s i e f b :
  on_file s fd i e f b → has_right e FD_READ → 0 ≤ off ≤ len b →
  ∃ bufs', let n := Z.min (len (concat bufs)) (len b - off) in
    fd_pread fd bufs off s = (Ok (n, bufs'), s) ∧
    concat bufs' = slice b (Z.to_nat off) (Z.to_nat n) ++ drop (Z.to_nat n) (concat bufs) ∧
    Forall2 (λ x y, length x = length y) bufs bufs'.
Proof.
  intros [Hfd Hi Hf Hd Hb] Hr Hoff.
  destruct (pread_loop_run bufs b off 0 [] f s) as (bufs' & Hrun & Hcat & Hlen); [done|done|lia..|].
  exists bufs'. cbn zeta in *. split; [|done].
  unfold fd_pread, bind at 1. rewrite check_right_run, Hfd, Hr.
  unfold bind at 1. rewrite get_inode_by_fd_run, Hfd, Hi.
  unfold bind at 1. rewrite lock_get_run, Hf. unfold bind at 1. by rewrite Hrun.
Qed.

(** ** Seeking *)

Definition set_fd (fd : Fd) (e : FdEntry) (s : fs_state) : fs_state :=
  set_fd_table (<[fd := e]> (fd_table (handle s))) s.

Lemma fd_update_run fd g s e :
  fd_table (handle s) !! fd = Some e → fd_update fd g s = (Ok tt, set_fd fd (g e) s).
Proof. intros He. unfold fd_update, bind. rewrite fd_get_run, He. done. Qed.

Lemma with_bytes_id f b : data f = File b → file_size (file_stat f) = len b → with_bytes b f = f.
Proof. destruct f as [[] d]. simpl. by intros -> ->. Qed.

(** The bytes of a file grown to [n] bytes. *)
Definition grown (b : bytes) (n : Z) : bytes :=
  b ++ replicate (Z.to_nat n - length b) Byte.x00.

Lemma grown_same b n : n ≤ len b → grown b n = b.
Proof.
  intros Hn. unfold grown. replace (Z.to_nat n - length b)%nat with 0%nat by (unfold len in *; lia).
  apply app_nil_r.
Qed.

Lemma set_size_run fd n s i e f b :
  on_file s fd i e f b → has_right e FD_FILESTAT_SET_SIZE → len b ≤ n < i64_bound →
  fd_filestat_set_size fd n s = (Ok tt, set_entry i (with_bytes (grown b n) f) s).
Proof.
  intros [Hfd Hi Hf Hd Hb] Hr Hn. pose proof (len_nonneg b).
  unfold fd_filestat_set_size, bind at 1. rewrite check_right_run, Hfd, Hr.
  unfold bind at 1. rewrite get_inode_by_fd_run, Hfd, Hi.
  unfold lock_inode_table, zoom, InodeTable_get_mut, InodeTable_get, bind at 1 2, get, ok_or. simpl.
  rewrite Hf. unfold InodeEntry_resize_file, on_data, zoom, InodeImpl_resize_file, bind, get, ok_or.
  simpl. rewrite Hd. unfold lift. simpl.
  rewrite try_from_or_errno_in, vec_resize_in by lia. unfold put, modify. simpl.
  rewrite take_ge by (unfold len in *; lia). unfold with_bytes, set_entry, grown.
  replace (len (b ++ replicate (Z.to_nat n - length b) Byte.x00)) with n; [done|].
  unfold len in *. rewrite length_app, length_replicate. lia.
Qed.

(** Run [fd_seek] up to the choice of the direction. *)
Ltac seek_start Hfd Hi Hf Hr :=
  unfold fd_seek; unfold bind at 1; rewrite check_right_run, Hfd, Hr;
  unfold bind at 1; rewrite fd_get_run, Hfd; unfold bind at 1; rewrite Hi, lock_get_run, Hf.

Lemma fd_seek_back_run fd delta whence s i e f b :
  on_file s fd i e f b → has_right e FD_SEEK → - i64_bound < delta < 0 →
  let new := new_base_offset whence (offset e) (file_size (file_stat f)) + delta in
  fd_seek fd delta whence s =
    if new <? 0 then (Err ErrNo.SPipe, s) else (Ok new, set_fd fd (set_offset new e) s).
Proof.
  intros [Hfd Hi Hf Hd Hb] Hr Hdelta new.
  seek_start Hfd Hi Hf Hr.
  rewrite (proj2 (Z.leb_gt 0 delta)) by lia. unfold bind, lift, i64_abs.
  rewrite (proj2 (Z.eqb_neq delta _)), try_from_or_errno_in by lia. unfold fail_if, ret. subst new.
  set (base := new_base_offset _ _ _).
  destruct (Z.ltb_spec base (Z.abs delta)), (Z.ltb_spec (base + delta) 0); try lia; [done|].
  rewrite (fd_update_run fd _ s e) by done.
  by replace (base - Z.abs delta) with (base + delta) by lia.
Qed.

Lemma fd_seek_forward_run fd delta whence s i e f b :
  on_file s fd i e f b → has_right e FD_SEEK → file_size (file_stat f) = len b →
  0 ≤ offset e → 0 ≤ delta < i64_bound →
  let new := new_base_offset whence (offset e) (len b) + delta in
  new < i64_bound → (len b < new → has_right e FD_FILESTAT_SET_SIZE) →
  fd_seek fd delta whence s =
    (Ok new, set_fd fd (set_offset new e) (set_entry i (with_bytes (grown b new) f) s)).
Proof.
  intros Hon Hr Hsz Hoff Hdelta new Hnew Hset. pose proof Hon as [Hfd Hi Hf Hd Hb].
  pose proof (len_nonneg b).
  seek_start Hfd Hi Hf Hr.
  rewrite (proj2 (Z.leb_le 0 delta)) by lia. unfold bind, lift, i64_abs.
  rewrite (proj2 (Z.eqb_neq delta _)) by lia. rewrite Z.abs_eq by lia.
  rewrite try_from_or_errno_in by lia. unfold u64_add. rewrite Hsz.
  rewrite unsigned_add_small by (subst new; lia). fold new.
  destruct (Z.ltb_spec (len b) new) as [Hlt|Hge].
  - rewrite (set_size_run fd new s i e f b) by (done || auto || lia). unfold ret. simpl.
    by rewrite (fd_update_run fd _ _ e) by done.
  - unfold ret. simpl. rewrite (fd_update_run fd _ s e) by done.
    rewrite grown_same, with_bytes_id by done. unfold set_entry. rewrite insert_id by done.
    by destruct s as [? [[] ?]].
Qed.

Lemma fd_seek_grow_denied_run fd delta whence s i e f b :
  on_file s fd i e f b → has_right e FD_SEEK → file_size (file_stat f) = len b →
  0 ≤ offset e → 0 ≤ delta < i64_bound →
  let new := new_base_offset whence (offset e) (len b) + delta in
  len b < new < u64_bound → ¬ has_right e FD_FILESTAT_SET_SIZE →
  fd_seek fd delta whence s = (Err ErrNo.Access, s).
Proof.
  intros Hon Hr Hsz Hoff Hdelta new Hnew Hset. pose proof Hon as [Hfd Hi Hf Hd Hb].
  seek_start Hfd Hi Hf Hr.
  rewrite (proj2 (Z.leb_le 0 delta)) by lia. unfold bind, lift, i64_abs.
  rewrite (proj2 (Z.eqb_neq delta _)) by lia. rewrite Z.abs_eq by lia.
  rewrite try_from_or_errno_in by lia. unfold u64_add. rewrite Hsz.
  rewrite unsigned_add_small by (subst new; lia). fold new.
  rewrite (proj2 (Z.ltb_lt _ _)) by lia. unfold fd_filestat_set_size, bind at 1.
  rewrite check_right_run, Hfd. unfold has_right in Hset. by destruct (rights_contains _ _).
Qed.

Lemma slice_splice b off buf : slice (splice b off buf) off (length buf) = buf.
Proof.
  apply list_eq. intros k. unfold slice. rewrite lookup_take, lookup_drop, lookup_splice.
  repeat case_decide; try lia; try done.
  all: first [f_equal; lia | symmetry; apply lookup_ge_None_2; lia].
Qed.

(** ** Sequential access *)

Lemma on_file_after s fd i e f b b' :
  on_file s fd i e f b → len b' < i64_bound →
  on_file (set_entry i (with_bytes b' f) s) fd i e (with_bytes b' f) b'.
Proof. intros [Hfd Hi Hf Hd Hb] Hb'. split; [done|done|by apply lookup_insert_eq|done|done]. Qed.

Lemma seek_current_run fd n s i e f b :
  on_file s fd i e f b → has_right e FD_SEEK → file_size (file_stat f) = len b →
  0 ≤ offset e → 0 ≤ n → offset e + n ≤ len b →
  fd_seek fd n Current s = (Ok (offset e + n), set_fd fd (set_offset (offset e + n) e) s).
Proof.
  intros Hon Hr Hsz Hoff Hn Hfit. pose proof Hon as [Hfd Hi Hf Hd Hb].
  rewrite (fd_seek_forward_run fd n Current s i e f b) by (done || simpl; lia). simpl.
  rewrite grown_same, with_bytes_id by done.
  unfold set_entry. rewrite insert_id by done. by destruct s as [? [[] ?]].
Qed.

Lemma seek_back_run fd n s i e f b :
  on_file s fd i e f b → has_right e FD_SEEK → file_size (file_stat f) = len b →
  0 ≤ n ≤ offset e → n < i64_bound → offset e ≤ len b →
  fd_seek fd (- n) Current s = (Ok (offset e - n), set_fd fd (set_offset (offset e - n) e) s).
Proof.
  intros Hon Hr Hsz Hn Hlt Hfit. destruct (decide (n = 0)) as [->|Hne].
  - rewrite (seek_current_run fd (- 0) s i e f b) by (done || lia).
    by replace (offset e + - 0) with (offset e - 0) by lia.
  - rewrite (fd_seek_back_run fd (- n) Current s i e f b) by (done || lia). simpl.
    rewrite (proj2 (Z.ltb_ge _ _)) by lia. by replace (offset e + - n) with (offset e - n) by lia.
Qed.

Lemma as_i64_small n : n < i64_bound → as_i64 n = n.
Proof. intros Hn. unfold as_i64. by rewrite (proj2 (Z.ltb_lt _ _)). Qed.

Lemma fd_write_with_run serve fd bufs s i e f b :
  on_file s fd i e f b → has_right e FD_WRITE → has_right e FD_SEEK → bufs ≠ [] →
  0 ≤ offset e → offset e + len (concat bufs) < i64_bound →
  let n := len (concat bufs) in
  fd_write_with serve fd bufs s =
    (Ok n, set_fd fd (set_offset (offset e + n) e)
             (set_entry i (with_bytes (splice b (Z.to_nat (offset e)) (concat bufs)) f) s)).
Proof.
  intros Hon Hw Hsk Hne Hoff Hfit n. pose proof Hon as [Hfd Hi Hf Hd Hb].
  pose proof (len_nonneg (concat bufs)). unfold fd_write_with, bind at 1.
  rewrite check_right_run, Hfd, Hw. unfold bind at 1. rewrite fd_get_run, Hfd.
  unfold bind at 1. rewrite (fd_pwrite_with_run _ fd bufs (offset e) s i e f b) by done.
  set (b' := splice b (Z.to_nat (offset e)) (concat bufs)).
  pose proof (len_splice b (offset e) (concat bufs) Hoff) as Hb'. fold b' in Hb'.
  unfold bind at 1. rewrite as_i64_small by lia.
  rewrite (seek_current_run fd n _ i e (with_bytes b' f) b');
    [done|apply (on_file_after s fd i e f b); [done|lia]|done|done|done|done|subst n; lia].
Qed.

Lemma fd_read_run fd bufs s i e f b :
  on_file s fd i e f b → has_right e FD_READ → has_right e FD_SEEK →
  file_size (file_stat f) = len b → 0 ≤ offset e ≤ len b →
  ∃ bufs', let n := Z.min (len (concat bufs)) (len b - offset e) in
    fd_read fd bufs s = (Ok (n, bufs'), set_fd fd (set_offset (offset e + n) e) s) ∧
    concat bufs' = slice b (Z.to_nat (offset e)) (Z.to_nat n) ++ drop (Z.to_nat n) (concat bufs).
Proof.
  intros Hon Hr Hsk Hsz Hoff. pose proof Hon as [Hfd Hi Hf Hd Hb].
  destruct (fd_pread_run fd bufs (offset e) s i e f b Hon Hr Hoff) as (bufs' & Hrun & Hcat & _).
  exists bufs'. cbn zeta in *. split; [|done].
  set (n := Z.min (len (concat bufs)) (len b - offset e)) in *.
  assert (0 ≤ n ≤ len b - offset e) by (subst n; pose proof (len_nonneg (concat bufs)); lia).
  unfold fd_read, bind at 1. rewrite check_right_run, Hfd, Hr.
  unfold bind at 1. rewrite fd_get_run, Hfd. unfold bind at 1. rewrite Hrun.
  unfold bind at 1. cbn [fst]. rewrite as_i64_small by lia.
  by rewrite (seek_current_run fd n s i e f b) by (done || lia).
Qed.

(** ** Theorems *)

(** A write to a regular file stores exactly the concatenation of the
    buffers at the offset: the bytes before it are kept (with zeros where
    the file was shorter), the bytes after it too; the recorded size is the
    new length, and nothing else in the handler or the shared state changes. *)
Theorem fd_pwrite_splices s fd i e f b bufs off :
  on_file s fd i e f b → has_right e FD_WRITE → bufs ≠ [] →
  0 ≤ off → off + len (concat bufs) < i64_bound →
  let b' := splice b (Z.to_nat off) (concat bufs) in
  fd_pwrite fd bufs off s = (Ok (len (concat bufs)), set_entry i (with_bytes b' f) s) ∧
  len b' = Z.max (len b) (off + len (concat bufs)) ∧
  ∀ k, b' !! k =
    if decide (Z.to_nat off ≤ k < Z.to_nat off + length (concat bufs))%nat
    then concat bufs !! (k - Z.to_nat off)%nat
    else if decide (k < length b)%nat then b !! k
    else if decide (k < Z.to_nat off)%nat then Some Byte.x00 else None.
Proof.
  intros Hon Hr Hne Hoff Hfit b'. split_and!.
  - by apply (fd_pwrite_with_run _ fd bufs off s i e f b).
  - by apply len_splice.
  - intros k. apply lookup_splice.
Qed.

(** A read from a regular file, at an offset within it, fills the
    buffers in order with the bytes at the offset, as many as there are;
    the rest of the buffers is left as it was, and so is the state. *)
Theorem fd_pread_slices s fd i e f b bufs off :
  on_file s fd i e f b → has_right e FD_READ → 0 ≤ off ≤ len b →
  ∃ bufs', let n := Z.min (len (concat bufs)) (len b - off) in
    fd_pread fd bufs off s = (Ok (n, bufs'), s) ∧
    concat bufs' = slice b (Z.to_nat off) (Z.to_nat n) ++ drop (Z.to_nat n) (concat bufs) ∧
    Forall2 (λ x y, length x = length y) bufs bufs'.
Proof. apply fd_pread_run. Qed.

(** What is written through one descriptor is read back, byte for byte,
    through any descriptor open on the same inode, of this or any other
    handler. *)
Theorem pwrite_pread_roundtrip s s' fd i e f b bufs off h fd' e' bufs' :
  on_file s fd i e f b → has_right e FD_WRITE → bufs ≠ [] →
  0 ≤ off → off + len (concat bufs) < i64_bound →
  s' = mkState h (world (fd_pwrite fd bufs off s).2) →
  fd_table h !! fd' = Some e' → fe_inode e' = i → has_right e' FD_READ →
  len (concat bufs') = len (concat bufs) →
  ∃ bufs'', fd_pread fd' bufs' off s' = (Ok (len (concat bufs), bufs''), s') ∧
    concat bufs'' = concat bufs.
Proof.
  intros Hon Hr Hne Hoff Hfit -> Hfd' Hi' Hr' Hlen. unfold fd_pwrite.
  rewrite (fd_pwrite_with_run _ fd bufs off s i e f b) by done. simpl.
  set (b' := splice b (Z.to_nat off) (concat bufs)).
  pose proof (len_splice b off (concat bufs) Hoff) as Hb'. pose proof (len_nonneg (concat bufs)).
  destruct Hon as [_ _ _ _ Hb].
  edestruct (fd_pread_run fd' bufs' off (mkState h (world (set_entry i (with_bytes b' f) s))) i e')
    as (bufs'' & Hrun & Hcat & _).
  - split; [done|done|by apply lookup_insert_eq|done|subst b'; lia].
  - done.
  - subst b'. lia.
  - cbn zeta in *. rewrite Z.min_l in Hrun, Hcat by (subst b'; lia). exists bufs''.
    rewrite Hlen in *. split; [done|]. rewrite Hcat.
    replace (Z.to_nat (len (concat bufs))) with (length (concat bufs)) by (unfold len; lia).
    subst b'. rewrite slice_splice, drop_ge; [apply app_nil_r|]. unfold len in Hlen. lia.
Qed.

(** The result of [fd_seek] on a regular file.  Moving back stops at
    the start of the file with [SPipe]; a target within the file moves the
    offset and nothing else; a target past the end also grows the file with
    zeros, for which the descriptor needs the right to set the size: without
    it the seek fails and changes nothing. *)
Theorem fd_seek_moves s fd i e f b delta whence :
  on_file s fd i e f b → has_right e FD_SEEK → file_size (file_stat f) = len b →
  0 ≤ offset e → - i64_bound < delta < i64_bound →
  let new := new_base_offset whence (offset e) (len b) + delta in
  new < i64_bound →
  fd_seek fd delta whence s =
    if (delta <? 0) && (new <? 0) then (Err ErrNo.SPipe, s)
    else if (delta <? 0) || (new <=? len b) then (Ok new, set_fd fd (set_offset new e) s)
    else if rights_contains (rights_base (fd_stat e)) (right_of FD_FILESTAT_SET_SIZE)
    then (Ok new, set_fd fd (set_offset new e) (set_entry i (with_bytes (grown b new) f) s))
    else (Err ErrNo.Access, s).
Proof.
  intros Hon Hr Hsz Hoff Hdelta new Hnew. pose proof Hon as [Hfd Hi Hf Hd Hb].
  destruct (Z.ltb_spec delta 0) as [Hneg|Hpos]; simpl.
  { rewrite (fd_seek_back_run fd delta whence s i e f b) by (done || lia). rewrite Hsz. fold new.
    by destruct (Z.ltb_spec new 0). }
  destruct (Z.leb_spec new (len b)) as [Hin|Hpast].
  - rewrite (fd_seek_forward_run fd delta whence s i e f b) by (done || lia). fold new.
    rewrite grown_same, with_bytes_id by done. unfold set_entry. rewrite insert_id by done.
    by destruct s as [? [[] ?]].
  - destruct (rights_contains _ _) eqn:Hset.
    + by rewrite (fd_seek_forward_run fd delta whence s i e f b) by (done || lia).
    + apply (fd_seek_grow_denied_run fd delta whence s i e f b); try (done || lia).
      unfold has_right. by rewrite Hset.
Qed.

(** A program that writes, seeks back to where it started and reads
    gets its bytes, and ends with the offset behind them. *)
Theorem write_seek_read s fd i e f b buf buf' :
  on_file s fd i e f b → has_right e FD_WRITE → has_right e FD_SEEK → has_right e FD_READ →
  0 ≤ offset e → offset e + len buf < i64_bound → len buf' = len buf →
  let b' := splice b (Z.to_nat (offset e)) buf in
  (let! n := fd_write fd [buf] in
   let! _m := fd_seek fd (- n) Current in
   let! r := fd_read fd [buf'] in ret (r.1, concat r.2)) s =
    (Ok (len buf, buf),
     set_fd fd (set_offset (offset e + len buf) e) (set_entry i (with_bytes b' f) s)).
Proof.
  intros Hon Hw Hsk Hr Hoff Hfit Hlen b'. pose proof Hon as [Hfd Hi Hf Hd Hb].
  pose proof (len_nonneg buf) as Hnn. unfold bind at 1, fd_write.
  rewrite (fd_write_with_run _ fd [buf] s i e f b); simpl concat; rewrite ?app_nil_r; try done.
  fold b'. pose proof (len_splice b (offset e) buf Hoff) as Hb'. fold b' in Hb'.
  set (n := len buf) in *. set (s1 := set_fd _ _ _).
  assert (on_file s1 fd i (set_offset (offset e + n) e) (with_bytes b' f) b') as Hon1.
  { split; [apply lookup_insert_eq|done|by apply lookup_insert_eq|done|lia]. }
  unfold bind at 1.
  rewrite (seek_back_run fd n s1 i _ (with_bytes b' f) b' Hon1 Hsk) by (done || simpl; lia).
  simpl offset. replace (offset e + n - n) with (offset e) by lia.
  assert (set_offset (offset e) (set_offset (offset e + n) e) = e) as -> by by destruct e.
  set (s2 := set_fd fd e s1).
  assert (on_file s2 fd i e (with_bytes b' f) b') as Hon2.
  { split; [apply lookup_insert_eq|done|by apply lookup_insert_eq|done|lia]. }
  destruct (fd_read_run fd [buf'] s2 i e (with_bytes b' f) b' Hon2 Hr Hsk eq_refl) as
    (bufs & Hrun & Hcat); [lia|].
  simpl concat in *. rewrite app_nil_r in *. cbn zeta in *. rewrite Hlen in *.
  rewrite Z.min_l in Hrun, Hcat by lia. fold n in Hrun, Hcat.
  unfold bind. rewrite Hrun. unfold ret. simpl. rewrite Hcat.
  replace (Z.to_nat n) with (length buf) by (subst n; unfold len; lia). subst b'.
  rewrite slice_splice, drop_ge by (subst n; unfold len in Hlen; lia). rewrite app_nil_r.
  subst s2 s1. unfold set_fd, set_fd_table. simpl. by rewrite !insert_insert_eq.
Qed.
End data.

Section witnesses.
Import Demo.
Local Open Scope Z_scope.

Lemma demo_on_file : on_file st1 7 9 (fd_entry st1 7) (inode_entry st1 9) [].
Proof. split; by vm_compute. Qed.

Lemma fd_pwrite_splices_witness :
  (fd_pwrite 7 [hello; hello] 2 st1).1 = Ok 10.
Proof.
  destruct (fd_pwrite_splices st1 7 9 (fd_entry st1 7) (inode_entry st1 9) [] [hello; hello] 2)
    as [H _]; [apply demo_on_file|by vm_compute|done|lia|vm_compute; done|].
  rewrite H. by vm_compute.
Defined.

(** The file after a write at offset 2. *)
Definition st_w : fs_state := after (fd_pwrite 7 [hello; hello] 2) st1.
Definition st_w_bytes : bytes := [Byte.x00; Byte.x00] ++ hello ++ hello.
Lemma demo_on_file_w : on_file st_w 7 9 (fd_entry st_w 7) (inode_entry st_w 9) st_w_bytes.
Proof. split; by vm_compute. Qed.

Lemma fd_pread_slices_witness :
  ∃ bufs, (fd_pread 7 [replicate 3 Byte.x2e; replicate 9 Byte.x2e] 4 st_w).1 = Ok (8, bufs) ∧
    concat bufs = as_bytes "llohello....".
Proof.
  destruct (fd_pread_slices st_w 7 9 (fd_entry st_w 7) (inode_entry st_w 9) st_w_bytes
    [replicate 3 Byte.x2e; replicate 9 Byte.x2e] 4) as (bufs & Hrun & Hcat & _);
    [apply demo_on_file_w|by vm_compute|by vm_compute|].
  exists bufs. rewrite Hrun, Hcat. split; vm_compute; reflexivity.
Defined.

Lemma pwrite_pread_roundtrip_witness :
  ∃ bufs, (fd_pread 7 [replicate 10 Byte.x2e] 2 (mkState (handle st1) (world st_w))).1 = Ok (10, bufs) ∧
    concat bufs = hello ++ hello.
Proof.
  destruct (pwrite_pread_roundtrip st1 (mkState (handle st1) (world st_w)) 7 9 (fd_entry st1 7)
    (inode_entry st1 9) [] [hello; hello] 2 (handle st1) 7 (fd_entry st1 7) [replicate 10 Byte.x2e])
    as (bufs & Hrun & Hcat);
    [apply demo_on_file|by vm_compute|done|done|by vm_compute|reflexivity|by vm_compute..|].
  exists bufs. rewrite Hrun, Hcat. split; vm_compute; reflexivity.
Defined.

Lemma fd_seek_moves_witness :
  (fd_seek 7 (-4) End_ st_w).1 = Ok 8 ∧ (fd_seek 7 (-13) End_ st_w).1 = Err ErrNo.SPipe.
Proof.
  split; (rewrite (fd_seek_moves st_w 7 9 (fd_entry st_w 7) (inode_entry st_w 9) st_w_bytes);
    [by vm_compute|apply demo_on_file_w|by vm_compute..]).
Defined.

Lemma write_seek_read_witness :
  ((let! n := fd_write 7 [hello] in
    let! _m := fd_seek 7 (- n) Current in
    let! r := fd_read 7 [replicate 5 Byte.x2e] in ret (r.1, concat r.2)) st1).1 = Ok (5, hello).
Proof.
  rewrite (write_seek_read st1 7 9 (fd_entry st1 7) (inode_entry st1 9) [] hello
    (replicate 5 Byte.x2e)); [done|apply demo_on_file|by vm_compute..].
Defined.
End witnesses.
