(* ===== verification/FsReadAll.v ===== *)
(** * Termination of the recursive directory read

    [read_all_files_by_absolute_path] walks the directory tree below a path.
    A directory's subdirectories have larger inodes, and reading files leaves
    the directories as they are, so one unit of fuel per inode is enough. *)

From S2P Require Import Prelude RustPath WasiTypes Policy InodeTable FileSystem FsOps Services.
From S2P Require Import InodeWf Walk FsWf FsInv FsSafe.

(** ** Paths *)

Lemma split_slash_app a b : split_slash (a +:+ "/" +:+ b) = split_slash a ++ split_slash b.
Proof.
  induction a as [|c a IH].
  - done.
  - change (String c a +:+ "/" +:+ b) with (String c (a +:+ "/" +:+ b)).
    rewrite !split_slash_cons, IH. case_decide; [done|].
    pose proof (split_slash_pieces a) as [Hne _]. by destruct (split_slash a).
Qed.

(** A path that is one ordinary name, when it stands behind a separator. *)
Lemma components_normal b s :
  components b = [Normal s] → omap body_component (split_slash b) = [Normal s].
Proof.
  unfold components. destruct b as [|c b]; [done|]. case_decide; [done|].
  unfold relative_components. destruct (split_slash (String c b)) as [|x rest]; [done|].
  by case_decide.
Qed.

Lemma components_join a b s :
  a ≠ "" → components b = [Normal s] →
  components (a +:+ "/" +:+ b) = components a ++ [Normal s].
Proof.
  intros Ha Hb. pose proof (components_normal b s Hb) as Hbody.
  destruct a as [|c a]; [done|]. unfold components.
  change (String c a +:+ "/" +:+ b) with (String c (a +:+ "/" +:+ b)). case_decide as Hc.
  - by rewrite decide_True, split_slash_app, omap_app, Hbody by done.
  - change (String c (a +:+ "/" +:+ b)) with (String c a +:+ "/" +:+ b).
    rewrite decide_False, split_slash_app by done.
    pose proof (split_slash_pieces (String c a)) as [Hne _].
    destruct (split_slash (String c a)) as [|x rest]; [done|].
    unfold relative_components. rewrite <- app_comm_cons. case_decide.
    + by rewrite omap_app, Hbody.
    + change (x :: rest ++ split_slash b) with ((x :: rest) ++ split_slash b).
      by rewrite omap_app, Hbody.
Qed.

Lemma ends_with_slash_inv a : ends_with_slash a = true → ∃ a', a = a' +:+ "/".
Proof.
  induction a as [|c a IH]; [done|]. destruct a as [|c' a].
  - intros Hc%bool_decide_eq_true. simplify_eq/=. by exists "".
  - intros Ha. destruct (IH Ha) as [a' Ha']. exists (String c a'). by rewrite Ha'.
Qed.

(** Pushing a name onto a path appends it to the components. *)
Lemma push_comps a b s :
  components b = [Normal s] → p_comps (push (path a) (path b)) = components a ++ [Normal s].
Proof.
  intros Hb. unfold push. cbn [p_comps p_raw path]. rewrite Hb. cbn [p_comps path].
  destruct (decide (a = "")) as [->|Ha]; [done|]. rewrite bool_decide_false by done. cbn [orb].
  destruct (ends_with_slash a) eqn:Hend; [|by apply components_join].
  apply ends_with_slash_inv in Hend as [a' ->].
  assert ((a' +:+ "/") +:+ b = a' +:+ "/" +:+ b) as ->.
  { clear. induction a' as [|c a' IH]; [done|]. exact (f_equal (String c) IH). }
  destruct (decide (a' = "")) as [->|Ha'].
  - change (components ("" +:+ "/" +:+ b)) with (RootDir :: omap body_component (split_slash b)).
    by rewrite (components_normal b s Hb).
  - rewrite (components_join a' b s) by done. f_equal.
    destruct a' as [|c a']; [done|]. unfold components.
    change (String c a' +:+ "/") with (String c (a' +:+ "/" +:+ "")).
    case_decide as Hc; [rewrite decide_True by done|rewrite decide_False by done].
    + rewrite split_slash_app, omap_app. simpl. by rewrite app_nil_r.
    + change (String c (a' +:+ "/" +:+ "")) with (String c a' +:+ "/" +:+ "").
      rewrite split_slash_app. pose proof (split_slash_pieces (String c a')) as [Hne _].
      destruct (split_slash (String c a')) as [|x rest]; [done|]. unfold relative_components.
      rewrite <- app_comm_cons. case_decide.
      * rewrite omap_app. simpl. by rewrite app_nil_r.
      * change (x :: rest ++ split_slash "") with ((x :: rest) ++ split_slash "").
        rewrite omap_app. simpl. by rewrite app_nil_r.
Qed.

(** ** Reading files leaves the directories as they are *)

Section dirs.
Context {BP : BuildProfile} {WR : WasiRights} {HO : HashOrder} {NL : NativeLibs}.

Lemma get_mut_dirs {A} D i (op : N_ A) :
  (∀ x, preserves (λ e, dir_of e = x) op) →
  preserves (λ t, dirs t = D) (InodeTable_get_mut i op).
Proof.
  intros Hop t <-. unfold InodeTable_get_mut, InodeTable_get, bind at 1 2, get, ok_or. simpl.
  destruct (table t !! i) as [e|] eqn:He; [|done].
  pose proof (preserves_run _ _ e (Hop (dir_of e)) eq_refl) as Hd.
  destruct (op e) as [r e']. simpl in Hd.
  assert (dirs (set_table (<[i:=e']> (table t)) t) = dirs t) as Heq.
  { apply map_eq. intros j. rewrite !lookup_dirs. simpl. rewrite lookup_insert.
    case_decide; [|done]. subst. by rewrite He. }
  by destruct r.
Qed.

Definition keeps_dirs (D : gmap Z (PathMap Z)) (s : fs_state) : Prop :=
  dirs (inode_table (world s)) = D.

Lemma lock_dirs {A} D (op : ST InodeTable ErrNo.t A) :
  preserves (λ t, dirs t = D) op → preserves (keeps_dirs D) (lock_inode_table op).
Proof.
  intros Hop s Hs. specialize (Hop (inode_table (world s)) Hs).
  unfold lock_inode_table, zoom. by destruct (op _) as [[] t].
Qed.

Lemma set_content_dir_of b e : dir_of (set_data (set_content b (data e)) e) = dir_of e.
Proof. destruct e as [st []]; done. Qed.

Lemma truncate_dir_of x : preserves (λ e, dir_of e = x) InodeEntry_truncate_file.
Proof.
  intros e <-. unfold InodeEntry_truncate_file, on_data, zoom, InodeImpl_truncate_file, bind, get,
    ok_or. destruct e as [st []]; done.
Qed.

Lemma resize_dir_of x n b : preserves (λ e, dir_of e = x) (InodeEntry_resize_file n b).
Proof.
  intros e <-. unfold InodeEntry_resize_file, on_data, zoom, bind at 1, modify.
  destruct (InodeImpl_resize_file_inv n b (data e)) as [(file & Hc & _ & ->)|[Hr Hs]].
  - apply set_content_dir_of.
  - destruct (InodeImpl_resize_file n b (data e)) as [[] d]; simplify_eq/=; by destruct e.
Qed.

Lemma modify_fds_dirs D f : preserves (keeps_dirs D) (modify (E:=ErrNo.t) (λ s, set_fd_table (f s) s)).
Proof. by intros s Hs. Qed.
Lemma modify_next_dirs D n : preserves (keeps_dirs D) (modify (E:=ErrNo.t) (set_next_fd n)).
Proof. by intros s Hs. Qed.
#[local] Hint Resolve modify_fds_dirs modify_next_dirs : veracruz.

Lemma fd_insert_dirs D fd e : preserves (keeps_dirs D) (fd_insert fd e).
Proof. apply modify_fds_dirs. Qed.
Lemma new_fd_dirs D : preserves (keeps_dirs D) new_fd.
Proof. unfold new_fd. preserve. Qed.
Lemma fd_filestat_set_size_dirs D fd n : preserves (keeps_dirs D) (fd_filestat_set_size fd n).
Proof.
  unfold fd_filestat_set_size. preserve. apply lock_dirs, get_mut_dirs. intros x.
  apply resize_dir_of.
Qed.
Lemma fd_close_dirs D fd : preserves (keeps_dirs D) (fd_close fd).
Proof.
  unfold fd_close. preserve. apply lock_dirs, get_mut_dirs. intros x. preserve.
  apply truncate_dir_of.
Qed.
#[local] Hint Resolve fd_insert_dirs new_fd_dirs fd_filestat_set_size_dirs fd_close_dirs fd_pread_wf
  : veracruz.
Lemma fd_seek_dirs D fd delta whence : preserves (keeps_dirs D) (fd_seek fd delta whence).
Proof. unfold fd_seek, fd_update. preserve. Qed.
#[local] Hint Resolve fd_seek_dirs : veracruz.
Lemma fd_read_dirs D fd bufs : preserves (keeps_dirs D) (fd_read fd bufs).
Proof. unfold fd_read. preserve. Qed.

(** Opening without [CREATE] *)
Lemma path_open_existing_dirs D fd p oflags base inh fl :
  CREATE oflags = false → preserves (keeps_dirs D) (path_open fd p oflags base inh fl).
Proof.
  intros Hcreate. unfold path_open. do 5 (apply preserves_bind; [eauto with veracruz|intros ?]).
  apply preserves_bind.
  - unfold path_open_inode. rewrite Hcreate. apply preserves_try_match; [eauto with veracruz| |].
    + intros i. preserve.
    + intros e s Hs. exact Hs.
  - intros i. preserve. apply lock_dirs, get_mut_dirs. intros x. apply truncate_dir_of.
Qed.

Lemma read_file_dirs D p : preserves (keeps_dirs D) (read_file_by_absolute_path p).
Proof.
  unfold read_file_by_absolute_path, find_prestat, zeroed, fd_filestat_get, debug_assert. preserve.
  - by apply path_open_existing_dirs.
  - apply fd_read_dirs.
Qed.
End dirs.

(** ** The recursion *)

Section read_all.
Context {BP : BuildProfile} {WR : WasiRights} {HO : HashOrder} {HL : HashOrderLaws HO}
  {NL : NativeLibs}.

Lemma strip_root_comps p :
  p_comps (strip_root_slash p) = match p_comps p with RootDir :: cs => cs | cs => cs end.
Proof.
  unfold strip_root_slash, strip_prefix. destruct p as [raw cs]. simpl.
  destruct cs as [|[] cs]; done.
Qed.

Lemma lock_pure_run {A} (op : ST InodeTable ErrNo.t A) s :
  (∀ t, (op t).2 = t) →
  ∃ r, lock_inode_table op s = (r, s) ∧ op (inode_table (world s)) = (r, inode_table (world s)).
Proof.
  intros Hop. unfold lock_inode_table, zoom. specialize (Hop (inode_table (world s))).
  destruct (op _) as [r t]. simpl in Hop. subst t. exists r. split; [|done].
  by destruct s as [? []].
Qed.

Lemma lock_is_dir_run i s :
  lock_inode_table (InodeTable_is_dir i) s =
    (Ok (bool_decide (is_Some (dirs (inode_table (world s)) !! i))), s).
Proof.
  unfold lock_inode_table, zoom, InodeTable_is_dir, bind, get, ret. simpl.
  rewrite is_dir_dirs. by destruct s as [? []].
Qed.

Lemma string_of_bytes s : String.string_of_list_byte (as_bytes s) = s.
Proof. apply String.string_of_list_byte_of_string. Qed.

(** The names a directory listing returns are the keys of the directory. *)
Lemma read_dir_names i t l :
  (read_dir i t).1 = Ok l →
  ∃ d, dirs t !! i = Some d ∧
    ∀ ent, ent ∈ l → ∃ cs raw j, d !! cs = Some (raw, j) ∧ ent.2 = as_bytes raw.
Proof.
  unfold read_dir, InodeTable_get, bind at 1 2, get, ok_or. simpl.
  destruct (table t !! i) as [e|] eqn:He; [|done]. destruct (data e) as [| |d] eqn:Hd; [done|done|].
  intros Hrun. exists d. split; [apply lookup_dirs_Some; eauto|].
  assert (∀ p j, (p, j) ∈ pm_iter d → d !! p_comps p = Some (p_raw p, j)) as Hiter.
  { intros p j. by rewrite elem_of_pm_iter. }
  revert Hrun Hiter. generalize (pm_iter d) 0%Z. intros ps. revert l.
  induction ps as [|[p j] ps IH]; intros l z Hrun Hiter; simpl in Hrun.
  - unfold ret in Hrun. simplify_eq/=. intros ent Hent. by apply elem_of_nil in Hent.
  - unfold bind at 1 in Hrun. destruct (dir_ent z p j t) as [[x| |] t1] eqn:Hent; [|done|done].
    unfold bind in Hrun. destruct (read_dir_loop (z + 1) ps t1) as [[xs| |] t2] eqn:Hloop; [|done|done].
    simplify_eq/=.
    assert (x.2 = as_bytes (p_raw p) ∧ t1 = t) as [Hx ->].
    { unfold dir_ent, InodeTable_get in Hent. st_inv. done. }
    intros ent [->|Hin]%elem_of_cons.
    + exists (p_comps p), (p_raw p), j. split; [|done]. apply Hiter, elem_of_cons. by left.
    + apply (IH xs (z + 1)%Z); [by rewrite Hloop| |done].
      intros p' j' Hp'. apply Hiter, elem_of_cons. by right.
Qed.

Section recursion.
Context (n : nat) (t0 : InodeTable) (D : gmap Z (PathMap Z)) (Φ : list service_cell → Prop).

Definition reading (s : fs_state) : Prop :=
  (services_in Φ s ∧ fs_inv n t0 s) ∧ keeps_dirs D s.

(** The number of directories with a larger inode. *)
Definition rank (j : Z) : nat := size (filter (λ k, (j < k)%Z) (dom D)).

Lemma rank_lt j k : (j < k)%Z → is_Some (D !! k) → rank k < rank j.
Proof.
  intros Hjk Hk. unfold rank. apply subset_size. split.
  - intros x. rewrite !elem_of_filter. intros []. split; [lia|done].
  - intros Hsub. specialize (Hsub k). rewrite !elem_of_filter, elem_of_dom in Hsub.
    destruct Hsub as [? _]; [done|lia].
Qed.

Lemma rank_top j : is_Some (D !! j) → rank j < size D.
Proof.
  intros Hj. unfold rank. rewrite <- (size_dom D). apply subset_size. split.
  - intros x. rewrite elem_of_filter. by intros [].
  - intros Hsub. specialize (Hsub j). rewrite elem_of_filter, elem_of_dom in Hsub.
    destruct Hsub as [? _]; [done|lia].
Qed.

(** Enough fuel to read the path [p]. *)
Definition enough (fuel : nat) (p : Path) : Prop :=
  1 ≤ fuel ∧ ∀ j, walk D ROOT_DIRECTORY_INODE (p_comps (strip_root_slash p)) = Some j →
    is_Some (D !! j) → rank j + 2 ≤ fuel.

(** A subdirectory needs less fuel. *)
Lemma enough_push s fuel a raw name j d k :
  reading s → enough (S fuel) (path a) →
  walk D ROOT_DIRECTORY_INODE (p_comps (strip_root_slash (path a))) = Some j →
  D !! j = Some d → d !! [Normal name] = Some (raw, k) →
  enough fuel (push (path a) (path raw)).
Proof.
  intros [[_ Hinv] HD] [_ Hfuel] Hw Hd Hk. specialize (Hfuel j Hw (mk_is_Some _ _ Hd)).
  unfold keeps_dirs in HD. destruct Hinv as [[Hwf _] _ _].
  rewrite <- HD in Hd. apply lookup_dirs_Some in Hd as (e & He & Hed).
  destruct (tw_entry _ _ Hwf _ _ He) as [_ Hew]. rewrite Hed in Hew.
  destruct Hew as (_ & _ & [_ _ Htgt Hkeys]).
  destruct (Hkeys _ _ _ Hk) as [Hraw _]. destruct (Htgt _ _ _ Hk) as (ek & Hek & Hlt).
  split; [lia|]. intros j' Hw' Hj'.
  assert (p_comps (strip_root_slash (push (path a) (path raw))) =
    p_comps (strip_root_slash (path a)) ++ [Normal name]) as Hcomps.
  { rewrite !strip_root_comps, (push_comps a raw name) by done.
    cbn [p_comps path]. by destruct (components a) as [|[] ?]. }
  rewrite Hcomps, walk_app, Hw in Hw'. simpl in Hw'.
  assert (comp_ok (Normal name)) as Hname.
  { pose proof (components_ok raw) as Hok. by rewrite Hraw, Forall_singleton in Hok. }
  assert (D !! j = Some d) as Hd.
  { rewrite <- HD. apply lookup_dirs_Some. eauto. }
  rewrite Hd in Hw'. simpl in Hw'. unfold pm_get in Hw'. cbn [path p_comps] in Hw'.
  unfold comp_ok in Hname. simpl in Hname. rewrite Hname, Hk in Hw'. simplify_eq/=.
  assert (InodeEntry_is_dir ek = true) as Hdir.
  { destruct Hj' as [d' Hd']. rewrite <- HD in Hd'. apply lookup_dirs_Some in Hd' as (e' & He' & Hed').
    rewrite Hek in He'. simplify_eq. unfold InodeEntry_is_dir. by rewrite Hed'. }
  pose proof (rank_lt j j' (Hlt ltac:(done) ltac:(done) Hdir) Hj'). lia.
Qed.

Lemma dir_key_cases s j d cs raw k :
  reading s → D !! j = Some d → d !! cs = Some (raw, k) →
  components raw = cs ∧
    ((cs = [CurDir] ∨ cs = [ParentDir]) ∨ ∃ name, cs = [Normal name]).
Proof.
  intros [[_ Hinv] HD] Hd Hk. destruct Hinv as [[Hwf _] _ _].
  unfold keeps_dirs in HD. rewrite <- HD in Hd. apply lookup_dirs_Some in Hd as (e & He & Hed).
  destruct (tw_entry _ _ Hwf _ _ He) as [_ Hew]. rewrite Hed in Hew.
  destruct Hew as (_ & _ & [_ _ _ Hkeys]). destruct (Hkeys _ _ _ Hk) as (Hraw & c & -> & Hc).
  split; [done|]. destruct c; naive_solver.
Qed.

Lemma read_all_files_safe fuel a :
  enough fuel (path a) → safe reading (read_all_files fuel (path a)) reading.
Proof.
  revert a. induction fuel as [|fuel IH]; intros a Hen s Hs; [destruct Hen; lia|].
  pose proof Hs as [[Hsv Hinv] HD].
  cbn [read_all_files]. unfold bind at 1.
  destruct (lock_pure_run (get_inode_by_inode_path ROOT_DIRECTORY_INODE (strip_root_slash (path a))) s)
    as (r & -> & Hr); [apply get_inode_by_inode_path_pure|].
  pose proof (safe_fueled _ _ _ (inode_table (world s))
    (get_inode_by_inode_path_safe ROOT_DIRECTORY_INODE (strip_root_slash (path a))) Logic.I) as Hf.
  rewrite Hr in Hf. destruct r as [[j e]|err|p]; [|done|by unfold fueled in Hf; naive_solver].
  apply lookup_ok in Hr as [Hw He]. rewrite HD in Hw. cbn [fst].
  unfold bind at 1. rewrite lock_is_dir_run, HD.
  destruct (bool_decide (is_Some (D !! j))) eqn:Hdir.
  - apply bool_decide_eq_true in Hdir as [d Hd]. unfold bind at 1.
    destruct (lock_pure_run (read_dir j) s) as (r & -> & Hr); [apply read_dir_pure|].
    pose proof (safe_fueled _ _ _ (inode_table (world s)) (read_dir_safe j) Logic.I) as Hf'.
    rewrite Hr in Hf'. destruct r as [l|err|p]; [|done|by unfold fueled in Hf'; naive_solver].
    destruct (read_dir_names j (inode_table (world s)) l) as (d' & Hd' & Hnames); [by rewrite Hr|].
    rewrite HD in Hd'. simplify_eq.
    match goal with |- context [fold_st ?b ?l ?acc s] =>
      assert (safe reading (fold_st b l acc) reading) as Hfold; [|by apply Hfold] end.
    apply safe_fold_in. intros acc ent Hent.
    destruct (Hnames ent Hent) as (cs & raw & k & Hk & ->). rewrite string_of_bytes.
    destruct (dir_key_cases s j d cs raw k Hs Hd Hk) as [Hraw [Hdot|(name & ->)]].
    + unfold path_eqb. cbn [p_comps path]. rewrite Hraw.
      destruct Hdot as [-> | ->]; apply safe_ret.
    + destruct (path_eqb _ _ || _); [apply safe_ret|].
      apply safe_bind; [|intros files; apply safe_ret].
      assert (push (path a) (path raw) = path (p_raw (push (path a) (path raw)))) as Hpath.
      { unfold push. cbn [p_comps path]. by rewrite Hraw. }
      rewrite Hpath. apply IH. rewrite <- Hpath. by eapply enough_push.
  - assert (safe reading (let! buf := read_file_by_absolute_path (path a) in
      ret [(path a, buf)]) reading) as Hread; [|by apply Hread].
    apply safe_bind; [|intros buf; apply safe_ret]. repeat apply safe_preserves.
    + apply read_file_safe.
    + apply read_file_by_absolute_path_wf, path_path_ok.
    + apply read_file_dirs.
Qed.
End recursion.

Lemma size_dirs t : size (dirs t) ≤ size (table t).
Proof.
  rewrite <- !size_dom. apply subseteq_size. intros i. rewrite !elem_of_dom, lookup_dirs.
  destruct (table t !! i); [done|]. by intros [].
Qed.

Lemma read_all_files_by_absolute_path_safe n t0 Φ a :
  safe (λ s, services_in Φ s ∧ fs_inv n t0 s) (read_all_files_by_absolute_path (path a))
    (λ s, services_in Φ s ∧ fs_inv n t0 s).
Proof.
  intros s Hs. unfold read_all_files_by_absolute_path, bind at 1, get.
  set (t := inode_table (world s)).
  assert (enough (dirs t) (S (size (table t))) (path a)) as Hen.
  { split; [lia|]. intros j _ Hj. pose proof (rank_top (dirs t) j Hj).
    pose proof (size_dirs t). lia. }
  pose proof (read_all_files_safe n t0 (dirs t) Φ _ a Hen s (conj Hs eq_refl)) as Hrun.
  destruct (read_all_files _ _ s) as [[] s']; [apply Hrun..|done].
Qed.
End read_all.
