(* ===== verification/FsReach.v ===== *)
(** * Reachable states of the filesystem

    The invariants of the whole system of handlers, by induction on the steps
    of [FsSystem]. *)

From S2P Require Import Prelude RustPath WasiTypes Policy InodeTable FileSystem FsOps Services.
From S2P Require Import InodeWf Walk FsWf FsInv FsSystem FsSafe FsReadAll Demo.

Section reach.
Context {BP : BuildProfile} {WR : WasiRights} {HO : HashOrder} {HL : HashOrderLaws HO}
  {NL : NativeLibs}.

(** Relative to a past table [t0], as [fs_inv], for all the handlers. *)
Record sys_inv (t0 : InodeTable) (sys : system) : Prop := {
  si_table : tinv 2 t0 (inode_table (sys_world sys));
  si_handles : Forall (handle_wf (inode_table (sys_world sys))) (sys_handles sys);
  si_services : length (services (sys_world sys)) = 2 ∧
    Forall (λ c, service_ok (sc_service c)) (services (sys_world sys));
}.

Definition sys_wf (sys : system) : Prop := sys_inv (inode_table (sys_world sys)) sys.

(** The rights tables a policy gives have parsed keys. *)
Definition rights_ok (rt : RightsTable) : Prop := ∀ pr m, rt !! pr = Some m → keys_ok m.

Lemma sys_inv_fs t0 sys i h :
  sys_inv t0 sys → sys_handles sys !! i = Some h → fs_inv 2 t0 (mkState h (sys_world sys)).
Proof. intros [Ht Hh Hs] Hi. split; [done| |done]. by eapply Forall_lookup_1 in Hh. Qed.

(** The other handlers stay well formed whatever one of them does. *)
Lemma sys_inv_run {A} t0 sys i h (m : M A) r s' :
  sys_inv t0 sys → sys_handles sys !! i = Some h → (∀ t, preserves (fs_inv 2 t) m) →
  m (mkState h (sys_world sys)) = (r, s') →
  fs_inv 2 t0 s' ∧ Forall (handle_wf (inode_table (world s'))) (sys_handles sys).
Proof.
  intros Hs Hi Hm Hrun. pose proof (sys_inv_fs _ _ _ _ Hs Hi) as H0.
  assert (sys_wf sys) as Hwf by (destruct Hs as [[]]; by split; [split|..]).
  pose proof (preserves_run _ _ _ (Hm t0) H0) as H1.
  pose proof (preserves_run _ _ _ (Hm _) (sys_inv_fs _ _ _ _ Hwf Hi)) as [[_ Hext] _ _].
  rewrite Hrun in *. split; [done|]. destruct Hs as [_ Hh _].
  eapply Forall_impl; [exact Hh|]. intros h'. by apply handle_wf_extends.
Qed.

Lemma spawn_preserves n t0 pr : preserves (fs_inv n t0) (spawn pr).
Proof. eapply triple_conseq; [apply spawn_triple|naive_solver..]. Qed.

Lemma sys_step_inv t0 sys sys' : sys_inv t0 sys → sys_step sys sys' → sys_inv t0 sys'.
Proof.
  intros Hs Hstep. destruct Hstep as [sys i h c r s' Hi Hrun _|sys i h pr h' s' Hi Hrun|sys i h pr e s' Hi Hrun].
  - destruct (sys_inv_run _ _ _ _ _ _ _ Hs Hi (λ t, run_call_inv 2 t c) Hrun) as [[] Hh].
    split; [done| |done]. by apply Forall_insert.
  - destruct (sys_inv_run _ _ _ _ _ _ _ Hs Hi (λ t, spawn_preserves 2 t pr) Hrun) as [[] Hh].
    split; [done| |done]. apply Forall_app. split; [done|]. rewrite Forall_singleton.
    pose proof (spawn_triple 2 t0 pr _ (sys_inv_fs _ _ _ _ Hs Hi)) as Hsp. rewrite Hrun in Hsp.
    apply Hsp.
  - destruct (sys_inv_run _ _ _ _ _ _ _ Hs Hi (λ t, spawn_preserves 2 t pr) Hrun) as [[] Hh].
    by split.
Qed.

Lemma sys_steps_inv t0 sys sys' : sys_inv t0 sys → rtc sys_step sys sys' → sys_inv t0 sys'.
Proof. intros Hs. induction 1; eauto using sys_step_inv. Qed.

Lemma sys_init_wf rt sys : rights_ok rt → sys_init rt sys → sys_wf sys.
Proof.
  intros Hrt [s Hs]. destruct (FileSystem_new_inv rt s Hrt Hs) as [[Ht Hh Hsv] _].
  split; [done| |done]. simpl. by rewrite Forall_singleton.
Qed.

(** ** Services between calls *)

Definition idle (n : nat) (t0 : InodeTable) (s : fs_state) : Prop :=
  services_in (disc n ∅) s ∧ fs_inv n t0 s.

Lemma serve_idle_safe n s sid svc input :
  length (services (world s)) = n →
  safe (services_in (disc n (<[sid := svc]> ∅))) (serve (service_fuel s) sid input)
    (services_in (disc n (<[sid := erase svc]> ∅))).
Proof.
  intros Hlen. apply serve_safe; [apply lookup_empty|]. unfold service_fuel.
  rewrite map_size_empty. lia.
Qed.

Lemma fd_write_idle n fd bufs :
  safe (services_in (disc n ∅)) (fd_write fd bufs) (services_in (disc n ∅)).
Proof.
  intros s Hs. apply (fd_write_with_safe n ∅); [|done]. intros sid svc input _.
  apply serve_idle_safe, (ds_length _ _ _ Hs).
Qed.

Lemma fd_pwrite_idle n fd bufs off :
  safe (services_in (disc n ∅)) (fd_pwrite fd bufs off) (services_in (disc n ∅)).
Proof.
  intros s Hs. apply (fd_pwrite_with_safe n ∅); [|done]. intros sid svc input _.
  apply serve_idle_safe, (ds_length _ _ _ Hs).
Qed.

Lemma write_file_idle n p data app :
  safe (services_in (disc n ∅)) (write_file_by_absolute_path p data app) (services_in (disc n ∅)).
Proof.
  intros s Hs. apply (write_file_with_safe n ∅); [|done]. intros sid svc input _.
  apply serve_idle_safe, (ds_length _ _ _ Hs).
Qed.
Lemma table_insert_safe i e : safe (λ _, True) (InodeTable_insert i e) (λ _, True).
Proof. done. Qed.
#[local] Hint Resolve fd_write_idle fd_pwrite_idle write_file_idle table_insert_safe : veracruz.

Lemma install_prestat_safe P m : safe (services_in P) (install_prestat m) (services_in P).
Proof.
  unfold install_prestat, install_standard_streams_fd, install_standard_stream,
    install_prestat_dir, install_fd. safely.
Qed.
#[local] Hint Resolve install_prestat_safe : veracruz.

Lemma spawn_safe P pr : safe (services_in P) (spawn pr) (services_in P).
Proof. unfold spawn. safely. Qed.
#[local] Hint Resolve spawn_safe : veracruz.

Lemma read_std_stream_safe P fd : safe (services_in P) (read_std_stream fd) (services_in P).
Proof. unfold read_std_stream, zeroed. safely. by apply safe_lift. Qed.

Lemma run_call_idle n t0 c : safe (idle n t0) (run_call c) (idle n t0).
Proof.
  assert ((∃ p, c = ReadAllFilesByAbsolutePath p) ∨ ∀ p, c ≠ ReadAllFilesByAbsolutePath p)
    as [[p ->]|Hne] by (destruct c; naive_solver).
  { simpl. unfold void. apply safe_bind; [apply read_all_files_by_absolute_path_safe|].
    intros a. apply safe_ret. }
  apply safe_preserves; [|apply run_call_inv].
  destruct c; simpl; unfold void, fd_advise, fd_fdstat_set_flags, fd_allocate, fd_datasync,
    fd_fdstat_get, fd_fdstat_set_rights, fd_renumber, fd_readdir, fd_create,
    path_create_directory, create_directory_step, is_executable,
    fd_filestat_set_times, fd_prestat_get, fd_prestat_dir_name, fd_sync, fd_tell,
    path_filestat_get, path_filestat_set_times, path_link, path_readlink,
    path_remove_directory, path_rename, path_symlink, path_unlink_file, poll_oneoff,
    sock_recv, sock_send, sock_shutdown, read_stdout, read_stderr, write_stdin; safely.
  - naive_solver.
  - apply read_std_stream_safe.
  - apply read_std_stream_safe.
  - apply with_handle_safe. safely.
Qed.

Lemma initial_services_disc : disc 2 ∅ initial_services.
Proof.
  split; [done|intros sid svc; by rewrite lookup_empty|].
  intros [|[|sid]] c Hc _; simplify_eq/=; done.
Qed.

Lemma sys_init_idle rt sys : sys_init rt sys → disc 2 ∅ (services (sys_world sys)).
Proof.
  intros [s Hs]. unfold FileSystem_new in Hs.
  destruct (InodeTable_new rt) as [t| |]; [|done|done].
  assert (safe (services_in (disc 2 ∅)) (do! install_prestat initial_rights in
    FileSystem_install_services
      [(path "/services/postcard_string.dat", 0); (path "/services/aesctr.dat", 1)])
    (services_in (disc 2 ∅))) as Hm.
  { apply safe_bind; [apply install_prestat_safe|]. intros _. apply lock_safe.
    apply safe_fold. intros _ ps. unfold install_service. safely. }
  specialize (Hm (mkState empty_handle (mkWorld t initial_services)) initial_services_disc).
  destruct (bind _ _ _) as [[] s'] eqn:Hrun; simplify_eq. exact Hm.
Qed.

Lemma sys_step_idle sys sys' :
  sys_wf sys → disc 2 ∅ (services (sys_world sys)) → sys_step sys sys' →
  disc 2 ∅ (services (sys_world sys')).
Proof.
  intros Hwf Hd Hstep.
  destruct Hstep as [sys i h c r s' Hi Hrun Hret|sys i h pr h' s' Hi Hrun|sys i h pr e s' Hi Hrun].
  - pose proof (run_call_idle 2 _ c (mkState h (sys_world sys))
      (conj Hd (sys_inv_fs _ _ _ _ Hwf Hi))) as Hp. rewrite Hrun in Hp.
    destruct r; [apply Hp|apply Hp|done].
  - pose proof (spawn_safe (disc 2 ∅) pr (mkState h (sys_world sys)) Hd) as Hp.
    by rewrite Hrun in Hp.
  - pose proof (spawn_safe (disc 2 ∅) pr (mkState h (sys_world sys)) Hd) as Hp.
    by rewrite Hrun in Hp.
Qed.

Lemma sys_inv_wf t0 sys : sys_inv t0 sys → sys_wf sys.
Proof. intros [[] ? ?]. by split; [split|..]. Qed.

Lemma sys_reachable_inv rt sys :
  rights_ok rt → sys_reachable rt sys → sys_wf sys ∧ disc 2 ∅ (services (sys_world sys)).
Proof.
  intros Hrt (sys0 & Hinit & Hsteps).
  pose proof (sys_init_wf rt sys0 Hrt Hinit) as Hwf. pose proof (sys_init_idle rt sys0 Hinit) as Hd.
  clear Hinit. induction Hsteps as [|sys0 sys1 sys2 Hstep _ IH]; [done|].
  apply IH; [by eapply sys_inv_wf, sys_step_inv|by eapply sys_step_idle].
Qed.

(** ** Theorems *)

(** C14: in every state the filesystem can reach, through any handlers, calls
    and failures of calls, the shared table and all handlers are well
    formed: recorded file sizes are the lengths of the contents, no directory
    entry and no open descriptor dangles, [.] and [..] are in place, inode
    numbers not yet handed out are free, subdirectories have larger inodes
    than their parents, and offsets are in range. *)
Theorem sys_reachable_wf rt sys :
  rights_ok rt → sys_reachable rt sys → sys_wf sys.
Proof. intros Hrt Hr. by destruct (sys_reachable_inv rt sys Hrt Hr). Qed.

(** C15: between two reachable states nothing is taken away: every inode
    stays, a file stays a file and a directory a directory, and the rights
    the policy gave the principals never change. *)
Theorem sys_steps_extend rt sys sys' :
  rights_ok rt → sys_reachable rt sys → rtc sys_step sys sys' →
  extends (inode_table (sys_world sys)) (inode_table (sys_world sys')).
Proof.
  intros Hrt Hr Hsteps. destruct (sys_reachable_inv rt sys Hrt Hr) as [Hwf _].
  by destruct (sys_steps_inv _ _ _ Hwf Hsteps) as [[_ Hext] _ _].
Qed.

(** A service that remembers nothing of a request: the key and the vector are
    zero, and the paths are empty. *)
Definition no_request (svc : Service) : Prop :=
  match svc with
  | PostcardService => True
  | AesService a =>
      aes_key a = replicate 16 Byte.x00 ∧ aes_iv a = replicate 16 Byte.x00 ∧
      p_raw (aes_input_path a) = EmptyString ∧ p_raw (aes_output_path a) = EmptyString
  end.

Lemma erase_no_request svc : erase svc = svc → no_request svc.
Proof. intros <-. by destruct svc. Qed.

(** C16: between calls every native service is unlocked and holds no request:
    the key, the initialisation vector and the paths of the last request to
    the AES service are erased, whether the request succeeded or failed. *)
Theorem sys_services_erased rt sys :
  rights_ok rt → sys_reachable rt sys →
  length (services (sys_world sys)) = 2 ∧
  Forall (λ c, sc_locked c = false ∧ no_request (sc_service c)) (services (sys_world sys)).
Proof.
  intros Hrt Hr. destruct (sys_reachable_inv rt sys Hrt Hr) as [_ [Hlen _ Hfree]].
  split; [done|]. apply Forall_lookup. intros sid c Hc.
  destruct (Hfree sid c Hc (lookup_empty sid)) as [Hl He]. split; [done|by apply erase_no_request].
Qed.

End reach.

Section witnesses.
Import Demo.

Lemma demo_rights_ok : rights_ok demo_rights.
Proof.
  intros pr m. unfold demo_rights. rewrite lookup_insert_Some, lookup_singleton_Some.
  intros [[_ <-]|[_ [_ <-]]]; repeat apply keys_ok_insert; apply keys_ok_empty.
Qed.

(** The state after [c] through the root handler. *)
Definition call (c : syscall) (s : fs_state) : fs_state := (run_call c s).2.
Definition sys_of (s : fs_state) : system := mkSystem (world s) [handle s].

Lemma sys_of_init : sys_init demo_rights (sys_of st0).
Proof.
  constructor. unfold st0. assert (is_ok (FileSystem_new demo_rights) = true) as Hok by by vm_compute.
  by destruct (FileSystem_new demo_rights).
Qed.

Lemma sys_of_call c s :
  is_ok (run_call c s).1 = true → sys_step (sys_of s) (sys_of (call c s)).
Proof.
  intros Hok. unfold call. destruct (run_call c s) as [r s'] eqn:Hrun.
  apply (step_call (sys_of s) 0 (handle s) c r s'); [done| |by destruct r].
  by destruct s.
Qed.

(** The root handler stores an input and asks the AES service to encrypt it. *)
Definition demo_calls : list syscall :=
  [WriteFileByAbsolutePath "/in" hello false;
   WriteFileByAbsolutePath "/services/aesctr.dat" (as_bytes "A") false;
   ReadFileByAbsolutePath "/out"].
Definition st_aes : fs_state := foldl (λ s c, call c s) st0 demo_calls.

Fixpoint all_ok (s : fs_state) (cs : list syscall) : bool :=
  match cs with [] => true | c :: cs' => is_ok (run_call c s).1 && all_ok (call c s) cs' end.

Lemma sys_of_calls s cs :
  all_ok s cs = true → rtc sys_step (sys_of s) (sys_of (foldl (λ s c, call c s) s cs)).
Proof.
  revert s. induction cs as [|c cs IH]; intros s; cbn [all_ok foldl]; [intros _; apply rtc_refl|].
  intros [Hok Hrest]%andb_true_iff. eapply rtc_l; [by apply sys_of_call|by apply IH].
Qed.

Lemma demo_steps : rtc sys_step (sys_of st0) (sys_of st_aes).
Proof. apply sys_of_calls. by vm_compute. Qed.

Lemma demo_reachable : sys_reachable demo_rights (sys_of st_aes).
Proof. exists (sys_of st0). split; [apply sys_of_init|apply demo_steps]. Qed.

Example sys_reachable_wf_witness : sys_wf (sys_of st_aes).
Proof. exact (sys_reachable_wf demo_rights (sys_of st_aes) demo_rights_ok demo_reachable). Defined.

Example sys_steps_extend_witness :
  extends (inode_table (world st0)) (inode_table (world st_aes)).
Proof.
  exact (sys_steps_extend demo_rights (sys_of st0) (sys_of st_aes) demo_rights_ok
    (ex_intro _ _ (conj sys_of_init (rtc_refl _ _))) demo_steps).
Defined.

Example sys_services_erased_witness :
  Forall (λ c, sc_locked c = false ∧ no_request (sc_service c)) (services (world st_aes)).
Proof. exact (proj2 (sys_services_erased demo_rights (sys_of st_aes) demo_rights_ok demo_reachable)). Defined.

End witnesses.
