(* ===== verification/PolicyProps.v ===== *)
(** * Properties of the policy

    Validation, the tables derived from a policy, expiry timepoints and the
    path parsers.

    Sources: [policy-utils/src/policy.rs], [principal.rs], [expiry.rs],
    [parsers.rs], [lib.rs]. *)

From stdpp Require Import sorting lexico.
From S2P Require Import Prelude RustPath WasiTypes Policy InodeTable FileSystem FsOps Services.
From S2P Require Import Demo.

(** ** Validation *)

Definition cert_ok (i : Identity string) : Prop :=
  ends_with "-----END CERTIFICATE-----" (certificate i) = true.

Definition ids (l : list (Identity string)) : list Z := identity_id <$> l.

Record policy_valid (p : Policy) : Prop := {
  pv_certs : Forall cert_ok (identities p);
  pv_ids : NoDup (ids (identities p));
}.

Lemma assert_valid_loop_ok seen l :
  assert_valid_loop seen l = Ok tt ↔
  Forall cert_ok l ∧ NoDup (ids l) ∧ ∀ i, i ∈ l → identity_id i ∉ seen.
Proof.
  revert seen. induction l as [|i l IH]; intros seen; simpl.
  { split; [|done]. intros _. split_and!; [done|apply NoDup_nil_2|]. intros i Hi.
    by apply elem_of_nil in Hi. }
  unfold Identity_assert_valid. rewrite Forall_cons. unfold cert_ok at 1.
  destruct (ends_with _ _); [|naive_solver].
  case_bool_decide as Hin.
  { split; [done|]. intros (_ & _ & Hseen). by destruct (Hseen i (list_elem_of_here i l)). }
  rewrite IH. cbn [ids fmap list_fmap]. rewrite NoDup_cons. fold (ids l). split.
  - intros (Hc & Hnd & Hseen). split_and!; [done|done| |done|].
    + intros Hi. unfold ids in Hi. apply list_elem_of_fmap in Hi as (j & Hj & Hjl).
      apply (Hseen j Hjl). rewrite <- Hj. apply elem_of_app. right. by apply list_elem_of_singleton.
    + intros j [->|Hj]%elem_of_cons; [done|]. intros Hjs. apply (Hseen j Hj), elem_of_app. by left.
  - intros ([_ Hc] & [Hi Hnd] & Hseen). split_and!; [done|done|].
    intros j Hj. rewrite elem_of_app, list_elem_of_singleton. intros [Hjs|Heq].
    + apply (Hseen j); [apply elem_of_cons; by right|done].
    + apply Hi. rewrite <- Heq. by apply list_elem_of_fmap_2.
Qed.

Lemma assert_valid_ok p : Policy_assert_valid p = Ok tt ↔ policy_valid p.
Proof.
  unfold Policy_assert_valid. rewrite assert_valid_loop_ok. split.
  - by intros (Hc & Hnd & _).
  - intros [Hc Hnd]. split_and!; [done|done|]. intros i _. apply not_elem_of_nil.
Qed.

(** No outcome of validation is a panic. *)
Lemma assert_valid_loop_no_abort seen l a : assert_valid_loop seen l ≠ Abort a.
Proof.
  revert seen. induction l as [|i l IH]; intros seen; simpl; [done|].
  unfold Identity_assert_valid. destruct (ends_with _ _); [|done]. case_bool_decide; [done|apply IH].
Qed.

(** A policy is accepted exactly when every certificate is closed by the
    PEM end marker and no two identities share an ID, and the policy made is
    the one described by the arguments. *)
Theorem Policy_new_valid identities programs url expiry cs hl hn hi purl pcert dbg strat fhs clk mem p :
  Policy_new identities programs url expiry cs hl hn hi purl pcert dbg strat fhs clk mem = Ok p ↔
  Forall cert_ok identities ∧ NoDup (ids identities) ∧
  p = mkPolicy identities programs fhs url expiry cs hl hn hi purl pcert dbg strat clk mem None.
Proof.
  unfold Policy_new. set (p0 := mkPolicy _ _ _ _ _ _ _ _ _ _ _ _ _ _ _ _).
  pose proof (assert_valid_ok p0) as Hok.
  destruct (Policy_assert_valid p0) as [[]|e|a] eqn:Hv; simpl.
  - destruct (proj1 Hok eq_refl) as [Hc Hnd]. naive_solver.
  - split; [done|]. intros (Hc & Hnd & ->).
    pose proof (proj2 Hok (Build_policy_valid p0 Hc Hnd)). done.
  - by apply assert_valid_loop_no_abort in Hv.
Qed.

Lemma Policy_from_json_ok {PL : PolicyLibs} json p :
  Policy_from_json json = Ok p →
  policy_valid p ∧ policy_hash p = Some (hex_encode (sha256 (as_bytes json))) ∧
  ∃ p0, policy_from_str json = Some p0 ∧ p = set_policy_hash (policy_hash p) p0.
Proof.
  unfold Policy_from_json. destruct (policy_from_str json) as [p0|]; [|done].
  destruct (Policy_assert_valid p0) as [[]|e|a] eqn:Hv; simpl; [|done|done].
  intros [= <-]. split_and!; [|done|by exists p0].
  apply assert_valid_ok in Hv as [Hc Hnd]. by split.
Qed.

(** A policy is read from JSON exactly when the text parses and the policy
    it describes is valid; it then carries the SHA-256 digest of exactly that
    text, and is otherwise what the JSON describes. *)
Theorem Policy_from_json_valid {PL : PolicyLibs} json p :
  Policy_from_json json = Ok p ↔
  policy_valid p ∧ policy_hash p = Some (hex_encode (sha256 (as_bytes json))) ∧
  ∃ p0, policy_from_str json = Some p0 ∧ p = set_policy_hash (policy_hash p) p0.
Proof.
  split; [apply Policy_from_json_ok|]. intros ([Hc Hnd] & Hh & p0 & Hp0 & Hp).
  unfold Policy_from_json. rewrite Hp0. rewrite Hp in Hc, Hnd. simpl in Hc, Hnd.
  rewrite (proj2 (assert_valid_ok p0)) by done. by rewrite Hp, Hh.
Qed.

(** ** Rights *)

Section rights.
Context {WR : WasiRights}.

Lemma foldl_snoc {A B} (f : B → A → B) b l x : foldl f b (l ++ [x]) = f (foldl f b l) x.
Proof. by rewrite foldl_app. Qed.

(** The last entry for a path counts. *)
Lemma compute_right_map_snoc l fr :
  compute_right_map (l ++ [fr]) =
  pm_insert (path (fr_file_name fr)) (rights_from_bits_truncate (fr_rights fr))
    (compute_right_map l).
Proof. unfold compute_right_map. by rewrite foldl_snoc. Qed.

Lemma compute_right_map_ok l : keys_ok (compute_right_map l).
Proof.
  induction l as [|fr l IH] using rev_ind; [apply keys_ok_empty|].
  rewrite compute_right_map_snoc. by apply keys_ok_insert.
Qed.

(** The rights [l] gives for [p]: those of the last entry that names it. *)
Definition last_rights (p : Path) (l : list FileRights) : option Rights :=
  (λ fr, rights_from_bits_truncate (fr_rights fr)) <$>
    last (filter (λ fr, components (fr_file_name fr) = p_comps p) l).

Lemma compute_right_map_get p l : pm_get p (compute_right_map l) = last_rights p l.
Proof.
  induction l as [|fr l IH] using rev_ind; [done|].
  rewrite compute_right_map_snoc, pm_get_insert. unfold last_rights. rewrite filter_app.
  cbn [path p_comps]. rewrite filter_cons, filter_nil. case_decide.
  - by rewrite last_snoc.
  - rewrite app_nil_r. exact IH.
Qed.

Lemma identities_lookup (l : list (Identity string)) pr :
  foldl (λ t i, <[Participant (identity_id i) := Identity_file_rights_map i]> t)
    (∅ : RightsTable) l !! pr =
  match pr with
  | Participant id => Identity_file_rights_map <$> last (filter (λ i, identity_id i = id) l)
  | _ => None
  end.
Proof.
  induction l as [|i l IH] using rev_ind; [by destruct pr|].
  rewrite foldl_snoc, lookup_insert, IH. case_decide as Heq.
  - subst pr. by rewrite filter_app, filter_cons, decide_True, filter_nil, last_snoc.
  - destruct pr as [|id| |]; try done.
    rewrite filter_app, filter_cons, decide_False, filter_nil, app_nil_r by naive_solver. done.
Qed.

Lemma programs_lookup (t0 : RightsTable) (l : list Program) pr :
  foldl (λ t pr, <[ProgramP (program_file_name pr) := Program_file_rights_map pr]> t) t0 l !! pr =
  match pr with
  | ProgramP name =>
      match last (filter (λ p, program_file_name p = name) l) with
      | Some p => Some (Program_file_rights_map p)
      | None => t0 !! pr
      end
  | _ => t0 !! pr
  end.
Proof.
  induction l as [|p l IH] using rev_ind; [by destruct pr|].
  rewrite foldl_snoc, lookup_insert, IH. case_decide as Heq.
  - subst pr. by rewrite filter_app, filter_cons, decide_True, filter_nil, last_snoc.
  - destruct pr as [| |name|]; try done.
    rewrite filter_app, filter_cons, decide_False, filter_nil, app_nil_r by naive_solver. done.
Qed.

Lemma get_rights_table_lookup p pr :
  get_rights_table p !! pr =
  match pr with
  | Participant id =>
      Identity_file_rights_map <$> last (filter (λ i, identity_id i = id) (identities p))
  | ProgramP name =>
      Program_file_rights_map <$> last (filter (λ q, program_file_name q = name) (programs p))
  | _ => None
  end.
Proof.
  unfold get_rights_table. rewrite programs_lookup, !identities_lookup.
  by destruct pr.
Qed.

Lemma filter_unique (l : list (Identity string)) i :
  NoDup (ids l) → i ∈ l → filter (λ j, identity_id j = identity_id i) l = [i].
Proof.
  induction l as [|j l IH]; [by intros _ ?%elem_of_nil|]. cbn [ids fmap list_fmap].
  rewrite NoDup_cons. intros [Hj Hnd] [->|Hi]%elem_of_cons.
  - rewrite filter_cons_True by done. f_equal. clear IH Hnd.
    induction l as [|k l IH]; [done|]. cbn [ids fmap list_fmap] in Hj.
    apply not_elem_of_cons in Hj as [Hne Hj].
    rewrite filter_cons_False by congruence. by apply IH.
  - rewrite filter_cons_False; [by apply IH|]. intros Heq. apply Hj. rewrite Heq.
    by apply list_elem_of_fmap_2.
Qed.

(** The rights table of a policy.  A participant of a valid policy has
    exactly the rights of its own identity, for each path those of the last
    entry that names it; a program has those of the last program entry of its
    name; nobody else, the capability-less principal and the internal
    superuser included, is in the table. *)
Theorem get_rights_table_exact p pr m :
  policy_valid p →
  get_rights_table p !! pr = Some m ↔
  match pr with
  | Participant id => ∃ i, i ∈ identities p ∧ identity_id i = id ∧ m = compute_right_map (file_rights i)
  | ProgramP name =>
      ∃ q, last (filter (λ q, program_file_name q = name) (programs p)) = Some q ∧
           m = compute_right_map (program_file_rights q)
  | InternalSuperUser | NoCap => False
  end.
Proof.
  intros [_ Hnd]. rewrite get_rights_table_lookup. destruct pr as [|id|name|]; [done| | |done].
  - split.
    + intros (i & Hi & ->)%fmap_Some. apply last_Some_elem_of, list_elem_of_filter in Hi as [Hid Hi].
      by exists i.
    + intros (i & Hi & <- & ->). by rewrite (filter_unique _ i Hnd Hi).
  - split; [intros (q & Hq & ->)%fmap_Some; eauto|]. by intros (q & -> & ->).
Qed.

(** Every key of a policy's rights table is a path parsed from its own text:
    the table meets what the filesystem assumes of it. *)
Lemma get_rights_table_keys p pr m :
  get_rights_table p !! pr = Some m → keys_ok m.
Proof.
  rewrite get_rights_table_lookup. destruct pr; [done| | |done];
    (intros (x & _ & ->)%fmap_Some; apply compute_right_map_ok).
Qed.
End rights.

(** ** Clients *)

(** A client is identified exactly by the certificate of an identity of the
    policy: the ID found is one of an identity with that certificate, and the
    lookup fails, with the certificate, exactly when there is none. *)
Theorem check_client_id_exact p cert :
  match check_client_id p cert with
  | Ok id => ∃ i, i ∈ identities p ∧ certificate i = cert ∧ identity_id i = id
  | Err e => e = InvalidClientCertificateError cert ∧
      ∀ i, i ∈ identities p → certificate i ≠ cert
  | Abort _ => False
  end.
Proof.
  unfold check_client_id. induction (identities p) as [|i l IH]; simpl.
  - split; [done|]. intros i Hi. by apply elem_of_nil in Hi.
  - case_bool_decide as Hc; [exists i; split_and!; [apply list_elem_of_here|done|done]|].
    destruct (check_client_id_loop cert l) as [id|e|a]; [|..|done].
    + destruct IH as (j & Hj & Hcj & Hidj). exists j. split_and!; [by right|done|done].
    + destruct IH as [-> Hl]. split; [done|]. intros j [->|Hj]%elem_of_cons; eauto.
Qed.

Lemma foldl_acc {A B} (f : A → B) (l : list A) acc :
  foldl (λ acc x, acc ++ [f x]) acc l = acc ++ (f <$> l).
Proof.
  revert acc. induction l as [|x l IH]; intros acc; simpl; [by rewrite app_nil_r|].
  by rewrite IH, <- app_assoc.
Qed.

(** The shutdown list of a valid policy names every identity once, in the
    order of the policy. *)
Theorem expected_shutdown_list_ids p :
  policy_valid p →
  expected_shutdown_list p = ids (identities p) ∧ NoDup (expected_shutdown_list p).
Proof.
  intros [_ Hnd]. unfold expected_shutdown_list.
  rewrite (foldl_acc (λ i : Identity string, identity_id i)). done.
Qed.

(** ** File hashes *)

(** The digest [l] gives for a path: that of the last entry naming it. *)
Definition last_hash {PL : PolicyLibs} (q : Path) (l : list FileHash) : option (option bytes) :=
  (λ fh, hex_decode (fh_hash fh)) <$> last (filter (λ fh, components (fh_file_path fh) = p_comps q) l).

Lemma last_hash_cons {PL : PolicyLibs} q fh l :
  last_hash q (fh :: l) =
    match last_hash q l with
    | Some h => Some h
    | None => if decide (components (fh_file_path fh) = p_comps q)
              then Some (hex_decode (fh_hash fh)) else None
    end.
Proof.
  unfold last_hash. rewrite filter_cons. case_decide; [|by destruct (last _)].
  rewrite last_cons. by destruct (last (filter _ l)).
Qed.

Lemma file_hash_loop_spec {PL : PolicyLibs} t l :
  match file_hash_loop t l with
  | Ok t' => Forall (λ fh, is_Some (hex_decode (fh_hash fh))) l ∧
      ∀ q, pm_get q t' = match last_hash q l with Some h => h | None => pm_get q t end
  | Err e => e = HexDecodeError ∧ Exists (λ fh, hex_decode (fh_hash fh) = None) l
  | Abort _ => False
  end.
Proof.
  revert t. induction l as [|fh l IH]; intros t; simpl; [done|].
  destruct (hex_decode (fh_hash fh)) as [h|] eqn:Hh; [|split; [done|by left]].
  specialize (IH (pm_insert (path (fh_file_path fh)) h t)).
  destruct (file_hash_loop _ l) as [t'|e|a]; [|split; [|right]; apply IH|done].
  destruct IH as [Hall Hget]. split; [constructor; [by rewrite Hh|done]|]. intros q.
  rewrite Hget, last_hash_cons, pm_get_insert, Hh. destruct (last_hash q l); [done|].
  cbn [path p_comps]. by case_decide.
Qed.

(** The table of file digests gives for a path the decoded digest of the
    last entry that names it, and exists exactly when every digest decodes. *)
Theorem get_file_hash_table_exact {PL : PolicyLibs} p :
  match get_file_hash_table p with
  | Ok t => Forall (λ fh, is_Some (hex_decode (fh_hash fh))) (file_hashes p) ∧
      ∀ q, pm_get q t = mjoin (last_hash q (file_hashes p))
  | Err e => e = HexDecodeError ∧ Exists (λ fh, hex_decode (fh_hash fh) = None) (file_hashes p)
  | Abort _ => False
  end.
Proof.
  unfold get_file_hash_table. pose proof (file_hash_loop_spec ∅ (file_hashes p)) as H.
  destruct (file_hash_loop ∅ _); [|done|done]. destruct H as [Hall Hget]. split; [done|].
  intros q. rewrite Hget. destruct (last_hash q _) as [h|]; [done|].
  unfold pm_get. by rewrite lookup_empty.
Qed.

(** ** Required inputs *)

Lemma byte_to_N_inj : Inj (=) (=) Byte.to_N.
Proof.
  intros a b Hab. assert (Some a = Some b) as Hs; [|by simplify_eq].
  by rewrite <- (Byte.of_to_N a), <- (Byte.of_to_N b), Hab.
Qed.

Lemma as_bytes_inj : Inj (=) (=) as_bytes.
Proof.
  intros s s' Heq. unfold as_bytes in Heq.
  by rewrite <- (String.string_of_list_byte_of_string s), <- (String.string_of_list_byte_of_string s'), Heq.
Qed.

Lemma comp_key_inj : Inj (=) (=) comp_key.
Proof.
  intros c c' Heq. destruct c, c'; simplify_eq/=; try done. f_equal.
  apply as_bytes_inj. by apply (list_fmap_eq_inj _ byte_to_N_inj).
Qed.

Lemma path_key_inj p q : path_key p = path_key q → p_comps p = p_comps q.
Proof. unfold path_key. apply (list_fmap_eq_inj _ comp_key_inj). Qed.

#[export] Instance path_le_total : Total path_le.
Proof.
  intros p q. unfold path_le.
  destruct (trichotomy lexico (path_key p) (path_key q)) as [|[|]]; auto.
Qed.

#[export] Instance path_le_trans : Transitive path_le.
Proof.
  intros p q r [Hpq|Hpq] [Hqr|Hqr]; unfold path_le.
  - left. etransitivity; [exact Hpq|exact Hqr].
  - left. by rewrite <- Hqr.
  - left. by rewrite Hpq.
  - right. congruence.
Qed.

Section inputs.
Context {WR : WasiRights} {WL : WasiRightsLaws WR} {HO : HashOrder} {HL : HashOrderLaws HO}.

Definition is_input (r : Rights) : bool :=
  rights_contains r (right_of FD_READ) && rights_contains r (right_of PATH_OPEN).

(** The unsorted list. *)
Lemma input_fold (l : list (Path * Rights)) acc :
  foldl (λ acc e,
    if rights_contains e.2 (rights_union (right_of FD_READ) (right_of PATH_OPEN))
    then acc ++ [e.1] else acc) acc l =
  acc ++ (filter (λ e, is_input e.2 = true) l).*1.
Proof.
  revert acc. induction l as [|e l IH]; intros acc; simpl; [by rewrite app_nil_r|].
  rewrite IH, filter_cons, contains_union_r. fold (is_input e.2).
  destruct (is_input e.2); simpl; [by rewrite <- app_assoc|done].
Qed.

(** The required inputs of a program are exactly the paths it may both
    open and read, in the order of paths; the result is sorted, and so the
    same whatever the iteration order of the map. *)
Theorem get_required_inputs_sorted m :
  Sorted path_le (get_required_inputs m) ∧
  (∀ p, p ∈ get_required_inputs m ↔
     ∃ r, m !! p_comps p = Some (p_raw p, r) ∧ is_input r = true) ∧
  ∀ l, Sorted path_le l → l ≡ₚ get_required_inputs m → l = get_required_inputs m.
Proof.
  unfold get_required_inputs. rewrite input_fold. simpl.
  set (l0 := (filter (λ e, is_input e.2 = true) (pm_iter m)).*1).
  assert (∀ p, p ∈ l0 ↔ ∃ r, m !! p_comps p = Some (p_raw p, r) ∧ is_input r = true) as Hin.
  { intros p. subst l0. rewrite list_elem_of_fmap. setoid_rewrite list_elem_of_filter. split.
    - intros ([q r] & -> & Hr & Hq). apply elem_of_pm_iter in Hq. eauto.
    - intros (r & Hm & Hr). exists (p, r). split_and!; [done|done|]. by apply elem_of_pm_iter. }
  split_and!.
  - apply Sorted_merge_sort; apply _.
  - intros p. by rewrite merge_sort_Permutation.
  - intros l Hl Hperm. apply (Sorted_unique_strong path_le);
      [|done|apply Sorted_merge_sort; apply _|done].
    intros p q Hp Hq Hpq Hqp. rewrite Hperm, merge_sort_Permutation in Hp.
    rewrite merge_sort_Permutation in Hq.
    apply Hin in Hp as (r & Hp & _). apply Hin in Hq as (r' & Hq & _).
    assert (p_comps p = p_comps q) as Heq.
    { apply path_key_inj. destruct Hpq as [Hlt|]; [|done]. destruct Hqp as [Hlt'|]; [|done].
      exfalso. apply (irreflexivity lexico (path_key p)). etransitivity; [exact Hlt|exact Hlt']. }
    rewrite Heq in Hp. destruct p, q. simpl in *. congruence.
Qed.
End inputs.

(** ** Expiry *)

(** A timepoint is made exactly when the fields are at most 59, 23, 31 and
    12; the fields are kept, and the seconds of the tuple are zero. *)
Theorem Timepoint_new_bounds y mo d h mi t :
  Timepoint_new y mo d h mi = Ok t ↔
  (mi ≤ 59 ∧ h ≤ 23 ∧ d ≤ 31 ∧ mo ≤ 12)%Z ∧
  Timepoint_as_tuple t = (y, mo, d, h, mi, 0%Z).
Proof.
  unfold Timepoint_new, Timepoint_as_tuple.
  destruct (Z.ltb_spec 59 mi), (Z.ltb_spec 23 h), (Z.ltb_spec 31 d), (Z.ltb_spec 12 mo);
    (split; [|intros [? ?]]); try (done || lia).
  - intros [= <-]. done.
  - destruct t. simpl in *. naive_solver.
Qed.

(** ** Platforms *)

(** A platform name is read back as the platform that prints it, the mock
    platform aside, which has a name but cannot be read. *)
Theorem Platform_roundtrip pl :
  Platform_from_str (Platform_fmt pl) =
    match pl with Mock => Err (InvalidPlatform "mock") | _ => Ok pl end.
Proof. by destruct pl. Qed.

(** ** Parsers *)

Definition is_stream (s : string) : Prop :=
  s = CANONICAL_STDIN_FILE_PATH ∨ s = CANONICAL_STDOUT_FILE_PATH ∨ s = CANONICAL_STDERR_FILE_PATH.

Lemma enforce_keeps s :
  starts_with_slash s = true ∨ is_stream s → enforce_leading_backslash s = s.
Proof.
  unfold enforce_leading_backslash. intros [-> | [-> | [-> | ->]]]; done.
Qed.

Lemma enforce_cases s :
  (starts_with_slash s = true ∨ is_stream s) ∨ enforce_leading_backslash s = "/" +:+ s.
Proof.
  unfold enforce_leading_backslash, is_stream.
  destruct (starts_with_slash s); [auto|]. repeat case_bool_decide; simpl; auto.
Qed.

(** The result of [enforce_leading_backslash] is absolute unless it is the
    name of a standard stream, is the argument or the argument below the root,
    and is left alone by a second application. *)
Theorem enforce_leading_backslash_spec s :
  let s' := enforce_leading_backslash s in
  (starts_with_slash s' = true ∨ is_stream s') ∧
  (s' = s ∨ s' = "/" +:+ s) ∧ enforce_leading_backslash s' = s'.
Proof.
  intros s'. subst s'. destruct (enforce_cases s) as [Hk|Hadd].
  - rewrite !(enforce_keeps s) by done. auto.
  - rewrite Hadd. split_and!; [by left|by right|]. apply enforce_keeps. by left.
Qed.

Lemma splitn2_spec sep s :
  match splitn2 sep s with
  | (a, Some b) => s = a +:+ String sep b
  | (a, None) => s = a
  end.
Proof.
  induction s as [|c s IH]; simpl; [done|]. case_decide as Hc; [by subst|].
  destruct (splitn2 sep s) as [a [b|]]; exact (f_equal (String c) IH).
Qed.

Lemma splitn2_name sep s : splitn2 sep (splitn2 sep s).1 = ((splitn2 sep s).1, None).
Proof.
  induction s as [|c s IH]; simpl; [done|]. case_decide as Hc; [done|].
  destruct (splitn2 sep s) as [a rest]. simpl in *. by rewrite decide_False, IH.
Qed.

(** An argument [name=path] is split at the first [=]: the name has no [=],
    and gluing the two with [=] gives the argument back; an argument without
    [=] is both the name and the path. *)
Theorem parse_renamable_path_spec s name p :
  parse_renamable_path s = Ok (name, p) →
  (s = name +:+ "=" +:+ p_raw p ∧ splitn2 "=" name = (name, None)) ∨ (s = name ∧ p_raw p = s).
Proof.
  unfold parse_renamable_path. destruct (utf8_valid s); [|done].
  pose proof (splitn2_spec "=" s) as Hs. pose proof (splitn2_name "=" s) as Hn.
  destruct (splitn2 "=" s) as [a [b|]]; intros [= <- <-]; simpl in *; auto.
Qed.

(** ** Witnesses *)

Section witnesses.
Import Demo.

Lemma demo_policy_valid : policy_valid demo_policy.
Proof. split; [by repeat constructor|]. by apply (bool_decide_unpack (NoDup _)); vm_compute. Qed.

Lemma get_rights_table_exact_witness :
  is_Some (get_rights_table demo_policy !! Participant 2) ∧
  get_rights_table demo_policy !! InternalSuperUser = None.
Proof.
  split.
  - eexists. apply (get_rights_table_exact demo_policy (Participant 2)); [exact demo_policy_valid|].
    eexists. split_and!; [apply list_elem_of_further, list_elem_of_here|done|done].
  - apply eq_None_not_Some. intros [m Hm].
    by apply (get_rights_table_exact demo_policy InternalSuperUser) in Hm; [|exact demo_policy_valid].
Defined.

Lemma expected_shutdown_list_ids_witness : expected_shutdown_list demo_policy = [1; 2]%Z.
Proof. by destruct (expected_shutdown_list_ids demo_policy demo_policy_valid) as [-> _]. Defined.

Lemma get_required_inputs_sorted_witness :
  Sorted path_le (get_required_inputs (compute_right_map
    [mkFileRights "/b" 8194; mkFileRights "/a/c" 8194; mkFileRights "/w" 64; mkFileRights "/a" 8194])).
Proof. apply get_required_inputs_sorted. Defined.

Lemma parse_renamable_path_spec_witness :
  ("in=/data/x=y" = "in" +:+ "=" +:+ "/data/x=y") ∨ ("in=/data/x=y" = "in" ∧ "/data/x=y" = "in=/data/x=y").
Proof.
  destruct (parse_renamable_path_spec "in=/data/x=y" "in" (path "/data/x=y") eq_refl) as [[H _]|H];
    [left; exact H|right; exact H].
Defined.
End witnesses.
