(* ===== verification/Transport.v ===== *)
(** * The transport protocol ([transport-protocol])

    Messages between clients and the enclave: the length prefix, the
    reassembly of messages from the chunks of each session, and the functions
    that serialize and parse the messages.

    Sources: [transport-protocol/src/custom.rs],
    [transport-protocol/protos/transport_protocol.proto].

    The message types are those of the [.proto] file, less the SGX messages,
    which no code builds or reads.  The wire format is the [protobuf] crate's:
    a parameter, with the law that parsing inverts writing. *)

From S2P Require Import Prelude.

(** ** Messages *)

Record Data := mkData { d_file_name : string; d_data : bytes }.
Record PsaAttestationInit := mkPsaInit { pai_challenge : bytes; pai_device_id : Z }.
Record StartMsg := mkStartMsg { sm_protocol : string; sm_firmware_version : string }.
Record NativePsaAttestationToken := mkNativeToken { nt_token : bytes; nt_device_id : Z; nt_csr : bytes }.
Record ProxyPsaAttestationToken := mkProxyToken { pt_token : bytes; pt_pubkey : bytes; pt_device_id : Z }.
Record NitroAttestationDoc := mkNitroDoc { nd_doc : bytes; nd_device_id : Z }.
Record CertChain := mkCertChain { root_cert : bytes; enclave_cert : bytes }.

Inductive ResponseStatus :=
  | UNSET | SUCCESS | FAILED_INVALID_ROLE | FAILED_NOT_READY | FAILED_GENERIC
  | FAILED_VM_ERROR | FAILED_ERROR_CODE_RETURNED | FAILED_INVALID_REQUEST.

#[export] Instance ResponseStatus_eq_dec : EqDecision ResponseStatus.
Proof. solve_decision. Defined.

Inductive RuntimeManagerRequest_oneof :=
  | Rq_write_file (d : Data)
  | Rq_append_file (d : Data)
  | Rq_request_pi_hash (file_name : string)
  | Rq_request_result (file_name : string)
  | Rq_request_proxy_psa_attestation_token (challenge : bytes)
  | Rq_request_shutdown
  | Rq_psa_attestation_init (i : PsaAttestationInit)
  | Rq_request_policy_hash
  | Rq_read_file (file_name : string).
Record RuntimeManagerRequest := mkRequest
  { rq_message_oneof : option RuntimeManagerRequest_oneof; rq_context : Z }.

Inductive RuntimeManagerResponse_oneof :=
  | Rs_result (data : bytes)
  | Rs_pi_hash (data : bytes)
  | Rs_error (error : bytes)
  | Rs_state (state : bytes)
  | Rs_policy_hash (data : bytes)
  | Rs_cert (data : bytes).
Record RuntimeManagerResponse := mkResponse
  { rs_status : ResponseStatus; rs_message_oneof : option RuntimeManagerResponse_oneof;
    rs_context : Z }.

Inductive ProxyAttestationServerRequest_oneof :=
  | Pq_start_msg (m : StartMsg)
  | Pq_native_psa_attestation_token (t : NativePsaAttestationToken)
  | Pq_proxy_psa_attestation_token (t : ProxyPsaAttestationToken)
  | Pq_nitro_attestation_doc (d : NitroAttestationDoc).
Record ProxyAttestationServerRequest := mkProxyRequest
  { pq_message_oneof : option ProxyAttestationServerRequest_oneof; pq_context : Z }.

Inductive ProxyAttestationServerResponse_oneof :=
  | Ps_psa_attestation_init (i : PsaAttestationInit)
  | Ps_cert_chain (c : CertChain).
Record ProxyAttestationServerResponse := mkProxyResponse
  { ps_message_oneof : option ProxyAttestationServerResponse_oneof; ps_context : Z }.

(** [Message::write_to_bytes] and [parse_from_bytes] of the [protobuf] crate. *)
Class ProtobufMessage (M : Type) := {
  write_to_bytes : M → option bytes;
  parse_from_bytes : bytes → option M;
}.
Class ProtobufLaws (M : Type) {PM : ProtobufMessage M} : Prop := {
  parse_written m b : write_to_bytes m = Some b → parse_from_bytes b = Some m;
  (** the length of a message is a 32-bit number in the wire format *)
  written_length m b : write_to_bytes m = Some b → (len b < u32_bound)%Z;
}.

Inductive TransportProtocolError :=
  | ProtobufError
  | ResponseStatusError (status : Z)
  | TryIntoError
  | PartialBuffer (session_id : Z)
  | MissingLengthPrefix (session_id : Z)
  | BufferNotFound (session_id : Z)
  | MutexError (session_id : Z).

#[export] Instance TransportProtocolError_eq_dec : EqDecision TransportProtocolError.
Proof. solve_decision. Defined.

(** ** The length prefix *)

Definition LENGTH_PREFIX_SIZE : nat := 8.

Definition byte_of_Z (z : Z) : Byte.byte := default Byte.x00 (Byte.of_N (Z.to_N (z mod 256))).
Definition Z_of_byte (b : Byte.byte) : Z := Z.of_N (Byte.to_N b).

(** [u64::to_be_bytes] and [u64::from_be_bytes]: [k] bytes, most significant first. *)
Fixpoint to_be_bytes (k : nat) (z : Z) : bytes :=
  match k with
  | O => []
  | S k' => to_be_bytes k' (z / 256) ++ [byte_of_Z z]
  end.
Definition from_be_bytes (l : bytes) : Z := foldl (λ acc b, acc * 256 + Z_of_byte b)%Z 0%Z l.

Definition get_length_prefix (session_id : Z) (buffer : bytes) :
  outcome TransportProtocolError (Z * bytes) :=
  if decide (length buffer < LENGTH_PREFIX_SIZE) then Err (MissingLengthPrefix session_id)
  else Ok (from_be_bytes (take LENGTH_PREFIX_SIZE buffer), drop LENGTH_PREFIX_SIZE buffer).

Definition set_length_prefix (buffer : bytes) : outcome TransportProtocolError bytes :=
  Ok (to_be_bytes LENGTH_PREFIX_SIZE (len buffer) ++ buffer).

(** ** Reassembly *)

(** [INCOMING_BUFFER_HASH]: per session, the expected length and the bytes so far. *)
Abbreviation IncomingBuffers := (gmap Z (Z * bytes)).

Abbreviation TP A := (ST IncomingBuffers TransportProtocolError A).

Definition handle_protocol_buffer (session_id : option Z) (input : bytes) : TP bytes :=
  let session_id := default 0%Z session_id in
  let! h := get in
  let! input :=
    (match h !! session_id with
     | None =>
         let! r := lift (get_length_prefix session_id input) in
         do! modify (<[session_id := (r.1, [])]>) in
         ret r.2
     | Some _ => ret input
     end) in
  let! h := get in
  let! e := ok_or (h !! session_id) (BufferNotFound session_id) in
  let incoming_buffer := e.2 ++ input in
  do! modify (<[session_id := (e.1, incoming_buffer)]>) in
  if (len incoming_buffer <? e.1)%Z then throw (PartialBuffer session_id)
  else
    do! modify (delete session_id) in
    ret incoming_buffer.

(** [parse_runtime_manager_request] and the three functions like it. *)
Definition parse_message {M} `{ProtobufMessage M} (session_id : option Z) (buffer : bytes) : TP M :=
  let! full_unprefixed_buffer := handle_protocol_buffer session_id buffer in
  ok_or (parse_from_bytes full_unprefixed_buffer) ProtobufError.

(** ** Serialization *)

Section serialize.
Context {P1 : ProtobufMessage RuntimeManagerRequest} {P2 : ProtobufMessage RuntimeManagerResponse}
  {P3 : ProtobufMessage ProxyAttestationServerRequest}
  {P4 : ProtobufMessage ProxyAttestationServerResponse}.

Abbreviation TransportProtocolResult := (outcome TransportProtocolError bytes).

Definition parse_runtime_manager_request : option Z → bytes → TP RuntimeManagerRequest :=
  parse_message.
Definition parse_runtime_manager_response : option Z → bytes → TP RuntimeManagerResponse :=
  parse_message.
Definition parse_proxy_attestation_server_request :
  option Z → bytes → TP ProxyAttestationServerRequest := parse_message.
Definition parse_proxy_attestation_server_response :
  option Z → bytes → TP ProxyAttestationServerResponse := parse_message.

(** [let mut buffer = m.write_to_bytes()?; set_length_prefix(&mut buffer)] *)
Definition write_prefixed {M} `{ProtobufMessage M} (m : M) : TransportProtocolResult :=
  match write_to_bytes m with
  | None => Err ProtobufError
  | Some buffer => set_length_prefix buffer
  end.

(** A message with one field of the [oneof] set, as [new] and [set_*] make it. *)
Definition request (o : RuntimeManagerRequest_oneof) : RuntimeManagerRequest :=
  mkRequest (Some o) 0.
Definition response (st : ResponseStatus) (o : option RuntimeManagerResponse_oneof) :
  RuntimeManagerResponse := mkResponse st o 0.

Definition serialize_program (program_buffer : bytes) (file_name : string) :=
  write_prefixed (request (Rq_write_file (mkData file_name program_buffer))).
Definition serialize_program_data (data_buffer : bytes) (file_name : string) :=
  write_prefixed (request (Rq_write_file (mkData file_name data_buffer))).
Definition serialize_write_file (data_buffer : bytes) (file_name : string) :=
  write_prefixed (request (Rq_write_file (mkData file_name data_buffer))).
Definition serialize_read_file (file_name : string) :=
  write_prefixed (request (Rq_read_file file_name)).
Definition serialize_stream (data_buffer : bytes) (file_name : string) :=
  write_prefixed (request (Rq_append_file (mkData file_name data_buffer))).
Definition serialize_request_result (file_name : string) :=
  write_prefixed (request (Rq_request_result file_name)).
Definition serialize_request_shutdown :=
  write_prefixed (request Rq_request_shutdown).
Definition serialize_request_proxy_psa_attestation_token (challenge : bytes) :=
  write_prefixed (request (Rq_request_proxy_psa_attestation_token challenge)).
Definition serialize_request_pi_hash (file_name : string) :=
  write_prefixed (request (Rq_request_pi_hash file_name)).
Definition serialize_request_policy_hash :=
  write_prefixed (request Rq_request_policy_hash).

Definition parse_request_proxy_psa_attestation_token (challenge : bytes) : bytes := challenge.
Definition parse_cert_chain (c : CertChain) : bytes * bytes := (root_cert c, enclave_cert c).

Definition serialize_proxy_psa_attestation_token (token pubkey : bytes) (device_id : Z) :=
  write_prefixed (mkProxyRequest
    (Some (Pq_proxy_psa_attestation_token (mkProxyToken token pubkey device_id))) 0).
Definition serialize_nitro_attestation_doc (doc : bytes) (device_id : Z) :=
  write_prefixed (mkProxyRequest (Some (Pq_nitro_attestation_doc (mkNitroDoc doc device_id))) 0).
Definition serialize_certificate (cert : bytes) :=
  write_prefixed (response UNSET (Some (Rs_cert cert))).
Definition parse_proxy_psa_attestation_token (t : ProxyPsaAttestationToken) : bytes * bytes * Z :=
  (pt_token t, pt_pubkey t, pt_device_id t).
Definition serialize_native_psa_attestation_token (token csr : bytes) (device_id : Z) :=
  write_prefixed (mkProxyRequest
    (Some (Pq_native_psa_attestation_token (mkNativeToken token device_id csr))) 0).
Definition parse_native_psa_attestation_token (t : NativePsaAttestationToken) : bytes * bytes * Z :=
  (nt_token t, nt_csr t, nt_device_id t).
Definition parse_nitro_attestation_doc (d : NitroAttestationDoc) : bytes * Z :=
  (nd_doc d, nd_device_id d).
Definition serialize_cert_chain (enclave_cert root_cert : bytes) :=
  write_prefixed (mkProxyResponse (Some (Ps_cert_chain (mkCertChain root_cert enclave_cert))) 0).
Definition serialize_psa_attestation_init (challenge : bytes) (device_id : Z) :=
  write_prefixed (mkProxyResponse
    (Some (Ps_psa_attestation_init (mkPsaInit challenge device_id))) 0).
Definition parse_psa_attestation_init (i : PsaAttestationInit) :
  outcome TransportProtocolError (bytes * Z) := Ok (pai_challenge i, pai_device_id i).

Definition serialize_machine_state (machine_state : Byte.byte) :=
  write_prefixed (response SUCCESS (Some (Rs_state [machine_state]))).
Definition serialize_pi_hash (hash : bytes) :=
  write_prefixed (response SUCCESS (Some (Rs_pi_hash hash))).
Definition serialize_policy_hash (hash : bytes) :=
  write_prefixed (response SUCCESS (Some (Rs_policy_hash hash))).

(** [ResponseStatus::from_i32] and [as i32], from the numbers of the [.proto] file. *)
Definition ResponseStatus_from_i32 (z : Z) : option ResponseStatus :=
  match z with
  | 0 => Some UNSET | 1 => Some SUCCESS | 2 => Some FAILED_INVALID_ROLE
  | 3 => Some FAILED_NOT_READY | 4 => Some FAILED_GENERIC | 5 => Some FAILED_VM_ERROR
  | 6 => Some FAILED_ERROR_CODE_RETURNED | 7 => Some FAILED_INVALID_REQUEST | _ => None
  end%Z.
Definition ResponseStatus_as_i32 (st : ResponseStatus) : Z :=
  match st with
  | UNSET => 0 | SUCCESS => 1 | FAILED_INVALID_ROLE => 2 | FAILED_NOT_READY => 3
  | FAILED_GENERIC => 4 | FAILED_VM_ERROR => 5 | FAILED_ERROR_CODE_RETURNED => 6
  | FAILED_INVALID_REQUEST => 7
  end.

Definition serialize_empty_response (status : Z) : TransportProtocolResult :=
  match ResponseStatus_from_i32 status with
  | None => Err (ResponseStatusError status)
  | Some encoded_status => write_prefixed (response encoded_status None)
  end.

Definition serialize_result (status : Z) (data_opt : option bytes) : TransportProtocolResult :=
  match ResponseStatus_from_i32 status with
  | None => Err (ResponseStatusError status)
  | Some encoded_status => write_prefixed (response encoded_status (Rs_result <$> data_opt))
  end.

Definition parse_result (r : RuntimeManagerResponse) :
  outcome TransportProtocolError (option bytes) :=
  let status := rs_status r in
  let decoded_status :=
    match status with
    | UNSET => -1 | SUCCESS => 0 | FAILED_INVALID_ROLE => 1 | FAILED_NOT_READY => 2
    | FAILED_GENERIC => 3 | FAILED_VM_ERROR => 4 | FAILED_ERROR_CODE_RETURNED => 5
    | FAILED_INVALID_REQUEST => 6
    end%Z in
  if decide (status = SUCCESS) then
    Ok (match rs_message_oneof r with Some (Rs_result data) => Some data | _ => None end)
  else Err (ResponseStatusError decoded_status).

(** [get_start_msg] of another message is the default one. *)
Definition parse_start_msg (r : ProxyAttestationServerRequest) : string * string :=
  match pq_message_oneof r with
  | Some (Pq_start_msg m) => (sm_protocol m, sm_firmware_version m)
  | _ => ("", "")
  end.
Definition serialize_start_msg (protocol firmware_version : string) :=
  write_prefixed (mkProxyRequest (Some (Pq_start_msg (mkStartMsg protocol firmware_version))) 0).
End serialize.
