(* ===== verification/TransportProps.v ===== *)
(** * Properties of the transport protocol

    Messages survive the length prefix, chunking and interleaving with other
    sessions; serialized requests and results are read back.

    Source: [transport-protocol/src/custom.rs]. *)

From S2P Require Import Prelude Transport.

(** ** The length prefix *)

Lemma Z_of_byte_of_Z z : (Z_of_byte (byte_of_Z z) = z mod 256)%Z.
Proof.
  unfold Z_of_byte, byte_of_Z. pose proof (Z.mod_pos_bound z 256).
  destruct (Byte.of_N (Z.to_N (z mod 256))) as [b|] eqn:Hb; simpl.
  - apply Byte.to_of_N in Hb. rewrite Hb. lia.
  - apply Byte.of_N_None_iff in Hb. lia.
Qed.

Lemma length_to_be_bytes k z : length (to_be_bytes k z) = k.
Proof.
  revert z. induction k as [|k IH]; intros z; simpl; [done|]. rewrite length_app, IH. simpl. lia.
Qed.

Lemma from_to_be_bytes k z :
  (0 ≤ z)%Z → from_be_bytes (to_be_bytes k z) = (z mod 256 ^ Z.of_nat k)%Z.
Proof.
  unfold from_be_bytes. revert z. induction k as [|k IH]; intros z Hz.
  { simpl. by rewrite Z.mod_1_r. }
  cbn [to_be_bytes]. rewrite foldl_app. simpl foldl at 1. rewrite IH by (apply Z.div_pos; lia).
  rewrite Z_of_byte_of_Z, Nat2Z.inj_succ, Z.pow_succ_r by lia.
  rewrite Z.rem_mul_r by lia. lia.
Qed.

Lemma get_set_length_prefix sid (b rest : bytes) :
  (len b < u64_bound)%Z →
  get_length_prefix sid (to_be_bytes LENGTH_PREFIX_SIZE (len b) ++ rest) = Ok (len b, rest).
Proof.
  intros Hb. unfold get_length_prefix.
  pose proof (length_to_be_bytes LENGTH_PREFIX_SIZE (len b)) as Hlen.
  rewrite decide_False by (rewrite length_app; lia).
  rewrite take_app_le, drop_app_le by lia. rewrite take_ge, drop_ge by lia.
  rewrite from_to_be_bytes by apply len_nonneg. rewrite Z.mod_small; [done|].
  pose proof (len_nonneg b). change (256 ^ Z.of_nat LENGTH_PREFIX_SIZE)%Z with u64_bound. lia.
Qed.

(** ** Reassembly *)

(** The results of feeding chunks to one session. *)
Fixpoint feed (sid : option Z) (chunks : list bytes) (h : IncomingBuffers) :
  list (outcome TransportProtocolError bytes) * IncomingBuffers :=
  match chunks with
  | [] => ([], h)
  | c :: cs =>
      let '(r, h') := handle_protocol_buffer sid c h in
      let '(rs, h'') := feed sid cs h' in (r :: rs, h'')
  end.

Lemma handle_run sid c h :
  handle_protocol_buffer (Some sid) c h =
    match (match h !! sid with
           | Some e => Ok (e, c)
           | None => match get_length_prefix sid c with
                     | Ok r => Ok ((r.1, []), r.2) | Err e => Err e | Abort a => Abort a end
           end) with
    | Ok (e, c') =>
        if (len (e.2 ++ c') <? e.1)%Z
        then (Err (PartialBuffer sid), <[sid := (e.1, e.2 ++ c')]> h)
        else (Ok (e.2 ++ c'), delete sid h)
    | Err e => (Err e, h)
    | Abort a => (Abort a, h)
    end.
Proof.
  unfold handle_protocol_buffer, bind, get, lift, modify, ret, ok_or, throw. simpl.
  destruct (h !! sid) as [[n b]|] eqn:Hs; simpl.
  - rewrite Hs. simpl. destruct (_ <? _)%Z; [done|]. by rewrite delete_insert_eq.
  - destruct (get_length_prefix sid c) as [[n r]| |]; simpl; [|done|done].
    rewrite lookup_insert_eq. simpl. rewrite insert_insert_eq.
    destruct (_ <? _)%Z; [done|]. by rewrite delete_insert_eq.
Qed.

(** Feeding the rest of a message whose first part is buffered. *)
Lemma feed_rest sid chunks last n b h :
  h !! sid = Some (n, b) → last ≠ [] →
  n = (len b + len (concat chunks) + len last)%Z →
  feed (Some sid) (chunks ++ [last]) h =
    (replicate (length chunks) (Err (PartialBuffer sid)) ++ [Ok (b ++ concat chunks ++ last)],
     delete sid h).
Proof.
  revert b h. induction chunks as [|c cs IH]; intros b h Hs Hlast Hn; cbn [app feed length replicate].
  - rewrite handle_run, Hs. cbn [fst snd]. rewrite (proj2 (Z.ltb_ge _ _)); [done|].
    unfold len in *. rewrite length_app. simpl in Hn. lia.
  - rewrite handle_run, Hs. cbn [fst snd]. rewrite (proj2 (Z.ltb_lt _ _)).
    2: { unfold len in *. rewrite length_app. cbn [concat] in Hn. rewrite length_app in Hn.
         destruct last; [done|]. simpl in Hn. lia. }
    rewrite (IH (b ++ c)); [|by rewrite lookup_insert_eq|done|].
    + cbn [concat]. rewrite delete_insert_eq, !app_assoc. done.
    + unfold len in *. cbn [concat] in Hn. rewrite !length_app in *. lia.
Qed.

(** A message cut into chunks in any way that leaves the length prefix
    whole, and the last chunk not empty, is returned when its last chunk
    arrives, and only then: every earlier chunk is answered with
    [PartialBuffer].  The session's buffer is gone afterwards and the other
    sessions are untouched. *)
Theorem message_reassembled sid (msg wire : bytes) chunks last h :
  h !! sid = None → (len msg < u64_bound)%Z → set_length_prefix msg = Ok wire →
  concat chunks ++ last = wire →
  LENGTH_PREFIX_SIZE ≤ length (hd last chunks) → last ≠ [] →
  feed (Some sid) (chunks ++ [last]) h =
    (replicate (length chunks) (Err (PartialBuffer sid)) ++ [Ok msg], h).
Proof.
  intros Hs Hmsg [= <-] Hcat Hfirst Hlast.
  set (pre := to_be_bytes LENGTH_PREFIX_SIZE (len msg)) in *.
  pose proof (length_to_be_bytes LENGTH_PREFIX_SIZE (len msg)) as Hpre. fold pre in Hpre.
  assert (∀ first rest, first ++ rest = pre ++ msg → LENGTH_PREFIX_SIZE ≤ length first →
    ∃ b, first = pre ++ b ∧ msg = b ++ rest ∧ get_length_prefix sid first = Ok (len msg, b)) as Hcut.
  { intros first rest Heq Hlen. exists (drop LENGTH_PREFIX_SIZE first).
    assert (first = pre ++ drop LENGTH_PREFIX_SIZE first) as Hf.
    { rewrite <- (take_drop LENGTH_PREFIX_SIZE first) at 1. f_equal.
      apply (f_equal (take LENGTH_PREFIX_SIZE)) in Heq.
      rewrite !take_app_le, (take_ge pre) in Heq by lia. done. }
    split_and!; [done| |].
    - apply (f_equal (drop LENGTH_PREFIX_SIZE)) in Heq.
      rewrite !drop_app_le, (drop_ge pre) in Heq by lia. done.
    - rewrite Hf at 1. by apply get_set_length_prefix. }
  destruct chunks as [|first mid].
  - simpl in Hcat, Hfirst. destruct (Hcut last []) as (b & -> & Hb & Hget); [by rewrite app_nil_r|done|].
    rewrite app_nil_r in Hb. subst b. cbn [app feed length replicate].
    rewrite handle_run, Hs, Hget. cbn [fst snd app].
    rewrite Z.ltb_irrefl, delete_id by done. done.
  - simpl in Hcat, Hfirst. rewrite <- app_assoc in Hcat.
    destruct (Hcut first _ Hcat Hfirst) as (b & -> & Hb & Hget).
    cbn [app feed length replicate]. rewrite handle_run, Hs, Hget. cbn [fst snd app].
    assert (len msg = len b + len (concat mid) + len last)%Z as Hlen.
    { rewrite Hb. unfold len. rewrite !length_app. lia. }
    rewrite (proj2 (Z.ltb_lt _ _)).
    2: { destruct last; [done|]. unfold len in *. simpl in Hlen. lia. }
    rewrite (feed_rest sid mid last (len msg) b) by (done || by rewrite lookup_insert_eq).
    rewrite delete_insert_id, Hb by done. done.
Qed.

(** ** Interleaved sessions *)

(** Chunks of several sessions, in the order they arrive. *)
Fixpoint feed_all (events : list (Z * bytes)) (h : IncomingBuffers) :
  list (Z * outcome TransportProtocolError bytes) * IncomingBuffers :=
  match events with
  | [] => ([], h)
  | (sid, c) :: es =>
      let '(r, h') := handle_protocol_buffer (Some sid) c h in
      let '(rs, h'') := feed_all es h' in ((sid, r) :: rs, h'')
  end.

Definition of_session {A} (sid : Z) (l : list (Z * A)) : list A :=
  (filter (λ e, e.1 = sid) l).*2.

Lemma of_session_cons {A} sid sid' (a : A) l :
  of_session sid ((sid', a) :: l) = if decide (sid' = sid) then a :: of_session sid l else of_session sid l.
Proof. unfold of_session. rewrite filter_cons. simpl. by case_decide. Qed.

Lemma handle_frame sid sid' c h :
  sid ≠ sid' → (handle_protocol_buffer (Some sid') c h).2 !! sid = h !! sid.
Proof.
  intros Hne. rewrite handle_run. repeat case_match; simplify_eq/=;
    by rewrite ?lookup_insert_ne, ?lookup_delete_ne by done.
Qed.

(** A session's result and its next buffer depend on its own buffer only. *)
Lemma handle_local sid c h1 h2 :
  h1 !! sid = h2 !! sid →
  (handle_protocol_buffer (Some sid) c h1).1 = (handle_protocol_buffer (Some sid) c h2).1 ∧
  (handle_protocol_buffer (Some sid) c h1).2 !! sid =
    (handle_protocol_buffer (Some sid) c h2).2 !! sid.
Proof.
  intros Heq. rewrite !handle_run, Heq.
  destruct (match h2 !! sid with Some _ => _ | None => _ end) as [[e c']| |]; [|done|done].
  destruct (_ <? _)%Z; simpl; by rewrite ?lookup_insert_eq, ?lookup_delete_eq.
Qed.

Lemma feed_local sid chunks h1 h2 :
  h1 !! sid = h2 !! sid →
  (feed (Some sid) chunks h1).1 = (feed (Some sid) chunks h2).1 ∧
  (feed (Some sid) chunks h1).2 !! sid = (feed (Some sid) chunks h2).2 !! sid.
Proof.
  revert h1 h2. induction chunks as [|c cs IH]; intros h1 h2 Heq; simpl; [done|].
  destruct (handle_local sid c h1 h2 Heq) as [Hr Hh].
  destruct (handle_protocol_buffer (Some sid) c h1) as [r1 h1'].
  destruct (handle_protocol_buffer (Some sid) c h2) as [r2 h2']. simpl in *. subst r2.
  destruct (IH h1' h2' Hh) as [Hrs Hh'].
  destruct (feed (Some sid) cs h1') as [rs1 h1'']. destruct (feed (Some sid) cs h2') as [rs2 h2''].
  simpl in *. by subst.
Qed.

(** However the chunks of different sessions are interleaved, each session
    gets the results, and is left with the buffer, that it would have if its
    own chunks had arrived alone. *)
Theorem sessions_independent sid events h :
  of_session sid (feed_all events h).1 = (feed (Some sid) (of_session sid events) h).1 ∧
  (feed_all events h).2 !! sid = (feed (Some sid) (of_session sid events) h).2 !! sid.
Proof.
  revert h. induction events as [|[sid' c] es IH]; intros h; [done|]. cbn [feed_all].
  rewrite of_session_cons. pose proof (handle_frame sid sid' c h) as Hframe.
  case_decide as Hs.
  - subst sid'. cbn [feed]. destruct (handle_protocol_buffer (Some sid) c h) as [r h'].
    specialize (IH h'). destruct (feed_all es h') as [rs h'']. simpl.
    rewrite of_session_cons, decide_True by done.
    destruct (feed (Some sid) (of_session sid es) h') as [rs' h''']. simpl in *.
    destruct IH as [-> ->]. done.
  - destruct (handle_protocol_buffer (Some sid') c h) as [r h']. simpl in Hframe.
    specialize (IH h'). destruct (feed_all es h') as [rs h'']. simpl in *.
    rewrite of_session_cons, decide_False by done. destruct IH as [-> ->].
    apply feed_local. by apply Hframe.
Qed.

(** ** Round trips *)

Lemma parse_written_message {M} `{ProtobufLaws M} (m : M) wire sid h :
  write_prefixed m = Ok wire → h !! default 0%Z sid = None →
  parse_message sid wire h = (Ok m, h).
Proof.
  unfold write_prefixed. destruct (write_to_bytes m) as [b|] eqn:Hb; [|done].
  unfold set_length_prefix. intros Hw Hs. pose proof (written_length m b Hb) as Hlen.
  assert (wire = to_be_bytes LENGTH_PREFIX_SIZE (len b) ++ b) as -> by congruence.
  unfold parse_message, bind.
  assert (handle_protocol_buffer sid = handle_protocol_buffer (Some (default 0%Z sid))) as ->
    by by destruct sid.
  rewrite handle_run, Hs, get_set_length_prefix by lia. cbn [fst snd app].
  rewrite Z.ltb_irrefl, delete_id by done. unfold ok_or. by rewrite (parse_written m b Hb).
Qed.

Section roundtrip.
Context {P1 : ProtobufMessage RuntimeManagerRequest} {L1 : ProtobufLaws RuntimeManagerRequest}
  {P2 : ProtobufMessage RuntimeManagerResponse} {L2 : ProtobufLaws RuntimeManagerResponse}.

(** The request each of the client's functions serializes. *)
Inductive serialized : outcome TransportProtocolError bytes → RuntimeManagerRequest_oneof → Prop :=
  | ser_program p n : serialized (serialize_program p n) (Rq_write_file (mkData n p))
  | ser_data d n : serialized (serialize_program_data d n) (Rq_write_file (mkData n d))
  | ser_write d n : serialized (serialize_write_file d n) (Rq_write_file (mkData n d))
  | ser_stream d n : serialized (serialize_stream d n) (Rq_append_file (mkData n d))
  | ser_read n : serialized (serialize_read_file n) (Rq_read_file n)
  | ser_result n : serialized (serialize_request_result n) (Rq_request_result n)
  | ser_shutdown : serialized serialize_request_shutdown Rq_request_shutdown
  | ser_token c : serialized (serialize_request_proxy_psa_attestation_token c)
      (Rq_request_proxy_psa_attestation_token c)
  | ser_pi_hash n : serialized (serialize_request_pi_hash n) (Rq_request_pi_hash n)
  | ser_policy_hash : serialized serialize_request_policy_hash Rq_request_policy_hash.

(** C35: a request a client serializes is the request the runtime manager
    parses, in any session that is not in the middle of another message, and
    the buffers of the sessions are as before. *)
Theorem request_roundtrip r o wire sid h :
  serialized r o → r = Ok wire → h !! default 0%Z sid = None →
  parse_runtime_manager_request sid wire h = (Ok (request o), h).
Proof.
  intros Hser -> Hs. apply parse_written_message; [|done]. by inversion Hser.
Qed.

(** A result the runtime manager serializes with status number [st] is
    read by the client as the data when [st] is [SUCCESS], and otherwise as
    an error that reports the number [st - 1]: the two sides number the
    statuses differently. *)
Theorem result_roundtrip st data wire sid h :
  serialize_result st data = Ok wire → h !! default 0%Z sid = None →
  ∃ r, parse_runtime_manager_response sid wire h = (Ok r, h) ∧
    parse_result r =
      if (st =? 1)%Z then Ok data else Err (ResponseStatusError (st - 1)).
Proof.
  unfold serialize_result. destruct (ResponseStatus_from_i32 st) as [e|] eqn:He; [|done].
  intros Hw Hs. exists (response e (Rs_result <$> data)). split.
  - by apply parse_written_message.
  - unfold ResponseStatus_from_i32 in He. unfold parse_result.
    destruct st as [|st|st]; simpl in He; simplify_eq/=; [done|].
    repeat match goal with q : positive |- _ => destruct q; simpl in He; try discriminate He end;
      simplify_eq/=; try done. by destruct data.
Qed.
End roundtrip.

(** ** A small wire format

    Enough of a codec to evaluate the theorems: two requests, and responses
    with or without a short result. *)
Module SmallCodec.
#[export] Instance request_codec : ProtobufMessage RuntimeManagerRequest := {|
  write_to_bytes m :=
    match m with
    | mkRequest (Some Rq_request_shutdown) 0%Z => Some [Byte.x42; Byte.x00]
    | mkRequest (Some Rq_request_policy_hash) 0%Z => Some [Byte.x52; Byte.x00]
    | _ => None
    end;
  parse_from_bytes b :=
    match b with
    | [Byte.x42; Byte.x00] => Some (request Rq_request_shutdown)
    | [Byte.x52; Byte.x00] => Some (request Rq_request_policy_hash)
    | _ => None
    end;
|}.
#[export] Instance request_laws : ProtobufLaws RuntimeManagerRequest.
Proof.
  split; intros [o z] b Hb; destruct o as [[]|], z; simplify_eq/=; done.
Qed.

#[export] Instance response_codec : ProtobufMessage RuntimeManagerResponse := {|
  write_to_bytes m :=
    match m with
    | mkResponse st None 0%Z => Some [byte_of_Z (ResponseStatus_as_i32 st); Byte.x00]
    | mkResponse st (Some (Rs_result d)) 0%Z =>
        if (len d <? 1000)%Z then Some (byte_of_Z (ResponseStatus_as_i32 st) :: Byte.x01 :: d)
        else None
    | mkResponse st (Some (Rs_policy_hash d)) 0%Z =>
        if (len d <? 1000)%Z then Some (byte_of_Z (ResponseStatus_as_i32 st) :: Byte.x02 :: d)
        else None
    | _ => None
    end;
  parse_from_bytes b :=
    match b with
    | s :: k :: d =>
        st ← ResponseStatus_from_i32 (Z_of_byte s);
        if Byte.eqb k Byte.x00 then Some (mkResponse st None 0)
        else if Byte.eqb k Byte.x01 then Some (mkResponse st (Some (Rs_result d)) 0)
        else Some (mkResponse st (Some (Rs_policy_hash d)) 0)
    | _ => None
    end;
|}.
#[export] Instance response_laws : ProtobufLaws RuntimeManagerResponse.
Proof.
  split; intros [st o z] b; simpl;
    destruct o as [[d| | | |d|]|], z as [|z|z]; intros; simplify_eq/=; try done;
    try (by destruct st);
    (destruct (Z.ltb_spec (len d) 1000); simplify_eq; first [by destruct st|unfold len in *; simpl; lia]).
Qed.
End SmallCodec.

Section witnesses.
Import SmallCodec.

Definition wire_of (r : outcome TransportProtocolError bytes) : bytes :=
  match r with Ok b => b | _ => [] end.

Definition long_msg : bytes := replicate 30 Byte.x07.

Example message_reassembled_witness :
  feed (Some 5%Z)
    ([take 10 (wire_of (set_length_prefix long_msg)); []] ++ [drop 10 (wire_of (set_length_prefix long_msg))])
    {[9%Z := (4%Z, [])]} =
    ([Err (PartialBuffer 5); Err (PartialBuffer 5); Ok long_msg], {[9%Z := (4%Z, [])]}).
Proof.
  apply (message_reassembled 5 long_msg (wire_of (set_length_prefix long_msg))
    [take 10 (wire_of (set_length_prefix long_msg)); []]); try done. vm_compute. lia.
Defined.

Example request_roundtrip_witness :
  parse_runtime_manager_request (Some 3%Z) (wire_of serialize_request_shutdown) ∅ =
    (Ok (request Rq_request_shutdown), ∅).
Proof.
  apply (request_roundtrip serialize_request_shutdown); [apply ser_shutdown|by vm_compute|done].
Defined.

Example result_roundtrip_witness :
  ∃ r, parse_runtime_manager_response None (wire_of (serialize_result 4 None)) ∅ = (Ok r, ∅) ∧
    parse_result r = Err (ResponseStatusError 3).
Proof. apply (result_roundtrip 4 None); by vm_compute. Defined.
End witnesses.
