(* ===== verification/Framing.v ===== *)
(** * Buffers over streams ([io-utils])

    How the Veracruz server and the enclave exchange messages: a buffer is
    sent after its length, over a stream that may take and give the bytes a
    few at a time, and messages are buffers in [bincode].

    Sources: [io-utils/src/fd.rs], [raw_fd.rs], [tcp.rs], [error.rs].

    A stream is the operating system's: a class with [Write::write] and
    [Read::read], [send] and [recv].  The loops end only when the stream has
    made enough progress: they make as many turns as there are bytes, and
    [fuel] more.  [Connected] in [FramingProps] says of a stream that every
    call makes progress; then no more are needed. *)

From S2P Require Import Prelude.
Local Open Scope Z_scope.

(** A write takes some of the bytes it is given and tells how many; a read
    gives at most as many bytes as there is room for. *)
Class Stream (T E : Type) := {
  stream_write : bytes → ST T E Z;
  stream_read : Z → ST T E bytes;
}.

Section framing.
Context {BP : BuildProfile} {T E : Type} {ST_ : Stream T E}.

(** What becomes of an error of the stream: [?], or another turn of the loop. *)
Definition retrying {A} (retry : E → bool) (zero : A) (m : ST T E A) : ST T E A :=
  try_match m ret (λ e, if retry e then ret zero else throw e).

(** [while sent_bytes < len { sent_bytes += fd.write(&buffer[sent_bytes..len])?; }] *)
Fixpoint write_loop (retry : E → bool) (fuel : nat) (buffer : bytes) (sent_bytes : Z) :
  ST T E unit :=
  if sent_bytes <? len buffer then
    match fuel with
    | O => panic OutOfFuel
    | S fuel' =>
        let! slice := lift (index_slice buffer sent_bytes (len buffer)) in
        let! n := retrying retry 0 (stream_write slice) in
        let! sent_bytes := lift (usize_add sent_bytes n) in
        write_loop retry fuel' buffer sent_bytes
    end
  else ret tt.

(** [while received_bytes < length {
       received_bytes += fd.read(&mut buffer[received_bytes..length])?; }] *)
Fixpoint read_loop (retry : E → bool) (fuel : nat) (buffer : bytes) (received_bytes : Z) :
  ST T E bytes :=
  if received_bytes <? len buffer then
    match fuel with
    | O => panic OutOfFuel
    | S fuel' =>
        let! bs := retrying retry [] (stream_read (len buffer - received_bytes)) in
        let! received_bytes' := lift (usize_add received_bytes (len bs)) in
        let! buffer' := lift (copy_into buffer received_bytes received_bytes' bs) in
        read_loop retry fuel' buffer' received_bytes'
    end
  else ret buffer.

(** [LittleEndian::write_u64] and [read_u64] on nine bytes use eight of them. *)
Definition encode_length (n : Z) : bytes := to_le_bytes 8 n ++ [Byte.x00].
Definition decode_length (buff : bytes) : Z := from_le_bytes (take 8 buff).

(** [vec![0u8; length]] *)
Definition zeroed_vec (length : Z) : outcome E bytes :=
  if length <? i64_bound then Ok (replicate (Z.to_nat length) Byte.x00) else Abort CapacityOverflow.

Definition send_framed (retry_length retry_data : E → bool) (fuel : nat) (buffer : bytes) :
  ST T E unit :=
  do! write_loop retry_length (fuel + 9) (encode_length (len buffer)) 0 in
  write_loop retry_data (fuel + length buffer) buffer 0.

Definition receive_framed (retry : E → bool) (fuel : nat) : ST T E bytes :=
  let! buff := read_loop retry (fuel + 9) (replicate 9 Byte.x00) 0 in
  let! buffer := lift (zeroed_vec (decode_length buff)) in
  read_loop retry (fuel + length buffer) buffer 0.

(** [fd.rs]: every error is returned. *)
Definition send_buffer : nat → bytes → ST T E unit :=
  send_framed (λ _, false) (λ _, false).
Definition receive_buffer : nat → ST T E bytes := receive_framed (λ _, false).
End framing.

(** ** [Write::write_all] and [Read::read_exact] of the standard library *)

Class StreamErrors (E : Type) := {
  is_interrupted : E → bool;
  write_zero : E;
  unexpected_eof : E;
}.

Section exact.
Context {BP : BuildProfile} {T E : Type} {ST_ : Stream T E} {SE : StreamErrors E}.

Fixpoint write_all_loop (fuel : nat) (buf : bytes) : ST T E unit :=
  match buf, fuel with
  | [], _ => ret tt
  | _, O => panic OutOfFuel
  | _, S fuel' =>
      let! n := retrying is_interrupted None (let! n := stream_write buf in ret (Some n)) in
      match n with
      | None => write_all_loop fuel' buf
      | Some n =>
          if n =? 0 then throw write_zero
          else let! rest := lift (index_slice buf n (len buf)) in write_all_loop fuel' rest
      end
  end.
Definition write_all_bytes (fuel : nat) (buf : bytes) : ST T E unit :=
  write_all_loop (fuel + length buf) buf.

(** [missing] bytes are to be read after those of [got]. *)
Fixpoint read_exact_loop (fuel : nat) (got : bytes) (missing : Z) : ST T E bytes :=
  if missing =? 0 then ret got else
  match fuel with
  | O => panic OutOfFuel
  | S fuel' =>
      let! bs := retrying is_interrupted None (let! bs := stream_read missing in ret (Some bs)) in
      match bs with
      | None => read_exact_loop fuel' got missing
      | Some [] => throw unexpected_eof
      | Some bs => read_exact_loop fuel' (got ++ bs) (missing - len bs)
      end
  end.
Definition read_exact (fuel : nat) (n : Z) : ST T E bytes :=
  read_exact_loop (fuel + Z.to_nat n) [] n.
End exact.

(** ** Raw file descriptors ([raw_fd.rs]) *)

(** [nix::Error] as the code tells it apart *)
Inductive sock_error :=
  | Sys_EINTR
  | Sys_other
  | NotSys.

Definition is_sys (e : sock_error) : bool := match e with NotSys => false | _ => true end.
Definition is_eintr (e : sock_error) : bool := match e with Sys_EINTR => true | _ => false end.

Section raw.
Context {BP : BuildProfile} {T : Type} {RS : Stream T sock_error}.

(** Any error of the system while the data is sent counts as no byte sent. *)
Definition raw_send_buffer : nat → bytes → ST T sock_error unit :=
  send_framed (λ _, false) is_sys.
Definition raw_receive_buffer : nat → ST T sock_error bytes := receive_framed is_eintr.
End raw.

(** ** Messages ([tcp.rs]) *)

(** [bincode::serialize] and [deserialize] *)
Class Bincode (M : Type) := {
  bincode_serialize : M → option bytes;
  bincode_deserialize : bytes → option M;
}.
Class BincodeLaws (M : Type) {BM : Bincode M} : Prop := {
  deserialize_serialized m b : bincode_serialize m = Some b → bincode_deserialize b = Some m;
}.

Inductive SocketError (E : Type) :=
  | BincodeError
  | SocketIOError (e : E).
Arguments BincodeError {E}.
Arguments SocketIOError {E} e.

Section tcp.
Context {BP : BuildProfile} {T E : Type} {ST_ : Stream T E} {M : Type} {BM : Bincode M}.

Definition send_message (fuel : nat) (data : M) : ST T (SocketError E) unit :=
  let! message := ok_or (bincode_serialize data) BincodeError in
  map_err SocketIOError (send_buffer fuel message).

Definition receive_message (fuel : nat) : ST T (SocketError E) M :=
  let! response := map_err SocketIOError (receive_buffer fuel) in
  ok_or (bincode_deserialize response) BincodeError.
End tcp.
