(* ===== verification/FramingProps.v ===== *)
(** * Properties of framed buffers

    Over a stream that makes progress a buffer that is sent is received, in
    whatever pieces the stream carries it; over one that has ended, or whose
    errors are ignored, the loops do not end.

    Sources: [io-utils/src/fd.rs], [raw_fd.rs], [tcp.rs]. *)

From S2P Require Import Prelude Framing.
Local Open Scope Z_scope.

(** A stream on which every call makes progress: [sent] are the bytes it has
    taken, [pending] those it will give. *)
Class Connected {T E} (S_ : Stream T E) (sent pending : T → bytes) : Prop := {
  write_progress buf t : buf ≠ [] → ∃ n t',
    stream_write buf t = (Ok n, t') ∧ 1 ≤ n ≤ len buf ∧
    sent t' = sent t ++ take (Z.to_nat n) buf ∧ pending t' = pending t;
  read_progress k t : 0 < k → pending t ≠ [] → ∃ bs t',
    stream_read k t = (Ok bs, t') ∧ bs ≠ [] ∧ len bs ≤ k ∧
    pending t = bs ++ pending t' ∧ sent t' = sent t;
}.

(** What travels for a buffer. *)
Definition frame (buffer : bytes) : bytes := encode_length (len buffer) ++ buffer.

Lemma length_encode_length n : length (encode_length n) = 9%nat.
Proof. unfold encode_length. by rewrite length_app, length_to_le_bytes. Qed.
Lemma len_encode_length n : len (encode_length n) = 9.
Proof. unfold len. by rewrite length_encode_length. Qed.

Lemma decode_encode_length n : 0 ≤ n < u64_bound → decode_length (encode_length n) = n.
Proof.
  intros Hn. unfold decode_length, encode_length.
  rewrite take_app_length' by (symmetry; apply length_to_le_bytes). rewrite from_to_le_bytes.
  change (256 ^ Z.of_nat 8) with u64_bound. by apply Z.mod_small.
Qed.

Lemma len_nonempty {A} (l : list A) : l ≠ [] → 1 ≤ len l.
Proof. destruct l; [done|]. unfold len. simpl. lia. Qed.

(** Filling the front of what is left of a buffer. *)
Lemma copy_into_next {E A} (got tail bs : list A) :
  (length bs ≤ length tail)%nat →
  copy_into (E:=E) (got ++ tail) (len got) (len got + len bs) bs =
  Ok (got ++ bs ++ drop (length bs) tail).
Proof.
  intros Hl. unfold copy_into. rewrite len_app.
  pose proof (len_nonneg bs). assert (len bs ≤ len tail) by (unfold len; lia).
  rewrite !(proj2 (Z.leb_le _ _)) by lia. rewrite (proj2 (Z.eqb_eq _ _)) by lia. cbn [andb].
  unfold len. rewrite Nat2Z.id, take_app_length, <- Nat2Z.inj_add, Nat2Z.id.
  by rewrite drop_app_add.
Qed.

Section connected.
Context {BP : BuildProfile} {T E : Type} {S_ : Stream T E} {sent pending : T → bytes}
  {HC : Connected S_ sent pending}.

Lemma write_loop_sends retry fuel buffer k t :
  (k ≤ length buffer)%nat → (length buffer - k ≤ fuel)%nat → len buffer < i64_bound → ∃ t',
  write_loop retry fuel buffer (Z.of_nat k) t = (Ok tt, t') ∧
  sent t' = sent t ++ drop k buffer ∧ pending t' = pending t.
Proof.
  revert k t. induction fuel as [|fuel IH]; intros k t Hk Hf Hb; cbn [write_loop]; unfold len in *.
  - exists t. assert (k = length buffer) as -> by lia. rewrite Z.ltb_irrefl, drop_all, app_nil_r. done.
  - destruct (Z.ltb_spec (Z.of_nat k) (Z.of_nat (length buffer))) as [Hlt|Hge].
    2: { exists t. assert (k = length buffer) as -> by lia. by rewrite drop_all, app_nil_r. }
    unfold bind at 1, lift at 1. unfold index_slice at 1, len.
    rewrite (proj2 (Z.leb_le _ _)), Z.leb_refl by lia. simpl.
    rewrite !Nat2Z.id. rewrite firstn_all2 by (rewrite length_drop; lia).
    assert (drop k buffer ≠ []) as Hne.
    { intros H. apply (f_equal length) in H. rewrite length_drop in H. simpl in H. lia. }
    destruct (write_progress (drop k buffer) t Hne) as (n & t1 & Hw & Hn & Hs & Hp).
    unfold len in Hn. rewrite length_drop in Hn.
    unfold bind at 1, retrying, try_match. rewrite Hw. unfold bind, lift, ret.
    unfold usize_add. rewrite unsigned_add_small by (change u64_bound with (2 * i64_bound); lia).
    replace (Z.of_nat k + n) with (Z.of_nat (k + Z.to_nat n)) by lia.
    destruct (IH (k + Z.to_nat n)%nat t1) as (t' & Hrun & Hs' & Hp'); [lia..|].
    exists t'. split_and!; [done| |congruence]. rewrite Hs', Hs, <- app_assoc. f_equal.
    rewrite <- drop_drop. apply take_drop.
Qed.

Lemma read_loop_receives retry fuel got data tail rest t :
  length data = length tail → (length data ≤ fuel)%nat → len (got ++ data) < i64_bound →
  pending t = data ++ rest → ∃ t',
  read_loop retry fuel (got ++ tail) (len got) t = (Ok (got ++ data), t') ∧
  pending t' = rest ∧ sent t' = sent t.
Proof.
  revert got data tail t. induction fuel as [|fuel IH]; intros got data tail t Hl Hf Hb Hp;
    cbn [read_loop].
  { destruct data; [|simpl in Hf; lia]. destruct tail; [|done]. rewrite app_nil_r, Z.ltb_irrefl.
    by exists t. }
  destruct (Z.ltb_spec (len got) (len (got ++ tail))) as [Hlt|Hge]; unfold len in *;
    rewrite ?length_app in *.
  2: { destruct data, tail; simpl in *; try lia. rewrite app_nil_r. by exists t. }
  assert (pending t ≠ []) as Hne by (rewrite Hp; destruct data; simpl in *; [lia|done]).
  destruct (read_progress (Z.of_nat (length got + length tail) - Z.of_nat (length got)) t)
    as (bs & t1 & Hr & Hbs & Hk & Hpt & Hs); [lia|done|].
  unfold len in Hk.
  assert (∃ data', data = bs ++ data') as [data' ->].
  { exists (drop (length bs) data). rewrite Hpt in Hp.
    apply (f_equal (take (length bs))) in Hp. rewrite take_app_length, take_app_le in Hp by lia.
    rewrite Hp at 1. by rewrite take_drop. }
  rewrite length_app in *. rewrite Hpt, <- app_assoc in Hp. apply app_inv_head in Hp.
  unfold bind at 1, retrying, try_match. rewrite Hr.
  unfold bind at 1, lift at 1, ret at 1. unfold usize_add, len.
  rewrite unsigned_add_small by (change u64_bound with (2 * i64_bound); lia).
  unfold bind at 1, lift at 1.
  change (Z.of_nat (length got)) with (len got). change (Z.of_nat (length bs)) with (len bs).
  rewrite copy_into_next by lia. rewrite app_assoc, <- len_app.
  destruct bs as [|b bs]; [done|].
  destruct (IH (got ++ b :: bs) data' (drop (length (b :: bs)) tail) t1) as (t' & Hrun & Hp' & Hs').
  - rewrite length_drop. simpl in *. lia.
  - simpl in *. lia.
  - rewrite !length_app. simpl in *. lia.
  - done.
  - exists t'. unfold len. rewrite Hrun. split_and!; [by rewrite <- app_assoc|done|congruence].
Qed.

Lemma write_loop_all retry fuel buffer t :
  (length buffer ≤ fuel)%nat → len buffer < i64_bound → ∃ t',
  write_loop retry fuel buffer 0 t = (Ok tt, t') ∧
  sent t' = sent t ++ buffer ∧ pending t' = pending t.
Proof. intros Hf Hb. apply (write_loop_sends retry fuel buffer 0 t); [lia..|done]. Qed.

Lemma read_loop_all retry fuel data rest n t :
  n = length data → (length data ≤ fuel)%nat → len data < i64_bound →
  pending t = data ++ rest → ∃ t',
  read_loop retry fuel (replicate n Byte.x00) 0 t = (Ok data, t') ∧
  pending t' = rest ∧ sent t' = sent t.
Proof.
  intros -> Hf Hb Hp.
  apply (read_loop_receives retry fuel [] data (replicate (length data) Byte.x00) rest t); try done.
  by rewrite length_replicate.
Qed.

Lemma send_framed_sends r1 r2 fuel buffer t :
  len buffer < i64_bound → ∃ t',
  send_framed r1 r2 fuel buffer t = (Ok tt, t') ∧
  sent t' = sent t ++ frame buffer ∧ pending t' = pending t.
Proof.
  intros Hb. pose proof (len_encode_length (len buffer)) as Hl. unfold send_framed, bind.
  destruct (write_loop_all r1 (fuel + 9) (encode_length (len buffer)) t) as (t1 & -> & Hs1 & Hp1).
  { rewrite length_encode_length. lia. }
  { by rewrite Hl. }
  destruct (write_loop_all r2 (fuel + length buffer) buffer t1) as (t2 & -> & Hs2 & Hp2); [lia|done|].
  exists t2. split_and!; [done| |congruence]. rewrite Hs2, Hs1. unfold frame. by rewrite app_assoc.
Qed.

Lemma receive_framed_receives r fuel buffer rest t :
  len buffer < i64_bound → pending t = frame buffer ++ rest → ∃ t',
  receive_framed r fuel t = (Ok buffer, t') ∧ pending t' = rest ∧ sent t' = sent t.
Proof.
  intros Hb Hp. pose proof (len_nonneg buffer). pose proof (len_encode_length (len buffer)) as Hl.
  unfold frame in Hp. rewrite <- app_assoc in Hp. unfold receive_framed, bind.
  destruct (read_loop_all r (fuel + 9) (encode_length (len buffer)) (buffer ++ rest) 9 t)
    as (t1 & -> & Hp1 & Hs1); [by rewrite length_encode_length|rewrite length_encode_length; lia|
    by rewrite Hl|done|].
  rewrite decode_encode_length by (change u64_bound with (2 * i64_bound); lia).
  unfold lift, zeroed_vec. rewrite (proj2 (Z.ltb_lt _ _)) by done.
  rewrite length_replicate.
  destruct (read_loop_all r (fuel + Z.to_nat (len buffer)) buffer rest (Z.to_nat (len buffer)) t1)
    as (t2 & -> & Hp2 & Hs2); [unfold len; lia..|done|done|].
  exists t2. split_and!; [done..|congruence].
Qed.
End connected.

(** ** Messages *)

(** Messages sent one after the other, and that many received. *)
Fixpoint send_all {BP : BuildProfile} {T E M} {S_ : Stream T E} {BM : Bincode M} (fuel : nat)
    (ms : list M) : ST T (SocketError E) unit :=
  match ms with [] => ret tt | m :: ms' => do! send_message fuel m in send_all fuel ms' end.
Fixpoint receive_n {BP : BuildProfile} {T E M} {S_ : Stream T E} {BM : Bincode M} (fuel n : nat) :
  ST T (SocketError E) (list M) :=
  match n with
  | O => ret []
  | S n' => let! m := receive_message fuel in let! ms := receive_n fuel n' in ret (m :: ms)
  end.

(** A message that fits: it is serialized, in a buffer that a vector can hold. *)
Definition fits {M} {BM : Bincode M} (m : M) : Prop :=
  ∃ b, bincode_serialize m = Some b ∧ len b < i64_bound.

Section messages.
Context {BP : BuildProfile} {M : Type} {BM : Bincode M} {BL : BincodeLaws M}.

Section sender.
Context {T E : Type} {S_ : Stream T E} {sent pending : T → bytes} {HC : Connected S_ sent pending}.

Lemma send_message_sends fuel m b t :
  bincode_serialize m = Some b → len b < i64_bound → ∃ t',
  send_message fuel m t = (Ok tt, t') ∧ sent t' = sent t ++ frame b ∧ pending t' = pending t.
Proof.
  intros Hm Hb. unfold send_message, bind, ok_or. rewrite Hm. unfold ret, map_err, send_buffer.
  destruct (send_framed_sends (λ _, false) (λ _, false) fuel b t) as (t' & -> & ? & ?); eauto.
Qed.

Lemma receive_message_receives fuel m b rest t :
  bincode_serialize m = Some b → len b < i64_bound →
  pending t = frame b ++ rest → ∃ t',
  receive_message fuel t = (Ok m, t') ∧ pending t' = rest ∧ sent t' = sent t.
Proof.
  intros Hm Hb Hp. unfold receive_message, bind, map_err, receive_buffer.
  destruct (receive_framed_receives (λ _, false) fuel b rest t) as (t' & -> & ? & ?); try done.
  exists t'. unfold ok_or. by rewrite (deserialize_serialized m b Hm).
Qed.
End sender.

(** C12: messages sent over one stream are received, whole and in order, from a
    stream that carries the same bytes, whatever the pieces in which either of
    them takes or gives the bytes. *)
Theorem messages_delivered {T1 T2 E1 E2} {S1 : Stream T1 E1} {S2 : Stream T2 E2}
    {sent1 pending1 : T1 → bytes} {sent2 pending2 : T2 → bytes}
    {C1 : Connected S1 sent1 pending1} {C2 : Connected S2 sent2 pending2} fuel ms t :
  Forall fits ms →
  ∃ t' wire, send_all fuel ms t = (Ok tt, t') ∧ sent1 t' = sent1 t ++ wire ∧
    ∀ u rest, pending2 u = wire ++ rest →
      ∃ u', receive_n fuel (length ms) u = (Ok ms, u') ∧ pending2 u' = rest.
Proof.
  intros Hms. revert t. induction Hms as [|m ms (b & Hm & Hb) _ IH]; intros t; simpl.
  - exists t, []. rewrite app_nil_r. split_and!; [done..|]. intros u rest Hu. by exists u.
  - unfold bind. destruct (send_message_sends fuel m b t) as (t1 & -> & Hs1 & _); [done..|].
    destruct (IH t1) as (t' & wire & -> & Hs & Hrecv). exists t', (frame b ++ wire).
    split_and!; [done|by rewrite Hs, Hs1, app_assoc|].
    intros u rest Hu. rewrite <- app_assoc in Hu.
    destruct (receive_message_receives fuel m b (wire ++ rest) u) as (u1 & -> & Hu1 & _); [done..|].
    destruct (Hrecv u1 rest Hu1) as (u' & -> & Hu'). by exists u'.
Qed.
End messages.

(** ** Streams that have ended *)

Section ended.
Context {BP : BuildProfile} {T E : Type} {S_ : Stream T E}.

(** A stream at its end gives no bytes, and no error. *)
Definition at_end (t : T) : Prop := ∀ k, stream_read k t = (Ok [], t).

Lemma read_loop_ended retry fuel buffer n t :
  at_end t → 0 ≤ n < len buffer → n < u64_bound →
  read_loop retry fuel buffer n t = (Abort OutOfFuel, t).
Proof.
  intros Hend Hn Hu. induction fuel as [|fuel IH]; cbn [read_loop];
    (destruct (Z.ltb_spec n (len buffer)); [|lia]); [done|].
  unfold bind at 1, retrying, try_match. rewrite (Hend _). unfold ret at 1.
  change (len (@nil Byte.byte)) with 0. unfold bind at 1, lift at 1, usize_add.
  rewrite unsigned_add_small, Z.add_0_r by lia. unfold bind at 1, lift at 1, copy_into.
  rewrite Z.leb_refl, (proj2 (Z.leb_le _ _)), Z.sub_diag by lia. simpl. by rewrite take_drop.
Qed.

(** Waiting for a message on a connection that the other side has closed
    never returns: the loop is not left when no byte is read. *)
Theorem receive_never_returns fuel t :
  at_end t → (receive_buffer fuel t).1 = Abort OutOfFuel.
Proof.
  intros Hend. unfold receive_buffer, receive_framed, bind.
  by rewrite read_loop_ended by (done || lia).
Qed.
End ended.

Section failing.
Context {BP : BuildProfile} {T : Type} {RS : Stream T sock_error}.

Lemma write_loop_failing fuel buffer n t :
  (∀ bs, stream_write bs t = (Err Sys_other, t)) → 0 ≤ n < len buffer → n < u64_bound →
  write_loop is_sys fuel buffer n t = (Abort OutOfFuel, t).
Proof.
  intros Hw Hn Hu. induction fuel as [|fuel IH]; cbn [write_loop];
    (destruct (Z.ltb_spec n (len buffer)); [|lia]); [done|].
  unfold bind at 1, lift at 1, index_slice. rewrite !(proj2 (Z.leb_le _ _)) by lia. cbn [andb].
  unfold bind at 1, retrying, try_match. rewrite (Hw _). cbn [is_sys].
  unfold ret at 1, bind at 1, lift at 1, usize_add.
  by rewrite unsigned_add_small, Z.add_0_r by lia.
Qed.
End failing.

(** ** A channel *)

(** A connection that carries the bytes in pieces: [ch_sched] bounds the
    pieces in turn, and single bytes when it is used up. *)
Record channel := mkChannel { ch_sent : bytes; ch_pending : bytes; ch_sched : list nat }.

Definition piece (sched : list nat) (n : nat) : nat := Nat.min n (S (hd 0%nat sched)).

#[export] Instance channel_stream {E} : Stream channel E := {|
  stream_write buf c :=
    let n := piece (ch_sched c) (length buf) in
    (Ok (Z.of_nat n), mkChannel (ch_sent c ++ take n buf) (ch_pending c) (tl (ch_sched c)));
  stream_read k c :=
    let n := piece (ch_sched c) (Z.to_nat k) in
    (Ok (take n (ch_pending c)), mkChannel (ch_sent c) (drop n (ch_pending c)) (tl (ch_sched c)));
|}.

#[export] Instance channel_connected {E} : Connected (channel_stream (E:=E)) ch_sent ch_pending.
Proof.
  split.
  - intros buf [s p q] Hne. simpl. eexists _, _. split; [done|]. unfold piece, len.
    apply len_nonempty in Hne. unfold len in Hne. rewrite Nat2Z.id. split_and!; [lia..|done|done].
  - intros k [s p q] Hk Hne. simpl in *. eexists _, _. split; [done|]. unfold piece. simpl.
    split_and!; [|unfold len; rewrite length_take; lia|by rewrite take_drop|done].
    intros H. apply (f_equal length) in H. rewrite length_take in H. simpl in H.
    apply len_nonempty in Hne. unfold len in Hne. lia.
Qed.
