(* ===== verification/Session.v ===== *)
(** * TLS sessions ([session-manager])

    The session context, which turns a policy and a certificate chain into a
    server configuration, and the sessions made from it.

    Sources: [session-manager/src/session.rs], [session_context.rs],
    [error.rs]; [veracruz-utils/src/lib.rs] ([lookup_ciphersuite]).

    The TLS stack is [rustls], with [rustls_pemfile] for certificates and
    [mbedtls] for key generation: parameters of the model.  A method of a
    connection returns its result and the connection it leaves. *)

From S2P Require Import Prelude Policy.

(** A certificate is its DER bytes. *)
Abbreviation Certificate := (list Byte.byte) (only parsing).

Class TlsLibs := {
  TlsError : Type;
  IoError : Type;
  io_would_block : IoError → bool;
  PrivateKey : Type;
  (** [rustls_pemfile::certs] *)
  pem_certs : string → option (list bytes);
  RootCertStore : Type;
  root_store_empty : RootCertStore;
  root_store_add : RootCertStore → bytes → RootCertStore + TlsError;
  CipherSuite : Type;
  cipher_suite_eqb : CipherSuite → CipherSuite → bool;
  lookup_value : string → option CipherSuite;
  SupportedCipherSuite : Type;
  suite_of : SupportedCipherSuite → CipherSuite;
  ALL_CIPHER_SUITES : list SupportedCipherSuite;
  (** the configuration builder, from the suite and the client store, and the
      configuration, from the chain and the private key *)
  ConfigBuilder : Type;
  config_builder : SupportedCipherSuite → RootCertStore → ConfigBuilder + TlsError;
  ServerConfig : Type;
  with_single_cert : ConfigBuilder → list bytes → PrivateKey → ServerConfig + TlsError;
  (** [Pk::generate_ec] with the two DER encodings of the key *)
  generate_key : option (bytes * PrivateKey);
  ServerConnection : Type;
  connection_new : ServerConfig → ServerConnection + TlsError;
  (** the number of bytes taken from the front of the input *)
  read_tls : ServerConnection → bytes → (nat + IoError) * ServerConnection;
  process_new_packets : ServerConnection → (unit + TlsError) * ServerConnection;
  write_all : ServerConnection → bytes → (unit + IoError) * ServerConnection;
  wants_write : ServerConnection → bool;
  write_tls : ServerConnection → (bytes + IoError) * ServerConnection;
  (** the bytes read before the end or the error *)
  read_to_end : ServerConnection → (bytes * option IoError) * ServerConnection;
  peer_certificates : ServerConnection → option (list bytes);
  is_handshaking : ServerConnection → bool;
}.

(** [read_tls] takes at least a byte of an input that is not empty. *)
Class TlsLaws (TL : TlsLibs) : Prop := {
  read_tls_progress c input n c' :
    read_tls c input = (inl n, c') → input ≠ [] → 1 ≤ n;
}.

Section session.
Context {TL : TlsLibs}.

Inductive SessionManagerError :=
  | TLSError (e : TlsError)
  | TLSUnspecifiedError
  | TLSInvalidCiphersuiteError (s : string)
  | IOError (e : IoError)
  | MbedtlsUnspecifiedError
  | WebpkiError (e : TlsError)
  | PeerCertificateError
  | InvalidLengthError (name : string) (n : Z)
  | NoCertificateError
  | InvalidStateError.

(** ** Sessions ([session.rs]) *)

Abbreviation SPrincipal := (Identity bytes).

Record Session := mkSession
  { tls_connection : ServerConnection; session_principals : list SPrincipal }.

Abbreviation SM A := (ST Session SessionManagerError A).

(** [self.tls_connection.op(..).map_err(f)?] *)
Definition on_connection {A E'} (op : ServerConnection → (A + E') * ServerConnection)
    (f : E' → SessionManagerError) : SM A := λ s,
  let '(r, c) := op (tls_connection s) in
  (match r with inl a => Ok a | inr e => Err (f e) end, mkSession c (session_principals s)).

Definition Session_new (config : ServerConfig) (principals : list SPrincipal) :
  outcome SessionManagerError Session :=
  match connection_new config with
  | inl c => Ok (mkSession c principals)
  | inr e => Err (TLSError e)
  end.

(** The loop of [send_tls_data]; each turn takes bytes off the input. *)
Fixpoint send_tls_loop (fuel : nat) (slice : bytes) : SM unit :=
  match slice with
  | [] => ret tt
  | _ =>
      match fuel with
      | O => panic OutOfFuel
      | S fuel' =>
          let! n := on_connection (λ c, read_tls c slice) IOError in
          let! _u := on_connection process_new_packets TLSError in
          send_tls_loop fuel' (drop n slice)
      end
  end.
Definition send_tls_data (input : bytes) : SM unit := send_tls_loop (length input) input.

Definition return_data (input : bytes) : SM unit :=
  on_connection (λ c, write_all c input) IOError.

Definition read_tls_data : SM (option bytes) :=
  let! s := get in
  if wants_write (tls_connection s) then
    let! output := on_connection write_tls IOError in ret (Some output)
  else ret None.

(** The last principal with the peer's certificate; 0 when there is none. *)
Definition client_id_of (principals : list SPrincipal) (cert : bytes) : Z :=
  foldl (λ client_id p,
    if bool_decide (certificate p = cert) then identity_id p else client_id) 0%Z principals.

Definition read_plaintext_data : SM (option (Z * bytes)) :=
  let! r := on_connection (λ c, let '(r, c') := read_to_end c in (inl r, c')) (λ e : IoError, IOError e) in
  let! received_buffer :=
    (match r with
     | (buf, None) => ret buf
     | (buf, Some err) => if io_would_block err then ret buf else throw (IOError err)
     end) in
  let! _u := on_connection process_new_packets TLSError in
  match received_buffer with
  | [] => ret None
  | _ =>
      let! s := get in
      let! peer_certs := ok_or (peer_certificates (tls_connection s)) PeerCertificateError in
      match peer_certs with
      | [cert] => ret (Some (client_id_of (session_principals s) cert, received_buffer))
      | _ => throw (InvalidLengthError "peer_certs" 1)
      end
  end.

Definition read_tls_needed (s : Session) : bool := wants_write (tls_connection s).
Definition is_authenticated (s : Session) : bool := negb (is_handshaking (tls_connection s)).

(** ** The session context ([session_context.rs]) *)

Record SessionContext := mkContext {
  sc_config_builder : option ConfigBuilder;
  sc_config : option ServerConfig;
  sc_policy : option Policy;
  sc_principals : option (list SPrincipal);
  sc_private_key : PrivateKey;
  sc_public_key : bytes;
}.

Abbreviation SCM A := (ST SessionContext SessionManagerError A).

Definition convert_cert_buffer (cert_string : string) : outcome SessionManagerError bytes :=
  match pem_certs cert_string with
  | None => Err TLSUnspecifiedError
  | Some [] => Err NoCertificateError
  | Some (c :: _) => Ok c
  end.

(** The slice [[23..]] of the public key's DER encoding. *)
Definition SessionContext_new : outcome SessionManagerError SessionContext :=
  match generate_key with
  | None => Err MbedtlsUnspecifiedError
  | Some (public_der, private_key) =>
      if decide (23 ≤ length public_der)
      then Ok (mkContext None None None None private_key (drop 23 public_der))
      else Abort SliceOutOfRange
  end.

Definition lookup_ciphersuite (suite_string : string) : option SupportedCipherSuite :=
  match lookup_value suite_string with
  | None => None
  | Some ciphersuite_enum =>
      snd <$> list_find (λ s, cipher_suite_eqb (suite_of s) ciphersuite_enum = true) ALL_CIPHER_SUITES
  end.

(** The loop of [set_policy], with the store and the principals so far. *)
Fixpoint collect_principals (l : list (Identity string)) (store : RootCertStore)
    (principals : list SPrincipal) : outcome SessionManagerError (RootCertStore * list SPrincipal) :=
  match l with
  | [] => Ok (store, principals)
  | identity :: l' =>
      match convert_cert_buffer (certificate identity) with
      | Ok cert =>
          let principal := mkIdentity cert (identity_id identity) (file_rights identity) in
          match root_store_add store cert with
          | inl store' => collect_principals l' store' (principals ++ [principal])
          | inr e => Err (WebpkiError e)
          end
      | Err e => Err e
      | Abort p => Abort p
      end
  end.

Definition set_policy (policy : Policy) : SCM unit :=
  let! r := lift (collect_principals (identities policy) root_store_empty []) in
  let! policy_ciphersuite :=
    ok_or (lookup_ciphersuite (ciphersuite policy)) (TLSInvalidCiphersuiteError (ciphersuite policy)) in
  let! builder :=
    (match config_builder policy_ciphersuite r.1 with
     | inl b => ret b
     | inr e => throw (TLSError e)
     end) in
  modify (λ c, mkContext (Some builder) (sc_config c) (Some policy) (Some r.2)
                 (sc_private_key c) (sc_public_key c)).

(** [take] leaves no builder, whatever happens next. *)
Definition set_cert_chain (chain_data : list bytes) : SCM unit :=
  let! c := get in
  do! modify (λ c, mkContext None (sc_config c) (sc_policy c) (sc_principals c)
                     (sc_private_key c) (sc_public_key c)) in
  match sc_config_builder c with
  | None => throw InvalidStateError
  | Some b =>
      match with_single_cert b chain_data (sc_private_key c) with
      | inr e => throw (TLSError e)
      | inl config =>
          modify (λ c, mkContext (sc_config_builder c) (Some config) (sc_policy c)
                         (sc_principals c) (sc_private_key c) (sc_public_key c))
      end
  end.

Definition server_config (c : SessionContext) : outcome SessionManagerError ServerConfig :=
  match sc_config c with Some config => Ok config | None => Err InvalidStateError end.
Definition principals (c : SessionContext) : outcome SessionManagerError (list SPrincipal) :=
  match sc_principals c with Some ps => Ok ps | None => Err InvalidStateError end.
Definition public_key (c : SessionContext) : bytes := sc_public_key c.
Definition private_key (c : SessionContext) : PrivateKey := sc_private_key c.

Definition create_session (c : SessionContext) : outcome SessionManagerError Session :=
  match server_config c with
  | Ok config =>
      match principals c with
      | Ok ps => Session_new config ps
      | Err e => Err e
      | Abort p => Abort p
      end
  | Err e => Err e
  | Abort p => Abort p
  end.
End session.
