(* ===== verification/Csr.v ===== *)
(** * Certificate signing requests ([veracruz-utils])

    The request the enclave makes for its certificate, and the text of a UTC
    time.

    Source: [veracruz-utils/src/csr.rs].

    Keys and requests are those of [mbedtls]: a class.  What the library
    draws from the random generator is part of its answer. *)

From S2P Require Import Prelude RustFmt Policy Session.
Local Open Scope Z_scope.

Class MbedtlsCsr {TL : TlsLibs} := {
  Pk : Type;
  Pk_from_private_key : PrivateKey → option Pk;
  (** [csr::Builder::subject]: whether the text is a subject *)
  csr_subject : string → bool;
  (** [write_der_vec] of the builder with the key and the subjects *)
  csr_write_der : Pk → list string → option bytes;
}.

Inductive CertError :=
  | InvalidLength (variable : string) (expected received : Z)
  | InvalidUtcInputs (month day hour minute second : Z).

(** Every failure of the library is unwrapped. *)
Definition csr_subjects : list string :=
  ["C=US"; "ST=Texas"; "L=Austin"; "O=Veracruz"; "OU=Compute Enclave"; "CN=VeracruzCompute"].

Definition csr_generate_csr {TL : TlsLibs} {MC : MbedtlsCsr} (private_key_der : PrivateKey) :
  outcome CertError bytes :=
  match Pk_from_private_key private_key_der with
  | None => Abort UnwrapOnErr
  | Some pk_private =>
      if forallb csr_subject csr_subjects then
        match csr_write_der pk_private csr_subjects with
        | Some csr => Ok csr
        | None => Abort UnwrapOnErr
        end
      else Abort UnwrapOnErr
  end.

Definition generate_utc_time (year month day hour minute second : Z) : outcome CertError bytes :=
  if (11 <? month) || (30 <? day) || (23 <? hour) || (59 <? minute) || (59 <? second)
  then Err (InvalidUtcInputs month day hour minute second)
  else
    let year := year mod 2000 in
    Ok (as_bytes (fmt_dec2 year ++ fmt_dec2 month ++ fmt_dec2 day ++ fmt_dec2 hour
                  ++ fmt_dec2 minute ++ fmt_dec2 second ++ "Z")).
