(* ===== verification/Runtime.v ===== *)
(** * The runtime manager ([runtime-manager])

    The protocol state that holds the policy and the virtual filesystem, the
    dispatch of client requests, and the management of sessions.

    Sources: [runtime-manager/src/managers/mod.rs],
    [execution_engine_manager.rs], [session_manager.rs], [error.rs];
    [execution-engine/src/lib.rs] ([execute]).

    The static variables of the manager are the fields of [Runtime].  Their
    mutexes are taken in a fixed order within a call and released at its end,
    so in one thread they are never contended. *)

From S2P Require Import Prelude RustPath WasiTypes Policy InodeTable FileSystem FsOps Services.
From S2P Require Import FsSystem Transport Framing Session Csr.

(** ** Executing programs *)

(** The WebAssembly engines, each a run of a program over a handler of the
    filesystem; [jit_available] is the build's choice of features. *)
Class WasmEngines {WR : WasiRights} := {
  FatalEngineError : Type;
  EngineIsNotReady : FatalEngineError;
  jit_available : bool;
  wasmi_run : bool → bytes → ST fs_state FatalEngineError Z;
  wasmtime_run : bool → bytes → ST fs_state FatalEngineError Z;
}.

Section calls.
Context {BP : BuildProfile} {WR : WasiRights} {HO : HashOrder} {NL : NativeLibs}.

(** The state after a sequence of calls through a handler. *)
Definition run_calls (cs : list syscall) (s : fs_state) : fs_state :=
  foldl (λ s c, (run_call c s).2) s cs.
End calls.

(** A program acts on the filesystem only through the operations of the
    handler it is given. *)
Class WasmEnginesLaws {BP : BuildProfile} {WR : WasiRights} {HO : HashOrder} {NL : NativeLibs}
    (WE : WasmEngines) : Prop := {
  wasmi_calls clk prog s : ∃ cs, (wasmi_run clk prog s).2 = run_calls cs s;
  wasmtime_calls clk prog s : ∃ cs, (wasmtime_run clk prog s).2 = run_calls cs s;
}.

Section runtime.
Context {BP : BuildProfile} {WR : WasiRights} {HO : HashOrder} {NL : NativeLibs}
  {PL : PolicyLibs} {WE : WasmEngines} {TL : TlsLibs} {MC : MbedtlsCsr}
  {P1 : ProtobufMessage RuntimeManagerRequest} {P2 : ProtobufMessage RuntimeManagerResponse}.

Definition execute_program (strategy : ExecutionStrategy) (program : bytes) (enable_clock : bool) :
  ST fs_state FatalEngineError Z :=
  match strategy with
  | Interpretation => wasmi_run enable_clock program
  | JIT => if jit_available then wasmtime_run enable_clock program else throw EngineIsNotReady
  end.

(** ** Errors ([error.rs]) *)

Inductive RuntimeManagerError :=
  | RmSessionManagerError (e : SessionManagerError)
  | RmTransportProtocolError (e : TransportProtocolError)
  | VeracruzUtilError (e : PolicyError)
  | FatalHostError (e : FatalEngineError)
  | FileSystemError (e : ErrNo.t)
  | UninitializedSessionError (fn_name : string)
  | NoDataError
  | UnavailableSessionError (id : Z)
  | UninitializedProtocolState
  | RmCertError (e : CertError)
  | ExecutionDenied
  | UnsafeCallError (fn_name : string) (code : Z)
  | RmIOError (e : IoError)
  | VeracruzSocketError (e : sock_error)
  | RmBincodeError
  | NsmLibError (code : Z)
  | NsmErrorCode (code : Z).

(** [r.map_err(f)] on a plain result *)
Definition err_into {E A} (f : E → RuntimeManagerError) (r : outcome E A) :
  outcome RuntimeManagerError A :=
  match r with Ok a => Ok a | Err e => Err (f e) | Abort p => Abort p end.

(** [r.unwrap_or_else(|err| panic!(..))] *)
Definition unwrap_or_panic {E A} (r : outcome E A) : outcome RuntimeManagerError A :=
  match r with Ok a => Ok a | Err _ => Abort UnwrapOnErr | Abort p => Abort p end.

(** ** The protocol state ([mod.rs]) *)

Record ProtocolState := mkProtocolState {
  global_policy : Policy;
  global_policy_hash : string;
  expected_shutdown_sources : list Z;
  vfs : fs_state;
  digest_table : PathMap bytes;
}.

Abbreviation PS A := (ST ProtocolState RuntimeManagerError A).

Definition set_vfs (s : fs_state) (p : ProtocolState) : ProtocolState :=
  mkProtocolState (global_policy p) (global_policy_hash p) (expected_shutdown_sources p) s
    (digest_table p).

Definition on_vfs {A} (op : M A) : PS A := map_err FileSystemError (zoom vfs set_vfs op).

Definition su_read_rights : PathMap Rights :=
  pm_insert (path "/")
    (rights_union (rights_union (rights_union (right_of PATH_OPEN) (right_of FD_READ))
       (right_of FD_SEEK)) (right_of FD_READDIR)) ∅.

Definition ProtocolState_new (policy : Policy) (policy_hash : string) :
  outcome RuntimeManagerError ProtocolState :=
  let expected_shutdown_sources := expected_shutdown_list policy in
  let rights_table := <[InternalSuperUser := su_read_rights]> (get_rights_table policy) in
  match err_into VeracruzUtilError (get_file_hash_table policy) with
  | Ok digest_table =>
      match err_into FileSystemError (FileSystem_new rights_table) with
      | Ok vfs => Ok (mkProtocolState policy policy_hash expected_shutdown_sources vfs digest_table)
      | Err e => Err e
      | Abort p => Abort p
      end
  | Err e => Err e
  | Abort p => Abort p
  end.

Definition get_policy_hash (p : ProtocolState) : string := global_policy_hash p.

(** The comparison of digests, byte by byte. *)
Definition digest_matches (digest incoming_digest : bytes) : bool :=
  (len incoming_digest =? len digest)%Z &&
  forallb (λ e, Byte.eqb e.1 e.2) (zip digest incoming_digest).

Definition check_digest (file_name : string) (data : bytes) : PS unit :=
  let! p := get in
  match pm_get (path file_name) (digest_table p) with
  | Some digest => fail_if (negb (digest_matches digest (sha256 data))) (FileSystemError ErrNo.Access)
  | None => ret tt
  end.

(** [self.vfs.spawn(client_id)?.op(..)?] *)
Definition on_spawned {A} (client_id : Principal) (op : M A) : PS A :=
  on_vfs (let! h := spawn client_id in
          let! r := with_handle h op in ret r.1).

Definition write_file (client_id : Principal) (file_name : string) (data : bytes) : PS unit :=
  do! check_digest file_name data in
  if decide (file_name = CANONICAL_STDIN_FILE_PATH) then
    let! _n := on_spawned client_id (write_stdin data) in ret tt
  else on_spawned client_id (write_file_by_absolute_path (path file_name) data false).

Definition append_file (client_id : Principal) (file_name : string) (data : bytes) : PS unit :=
  let! p := get in
  do! fail_if (bool_decide (is_Some (pm_get (path file_name) (digest_table p))))
        (FileSystemError ErrNo.Access) in
  on_spawned client_id (write_file_by_absolute_path (path file_name) data true).

Definition read_file (client_id : Principal) (file_name : string) : PS (option bytes) :=
  let! rst := on_spawned client_id
    (if decide (file_name = "stderr") then read_stderr
     else if decide (file_name = "stdout") then read_stdout
     else read_file_by_absolute_path (path file_name)) in
  ret (match rst with [] => None | _ => Some rst end).

Definition request_and_check_shutdown (client_id : Z) : PS bool :=
  let! p := get in ret (bool_decide (client_id ∈ expected_shutdown_sources p)).

Definition response_error_code_returned (error_code : Z) : outcome RuntimeManagerError bytes :=
  unwrap_or_panic (serialize_result (ResponseStatus_as_i32 SUCCESS) (Some (to_le_bytes 4 error_code))).

Abbreviation ProvisioningResponse := (option bytes).

Definition execute (client_id : Principal) (file_name : string) : PS ProvisioningResponse :=
  let! p := get in
  let execution_strategy := execution_strategy (global_policy p) in
  let enable_clock := enable_clock (global_policy p) in
  let! ok := on_vfs (is_executable client_id (path file_name)) in
  do! fail_if (negb ok) ExecutionDenied in
  let! content := read_file InternalSuperUser file_name in
  let! program := ok_or content (FileSystemError ErrNo.NoEnt) in
  let! h := on_vfs (spawn (ProgramP file_name)) in
  let! r := map_err FatalHostError (zoom vfs set_vfs
              (with_handle h (execute_program execution_strategy program enable_clock))) in
  let! response := lift (response_error_code_returned r.1) in
  ret (Some response).

(** ** Dispatch ([execution_engine_manager.rs]) *)

(** The static variables of the manager, and the transport protocol's. *)
Record Runtime := mkRuntime {
  MY_SESSION_MANAGER : option SessionContext;
  SESSION_COUNTER : Z;
  SESSIONS : gmap Z Session;
  PROTOCOL_STATE : option ProtocolState;
  DEBUG_FLAG : bool;
  INCOMING_BUFFER_HASH : IncomingBuffers;
}.

Definition Runtime_initial : Runtime := mkRuntime None 1 ∅ None false ∅.

Abbreviation RM A := (ST Runtime RuntimeManagerError A).

Definition set_session_manager (c : option SessionContext) (r : Runtime) : Runtime :=
  mkRuntime c (SESSION_COUNTER r) (SESSIONS r) (PROTOCOL_STATE r) (DEBUG_FLAG r) (INCOMING_BUFFER_HASH r).
Definition set_session_counter (z : Z) (r : Runtime) : Runtime :=
  mkRuntime (MY_SESSION_MANAGER r) z (SESSIONS r) (PROTOCOL_STATE r) (DEBUG_FLAG r) (INCOMING_BUFFER_HASH r).
Definition set_sessions (m : gmap Z Session) (r : Runtime) : Runtime :=
  mkRuntime (MY_SESSION_MANAGER r) (SESSION_COUNTER r) m (PROTOCOL_STATE r) (DEBUG_FLAG r) (INCOMING_BUFFER_HASH r).
Definition set_protocol_state (p : option ProtocolState) (r : Runtime) : Runtime :=
  mkRuntime (MY_SESSION_MANAGER r) (SESSION_COUNTER r) (SESSIONS r) p (DEBUG_FLAG r) (INCOMING_BUFFER_HASH r).
Definition set_debug_flag (b : bool) (r : Runtime) : Runtime :=
  mkRuntime (MY_SESSION_MANAGER r) (SESSION_COUNTER r) (SESSIONS r) (PROTOCOL_STATE r) b (INCOMING_BUFFER_HASH r).
Definition set_incoming (h : IncomingBuffers) (r : Runtime) : Runtime :=
  mkRuntime (MY_SESSION_MANAGER r) (SESSION_COUNTER r) (SESSIONS r) (PROTOCOL_STATE r) (DEBUG_FLAG r) h.

(** Run [op] on the protocol state under its lock. *)
Definition on_protocol {A} (op : PS A) : RM A := λ r,
  match PROTOCOL_STATE r with
  | None => (Err UninitializedProtocolState, r)
  | Some p => let '(o, p') := op p in (o, set_protocol_state (Some p') r)
  end.

Definition serialize {A} (r : outcome TransportProtocolError bytes) : ST A RuntimeManagerError bytes :=
  lift (err_into RmTransportProtocolError r).

Definition response_success (result : option bytes) : outcome RuntimeManagerError bytes :=
  unwrap_or_panic (serialize_result (ResponseStatus_as_i32 SUCCESS) result).

Definition response_invalid_request {A} : ST A RuntimeManagerError ProvisioningResponse :=
  let! rst := serialize (serialize_result (ResponseStatus_as_i32 FAILED_INVALID_REQUEST) None) in
  ret (Some rst).

Definition dispatch_on_policy_hash : PS ProvisioningResponse :=
  let! p := get in
  let! response := serialize (serialize_policy_hash (as_bytes (get_policy_hash p))) in
  ret (Some response).

Definition dispatch_on_result (file_name : string) (client_id : Z) : PS ProvisioningResponse :=
  execute (Participant client_id) file_name.

Definition dispatch_on_write (d : Data) (client_id : Z) : PS ProvisioningResponse :=
  do! write_file (Participant client_id) (d_file_name d) (d_data d) in
  let! response := serialize (serialize_result (ResponseStatus_as_i32 SUCCESS) None) in
  ret (Some response).

Definition dispatch_on_append (d : Data) (client_id : Z) : PS ProvisioningResponse :=
  do! append_file (Participant client_id) (d_file_name d) (d_data d) in
  let! response := serialize (serialize_result (ResponseStatus_as_i32 SUCCESS) None) in
  ret (Some response).

Definition dispatch_on_read (file_name : string) (client_id : Z) : PS ProvisioningResponse :=
  let! result := read_file (Participant client_id) file_name in
  let! response := lift (response_success result) in
  ret (Some response).

Definition dispatch_on_request (client_id : Z) (request : RuntimeManagerRequest_oneof) :
  RM ProvisioningResponse :=
  match request with
  | Rq_write_file data => on_protocol (dispatch_on_write data client_id)
  | Rq_append_file data => on_protocol (dispatch_on_append data client_id)
  | Rq_request_pi_hash _ =>
      on_protocol (let! r := serialize (serialize_pi_hash (as_bytes "deprecated")) in ret (Some r))
  | Rq_request_policy_hash => on_protocol dispatch_on_policy_hash
  | Rq_request_result file_name => on_protocol (dispatch_on_result file_name client_id)
  | Rq_request_shutdown =>
      let! is_dead := on_protocol (request_and_check_shutdown client_id) in
      do! (if is_dead : bool then modify (set_protocol_state None) else ret tt) in
      let! r := lift (response_success None) in
      ret (Some r)
  | Rq_read_file file_name => on_protocol (dispatch_on_read file_name client_id)
  | Rq_request_proxy_psa_attestation_token _ | Rq_psa_attestation_init _ =>
      on_protocol response_invalid_request
  end.

Definition parse_incoming_buffer (tls_session_id : Z) (input : bytes) :
  RM (option RuntimeManagerRequest) := λ r,
  match parse_runtime_manager_request (Some tls_session_id) input (INCOMING_BUFFER_HASH r) with
  | (Ok v, h) => (Ok (Some v), set_incoming h r)
  | (Err (PartialBuffer _), h) => (Ok None, set_incoming h r)
  | (Err e, h) => (Err (RmTransportProtocolError e), set_incoming h r)
  | (Abort a, h) => (Abort a, set_incoming h r)
  end.

Definition dispatch_on_incoming_data (tls_session_id client_id : Z) (input : bytes) :
  RM ProvisioningResponse :=
  let! v := parse_incoming_buffer tls_session_id input in
  match v with
  | None => ret None
  | Some (mkRequest None _) => response_invalid_request
  | Some (mkRequest (Some request) _) => dispatch_on_request client_id request
  end.

(** ** Sessions ([session_manager.rs]) *)

Definition init_session_manager : RM unit :=
  let! new_session_manager := lift (err_into RmSessionManagerError SessionContext_new) in
  modify (set_session_manager (Some new_session_manager)).

(** Run [op] on the session context, or fail for [fn_name]. *)
Definition on_session_manager {A} (fn_name : string) (op : ST SessionContext SessionManagerError A) :
  RM A := λ r,
  match MY_SESSION_MANAGER r with
  | None => (Err (UninitializedSessionError fn_name), r)
  | Some c => let '(o, c') := op c in (err_into RmSessionManagerError o, set_session_manager (Some c') r)
  end.

Definition load_policy (policy_json : string) : RM unit :=
  let policy_hash := sha256 (as_bytes policy_json) in
  let! policy := lift (err_into VeracruzUtilError (Policy_from_json policy_json)) in
  do! (if debug policy then modify (set_debug_flag true) else ret tt) in
  let! state := lift (ProtocolState_new policy (hex_encode policy_hash)) in
  do! modify (set_protocol_state (Some state)) in
  on_session_manager "session_manager_state" (set_policy policy).

Definition load_cert_chain (chain : list bytes) : RM unit :=
  on_session_manager "load_cert_chain" (set_cert_chain chain).

(** The counter is atomic and wraps. *)
Definition new_session : RM Z :=
  let! r := get in
  let local_session_id := SESSION_COUNTER r in
  do! modify (set_session_counter ((local_session_id + 1) mod u32_bound)%Z) in
  let! session := on_session_manager "new_session" (λ c, (create_session c, c)) in
  do! modify (λ r, set_sessions (<[local_session_id := session]> (SESSIONS r)) r) in
  ret local_session_id.

Definition close_session (session_id : Z) : RM unit :=
  modify (λ r, set_sessions (delete session_id (SESSIONS r)) r).

(** A method of the session [session_id]. *)
Definition on_session {A} (session_id : Z) (op : ST Session SessionManagerError A) : RM A := λ r,
  match SESSIONS r !! session_id with
  | None => (Err (UnavailableSessionError session_id), r)
  | Some s =>
      let '(o, s') := op s in
      (err_into RmSessionManagerError o, set_sessions (<[session_id := s']> (SESSIONS r)) r)
  end.

Definition send_data (session_id : Z) (input_data : bytes) : RM unit :=
  do! on_session session_id (send_tls_data input_data) in
  let! plaintext_option := on_session session_id read_plaintext_data in
  match plaintext_option with
  | None => ret tt
  | Some (client_id, plaintext_data) =>
      let! proc_ret := dispatch_on_incoming_data session_id client_id plaintext_data in
      match proc_ret with
      | None => ret tt
      | Some response => on_session session_id (return_data response)
      end
  end.

Definition get_data (session_id : Z) : RM (bool * bytes) :=
  let! result := on_session session_id (λ s, let '(o, s') := read_tls_data s in (Ok o, s')) in
  let! r := get in
  let active_flag := bool_decide (is_Some (PROTOCOL_STATE r)) in
  let! result := lift (err_into RmSessionManagerError result) in
  match result with
  | Some output_data => ret (active_flag, output_data)
  | None => throw NoDataError
  end.

Definition get_data_needed (session_id : Z) : RM bool :=
  on_session session_id (let! s := get in ret (read_tls_needed s)).

Definition get_enclave_private_key : RM PrivateKey :=
  on_session_manager "get_enclave_private_key" (let! c := get in ret (private_key c)).

Definition generate_csr : RM bytes :=
  let! private_key_der := get_enclave_private_key in
  lift (err_into RmCertError (csr_generate_csr private_key_der)).
End runtime.
