(* ===== verification/Enclave.v ===== *)
(** * The enclave's front ends ([runtime-manager])

    What runs in the enclave: a loop that receives requests from the Veracruz
    server, calls the managers, and answers, on each of the three platforms;
    and the messages that are exchanged.

    Sources: [veracruz-utils/src/runtime_manager_message.rs];
    [runtime-manager/src/runtime_manager_linux.rs],
    [runtime_manager_nitro.rs], [runtime_manager_icecap.rs].

    The attestation services of the platforms are classes: the PSA library,
    with a state of its own, and the Nitro secure module.  Setting up the
    listening sockets, the logger and the ring buffer is not modelled. *)

From S2P Require Import Prelude RustPath WasiTypes Policy FileSystem Services FsSystem.
From S2P Require Import Transport Framing Session Csr Runtime.
Local Open Scope Z_scope.

(** ** Messages *)

Module Message.

Inductive Status := Success | Fail | Unimplemented.

Inductive RuntimeManagerRequest :=
  | Attestation (challenge : bytes) (challenge_id : Z)
  | CloseTlsSession (session_id : Z)
  | GetTlsData (session_id : Z)
  | GetTlsDataNeeded (session_id : Z)
  | Initialize (policy_json : string) (chain : list bytes)
  | NewTlsSession
  | ResetEnclave
  | SendTlsData (session_id : Z) (tls_data : bytes).

(** [AttestationData] has one field in the Nitro build and two in the others. *)
Inductive RuntimeManagerResponse :=
  | NitroAttestationData (doc : bytes)
  | AttestationData (token csr : bytes)
  | StatusMsg (status : Status)
  | TlsData (data : bytes) (alive : bool)
  | TlsDataNeeded (needed : bool)
  | TlsSession (session_id : Z).

#[export] Instance Status_eq_dec : EqDecision Status.
Proof. solve_decision. Defined.
#[export] Instance RuntimeManagerRequest_eq_dec : EqDecision RuntimeManagerRequest.
Proof. solve_decision. Defined.
#[export] Instance RuntimeManagerResponse_eq_dec : EqDecision RuntimeManagerResponse.
Proof. solve_decision. Defined.
End Message.

(** ** Attestation services *)

(** The functions of [psa_attestation]: a return code, and the key handle or
    the token that was written. *)
Class PsaAttestation (A : Type) := {
  psa_initial_attest_load_key : bytes → A → (Z * Z) * A;
  psa_initial_attest_get_token : bytes → bytes → bytes → A → (Z * bytes) * A;
  psa_initial_attest_remove_key : Z → A → Z * A;
}.

(** The Nitro secure module: [nsm_lib_init] and [nsm_get_attestation_doc],
    which gives the document or an error code. *)
Class NitroAttestation (A : Type) := {
  nsm_init : A → Z * A;
  nsm_get_attestation_doc : Z → bytes → bytes → A → (bytes + Z) * A;
}.

Section enclave.
Context {BP : BuildProfile} {WR : WasiRights} {HO : HashOrder} {NL : NativeLibs}
  {PL : PolicyLibs} {WE : WasmEngines} {TL : TlsLibs} {MC : MbedtlsCsr}
  {P1 : ProtobufMessage Transport.RuntimeManagerRequest}
  {P2 : ProtobufMessage Transport.RuntimeManagerResponse}
  {A : Type}.

(** The state of the enclave: the managers and the attestation service. *)
Record Enclave := mkEnclave { en_runtime : Runtime; en_service : A }.
Abbreviation EN X := (ST Enclave RuntimeManagerError X).

Definition set_runtime (r : Runtime) (e : Enclave) : Enclave := mkEnclave r (en_service e).
Definition set_service (a : A) (e : Enclave) : Enclave := mkEnclave (en_runtime e) a.

Definition on_managers {X} (op : ST Runtime RuntimeManagerError X) : EN X :=
  zoom en_runtime set_runtime op.
Definition on_service {X} (op : A → X * A) : EN X :=
  λ e, let '(x, a) := op (en_service e) in (Ok x, set_service a e).

(** [op().map(ok).unwrap_or_else(|e| Status(Fail))] *)
Definition or_fail {X} (op : EN X) (ok : X → Message.RuntimeManagerResponse) :
  EN Message.RuntimeManagerResponse :=
  try_match op (λ x, ret (ok x)) (λ _, ret (Message.StatusMsg Message.Fail)).

Definition success {X} (_ : X) : Message.RuntimeManagerResponse := Message.StatusMsg Message.Success.

(** ** Linux *)

Section linux.
Context {PA : PsaAttestation A} (root_private_key : bytes).

Definition unsafe_call {X} (name : string) (op : A → (Z * X) * A) : EN X :=
  let! r := on_service op in
  do! fail_if (negb (r.1 =? 0)) (UnsafeCallError name (r.1 mod u32_bound)) in
  ret r.2.

Definition linux_native_attestation (csr challenge runtime_manager_hash : bytes) : EN bytes :=
  let csr_hash := sha256 csr in
  let! root_key_handle :=
    unsafe_call "psa_initial_attest_load_key" (psa_initial_attest_load_key root_private_key) in
  let! token :=
    unsafe_call "psa_initial_attest_get_token"
      (psa_initial_attest_get_token runtime_manager_hash csr_hash challenge) in
  do! unsafe_call "psa_initial_attest_remove_key"
        (λ a, let '(r, a') := psa_initial_attest_remove_key root_key_handle a in ((r, tt), a')) in
  ret token.

Definition linux_initialize : EN Message.RuntimeManagerResponse :=
  or_fail (on_managers init_session_manager) success.

Definition linux_handle (measurement : bytes) (received_message : Message.RuntimeManagerRequest) :
  EN Message.RuntimeManagerResponse :=
  match received_message with
  | Message.Attestation challenge _challenge_id =>
      let! _status := linux_initialize in
      let! csr := on_managers generate_csr in
      let! token := linux_native_attestation csr challenge measurement in
      ret (Message.AttestationData token csr)
  | Message.Initialize policy_json chain =>
      let! loaded := try_match (on_managers (load_policy policy_json)) (λ _, ret true) (λ _, ret false) in
      if loaded : bool then
        do! on_managers (load_cert_chain chain) in
        ret (Message.StatusMsg Message.Success)
      else ret (Message.StatusMsg Message.Fail)
  | Message.NewTlsSession => or_fail (on_managers new_session) Message.TlsSession
  | Message.CloseTlsSession session_id => or_fail (on_managers (close_session session_id)) success
  | Message.GetTlsDataNeeded session_id =>
      or_fail (on_managers (get_data_needed session_id)) Message.TlsDataNeeded
  | Message.GetTlsData session_id =>
      or_fail (on_managers (get_data session_id)) (λ r, Message.TlsData r.2 r.1)
  | Message.SendTlsData session_id tls_data =>
      or_fail (on_managers (send_data session_id tls_data)) success
  | Message.ResetEnclave => ret (Message.StatusMsg Message.Unimplemented)
  end.
End linux.

(** ** Nitro *)

Section nitro.
Context {NA : NitroAttestation A}.

Definition nitro_attestation (challenge : bytes) (_challenge_id : Z) :
  EN Message.RuntimeManagerResponse :=
  do! on_managers init_session_manager in
  let! csr := on_managers generate_csr in
  let! nsm_fd := on_service nsm_init in
  do! fail_if (nsm_fd <? 0) (NsmLibError nsm_fd) in
  let! doc := on_service (nsm_get_attestation_doc nsm_fd csr challenge) in
  match doc with
  | inl att_doc => ret (Message.NitroAttestationData att_doc)
  | inr status => throw (NsmErrorCode status)
  end.

Definition nitro_initialize (policy_json : string) (cert_chain : list bytes) :
  EN Message.RuntimeManagerResponse :=
  do! on_managers (load_policy policy_json) in
  do! on_managers (load_cert_chain cert_chain) in
  ret (Message.StatusMsg Message.Success).

Definition nitro_handle (received_message : Message.RuntimeManagerRequest) :
  EN Message.RuntimeManagerResponse :=
  match received_message with
  | Message.Attestation challenge challenge_id => nitro_attestation challenge challenge_id
  | Message.Initialize policy_json certificate_chain => nitro_initialize policy_json certificate_chain
  | Message.NewTlsSession => or_fail (on_managers new_session) Message.TlsSession
  | Message.CloseTlsSession session_id => or_fail (on_managers (close_session session_id)) success
  | Message.GetTlsDataNeeded session_id =>
      or_fail (on_managers (get_data_needed session_id)) Message.TlsDataNeeded
  | Message.SendTlsData session_id tls_data =>
      or_fail (on_managers (send_data session_id tls_data)) success
  | Message.GetTlsData session_id =>
      or_fail (on_managers (get_data session_id)) (λ r, Message.TlsData r.2 r.1)
  | Message.ResetEnclave => ret (Message.StatusMsg Message.Unimplemented)
  end.
End nitro.
(** ** IceCap *)

(** The ring buffer shared with the server of the virtual console. *)
Class RingBuffer (T : Type) := {
  poll_read : T → Z;
  rb_peek : Z → T → bytes;
  rb_skip : Z → T → T;
  rb_read : Z → T → bytes * T;
  rb_write : bytes → T → T;
}.

(** [RuntimeManager] of [runtime_manager_icecap.rs] *)
Record RuntimeManager (T : Type) := mkRuntimeManager
  { rm_channel : T; rm_active : bool; rm_enclave : Enclave }.
#[global] Arguments mkRuntimeManager {T} _ _ _.
#[global] Arguments rm_channel {T} _.
#[global] Arguments rm_active {T} _.
#[global] Arguments rm_enclave {T} _.

Section icecap.
Context {PA : PsaAttestation A} (ROOT_PRIVATE_KEY RUNTIME_MANAGER_HASH : bytes).

Definition asserted_call {X} (op : A → (Z * X) * A) : EN X :=
  let! r := on_service op in
  if r.1 =? 0 then ret r.2 else panic AssertionFailed.

Definition icecap_native_attestation (challenge csr : bytes) : EN bytes :=
  let csr_hash := sha256 csr in
  let! root_key_handle := asserted_call (psa_initial_attest_load_key ROOT_PRIVATE_KEY) in
  let! token :=
    asserted_call (psa_initial_attest_get_token RUNTIME_MANAGER_HASH csr_hash challenge) in
  do! asserted_call
        (λ a, let '(r, a') := psa_initial_attest_remove_key root_key_handle a in ((r, tt), a')) in
  ret token.

Definition handle_attestation (_device_id : Z) (challenge : bytes) : EN (bytes * bytes) :=
  let! csr := on_managers generate_csr in
  let! token := icecap_native_attestation challenge csr in
  ret (token, csr).

(** [a.and(b)]: both are evaluated, then the first error counts. *)
Definition result_and {X Y} (a : EN X) (b : EN Y) : EN Y :=
  let! r := try_match a (λ _, ret None) (λ e, ret (Some e)) in
  let! y := try_match b (λ y, ret (inl y)) (λ e, ret (inr e)) in
  match r, y with
  | Some e, _ => throw e
  | None, inl y => ret y
  | None, inr e => throw e
  end.

Definition icecap_handle (req : Message.RuntimeManagerRequest) :
  EN Message.RuntimeManagerResponse :=
  match req with
  | Message.Attestation challenge device_id =>
      or_fail (result_and (on_managers init_session_manager) (handle_attestation device_id challenge))
        (λ r, Message.AttestationData r.1 r.2)
  | Message.Initialize policy_json cert_chain =>
      or_fail (result_and (on_managers (load_policy policy_json))
                 (on_managers (load_cert_chain cert_chain))) success
  | Message.NewTlsSession => or_fail (on_managers new_session) Message.TlsSession
  | Message.CloseTlsSession sess => or_fail (on_managers (close_session sess)) success
  | Message.SendTlsData sess data => or_fail (on_managers (send_data sess data)) success
  | Message.GetTlsDataNeeded sess => or_fail (on_managers (get_data_needed sess)) Message.TlsDataNeeded
  | Message.GetTlsData sess =>
      or_fail (on_managers (get_data sess)) (λ r, Message.TlsData r.2 r.1)
  | Message.ResetEnclave => ret (Message.StatusMsg Message.Success)
  end.

(** The flag of the manager after a response. *)
Definition active_after (active : bool) (response : Message.RuntimeManagerResponse) : bool :=
  match response with Message.TlsData _ active' => active' | _ => active end.

Inductive Fallible := RequestFormat | ResponseFormat | Handler (e : RuntimeManagerError).

Section process.
Context {T : Type} {RB : RingBuffer T} {B1 : Bincode Message.RuntimeManagerRequest}
  {B2 : Bincode Message.RuntimeManagerResponse} {BU : Bincode Z}.
Abbreviation IC X := (ST (RuntimeManager T) Fallible X).

Definition on_channel {X} (op : T → X * T) : IC X := λ m,
  let '(x, t) := op (rm_channel m) in (Ok x, mkRuntimeManager t (rm_active m) (rm_enclave m)).
Definition rm_set_enclave (e : Enclave) (m : RuntimeManager T) : RuntimeManager T :=
  mkRuntimeManager (rm_channel m) (rm_active m) e.
Definition rm_set_active (b : bool) (m : RuntimeManager T) : RuntimeManager T :=
  mkRuntimeManager (rm_channel m) b (rm_enclave m).

Definition icecap_respond (size : Z) : IC unit :=
  do! on_channel (λ t, (tt, rb_skip 4 t)) in
  let! raw_request := on_channel (rb_read size) in
  let! request := ok_or (bincode_deserialize raw_request) RequestFormat in
  let! response := map_err Handler (zoom rm_enclave rm_set_enclave (icecap_handle request)) in
  do! modify (λ m, rm_set_active (active_after (rm_active m) response) m) in
  let! raw_response := ok_or (bincode_serialize response) ResponseFormat in
  do! (if len raw_response <? u32_bound then ret tt else panic UnwrapOnErr) in
  let! raw_header := ok_or (bincode_serialize (len raw_response)) ResponseFormat in
  do! on_channel (λ t, (tt, rb_write raw_header t)) in
  on_channel (λ t, (tt, rb_write raw_response t)).

Definition icecap_process : IC unit :=
  let! available := on_channel (λ t, (poll_read t, t)) in
  if available <? 4 then ret tt else
  let! raw_header := on_channel (λ t, (rb_peek 4 t, t)) in
  let! size := ok_or (bincode_deserialize raw_header) RequestFormat in
  let! available := on_channel (λ t, (poll_read t, t)) in
  if available <? 4 + size then ret tt else icecap_respond size.

(** [n] notifications of the ring buffer; [true] once the manager returns. *)
Fixpoint icecap_run (n : nat) : IC bool :=
  match n with
  | O => ret false
  | S n' =>
      do! icecap_process in
      let! m := get in
      if rm_active m then icecap_run n' else ret true
  end.
End process.
End icecap.

(** ** The loops of Linux and Nitro *)

Section loops.
Context {B1 : Bincode Message.RuntimeManagerRequest} {B2 : Bincode Message.RuntimeManagerResponse}.

(** The enclave and its end of the connection. *)
Record Endpoint (T : Type) := mkEndpoint { ep_enclave : Enclave; ep_socket : T }.
#[global] Arguments mkEndpoint {T} _ _.
#[global] Arguments ep_enclave {T} _.
#[global] Arguments ep_socket {T} _.

Section turn.
Context {T : Type}.
Definition ep_set_enclave (e : Enclave) (p : Endpoint T) : Endpoint T := mkEndpoint e (ep_socket p).
Definition ep_set_socket (t : T) (p : Endpoint T) : Endpoint T := mkEndpoint (ep_enclave p) t.

(** A turn of the loop; any error ends the enclave. *)
Definition turn (receive : ST T RuntimeManagerError bytes) (send : bytes → ST T RuntimeManagerError unit)
    (handle : Message.RuntimeManagerRequest → EN Message.RuntimeManagerResponse) :
  ST (Endpoint T) RuntimeManagerError unit :=
  let! received_buffer := zoom ep_socket ep_set_socket receive in
  let! received_message := ok_or (bincode_deserialize received_buffer) RmBincodeError in
  let! return_message := zoom ep_enclave ep_set_enclave (handle received_message) in
  let! return_buffer := ok_or (bincode_serialize return_message) RmBincodeError in
  zoom ep_socket ep_set_socket (send return_buffer).

(** [n] turns of a loop *)
Fixpoint turns {S E} (n : nat) (body : ST S E unit) : ST S E unit :=
  match n with O => ret tt | S n' => do! body in turns n' body end.
End turn.

Definition linux_turn {T} {S_ : Stream T IoError} {PA : PsaAttestation A}
    (root_private_key measurement : bytes) (fuel : nat) : ST (Endpoint T) RuntimeManagerError unit :=
  turn (map_err RmIOError (receive_buffer fuel)) (λ b, map_err RmIOError (send_buffer fuel b))
    (linux_handle root_private_key measurement).

Definition nitro_turn {T} {S_ : Stream T sock_error} {NA : NitroAttestation A} (fuel : nat) :
  ST (Endpoint T) RuntimeManagerError unit :=
  turn (map_err VeracruzSocketError (raw_receive_buffer fuel))
    (λ b, map_err VeracruzSocketError (raw_send_buffer fuel b)) nitro_handle.
End loops.
End enclave.
