(* ===== verification/Server.v ===== *)
(** * The Veracruz server ([veracruz-server], [io-utils])

    The untrusted server between the clients and the enclave: it starts the
    enclave and has it attested, and passes the TLS records of the clients,
    which arrive over HTTP, to the enclave and back.

    Sources: [veracruz-server/src/server.rs], [veracruz_server.rs],
    [veracruz_server_linux.rs], [veracruz_server_nitro.rs];
    [io-utils/src/http.rs].

    [curl] and [base64] are classes, and so is the connection to the enclave
    ([Stream]).  The server is given a connection here; [Launch] has the
    start and the end of the enclave's process.  The HTTP framework is not
    modelled. *)

From S2P Require Import Prelude RustFmt RustPath WasiTypes Policy Transport Framing Enclave.
Local Open Scope Z_scope.

(** [base64::encode] and [decode] *)
Class Base64 := {
  b64_encode : bytes → string;
  b64_decode : string → option bytes;
}.
Class Base64Laws (B : Base64) : Prop := {
  b64_decode_encode b : b64_decode (b64_encode b) = Some b;
  b64_graphic b : Forall graphic (list_ascii_of_string (b64_encode b));
  b64_nonempty b : b ≠ [] → b64_encode b ≠ EmptyString;
}.

(** A transfer of [curl], with the network it leaves: the headers and the
    body of the answer. *)
Class Curl (N : Type) := {
  CurlError : Type;
  curl_post : string → string → N → ((string * string) + CurlError) * N;
}.

(** [haystack.contains(needle)] *)
Fixpoint contains (needle haystack : string) : bool :=
  String.prefix needle haystack ||
  match haystack with EmptyString => false | String _ h => contains needle h end.

(** ** HTTP ([http.rs]) *)

Section http.
Context {P3 : ProtobufMessage ProxyAttestationServerRequest}
  {P4 : ProtobufMessage ProxyAttestationServerResponse}
  {B64 : Base64} {N : Type} {CU : Curl N}.

Inductive HttpError :=
  | HttpCurlError (e : CurlError)
  | HttpSuccess
  | SerializationError (e : TransportProtocolError)
  | HttpBase64Error
  | HttpTransportProtocolError (e : TransportProtocolError)
  | AttestationError (e : TransportProtocolError)
  | ProtocolError (r : ProxyAttestationServerResponse).

(** The network, and the buffers of the transport protocol. *)
Record Net := mkNet { net : N; net_buffers : IncomingBuffers }.
Definition set_net (n : N) (s : Net) : Net := mkNet n (net_buffers s).
Definition set_net_buffers (h : IncomingBuffers) (s : Net) : Net := mkNet (net s) h.

Definition HTTP_OK : string := ("HTTP/1.1 200 OK" ++ String (Ascii.ascii_of_nat 13) EmptyString)%string.

Definition post_buffer (url buffer : string) : ST Net HttpError string := λ s,
  match curl_post url buffer (net s) with
  | (inr err, n) => (Err (HttpCurlError err), set_net n s)
  | (inl (received_header, received_body), n) =>
      (if contains HTTP_OK received_header then Ok received_body else Err HttpSuccess, set_net n s)
  end.

Definition proxy_response (response_body : bytes) :
  ST Net TransportProtocolError ProxyAttestationServerResponse :=
  zoom net_buffers set_net_buffers (parse_proxy_attestation_server_response None response_body).

Definition send_proxy_attestation_server_start (url_base protocol_name firmware_version : string) :
  ST Net HttpError (Z * bytes) :=
  let! start_msg :=
    map_err SerializationError (lift (serialize_start_msg protocol_name firmware_version)) in
  let encoded_start_msg := b64_encode start_msg in
  let url := (url_base ++ "/Start")%string in
  let! response := post_buffer url encoded_start_msg in
  let! response_body := ok_or (b64_decode response) HttpBase64Error in
  let! response := map_err HttpTransportProtocolError (proxy_response response_body) in
  match ps_message_oneof response with
  | Some (Ps_psa_attestation_init i) =>
      let! r := map_err AttestationError (lift (parse_psa_attestation_init i)) in
      ret (r.2, r.1)
  | _ => throw (ProtocolError response)
  end.
End http.

(** ** The server and the enclave *)

Section server.
Context {BP : BuildProfile} {PL : PolicyLibs}
  {P3 : ProtobufMessage ProxyAttestationServerRequest}
  {P4 : ProtobufMessage ProxyAttestationServerResponse}
  {B64 : Base64} {N : Type} {CU : Curl N}
  {B1 : Bincode Message.RuntimeManagerRequest} {B2 : Bincode Message.RuntimeManagerResponse}
  {T E : Type}.

(** [NitroError] of [io-utils/src/nitro.rs], as far as the start of an
    enclave produces it *)
Inductive NitroError := SerdeError | SerdeJsonError | NixError | NitroUtf8Error.

(** The variants the code that is modelled here produces. *)
Inductive VeracruzServerError :=
  | ServerIOError (e : E)
  | InvalidEnvironmentVariableValue (variable : string)
  | QemuSpawnError (e : E)
  | ServerNitroError (e : NitroError)
  | ServerSocketError (e : SocketError E)
  | InvalidRuntimeManagerResponse (r : Message.RuntimeManagerResponse)
  | StatusError (s : Message.Status)
  | ServerHttpError (e : HttpError)
  | ServerTransportProtocolError (e : TransportProtocolError)
  | ServerBase64Error
  | InvalidProtoBufMessage
  | ServerUtilError (e : PolicyError)
  | UnimplementedError
  | UninitializedEnclaveError
  | InvalidRequestFormatError
  | ParseIntError
  | IceCapChannelError (e : E)
  | IceCapSerializationError
  | UnexpectedRuntimeManagerResponse (r : Message.RuntimeManagerResponse).

(** The trait [VeracruzServer]; the reply to TLS data comes with whether the
    enclave is still active. *)
Class VeracruzServer (V : Type) := {
  plaintext_data : bytes → ST V VeracruzServerError (option bytes);
  new_tls_session : nat → ST V VeracruzServerError Z;
  close_tls_session : nat → Z → ST V VeracruzServerError unit;
  tls_data : nat → Z → bytes → ST V VeracruzServerError (bool * option (list bytes));
}.

Abbreviation VS A := (ST T VeracruzServerError A).

(** How a request reaches the enclave and its response comes back: over TCP
    on Linux, over a VSOCK on Nitro. *)
Class EnclaveLink := {
  call_enclave : nat → Message.RuntimeManagerRequest → VS Message.RuntimeManagerResponse;
}.

Definition tcp_link {S_ : Stream T E} : EnclaveLink := {|
  call_enclave fuel req :=
    do! map_err ServerSocketError (send_message fuel req) in
    map_err ServerSocketError (receive_message fuel);
|}.

Context {LK : EnclaveLink}.

Definition if_empty {X} (l : list X) : option (list X) :=
  match l with [] => None | _ => Some l end.

(** *** Linux ([veracruz_server_linux.rs]) *)

Definition linux_tls_data_needed (fuel : nat) (session_id : Z) : VS bool :=
  let! received := call_enclave fuel (Message.GetTlsDataNeeded session_id) in
  match received with
  | Message.TlsDataNeeded response => ret response
  | otherwise => throw (InvalidRuntimeManagerResponse otherwise)
  end.

Definition linux_read_tls_data (fuel : nat) (session_id : Z) : VS (bool * bytes) :=
  let! received := call_enclave fuel (Message.GetTlsData session_id) in
  match received with
  | Message.TlsData buffer alive => ret (alive, buffer)
  | otherwise => throw (InvalidRuntimeManagerResponse otherwise)
  end.

Definition linux_new_tls_session (fuel : nat) : VS Z :=
  let! message := call_enclave fuel Message.NewTlsSession in
  match message with
  | Message.TlsSession session_id => ret session_id
  | otherwise => throw (InvalidRuntimeManagerResponse otherwise)
  end.

Definition linux_close_tls_session (fuel : nat) (session_id : Z) : VS unit :=
  let! message := call_enclave fuel (Message.CloseTlsSession session_id) in
  match message with
  | Message.StatusMsg Message.Success => ret tt
  | Message.StatusMsg status => throw (StatusError status)
  | otherwise => throw (InvalidRuntimeManagerResponse otherwise)
  end.

(** The [while] loop; the fuel bounds its turns. *)
Fixpoint linux_tls_loop (n fuel : nat) (session_id : Z) (active : bool) (buffer : list bytes) :
  VS (bool * list bytes) :=
  let! needed := linux_tls_data_needed fuel session_id in
  if needed : bool then
    match n with
    | O => panic OutOfFuel
    | S n' =>
        let! r := linux_read_tls_data fuel session_id in
        linux_tls_loop n' fuel session_id r.1 (buffer ++ [r.2])
    end
  else ret (active, buffer).

Definition linux_tls_data (fuel : nat) (session_id : Z) (input : bytes) :
  VS (bool * option (list bytes)) :=
  let! message := call_enclave fuel (Message.SendTlsData session_id input) in
  do! match message with
      | Message.StatusMsg Message.Success => ret tt
      | Message.StatusMsg otherwise => throw (StatusError otherwise)
      | otherwise => throw (InvalidRuntimeManagerResponse otherwise)
      end in
  let! r := linux_tls_loop fuel fuel session_id true [] in
  ret (r.1, if_empty r.2).

#[local] Instance VeracruzServerLinux : VeracruzServer T := {|
  plaintext_data _ := throw UnimplementedError;
  new_tls_session := linux_new_tls_session;
  close_tls_session := linux_close_tls_session;
  tls_data := linux_tls_data;
|}.

(** *** Nitro ([veracruz_server_nitro.rs]) *)

Definition nitro_tls_data_needed (fuel : nat) (session_id : Z) : VS bool :=
  let! received_message := call_enclave fuel (Message.GetTlsDataNeeded session_id) in
  match received_message with
  | Message.TlsDataNeeded needed => ret needed
  | _ => throw (StatusError Message.Fail)
  end.

Definition nitro_new_tls_session (fuel : nat) : VS Z :=
  let! received_message := call_enclave fuel Message.NewTlsSession in
  match received_message with
  | Message.TlsSession sid => ret sid
  | _ => throw (InvalidRuntimeManagerResponse received_message)
  end.

(** Any status counts as success. *)
Definition nitro_close_tls_session (fuel : nat) (session_id : Z) : VS unit :=
  let! received_message := call_enclave fuel (Message.CloseTlsSession session_id) in
  match received_message with
  | Message.StatusMsg _ => ret tt
  | _ => throw (StatusError Message.Fail)
  end.

Fixpoint nitro_tls_loop (n fuel : nat) (session_id : Z) (active_flag : bool) (ret_array : list bytes) :
  VS (bool * list bytes) :=
  let! needed := nitro_tls_data_needed fuel session_id in
  if needed : bool then
    match n with
    | O => panic OutOfFuel
    | S n' =>
        let! received_message := call_enclave fuel (Message.GetTlsData session_id) in
        match received_message with
        | Message.TlsData data alive =>
            nitro_tls_loop n' fuel session_id alive (ret_array ++ [data])
        | _ => throw (StatusError Message.Fail)
        end
    end
  else ret (active_flag, ret_array).

Definition nitro_tls_data (fuel : nat) (session_id : Z) (input : bytes) :
  VS (bool * option (list bytes)) :=
  let! received_message := call_enclave fuel (Message.SendTlsData session_id input) in
  do! match received_message with
      | Message.StatusMsg Message.Success => ret tt
      | Message.StatusMsg status => throw (StatusError status)
      | _ => throw (InvalidRuntimeManagerResponse received_message)
      end in
  let! r := nitro_tls_loop fuel fuel session_id true [] in
  ret (r.1, if_empty r.2).

#[local] Instance VeracruzServerNitro : VeracruzServer T := {|
  plaintext_data _ := throw UnimplementedError;
  new_tls_session := nitro_new_tls_session;
  close_tls_session := nitro_close_tls_session;
  tls_data := nitro_tls_data;
|}.

(** *** IceCap ([veracruz_server_icecap.rs]) *)

(** [IceCapRealm::communicate]: the length goes first, as four bytes. *)
Definition realm_communicate {S_ : Stream T E} {SE : StreamErrors E} {BU : Bincode Z} (fuel : nat)
    (request : Message.RuntimeManagerRequest) : VS Message.RuntimeManagerResponse :=
  let! raw_request := ok_or (bincode_serialize request) IceCapSerializationError in
  do! (if len raw_request <? u32_bound then ret tt else panic UnwrapOnErr) in
  let! raw_header := ok_or (bincode_serialize (len raw_request)) IceCapSerializationError in
  do! map_err IceCapChannelError (write_all_bytes fuel raw_header) in
  do! map_err IceCapChannelError (write_all_bytes fuel raw_request) in
  let! raw_header := map_err IceCapChannelError (read_exact fuel 4) in
  let! header := ok_or (bincode_deserialize raw_header) IceCapSerializationError in
  let! raw_response := map_err IceCapChannelError (read_exact fuel header) in
  ok_or (bincode_deserialize raw_response) IceCapSerializationError.

Definition realm_link {S_ : Stream T E} {SE : StreamErrors E} {BU : Bincode Z} : EnclaveLink :=
  {| call_enclave := realm_communicate |}.

(** The realm, until it is shut down. *)
Abbreviation IS A := (ST (option T) VeracruzServerError A).

Definition icecap_communicate (fuel : nat) (request : Message.RuntimeManagerRequest) :
  IS Message.RuntimeManagerResponse := λ s,
  match s with
  | Some realm => let '(r, realm') := call_enclave fuel request realm in (r, Some realm')
  | None => (Err UninitializedEnclaveError, s)
  end.

Definition icecap_tls_data_needed (fuel : nat) (session_id : Z) : IS bool :=
  let! resp := icecap_communicate fuel (Message.GetTlsDataNeeded session_id) in
  match resp with
  | Message.TlsDataNeeded needed => ret needed
  | resp => throw (UnexpectedRuntimeManagerResponse resp)
  end.

Definition icecap_new_tls_session (fuel : nat) : IS Z :=
  let! resp := icecap_communicate fuel Message.NewTlsSession in
  match resp with
  | Message.TlsSession session_id => ret session_id
  | resp => throw (UnexpectedRuntimeManagerResponse resp)
  end.

(** [match communicate(..)? { Status(Success) => (), resp => return Err(..) }] *)
Definition icecap_expect_success (fuel : nat) (request : Message.RuntimeManagerRequest) : IS unit :=
  let! resp := icecap_communicate fuel request in
  match resp with
  | Message.StatusMsg Message.Success => ret tt
  | resp => throw (UnexpectedRuntimeManagerResponse resp)
  end.

Definition icecap_close_tls_session (fuel : nat) (session_id : Z) : IS unit :=
  icecap_expect_success fuel (Message.CloseTlsSession session_id).

(** Unlike on the other platforms, an inactive enclave ends the loop. *)
Fixpoint icecap_tls_loop (n fuel : nat) (session_id : Z) (acc : list bytes) : IS (bool * list bytes) :=
  let! needed := icecap_tls_data_needed fuel session_id in
  if negb needed then ret (true, acc) else
  match n with
  | O => panic OutOfFuel
  | S n' =>
      let! resp := icecap_communicate fuel (Message.GetTlsData session_id) in
      match resp with
      | Message.TlsData data active =>
          let acc := acc ++ [data] in
          if negb active then ret (false, acc) else icecap_tls_loop n' fuel session_id acc
      | resp => throw (UnexpectedRuntimeManagerResponse resp)
      end
  end.

Definition icecap_tls_data (fuel : nat) (session_id : Z) (input : bytes) :
  IS (bool * option (list bytes)) :=
  do! icecap_expect_success fuel (Message.SendTlsData session_id input) in
  let! r := icecap_tls_loop fuel fuel session_id [] in
  ret (r.1, if_empty r.2).

(** [shutdown_isolate]: killing the process is the operating system's. *)
Definition icecap_shutdown_isolate : IS unit := modify (λ _, None).

(** [plaintext_data] is the default of the trait, [unimplemented!()]. *)
#[local] Instance VeracruzServerIceCap : VeracruzServer (option T) := {|
  plaintext_data _ := panic NotImplemented;
  new_tls_session := icecap_new_tls_session;
  close_tls_session := icecap_close_tls_session;
  tls_data := icecap_tls_data;
|}.

(** *** Starting the enclave

    [new] of the three platforms, over a connection to an enclave that has been
    started: attestation with the proxy attestation server, then the policy
    and the certificate chain. *)

Record Start := mkStart { st_net : Net (N:=N); st_socket : T }.
Definition set_st_net (n : Net) (s : Start) : Start := mkStart n (st_socket s).
Definition set_st_socket (t : T) (s : Start) : Start := mkStart (st_net s) t.
Abbreviation SN A := (ST Start VeracruzServerError A).

Definition on_net {A X} (f : X → VeracruzServerError) (op : ST Net X A) : SN A :=
  map_err f (zoom st_net set_st_net op).
Definition on_socket {A} (op : VS A) : SN A := zoom st_socket set_st_socket op.

(** [get_cert_chain] of another message is the default one. *)
Definition get_cert_chain (r : ProxyAttestationServerResponse) : CertChain :=
  match ps_message_oneof r with Some (Ps_cert_chain c) => c | _ => mkCertChain [] [] end.

Definition linux_post_token (url : string) (token csr : bytes) (challenge_id : Z) :
  SN (bytes * bytes) :=
  let! req := map_err ServerTransportProtocolError
                (lift (serialize_native_psa_attestation_token token csr challenge_id)) in
  let req := b64_encode req in
  let! resp := on_net ServerHttpError (post_buffer (url ++ "/PSA/AttestationToken") req) in
  let! resp := ok_or (b64_decode resp) ServerBase64Error in
  let! pasr := on_net ServerTransportProtocolError (proxy_response resp) in
  ret (root_cert (get_cert_chain pasr), enclave_cert (get_cert_chain pasr)).

(** The closure of [new], once connected: attestation, and the answer to the
    policy and the certificate chain. *)
Definition linux_start (fuel : nat) (url policy : string) : SN Message.RuntimeManagerResponse :=
  let! start := on_net ServerHttpError (send_proxy_attestation_server_start url "psa" "0.0") in
  let! received := on_socket (call_enclave fuel (Message.Attestation start.2 start.1)) in
  let! r := match received with
            | Message.AttestationData token csr => ret (token, csr)
            | otherwise => throw (InvalidRuntimeManagerResponse otherwise)
            end in
  let! certs := linux_post_token url r.1 r.2 start.1 in
  on_socket (call_enclave fuel (Message.Initialize policy [certs.2; certs.1])).

(** What [new] returns for the answer. *)
Definition linux_received (received : Message.RuntimeManagerResponse) : outcome VeracruzServerError unit :=
  match received with
  | Message.StatusMsg Message.Success => Ok tt
  | Message.StatusMsg otherwise => Err (StatusError otherwise)
  | otherwise => Err (InvalidRuntimeManagerResponse otherwise)
  end.

Definition linux_new (fuel : nat) (policy : string) : SN unit :=
  let! policy_json := map_err ServerUtilError (lift (Policy_from_json policy)) in
  let! received := linux_start fuel (proxy_attestation_server_url policy_json) policy in
  lift (linux_received received).

Definition post_native_attestation_token (url : string) (att_doc : bytes) (challenge_id : Z) :
  SN (list bytes) :=
  let! req := map_err ServerTransportProtocolError
                (lift (serialize_nitro_attestation_doc att_doc challenge_id)) in
  let encoded_str := b64_encode req in
  let! received_body := on_net ServerHttpError (post_buffer (url ++ "/Nitro/AttestationToken") encoded_str) in
  let! body_vec := ok_or (b64_decode received_body) ServerBase64Error in
  let! response := on_net ServerTransportProtocolError (proxy_response body_vec) in
  match ps_message_oneof response with
  | Some (Ps_cert_chain c) => ret [enclave_cert c; root_cert c]
  | _ => throw InvalidProtoBufMessage
  end.

(** [new] of Nitro, once the enclave runs: the challenge was fetched before. *)
Definition nitro_start (fuel : nat) (url policy_json : string) (start : Z * bytes) : SN unit :=
  let! response := on_socket (call_enclave fuel (Message.Attestation start.2 start.1)) in
  let! attestation_doc := match response with
                          | Message.NitroAttestationData doc => ret doc
                          | otherwise => throw (InvalidRuntimeManagerResponse otherwise)
                          end in
  let! cert_chain := post_native_attestation_token url attestation_doc start.1 in
  let! message := on_socket (call_enclave fuel (Message.Initialize policy_json cert_chain)) in
  match message with
  | Message.StatusMsg Message.Success => ret tt
  | Message.StatusMsg status => throw (StatusError status)
  | _ => throw (InvalidRuntimeManagerResponse message)
  end.

Definition nitro_new (fuel : nat) (policy_json : string) : SN unit :=
  let! policy := map_err ServerUtilError (lift (Policy_from_json policy_json)) in
  let url := proxy_attestation_server_url policy in
  let! start := on_net ServerHttpError (send_proxy_attestation_server_start url "nitro" "0.0") in
  nitro_start fuel url policy_json start.

(** [new] of IceCap, once the realm is spawned *)
Definition icecap_start (fuel : nat) (url policy_json : string) : SN unit :=
  let! start := on_net ServerHttpError (send_proxy_attestation_server_start url "psa" "0.3.0") in
  let! resp := on_socket (call_enclave fuel (Message.Attestation start.2 start.1)) in
  let! r := match resp with
            | Message.AttestationData token csr => ret (token, csr)
            | resp => throw (UnexpectedRuntimeManagerResponse resp)
            end in
  let! certs := linux_post_token url r.1 r.2 start.1 in
  let! resp := on_socket (call_enclave fuel (Message.Initialize policy_json [certs.2; certs.1])) in
  match resp with
  | Message.StatusMsg Message.Success => ret tt
  | resp => throw (UnexpectedRuntimeManagerResponse resp)
  end.

Definition icecap_new (fuel : nat) (policy_json : string) : SN unit :=
  let! policy := map_err ServerUtilError (lift (Policy_from_json policy_json)) in
  icecap_start fuel (proxy_attestation_server_url policy) policy_json.

(** ** The HTTP handlers ([server.rs]) *)

(** The enclave handler, until it is dropped, and the signals on the channel
    that stops the server. *)
Record Handlers (V : Type) := mkHandlers { enclave_handler : option V; stops : nat }.
#[global] Arguments mkHandlers {V} _ _.
#[global] Arguments enclave_handler {V} _.
#[global] Arguments stops {V} _.

Section handlers.
Context {V : Type} {VI : VeracruzServer V}.
Abbreviation HS A := (ST (Handlers V) VeracruzServerError A).

(** [enclave_handler.lock()?.as_mut().ok_or(..)?.op(..)] *)
Definition with_enclave {A} (op : ST V VeracruzServerError A) : HS A := λ h,
  match enclave_handler h with
  | None => (Err UninitializedEnclaveError, h)
  | Some v => let '(r, v') := op v in (r, mkHandlers (Some v') (stops h))
  end.

Definition veracruz_server_request (input_data : string) : HS string :=
  let! input_data_decoded := ok_or (b64_decode input_data) ServerBase64Error in
  let! result := with_enclave (plaintext_data input_data_decoded) in
  ret (match result with Some return_data => b64_encode return_data | None => EmptyString end).

(** [stopper.send(())]: the receiver lives until it has taken the one signal
    that is sent. *)
Definition send_stop : HS unit := modify (λ h, mkHandlers (enclave_handler h) (S (stops h))).

Definition runtime_manager_request (fuel : nat) (input_data : string) : HS string :=
  let fields := split_whitespace input_data in
  match fields with
  | f0 :: received_data :: _ =>
      let! id := ok_or (parse_u32 f0) ParseIntError in
      let! session_id :=
        (if id =? 0 then with_enclave (new_tls_session fuel) else ret id) in
      let! received_data_decoded := ok_or (b64_decode received_data) ServerBase64Error in
      let! r := with_enclave (tls_data fuel session_id received_data_decoded) in
      do! (if negb r.1 then
             do! modify (λ h, mkHandlers None (stops h)) in
             send_stop
           else ret tt) in
      ret (match r.2 with
           | None => EmptyString
           | Some output_data =>
               fmt_dec session_id ++ " " ++ String.concat " " (b64_encode <$> output_data)
           end)%string
  | _ => throw InvalidRequestFormatError
  end.
End handlers.
End server.

(** The link of the Nitro server, [send_buffer] and [receive_buffer] of
    [io-utils/src/nitro.rs]. *)
Definition vsock_link {BP : BuildProfile} {N : Type} {CU : Curl N} {T : Type}
    {RS : Stream T sock_error} {B1 : Bincode Message.RuntimeManagerRequest}
    {B2 : Bincode Message.RuntimeManagerResponse} : EnclaveLink (T:=T) (E:=sock_error) := {|
  call_enclave fuel req :=
    let! buffer := ok_or (bincode_serialize req) (ServerSocketError BincodeError) in
    do! map_err (λ e, ServerSocketError (SocketIOError e)) (raw_send_buffer fuel buffer) in
    let! received_buffer := map_err (λ e, ServerSocketError (SocketIOError e)) (raw_receive_buffer fuel) in
    ok_or (bincode_deserialize received_buffer) (ServerSocketError BincodeError);
|}.
