(* ===== verification/Proxy.v ===== *)
(** * The proxy attestation server

    The service that certifies enclaves: it hands out challenges, checks the
    attestation tokens that come back, and signs a certificate for the key of
    an enclave, with the measurement of the enclave as an extension.

    Sources: [proxy-attestation-server/src/attestation.rs],
    [attestation/psa.rs], [attestation/nitro.rs], [server.rs], [error.rs].

    [openssl], the COSE library, the parser of Nitro documents, [base64] and
    the random generator are classes.  A certificate under construction is the
    list of the fields that were set; whether [openssl] takes one more is part
    of the class.  Each request is handled from start to end before the next. *)

From S2P Require Import Prelude RustFmt RustPath WasiTypes Policy Transport Framing Enclave Server.
Local Open Scope Z_scope.

(** ** Libraries *)

Class OpenSSLTypes := {
  PublicKey : Type; PKey : Type; X509 : Type; X509Req : Type; Asn1Time : Type;
}.

Section fields.
Context {OT : OpenSSLTypes}.

(** Entries of a name: the kind and the text. *)
Definition X509Name : Type := list (Z * string).

Inductive X509Extension :=
  | SubjectAlternativeName (dns : string)
  | BasicConstraints (critical ca : bool) (pathlen : Z)
  | CustomExtension (name value : string).

Inductive X509Field :=
  | FVersion (v : Z)
  | FNotBefore (t : Asn1Time)
  | FNotAfter (t : Asn1Time)
  | FSerialNumber (n : Z)
  | FIssuerName (n : X509Name)
  | FSubjectName (n : X509Name)
  | FPubkey (k : PublicKey)
  | FExtension (e : X509Extension).
End fields.

Class OpenSSL {OT : OpenSSLTypes} := {
  X509Req_from_der : bytes → option X509Req;
  req_public_key : X509Req → option PublicKey;
  req_verify : X509Req → PublicKey → option bool;
  req_subject_name : X509Req → X509Name;
  X509_from_pem : bytes → option X509;
  X509_from_der : bytes → option X509;
  X509_to_der : X509 → option bytes;
  (** the entries of the subject; an entry may not be UTF-8 *)
  X509_subject_entries : X509 → list (Z * option string);
  private_key_from_pem : bytes → option PKey;
  days_from_now : Z → option Asn1Time;
  (** whether the library builds a value, and whether a builder takes it *)
  builder_new : bool;
  name_builder_new : bool;
  integer_new : Z → bool;
  extension_new : X509Extension → bool;
  name_takes : X509Name → Z * string → bool;
  builder_takes : list X509Field → X509Field → bool;
  X509_sign : list X509Field → PKey → option X509;
}.

(** The COSE library: a return code, and the key handle or the payload. *)
Class CoseVerify (C : Type) := {
  cose_load_public_key : bytes → C → (Z * Z) * C;
  cose_sign1_verify : Z → bytes → C → (Z * bytes) * C;
  cose_delete_public_key : Z → C → Z * C;
}.

(** [AttestationDocument::authenticate] of a document and a root certificate *)
Record AttestationDocument := mkDocument
  { nonce : option bytes; pcrs : list bytes; user_data : option bytes }.
Class NitroDocuments := { authenticate : bytes → bytes → option AttestationDocument }.

(** [rng.fill] of an array *)
Class Rng (R : Type) := { rng_fill : nat → R → bytes * R }.
Class RngLaws {R} (RG : Rng R) : Prop := { rng_fill_length n r : length (rng_fill n r).1 = n }.

(** The platforms the server is built for. *)
Class ProxyFeatures := { with_psa : bool; with_nitro : bool }.

(** ** State and errors *)

Module ProxyError.
(** The variants the code that is modelled here produces. *)
Inductive ProxyAttestationServerError :=
  | Base64Error
  | TransportProtocolError (e : Transport.TransportProtocolError)
  | OpenSSLError
  | MismatchError (variable : string) (expected received : bytes)
  | UnsafeCallError (name : string) (code : Z)
  | NoDeviceError (device_id : Z)
  | MissingFieldError (name : string)
  | UnknownAttestationTokenError
  | UnimplementedRequestError
  | UnsupportedRequestError
  | CborError
  | CsrVerifyError
  | IOError
  | BadStateError.

(** [status_code] *)
Definition status_code (e : ProxyAttestationServerError) : Z :=
  match e with
  | UnimplementedRequestError | UnknownAttestationTokenError => 501
  | UnsupportedRequestError => 404
  | _ => 500
  end.
End ProxyError.
Import ProxyError.

(** [PsaAttestationContext] and [NitroAttestationContext] *)
Record AttestationContext := mkAttestationContext { firmware_version : string; challenge : bytes }.

(** [AtomicI32::fetch_add] wraps around. *)
Definition i32_wrap (n : Z) : Z := (n + 2147483648) mod u32_bound - 2147483648.

Definition PUBLIC_KEY : bytes := byte_of <$>
  [4; 95; 5; 93; 57; 217; 173; 96; 137; 241; 51; 126; 108; 249; 87; 14; 111; 132; 37; 95; 22;
    248; 205; 156; 228; 160; 162; 141; 122; 79; 183; 228; 211; 96; 55; 42; 129; 79; 7; 194; 90;
    36; 133; 191; 71; 188; 132; 71; 64; 197; 155; 255; 255; 210; 118; 50; 130; 77; 118; 77; 180;
    80; 238; 159; 34].

Definition AWS_NITRO_ROOT_CERTIFICATE : bytes := byte_of <$>
  [48; 130; 2; 17; 48; 130; 1; 150; 160; 3; 2; 1; 2; 2; 17; 0; 249; 49; 117; 104; 27; 144; 175;
    225; 29; 70; 204; 180; 228; 231; 248; 86; 48; 10; 6; 8; 42; 134; 72; 206; 61; 4; 3; 3; 48; 73;
    49; 11; 48; 9; 6; 3; 85; 4; 6; 19; 2; 85; 83; 49; 15; 48; 13; 6; 3; 85; 4; 10; 12; 6; 65; 109;
    97; 122; 111; 110; 49; 12; 48; 10; 6; 3; 85; 4; 11; 12; 3; 65; 87; 83; 49; 27; 48; 25; 6; 3;
    85; 4; 3; 12; 18; 97; 119; 115; 46; 110; 105; 116; 114; 111; 45; 101; 110; 99; 108; 97; 118;
    101; 115; 48; 30; 23; 13; 49; 57; 49; 48; 50; 56; 49; 51; 50; 56; 48; 53; 90; 23; 13; 52; 57;
    49; 48; 50; 56; 49; 52; 50; 56; 48; 53; 90; 48; 73; 49; 11; 48; 9; 6; 3; 85; 4; 6; 19; 2; 85;
    83; 49; 15; 48; 13; 6; 3; 85; 4; 10; 12; 6; 65; 109; 97; 122; 111; 110; 49; 12; 48; 10; 6; 3;
    85; 4; 11; 12; 3; 65; 87; 83; 49; 27; 48; 25; 6; 3; 85; 4; 3; 12; 18; 97; 119; 115; 46; 110;
    105; 116; 114; 111; 45; 101; 110; 99; 108; 97; 118; 101; 115; 48; 118; 48; 16; 6; 7; 42; 134;
    72; 206; 61; 2; 1; 6; 5; 43; 129; 4; 0; 34; 3; 98; 0; 4; 252; 2; 84; 235; 166; 8; 193; 243;
    104; 112; 226; 154; 218; 144; 190; 70; 56; 50; 146; 115; 110; 137; 75; 255; 246; 114; 217;
    137; 68; 75; 80; 81; 229; 52; 164; 177; 246; 219; 227; 192; 188; 88; 26; 50; 183; 177; 118; 7;
    14; 222; 18; 214; 154; 63; 234; 33; 27; 102; 231; 82; 207; 125; 209; 221; 9; 95; 111; 19; 112;
    244; 23; 8; 67; 217; 220; 16; 1; 33; 228; 207; 99; 1; 40; 9; 102; 68; 135; 201; 121; 98; 132;
    48; 77; 197; 63; 244; 163; 66; 48; 64; 48; 15; 6; 3; 85; 29; 19; 1; 1; 255; 4; 5; 48; 3; 1; 1;
    255; 48; 29; 6; 3; 85; 29; 14; 4; 22; 4; 20; 144; 37; 181; 13; 217; 5; 71; 231; 150; 195; 150;
    250; 114; 157; 207; 153; 169; 223; 75; 150; 48; 14; 6; 3; 85; 29; 15; 1; 1; 255; 4; 4; 3; 2;
    1; 134; 48; 10; 6; 8; 42; 134; 72; 206; 61; 4; 3; 3; 3; 105; 0; 48; 102; 2; 49; 0; 163; 127;
    47; 145; 161; 201; 189; 94; 231; 184; 98; 124; 22; 152; 210; 85; 3; 142; 31; 3; 67; 249; 91;
    99; 169; 98; 140; 61; 57; 128; 149; 69; 161; 30; 188; 191; 46; 59; 85; 216; 174; 238; 113;
    180; 195; 214; 173; 243; 2; 49; 0; 162; 243; 155; 22; 5; 178; 112; 40; 165; 221; 75; 160; 105;
    181; 1; 110; 101; 180; 251; 222; 143; 224; 6; 29; 106; 83; 25; 127; 156; 218; 245; 217; 67;
    188; 97; 252; 43; 235; 3; 203; 111; 238; 141; 35; 2; 243; 223; 246].

Definition VERACRUZ_RUNTIME_HASH_EXTENSION_ID : list Z := [2; 5; 30; 1].

Section proxy.
Context {PL : PolicyLibs} {OT : OpenSSLTypes} {OS : OpenSSL} {ND : NitroDocuments} {PF : ProxyFeatures}
  {P3 : ProtobufMessage ProxyAttestationServerRequest}
  {P4 : ProtobufMessage ProxyAttestationServerResponse} {B64 : Base64}
  {R C : Type} {RG : Rng R} {CV : CoseVerify C}.

(** The statics of the server, the buffers of the transport protocol, and the
    states of the random generator and of the COSE library. *)
Record Proxy := mkProxy {
  DEVICE_ID : Z;
  CA_CERT_DER : option bytes;
  CA_KEY_PKEY : option PKey;
  PSA_CONTEXT : gmap Z AttestationContext;
  NITRO_CONTEXT : gmap Z AttestationContext;
  px_buffers : IncomingBuffers;
  px_rng : R;
  px_cose : C;
}.
Definition Proxy_initial (r : R) (c : C) : Proxy := mkProxy 1 None None ∅ ∅ ∅ r c.
Abbreviation PX A := (ST Proxy ProxyAttestationServerError A).

Definition set_DEVICE_ID (x : Z) (s : Proxy) : Proxy :=
  mkProxy x (CA_CERT_DER s) (CA_KEY_PKEY s) (PSA_CONTEXT s) (NITRO_CONTEXT s) (px_buffers s) (px_rng s) (px_cose s).
Definition set_CA_CERT_DER (x : option bytes) (s : Proxy) : Proxy :=
  mkProxy (DEVICE_ID s) x (CA_KEY_PKEY s) (PSA_CONTEXT s) (NITRO_CONTEXT s) (px_buffers s) (px_rng s) (px_cose s).
Definition set_CA_KEY_PKEY (x : option PKey) (s : Proxy) : Proxy :=
  mkProxy (DEVICE_ID s) (CA_CERT_DER s) x (PSA_CONTEXT s) (NITRO_CONTEXT s) (px_buffers s) (px_rng s) (px_cose s).
Definition set_PSA_CONTEXT (x : gmap Z AttestationContext) (s : Proxy) : Proxy :=
  mkProxy (DEVICE_ID s) (CA_CERT_DER s) (CA_KEY_PKEY s) x (NITRO_CONTEXT s) (px_buffers s) (px_rng s) (px_cose s).
Definition set_NITRO_CONTEXT (x : gmap Z AttestationContext) (s : Proxy) : Proxy :=
  mkProxy (DEVICE_ID s) (CA_CERT_DER s) (CA_KEY_PKEY s) (PSA_CONTEXT s) x (px_buffers s) (px_rng s) (px_cose s).
Definition set_px_buffers (x : IncomingBuffers) (s : Proxy) : Proxy :=
  mkProxy (DEVICE_ID s) (CA_CERT_DER s) (CA_KEY_PKEY s) (PSA_CONTEXT s) (NITRO_CONTEXT s) x (px_rng s) (px_cose s).
Definition set_px_rng (x : R) (s : Proxy) : Proxy :=
  mkProxy (DEVICE_ID s) (CA_CERT_DER s) (CA_KEY_PKEY s) (PSA_CONTEXT s) (NITRO_CONTEXT s) (px_buffers s) x (px_cose s).
Definition set_px_cose (x : C) (s : Proxy) : Proxy :=
  mkProxy (DEVICE_ID s) (CA_CERT_DER s) (CA_KEY_PKEY s) (PSA_CONTEXT s) (NITRO_CONTEXT s) (px_buffers s) (px_rng s) x.

Definition on_cose {X} (op : C → X * C) : PX X := λ s,
  let '(x, c) := op (px_cose s) in (Ok x, set_px_cose c s).
Definition openssl {X} (o : option X) : PX X := ok_or o OpenSSLError.
Definition openssl_ok (b : bool) : PX unit := fail_if (negb b) OpenSSLError.

(** ** The certificate authority ([attestation.rs])

    The files are given by what reading them yields. *)

Definition load_ca_certificate (file : option bytes) : PX unit :=
  let! buffer := ok_or file IOError in
  let! cert := openssl (X509_from_pem buffer) in
  let! der := openssl (X509_to_der cert) in
  let! s := get in
  match CA_CERT_DER s with
  | Some _ => throw BadStateError
  | None => put (set_CA_CERT_DER (Some der) s)
  end.

Definition get_ca_certificate : PX bytes :=
  let! s := get in ok_or (CA_CERT_DER s) BadStateError.

Definition load_ca_key (file : option bytes) : PX unit :=
  let! buffer := ok_or file IOError in
  let! key := openssl (private_key_from_pem buffer) in
  let! s := get in
  match CA_KEY_PKEY s with
  | Some _ => throw BadStateError
  | None => put (set_CA_KEY_PKEY (Some key) s)
  end.

Definition get_ca_key : PX PKey :=
  let! s := get in ok_or (CA_KEY_PKEY s) BadStateError.

(** A setter of the builder. *)
Definition set_field (b : list X509Field) (f : X509Field) : PX (list X509Field) :=
  if builder_takes b f then ret (b ++ [f]) else throw OpenSSLError.

Definition append_extension (b : list X509Field) (e : X509Extension) : PX (list X509Field) :=
  do! openssl_ok (extension_new e) in set_field b (FExtension e).

Fixpoint issuer_entries (name : X509Name) (entries : list (Z * option string)) : PX X509Name :=
  match entries with
  | [] => ret name
  | (nid, data) :: rest =>
      let! text := openssl data in
      if name_takes name (nid, text) then issuer_entries (name ++ [(nid, text)]) rest
      else throw OpenSSLError
  end.

Definition issuer_name : PX X509Name :=
  let! ca_der := get_ca_certificate in
  let! ca_cert := openssl (X509_from_der ca_der) in
  do! openssl_ok name_builder_new in
  issuer_entries [] (X509_subject_entries ca_cert).

Definition extension_name : string :=
  String.concat "." (fmt_dec <$> VERACRUZ_RUNTIME_HASH_EXTENSION_ID).

Definition convert_csr_to_certificate (csr_der enclave_hash : bytes) : PX X509 :=
  let! csr := openssl (X509Req_from_der csr_der) in
  let! public_key := openssl (req_public_key csr) in
  let! verify_result := openssl (req_verify csr public_key) in
  do! fail_if (negb verify_result) CsrVerifyError in
  do! openssl_ok builder_new in
  let! b := set_field [] (FVersion 2) in
  let! now := openssl (days_from_now 0) in
  let! b := set_field b (FNotBefore now) in
  let! expiry := openssl (days_from_now 1) in
  let! b := set_field b (FNotAfter expiry) in
  do! openssl_ok (integer_new 23) in
  let! b := set_field b (FSerialNumber 23) in
  let! issuer := issuer_name in
  let! b := set_field b (FIssuerName issuer) in
  let! b := set_field b (FSubjectName (req_subject_name csr)) in
  let! public_key := openssl (req_public_key csr) in
  let! b := set_field b (FPubkey public_key) in
  let! b := append_extension b (SubjectAlternativeName "ComputeEnclave.dev") in
  let! b := append_extension b (BasicConstraints true false 1) in
  let! b := append_extension b (CustomExtension extension_name ("DER:" ++ hex_encode enclave_hash)) in
  let! private_key := get_ca_key in
  openssl (X509_sign b private_key).

(** ** Requests *)

Definition parse_request (received_bytes : bytes) : PX ProxyAttestationServerRequest :=
  map_err TransportProtocolError
    (zoom px_buffers set_px_buffers (parse_proxy_attestation_server_request None received_bytes)).

(** [start] of [psa.rs] and [nitro.rs], which differ in the map of contexts *)
Definition start_with (get_map : Proxy → gmap Z AttestationContext) set_map
    (firmware_version : string) (device_id : Z) : PX string :=
  let! challenge := (λ s, let '(c, r) := rng_fill 32 (px_rng s) in (Ok c, set_px_rng r s)) in
  do! modify (λ s, set_map (<[device_id := mkAttestationContext firmware_version challenge]> (get_map s)) s) in
  let! serialized_attestation_init :=
    map_err TransportProtocolError (lift (serialize_psa_attestation_init challenge device_id)) in
  ret (b64_encode serialized_attestation_init).

Definition psa_start : string → Z → PX string := start_with PSA_CONTEXT set_PSA_CONTEXT.
Definition nitro_start : string → Z → PX string := start_with NITRO_CONTEXT set_NITRO_CONTEXT.

Definition fetch_device_id : PX Z := λ s, (Ok (DEVICE_ID s), set_DEVICE_ID (i32_wrap (DEVICE_ID s + 1)) s).

Definition start (body_string : string) : PX string :=
  let! received_bytes := ok_or (b64_decode body_string) Base64Error in
  let! parsed := parse_request received_bytes in
  match pq_message_oneof parsed with
  | Some (Pq_start_msg _) =>
      let '(protocol, firmware_version) := parse_start_msg parsed in
      let! device_id := fetch_device_id in
      if with_psa && (protocol =? "psa")%string then psa_start firmware_version device_id
      else if with_nitro && (protocol =? "nitro")%string then nitro_start firmware_version device_id
      else throw UnknownAttestationTokenError
  | _ => throw (MissingFieldError "start msg")
  end.

(** *** PSA ([psa.rs]) *)

(** The token checked against the public key: its payload. *)
Definition verify_token (token : bytes) : PX bytes :=
  let! load := on_cose (cose_load_public_key PUBLIC_KEY) in
  do! fail_if (negb (load.1 =? 0))
        (UnsafeCallError "attestation_token t_cose_sign1_verify_load_public_key" load.1) in
  let! verified := on_cose (cose_sign1_verify load.2 token) in
  let! _dpk_ret := on_cose (cose_delete_public_key load.2) in
  do! fail_if (negb (verified.1 =? 0)) (UnsafeCallError "attestation_token t_cose_sign1_verify" verified.1) in
  ret verified.2.

(** The certificate chain of the answer. *)
Definition certify (csr enclave_hash : bytes) : PX string :=
  let! cert := convert_csr_to_certificate csr enclave_hash in
  let! root_cert_der := get_ca_certificate in
  let! cert_der := openssl (X509_to_der cert) in
  let! response_bytes := map_err TransportProtocolError (lift (serialize_cert_chain cert_der root_cert_der)) in
  ret (b64_encode response_bytes).

Definition expect_equal (variable : string) (expected received : bytes) : PX unit :=
  fail_if (negb (bool_decide (expected = received))) (MismatchError variable expected received).

(** The comparisons of the payload with the challenge and with the request,
    and the measurement in it. *)
Definition check_payload (ctx : AttestationContext) (csr payload : bytes) : PX bytes :=
  let! received_challenge := lift (index_slice payload 8 40) in
  do! expect_equal "payload_vec[8..40]" (challenge ctx) received_challenge in
  let! received_csr_hash := lift (index_slice payload 86 118) in
  do! expect_equal "received_csr_hash" (sha256 csr) received_csr_hash in
  lift (index_slice payload 47 79).

Definition psa_attestation_token (body_string : string) : PX string :=
  let! received_bytes := ok_or (b64_decode body_string) Base64Error in
  let! parsed := parse_request received_bytes in
  match pq_message_oneof parsed with
  | Some (Pq_native_psa_attestation_token t) =>
      let '(token, csr, device_id) := parse_native_psa_attestation_token t in
      let! s := get in
      let! attestation_context := ok_or (PSA_CONTEXT s !! device_id) (NoDeviceError device_id) in
      let! payload := verify_token token in
      let! received_enclave_hash := check_payload attestation_context csr payload in
      let! response_b64 := certify csr received_enclave_hash in
      do! modify (λ s, set_PSA_CONTEXT (delete device_id (PSA_CONTEXT s)) s) in
      ret response_b64
  | _ => throw (MissingFieldError "native_psa_attestation_token")
  end.

(** *** Nitro ([nitro.rs]) *)

(** [map.remove(&device_id)] *)
Definition take_nitro_context (device_id : Z) : PX AttestationContext :=
  let! s := get in
  let! ctx := ok_or (NITRO_CONTEXT s !! device_id) (NoDeviceError device_id) in
  do! modify (λ s, set_NITRO_CONTEXT (delete device_id (NITRO_CONTEXT s)) s) in
  ret ctx.

Definition check_document (ctx : AttestationContext) (doc : AttestationDocument) : PX (bytes * bytes) :=
  do! match nonce doc with
      | None => throw (MissingFieldError "nonce")
      | Some n =>
          fail_if (negb (bool_decide (n = challenge ctx))) (MismatchError "nonce/challenge" (challenge ctx) n)
      end in
  match pcrs doc with
  | [] => panic SliceOutOfRange
  | received_enclave_hash :: _ =>
      let! csr := ok_or (user_data doc) (MissingFieldError "public_key") in
      let! hash := lift (index_slice received_enclave_hash 0 32) in
      ret (csr, hash)
  end.

Definition nitro_attestation_token (body_string : string) : PX string :=
  let! received_bytes := ok_or (b64_decode body_string) Base64Error in
  let! parsed := parse_request received_bytes in
  match pq_message_oneof parsed with
  | Some (Pq_nitro_attestation_doc d) =>
      let '(att_doc_data, device_id) := parse_nitro_attestation_doc d in
      let! attestation_document := ok_or (authenticate att_doc_data AWS_NITRO_ROOT_CERTIFICATE) CborError in
      let! attestation_context := take_nitro_context device_id in
      let! r := check_document attestation_context attestation_document in
      certify r.1 r.2
  | _ => throw (MissingFieldError "nitro_attestation_doc")
  end.

(** ** The server ([server.rs]) *)

Definition psa_router (psa_request input_data : string) : PX string :=
  if with_psa then
    if (psa_request =? "AttestationToken")%string then psa_attestation_token input_data
    else throw UnsupportedRequestError
  else throw UnimplementedRequestError.

Definition nitro_router (nitro_request input_data : string) : PX string :=
  if with_nitro then
    if (nitro_request =? "AttestationToken")%string then nitro_attestation_token input_data
    else throw UnsupportedRequestError
  else throw UnimplementedRequestError.

(** What the server does before it listens, and the requests it then takes. *)
Definition server_setup (ca_cert_file ca_key_file : option bytes) : PX unit :=
  do! load_ca_certificate ca_cert_file in load_ca_key ca_key_file.

Inductive proxy_request :=
  | StartRequest (body : string)
  | PsaRequest (name body : string)
  | NitroRequest (name body : string).

Definition serve (q : proxy_request) : PX string :=
  match q with
  | StartRequest body => start body
  | PsaRequest name body => psa_router name body
  | NitroRequest name body => nitro_router name body
  end.
End proxy.
