(* ===== verification/Client.v ===== *)
(** * The Veracruz client ([veracruz-client])

    The library a participant uses: it checks its own certificate, opens a TLS
    session with the enclave through the HTTP interface of the server, checks
    the policy and the measurement of the enclave before each exchange, and
    sends programs and data or asks for results.

    Sources: [veracruz-client/src/veracruz_client.rs], [error.rs];
    [veracruz-utils/src/lib.rs].

    [mbedtls], [webpki], [x509_parser] and [reqwest] are classes.  The TLS
    context of [mbedtls] reads and writes through the callbacks it is given,
    [read] and [write] of [InsecureConnection]: its operations are functions of
    these callbacks.  The session ID, which the client and the connection
    share, is part of the connection. *)

From S2P Require Import Prelude RustFmt RustPath WasiTypes Policy Transport Framing Enclave Server Proxy.
Local Open Scope Z_scope.

(** ** Libraries *)

(** A POST request: the status and the text of the answer, if it is text, or
    the step that failed. *)
Class Reqwest (N : Type) := {
  reqwest_post : string → string → N → ((Z * option string) + string) * N;
}.

(** [std::io::Error] of the callbacks *)
Inductive io_failure := IoOther (t : string).

(** The callbacks on a connection *)
Record Callbacks (D : Type) := mkCallbacks {
  cb_read : Z → ST D io_failure bytes;
  cb_write : bytes → ST D io_failure Z;
}.
Arguments mkCallbacks {D} _ _.
Arguments cb_read {D} _.
Arguments cb_write {D} _.

Class MbedtlsTypes := { MbedCert : Type; MbedPk : Type; MbedContext : Type; MbedError : Type }.

(** The configuration of the client, as it is set. *)
Record ClientConfig {MT : MbedtlsTypes} := mkClientConfig {
  cc_min_version : Z; cc_max_version : Z; cc_ciphersuites : list Z;
  cc_ca_list : list MbedCert; cc_cert : list MbedCert; cc_key : MbedPk;
}.

Class Mbedtls {MT : MbedtlsTypes} := {
  from_pem_multiple : bytes → option (list MbedCert);
  mbed_private_key : bytes → option MbedPk;
  mbed_public_key : bytes → MbedPk + MbedError;
  write_public_der : MbedPk → bytes + MbedError;
  mbed_lookup_ciphersuite : string → option Z;
  (** the errors of [set_min_version], [set_max_version], [CtrDrbg::new] and
      [push_cert] *)
  set_min_version : Z → option MbedError;
  set_max_version : Z → option MbedError;
  rng_new : option MbedError;
  push_cert : list MbedCert → MbedPk → option MbedError;
  establish {D} : Callbacks D → ClientConfig → ST D MbedError MbedContext;
  ctx_write_all {D} : Callbacks D → bytes → ST (MbedContext * D) MbedError unit;
  ctx_read_to_end {D} : Callbacks D → ST (MbedContext * D) MbedError bytes;
  (** [peer_cert()]: an error, no certificate, or the list of them *)
  peer_cert : MbedContext → option (option (list bytes));
}.

(** [webpki::EndEntityCert] and its extensions that [webpki] does not know *)
Class Webpki := {
  EndEntityCert : Type;
  ee_try_from : bytes → option EndEntityCert;
  unrecognized_extension : EndEntityCert → bytes → option bytes;
}.

(** [x509_parser]: the public key of a certificate, and whether it has not expired *)
Class X509Parser := {
  Pem : Type;
  pem_read : bytes → option Pem;
  parse_x509 : Pem → option (bytes * bool);
}.

(** The files of the client: what opening and reading one gives, with the
    error that ended the reading. *)
Inductive read_end := ReadDone | ReadWouldBlock | ReadFailed.
Class ClientFiles := { open_file : string → option (bytes * read_end) }.

Module ClientError.
(** The variants the code that is modelled here produces. *)
Inductive VeracruzClientError {MT : MbedtlsTypes} :=
  | HexError
  | Utf8Error
  | IOError
  | TlsIOError (e : MbedError)
  | TLSUnspecifiedError
  | TLSInvalidCiphersuiteError (s : string)
  | MbedTLSError (e : MbedError)
  | X509ParserPEMError
  | X509ParserError
  | WebpkiError
  | TransportProtocolError (e : Transport.TransportProtocolError)
  | VeracruzUtilError (e : PolicyError)
  | CertificateExpireError (file : string)
  | MismatchError (variable : string) (expected received : bytes)
  | InvalidLengthError (name : string) (n : Z)
  | ResponseError (name : string) (s : ResponseStatus)
  | VeracruzServerResponseNoResultError
  | NoPeerCertificatesError
  | UnexpectedCertificateError
  | RuntimeHashExtensionMissingError
  | NoMatchingRuntimeIsolateHash
  | InvalidPath.
End ClientError.
Import ClientError.

(** ** The connection *)

Section connection.
Context {N : Type} {RQ : Reqwest N} {B64 : Base64}.

Record InsecureConnection := mkConnection {
  read_buffer : bytes;
  cn_server_url : string;
  remote_session_id : option Z;
  cn_net : N;
}.
Abbreviation CN A := (ST InsecureConnection io_failure A).

Definition set_read_buffer (b : bytes) (c : InsecureConnection) : InsecureConnection :=
  mkConnection b (cn_server_url c) (remote_session_id c) (cn_net c).
Definition set_remote_session_id (i : option Z) (c : InsecureConnection) : InsecureConnection :=
  mkConnection (read_buffer c) (cn_server_url c) i (cn_net c).
Definition set_cn_net (n : N) (c : InsecureConnection) : InsecureConnection :=
  mkConnection (read_buffer c) (cn_server_url c) (remote_session_id c) n.

(** [data_len] is the room of the caller's buffer. *)
Definition insecure_read (data_len : Z) : CN bytes :=
  let! c := get in
  let n := Z.min data_len (len (read_buffer c)) in
  let! data := lift (index_slice (read_buffer c) 0 n) in
  let! rest := lift (index_slice (read_buffer c) n (len (read_buffer c))) in
  do! modify (set_read_buffer rest) in
  ret data.

Definition post (dest_url body : string) : CN string := λ c,
  match reqwest_post dest_url body (cn_net c) with
  | (inr step, n) => (Err (IoOther step), set_cn_net n c)
  | (inl (status, text), n) =>
      (if negb (status =? 200) then Err (IoOther "reqwest bad status")
       else match text with Some t => Ok t | None => Err (IoOther "reqwest text") end, set_cn_net n c)
  end.

(** The items after the session ID: each is appended once it is decoded. *)
Fixpoint append_items (items : list string) : CN unit :=
  match items with
  | [] => ret tt
  | item :: items' =>
      let! this_body_data := ok_or (b64_decode item) (IoOther "base64::decode") in
      do! modify (λ c, set_read_buffer (read_buffer c ++ this_body_data) c) in
      append_items items'
  end.

Definition insecure_write (data : bytes) : CN Z :=
  let string_data := b64_encode data in
  let! c := get in
  let combined_string := (fmt_dec (default 0 (remote_session_id c)) ++ " " ++ string_data)%string in
  let dest_url := ("http://" ++ cn_server_url c ++ "/runtime_manager")%string in
  let! body := post dest_url combined_string in
  do! match split_whitespace body with
      | [] => ret tt
      | item0 :: items =>
          let! received_session_id := ok_or (parse_u32 item0) (IoOther "bad session id") in
          do! modify (set_remote_session_id (Some received_session_id)) in
          append_items items
      end in
  ret (len data).

Definition insecure_callbacks : Callbacks InsecureConnection := mkCallbacks insecure_read insecure_write.
End connection.

(** ** The client *)

Section client.
Context {PL : PolicyLibs} {MT : MbedtlsTypes} {MB : Mbedtls} {WP : Webpki} {XP : X509Parser}
  {CF : ClientFiles} {N : Type} {RQ : Reqwest N} {B64 : Base64}
  {P1 : ProtobufMessage Transport.RuntimeManagerRequest}
  {P2 : ProtobufMessage Transport.RuntimeManagerResponse}.

Record VeracruzClient := mkClient {
  tls_context : MbedContext;
  connection : InsecureConnection (N:=N);
  cl_policy : Policy;
  cl_policy_hash : string;
  cl_buffers : IncomingBuffers;
}.
Abbreviation CL A := (ST VeracruzClient VeracruzClientError A).

Definition tls_part (c : VeracruzClient) : MbedContext * InsecureConnection := (tls_context c, connection c).
Definition set_tls_part (x : MbedContext * InsecureConnection) (c : VeracruzClient) : VeracruzClient :=
  mkClient x.1 x.2 (cl_policy c) (cl_policy_hash c) (cl_buffers c).
Definition set_cl_buffers (h : IncomingBuffers) (c : VeracruzClient) : VeracruzClient :=
  mkClient (tls_context c) (connection c) (cl_policy c) (cl_policy_hash c) h.

(** *** Making a client *)

Abbreviation Pure A := (outcome VeracruzClientError A).

Definition read_all_bytes_in_file (filename : string) : Pure bytes :=
  match open_file filename with
  | None => Err IOError
  | Some (buffer, ReadDone) | Some (buffer, ReadWouldBlock) => Ok buffer
  | Some (_, ReadFailed) => Err IOError
  end.

Definition read_cert (filename : string) : Pure (list MbedCert) :=
  match read_all_bytes_in_file filename with
  | Ok buffer =>
      match from_pem_multiple (buffer ++ [Byte.x00]) with
      | None => Err TLSUnspecifiedError
      | Some cert_vec =>
          if len cert_vec =? 1 then Ok cert_vec else Err (InvalidLengthError "cert_vec" 1)
      end
  | Err e => Err e
  | Abort p => Abort p
  end.

Definition read_private_key (filename : string) : Pure MbedPk :=
  match read_all_bytes_in_file filename with
  | Ok buffer =>
      match mbed_private_key (buffer ++ [Byte.x00]) with
      | None => Err TLSUnspecifiedError
      | Some pk => Ok pk
      end
  | Err e => Err e
  | Abort p => Abort p
  end.

(** The reader of [x509_parser] stops at the first certificate: the error that
    may end the file does not matter. *)
Definition check_certificate_validity (client_cert_filename : string) (public_key : MbedPk) : Pure unit :=
  match open_file client_cert_filename with
  | None => Err IOError
  | Some (contents, _) =>
      match pem_read contents with
      | None => Err X509ParserPEMError
      | Some pem =>
          match parse_x509 pem with
          | None => Err X509ParserError
          | Some (subject_public_key, unexpired) =>
              match match mbed_public_key subject_public_key with
                    | inl pk => write_public_der pk
                    | inr e => inr e
                    end with
              | inr e => Err (MbedTLSError e)
              | inl cert_public_key_der =>
                  match write_public_der public_key with
                  | inr e => Err (MbedTLSError e)
                  | inl public_key_der =>
                      if negb (bool_decide (cert_public_key_der = public_key_der))
                      then Err (MismatchError "public_key" cert_public_key_der public_key_der)
                      else if negb unexpired then Err (CertificateExpireError client_cert_filename)
                      else Ok tt
                  end
              end
          end
      end
  end.

(** [suite_string.replace("_", "-")] *)
Fixpoint replace_underscore (s : string) : string :=
  match s with
  | EmptyString => EmptyString
  | String c s' => String (if Ascii.eqb c "_"%char then "-"%char else c) (replace_underscore s')
  end.
Definition lookup_ciphersuite_mbedtls (suite_string : string) : option Z :=
  mbed_lookup_ciphersuite (replace_underscore suite_string).

Definition TLS1_2 : Z := 771.

(** A step of the configuration that may fail. *)
Definition mbed_step {S} (e : option MbedError) : ST S VeracruzClientError unit :=
  match e with Some e => throw (MbedTLSError e) | None => ret tt end.

Definition with_policy_and_hash (client_cert_filename client_key_filename : string) (policy : Policy)
    (policy_hash : string) : ST N VeracruzClientError VeracruzClient :=
  let! client_cert := lift (read_cert client_cert_filename) in
  let! client_priv_key := lift (read_private_key client_key_filename) in
  do! lift (check_certificate_validity client_cert_filename client_priv_key) in
  let! proxy_cert :=
    ok_or (from_pem_multiple (as_bytes (proxy_service_cert policy) ++ [Byte.x00])) X509ParserError in
  do! mbed_step (set_min_version TLS1_2) in
  do! mbed_step (set_max_version TLS1_2) in
  let! policy_ciphersuite :=
    ok_or (lookup_ciphersuite_mbedtls (ciphersuite policy)) (TLSInvalidCiphersuiteError (ciphersuite policy)) in
  do! mbed_step rng_new in
  do! mbed_step (push_cert client_cert client_priv_key) in
  let config := mkClientConfig _ TLS1_2 TLS1_2 [policy_ciphersuite; 0] proxy_cert client_cert client_priv_key in
  λ n,
    match establish insecure_callbacks config (mkConnection [] (veracruz_server_url policy) (Some 0) n) with
    | (Ok ctx, conn) => (Ok (mkClient ctx conn policy policy_hash ∅), cn_net conn)
    | (Err e, conn) => (Err (MbedTLSError e), cn_net conn)
    | (Abort p, conn) => (Abort p, cn_net conn)
    end.

Definition VeracruzClient_new (client_cert_filename client_key_filename policy_json : string) :
  ST N VeracruzClientError VeracruzClient :=
  let! policy := map_err VeracruzUtilError (lift (Policy_from_json policy_json)) in
  match policy_hash policy with
  | None => panic UnwrapOnErr
  | Some hash => with_policy_and_hash client_cert_filename client_key_filename policy hash
  end.

(** *** Exchanges *)

Definition send (data : bytes) : CL bytes :=
  do! map_err TlsIOError (zoom tls_part set_tls_part (ctx_write_all insecure_callbacks data)) in
  map_err TlsIOError (zoom tls_part set_tls_part (ctx_read_to_end insecure_callbacks)).

Definition parse_response (response : bytes) : CL Transport.RuntimeManagerResponse :=
  let! c := get in
  map_err TransportProtocolError
    (zoom cl_buffers set_cl_buffers
       (parse_runtime_manager_response (remote_session_id (connection c)) response)).

(** A request that is serialized, sent, and answered. *)
Definition exchange (message : outcome Transport.TransportProtocolError bytes) :
  CL Transport.RuntimeManagerResponse :=
  let! serialized := map_err TransportProtocolError (lift message) in
  let! response := send serialized in
  parse_response response.

(** [get_policy_hash] of another message is the default one. *)
Definition get_policy_hash (r : Transport.RuntimeManagerResponse) : bytes :=
  match rs_message_oneof r with Some (Rs_policy_hash data) => data | _ => [] end.

Definition check_policy_hash : CL unit :=
  let! parsed_response := exchange serialize_request_policy_hash in
  match rs_status parsed_response with
  | SUCCESS =>
      let received_hash := String.string_of_list_byte (get_policy_hash parsed_response) in
      do! fail_if (negb (utf8_valid received_hash)) Utf8Error in
      let! c := get in
      fail_if (negb (bool_decide (cl_policy_hash c = received_hash)))
        (MismatchError "check_policy_hash" (as_bytes (cl_policy_hash c)) (as_bytes received_hash))
  | status => throw (ResponseError "check_policy_hash" status)
  end.

Fixpoint compare_platforms (policy : Policy) (received : bytes) (platforms : list Platform) : Pure unit :=
  match platforms with
  | [] => Err NoMatchingRuntimeIsolateHash
  | platform :: platforms' =>
      match runtime_manager_hash policy platform with
      | Ok expected =>
          match hex_decode expected with
          | None => Err HexError
          | Some expected_bytes =>
              if bool_decide (received = expected_bytes) then Ok tt
              else compare_platforms policy received platforms'
          end
      | _ => compare_platforms policy received platforms'
      end
  end.
Definition compare_runtime_hash (policy : Policy) (received : bytes) : Pure unit :=
  compare_platforms policy received [Linux; Nitro; IceCap].

(** The first two numbers of the ID share a byte. *)
Definition encoded_extension_id : bytes := byte_of <$> [2 * 40 + 5; 30; 1].

Definition check_runtime_hash : CL unit :=
  let! c := get in
  match peer_cert (tls_context c) with
  | None => throw NoPeerCertificatesError
  | Some certs =>
      match certs with
      | None | Some [] => throw UnexpectedCertificateError
      | Some (cert :: _) =>
          let! ee_cert := ok_or (ee_try_from cert) WebpkiError in
          match unrecognized_extension ee_cert encoded_extension_id with
          | None => throw RuntimeHashExtensionMissingError
          | Some extension_data => lift (compare_runtime_hash (cl_policy c) extension_data)
          end
      end
  end.

(** The text of a path, if it is text, with a leading slash. *)
Definition path_of (path : option string) : CL string :=
  let! p := ok_or path InvalidPath in ret (enforce_leading_backslash p).

Definition expect_success (name : string) (parsed_response : Transport.RuntimeManagerResponse) : CL unit :=
  match rs_status parsed_response with
  | SUCCESS => ret tt
  | status => throw (ResponseError name status)
  end.

Definition expect_result (parsed_response : Transport.RuntimeManagerResponse) : CL bytes :=
  match rs_message_oneof parsed_response with
  | Some (Rs_result data) => ret data
  | _ => throw VeracruzServerResponseNoResultError
  end.

Definition send_program (path : option string) (program : bytes) : CL unit :=
  do! check_policy_hash in
  do! check_runtime_hash in
  let! path := path_of path in
  let! parsed_response := exchange (serialize_program program path) in
  expect_success "send_program" parsed_response.

Definition send_data (path : option string) (data : bytes) : CL unit :=
  do! check_policy_hash in
  do! check_runtime_hash in
  let! path := path_of path in
  let! parsed_response := exchange (serialize_program_data data path) in
  expect_success "send_data" parsed_response.

Definition request_compute (path : option string) : CL bytes :=
  do! check_policy_hash in
  do! check_runtime_hash in
  let! path := path_of path in
  let! parsed_response := exchange (serialize_request_result path) in
  do! expect_success "request_compute" parsed_response in
  expect_result parsed_response.

Definition get_results (path : option string) : CL bytes :=
  do! check_policy_hash in
  do! check_runtime_hash in
  let! path := path_of path in
  let! parsed_response := exchange (serialize_read_file path) in
  do! expect_success "get_result" parsed_response in
  expect_result parsed_response.

Definition request_shutdown : CL unit :=
  let! serialized_request := map_err TransportProtocolError (lift serialize_request_shutdown) in
  let! _response := send serialized_request in
  ret tt.
End client.
