(* ===== verification/FsFiles.v ===== *)
(** * Whole files by path

    Creating a file puts it where a lookup of its path finds it, and what is
    written to a path is what is read from it.

    Source: [execution-engine/src/fs.rs], [path_open], [add_file],
    [write_file_by_absolute_path], [read_file_by_absolute_path]. *)

From S2P Require Import Prelude RustPath WasiTypes Policy InodeTable FileSystem FsOps Services.
From S2P Require Import InodeWf Walk FsWf FsInv FsSystem FsSafe FsProps FsReadAll FsData Demo.
From S2P Require Import FsReach.

#[local] Arguments Z.testbit : simpl never.

Section create.
Context {BP : BuildProfile} {WR : WasiRights} {HO : HashOrder} {NL : NativeLibs}.

(** ** Adding a file *)

(** The target of [add_file] is where the parent path leads. *)
Lemma add_file_target_walk n t0 i j p t target t1 :
  creatable p → tinv n t0 t → reserved i t → is_Some (table t !! j) →
  add_file_target j p t = (Ok target, t1) →
  ∃ cs name, p_comps p = cs ++ [Normal name] ∧ Forall is_normal cs ∧ Forall comp_ok (p_comps p) ∧
    p_comps target.2 = [Normal name] ∧
    walk (dirs t1) j cs = Some target.1 ∧ is_Some (table t1 !! target.1) ∧
    walk_inv n t0 (eq i) t1 ∧ grows t t1.
Proof.
  intros Hp Ht Hres Hj Hrun. pose proof Hp as ([Hcok Hraw] & Hcur & Hpar).
  pose proof (add_file_target_triple n t0 (eq i) j p Hp t) as Htr. rewrite Hrun in Htr.
  destruct Htr as [Hinv Hname]; [split; [split; [done|by intros ? <-]|done]|].
  unfold add_file_target in Hrun.
  apply bind_ok in Hrun as (pp & t2 & Hpp & Hrun). unfold ok_or in Hpp.
  destruct (parent p) as [pp'|] eqn:Hparent; simplify_eq.
  destruct (path_eqb pp (path "")) eqn:Heq.
  - unfold ret in Hrun. simplify_eq/=.
    destruct (single_component _ _ Hparent Heq) as (c & Hc & Hroot).
    destruct c as [| | |name]; try congruence.
    exists [], name. split_and!; try done.
  - apply bind_ok in Hrun as (name & t3 & Hfn & Hrun). unfold ok_or in Hfn.
    destruct (file_name p) as [name'|] eqn:Hfile; simplify_eq.
    apply bind_ok in Hrun as (k & t4 & Hadd & Hrun).
    apply bind_ok in Hrun as ([k' e'] & t5 & Hlook & Hrun). unfold ret in Hrun. simplify_eq/=.
    pose proof (get_inode_by_inode_path_pure j pp t4) as Hpure. rewrite Hlook in Hpure.
    simpl in Hpure. subst t4. apply lookup_ok in Hlook as [Hw He'].
    assert (grows t3 t1) as Hgrow.
    { eapply (add_all_dir_grows n t0 (p_comps pp) j t3); [|split; [split; [done|by intros]|done]|done].
      exact (proj1 (parent_ok _ _ (conj Hcok Hraw) Hparent)). }
    exists (p_comps pp), name. destruct Hname as (_ & name2 & Hname2).
    split_and!; try done.
    + by apply parent_file_name.
    + by eapply add_all_dir_normal.
    + pose proof (file_name_ok p name (conj Hcok Hraw) Hfile) as (_ & s & Hs). simpl in Hs.
      assert (comp_ok (Normal name)) as Hok.
      { apply parent_file_name with (pp := pp) in Hfile; [|done]. rewrite Hfile in Hcok.
        rewrite Forall_app, Forall_singleton in Hcok. apply Hcok. }
      exact Hok.
Qed.

(** After a file was added, its path leads to it from every directory from
    which names lead to its parent. *)
Lemma add_file_walk n t0 i j p b t t' r cs0 :
  creatable p → tinv n t0 t → reserved i t → is_Some (table t !! j) → names_walk t r cs0 j →
  add_file j p i b t = (Ok tt, t') → walk (dirs t') r (cs0 ++ p_comps p) = Some i.
Proof.
  intros Hp Ht Hres Hj (Hn0 & Hok0 & Hw0). unfold add_file. rewrite bind_ok.
  intros (target & t1 & Htarget & Hrest).
  apply bind_ok in Hrest as (sz & t1' & Hsz & Hrest).
  assert (t1' = t1) as -> by (unfold lift in Hsz; by simplify_eq).
  destruct (add_file_target_walk n t0 i j p t target t1) as
    (cs & name & Hcs & Hn & Hok & Htgt & Hw & Hex & [[Hwf1 _] Hres1] & Hgrow); [done..|].
  destruct (Hres1 i eq_refl) as [Hnone _].
  apply bind_ok in Hrest as ([] & t2 & Hins & Hatt).
  unfold InodeTable_insert, modify in Hins. simplify_eq.
  rewrite bool_decide_true in Hatt by (destruct Hex; congruence).
  apply attach_dirs in Hatt as (d & Hd & ->).
  rewrite insert_file_dirs in * by done. rewrite Hcs in Hok |- *.
  apply Forall_app in Hok as [Hok Hname]. rewrite Forall_singleton in Hname.
  assert (walk (dirs t1) r (cs0 ++ cs) = Some target.1) as Hall
    by (by rewrite walk_app, (grows_walk _ _ _ _ _ Hgrow Hw0)).
  rewrite app_assoc, walk_app, (walk_update_last n t1 (cs0 ++ cs) r (target.1));
    [|done|by apply Forall_app|by apply Forall_app|done|by eexists].
  simpl. rewrite lookup_insert_eq. simpl. rewrite pm_get_insert.
  unfold comp_ok in Hname. simpl in Hname.
  rewrite decide_True; [done|]. rewrite Htgt. cbn [path p_comps]. by rewrite Hname.
Qed.
End create.

Section open.
Context {BP : BuildProfile} {WR : WasiRights} {HO : HashOrder} {NL : NativeLibs}.

Abbreviation tbl s := (inode_table (world s)).

Lemma lock_run {A} (op : ST InodeTable ErrNo.t A) s a s' :
  lock_inode_table op s = (Ok a, s') →
  ∃ t', op (tbl s) = (Ok a, t') ∧ s' = set_inode_table t' s.
Proof. unfold lock_inode_table, zoom. destruct (op (tbl s)) as [r t']. naive_solver. Qed.

Lemma set_inode_table_id s : set_inode_table (tbl s) s = s.
Proof. by destruct s as [? []]. Qed.

Lemma lookup_dot_creatable n t0 s j p err :
  fs_inv n t0 s → path_ok p → is_Some (dirs (tbl s) !! j) →
  get_inode_by_inode_path j p (tbl s) = (Err err, tbl s) → creatable p.
Proof.
  intros Hs Hp [d Hd] Hl. apply lookup_dirs_Some in Hd as (f & Hf & Hfd).
  assert (InodeEntry_is_dir f = true) as Hdir by (unfold InodeEntry_is_dir; by rewrite Hfd).
  assert (∀ c, c = CurDir ∨ c = ParentDir → p_comps p ≠ [c]) as Hdot.
  { intros c Hc Hpc.
    pose proof (lookup_dot n (tbl s) j p c f (proj1 (fi_table _ _ _ Hs)) Hf Hdir Hpc Hc) as Hok.
    by rewrite Hl in Hok. }
  split_and!; [done|apply Hdot; auto|apply Hdot; auto].
Qed.

Lemma path_open_inode_spec n t0 fd j p oflags s i s2 :
  fs_inv n t0 s → path_ok p → open_on fd j s → path_open_inode fd j p oflags s = (Ok i, s2) →
  handle s2 = handle s ∧ services (world s2) = services (world s) ∧
  (∀ r cs, names_walk (tbl s) r cs j → walk (dirs (tbl s2)) r (cs ++ p_comps p) = Some i) ∧
  at_inode n t0 i s2 ∧
  (s2 = s ∨ table (tbl s2) !! i = Some (file_node i [])).
Proof.
  intros Hs Hp Hopen Hrun. pose proof Hopen as [_ (f & Hf & Hdir)].
  assert (at_inode n t0 i s2) as Hat.
  { pose proof (path_open_inode_triple n t0 fd j p oflags Hp s (conj Hs Hopen)) as Htr.
    by rewrite Hrun in Htr. }
  unfold path_open_inode, try_match in Hrun. rewrite (get_inode_by_fd_path_run fd j) in Hrun by done.
  pose proof (get_inode_by_inode_path_pure j p (tbl s)) as Hpure.
  destruct (get_inode_by_inode_path j p (tbl s)) as [[[i' e']|err|a] t] eqn:Hl;
    simpl in Hpure; subst t; simpl in Hrun; [|..|done].
  - apply lookup_ok in Hl as [Hw _].
    apply bind_ok in Hrun as ([] & s' & Hexcl & Hrun).
    assert (s' = s) as -> by (unfold fail_if in Hexcl; by destruct (EXCL oflags); simplify_eq).
    apply bind_ok in Hrun as (b & s' & Hd & Hrun). rewrite lock_is_dir_run in Hd. simplify_eq.
    apply bind_ok in Hrun as ([] & s'' & Hf' & Hrun).
    assert (s'' = s') as -> by (unfold fail_if in Hf'; by destruct (_ && _); simplify_eq).
    unfold ret in Hrun. simplify_eq. split_and!; [done|done| |done|by left].
    intros r cs (_ & _ & Hr). by rewrite walk_app, Hr.
  - assert (is_Some (dirs (tbl s) !! j)) as Hjd.
    { rewrite lookup_dirs, Hf. unfold InodeEntry_is_dir in Hdir. simpl. unfold dir_of.
      by destruct (data f). }
    pose proof (lookup_dot_creatable n t0 s j p err Hs Hp Hjd Hl) as Hc.
    apply bind_ok in Hrun as ([] & s' & Hcr & Hrun).
    assert (s' = s) as -> by (unfold fail_if in Hcr; by destruct (negb _); simplify_eq).
    apply bind_ok in Hrun as ([] & s' & Hck & Hrun). rewrite check_right_run in Hck.
    assert (s' = s) as -> by by simplify_eq. clear Hck.
    apply bind_ok in Hrun as (i' & s' & Hnew & Hrun). apply lock_run in Hnew as (t1 & Hnew & ->).
    apply bind_ok in Hrun as ([] & s' & Hadd & Hrun). apply lock_run in Hadd as (t2 & Hadd & ->).
    unfold ret in Hrun. simplify_eq/=.
    pose proof (new_inode_triple n t0 (tbl s) (fi_table _ _ _ Hs)) as Hfresh.
    pose proof (new_inode_table (tbl s)) as Htab. rewrite Hnew in Hfresh, Htab. simpl in Htab.
    destruct Hfresh as [Ht1 Hfr%fresh_reserved].
    assert (is_Some (table t1 !! j)) as Hj1 by (rewrite Htab; eauto).
    split_and!; [done|done| |done|].
    + intros r cs Hr. eapply (add_file_walk n t0); try done.
      unfold names_walk, dirs. by rewrite Htab.
    + right. pose proof (add_file_triple n t0 i j p [] Hc) as Htr.
      specialize (Htr ltac:(done) t1 (conj Ht1 (conj Hfr Hj1))). rewrite Hadd in Htr. apply Htr.
Qed.

Lemma new_fd_run s nfd s' :
  new_fd s = (Ok nfd, s') →
  fd_table (handle s) !! nfd = None ∧ nfd = next_fd_candidate (handle s) ∧
  ∃ next, s' = set_next_fd next s.
Proof.
  unfold new_fd, bind, get, fail_if, lift, modify, ret. simpl.
  match goal with |- context [if ?b then _ else _] => destruct b eqn:Hb end; [done|].
  apply orb_false_iff in Hb as [_ Hb%bool_decide_eq_false].
  destruct (u32_add _ _); [|done|done]. intros; simplify_eq. split_and!; [|done|eauto].
  destruct (fd_table _ !! _); [|done]. destruct Hb; eauto.
Qed.

(** Emptying a file that is not a directory. *)
Lemma truncate_run i s s' :
  lock_inode_table (InodeTable_get_mut i InodeEntry_truncate_file) s = (Ok tt, s') →
  ∃ f f', table (tbl s) !! i = Some f ∧ s' = set_entry i f' s ∧
    file_content f' = Some [] ∧ InodeEntry_is_service f' = InodeEntry_is_service f ∧ dir_of f = None.
Proof.
  intros Hrun. apply lock_run in Hrun as (t' & Hrun & ->).
  unfold InodeTable_get_mut, InodeTable_get, bind at 1 2, get, ok_or in Hrun. simpl in Hrun.
  destruct (table (tbl s) !! i) as [f|] eqn:Hf; [|done].
  unfold InodeEntry_truncate_file, on_data, zoom, InodeImpl_truncate_file, bind, get, ok_or, put,
    modify, lift, InodeTable_insert in Hrun. simpl in Hrun.
  destruct (content (data f)) as [b|] eqn:Hc; simpl in Hrun; simplify_eq.
  eexists f, _. split_and!; [done|done|..]; unfold file_content, InodeEntry_is_service, dir_of;
    simpl; by destruct (data f).
Qed.

Lemma set_entry_dirs i f' s f :
  table (tbl s) !! i = Some f → dir_of f = None → dir_of f' = None →
  dirs (tbl (set_entry i f' s)) = dirs (tbl s).
Proof.
  intros Hf Hd Hd'. apply map_eq. intros k. rewrite !lookup_dirs. simpl. rewrite lookup_insert.
  case_decide; [|done]. subst. by rewrite Hf; simpl; rewrite Hd.
Qed.

(** What a successful [path_open] leaves behind. *)
Record opened (s : fs_state) (fd : Fd) (p : Path) (base inh : Rights) (trunc : bool)
    (nfd : Fd) (s1 : fs_state) (i : Z) (e e1 : FdEntry) (f1 : InodeEntry) : Prop := {
  op_from : fd_table (handle s) !! fd = Some e;
  op_right : has_right e PATH_OPEN;
  op_fresh : fd_table (handle s) !! nfd = None;
  op_fds : fd_table (handle s1) = <[nfd := e1]> (fd_table (handle s));
  op_prestat : prestat_table (handle s1) = prestat_table (handle s);
  op_inode : fe_inode e1 = i;
  op_offset : offset e1 = 0%Z;
  op_base : rights_base (fd_stat e1) = rights_inter base (rights_inheriting (fd_stat e));
  op_inh : rights_inheriting (fd_stat e1) = rights_inter inh (rights_inheriting (fd_stat e));
  op_walk r cs : names_walk (tbl s) r cs (fe_inode e) →
    walk (dirs (tbl s1)) r (cs ++ p_comps p) = Some i;
  op_entry : table (tbl s1) !! i = Some f1;
  op_trunc : trunc = true → file_content f1 = Some [];
  op_services : services (world s1) = services (world s);
  op_dir : is_Some (dirs (tbl s) !! fe_inode e);
  op_service_file : InodeEntry_is_service f1 = true →
    walk (dirs (tbl s)) (fe_inode e) (p_comps p) = Some i ∧
    ∃ f0, table (tbl s) !! i = Some f0 ∧ InodeEntry_is_service f0 = true;
}.

Lemma path_open_spec n t0 fd p oflags base inh fl s nfd s1 :
  fs_inv n t0 s → path_ok p → path_open fd p oflags base inh fl s = (Ok nfd, s1) →
  ∃ i e e1 f1, opened s fd p base inh (TRUNC oflags) nfd s1 i e e1 f1.
Proof.
  intros Hs Hp. unfold path_open. rewrite bind_ok. intros ([] & s' & Hck & Hrun).
  rewrite check_right_run in Hck.
  destruct (fd_table (handle s) !! fd) as [e|] eqn:He; [|done].
  destruct (rights_contains _ _) eqn:Hr; simplify_eq.
  apply bind_ok in Hrun as (j & s & Hj & Hrun). rewrite get_inode_by_fd_run, He in Hj. simplify_eq.
  apply bind_ok in Hrun as (b & s' & Hd & Hrun). rewrite lock_is_dir_run in Hd. simplify_eq.
  apply bind_ok in Hrun as ([] & s & Hf & Hrun). unfold fail_if in Hf.
  destruct (bool_decide _) eqn:Hdir; simplify_eq/=. apply bool_decide_eq_true in Hdir as [d Hd].
  apply bind_ok in Hrun as (e' & s' & He' & Hrun). rewrite fd_get_run, He in He'. simplify_eq.
  apply bind_ok in Hrun as (i & s2 & Hi & Hrun).
  assert (open_on fd (fe_inode e') s') as Hopen.
  { split; [eauto|]. apply lookup_dirs_Some in Hd as (f & Hf' & Hfd). exists f. split; [done|].
    unfold InodeEntry_is_dir. by rewrite Hfd. }
  destruct (path_open_inode_spec n t0 _ _ _ _ _ _ _ Hs Hp Hopen Hi) as (Hh2 & Hsv2 & Hw2 & [Hs2 Hi2] & Hkind).
  apply bind_ok in Hrun as ([] & s3 & Htr & Hrun).
  assert (∃ f3, handle s3 = handle s2 ∧ services (world s3) = services (world s2) ∧
    dirs (tbl s3) = dirs (tbl s2) ∧ table (tbl s3) !! i = Some f3 ∧
    (TRUNC oflags = true → file_content f3 = Some []) ∧
    ∃ f2, table (tbl s2) !! i = Some f2 ∧ InodeEntry_is_service f3 = InodeEntry_is_service f2)
    as (f3 & Hh3 & Hsv3 & Hd3 & Hf3 & Hc3 & f2 & Hf2 & Hsk).
  { destruct (TRUNC oflags).
    - apply bind_ok in Htr as ([] & s2' & Hck & Htr). rewrite check_right_run in Hck.
      assert (s2' = s2) as -> by by simplify_eq.
      apply truncate_run in Htr as (f & f' & Hf & -> & Hc & Hsk & Hdf). exists f'.
      split_and!; [done|done| |by apply lookup_insert_eq|done|eauto].
      eapply set_entry_dirs; [done|done|]. unfold dir_of. unfold file_content in Hc.
      by destruct (data f').
    - unfold ret in Htr. simplify_eq. destruct Hi2 as [f3 Hf3]. exists f3. by split_and!; eauto. }
  apply bind_ok in Hrun as (nfd' & s4 & Hnew & Hrun).
  apply new_fd_run in Hnew as (Hfree & _ & next & ->).
  apply bind_ok in Hrun as (f & s5 & Hf & Hrun). rewrite lock_get_run in Hf. simpl in Hf.
  rewrite Hf3 in Hf. simplify_eq.
  apply bind_ok in Hrun as ([] & s6 & Hins & Hrun). unfold fd_insert, modify, ret in Hins, Hrun.
  simplify_eq. rewrite Hh3, Hh2 in Hfree.
  eexists i, e', _, f. split; try done; simpl; rewrite ?Hh3, ?Hh2, ?Hd3; try done.
  - by rewrite Hsv3, Hsv2.
  - rewrite Hsk. intros Hsf.
    destruct Hkind as [->|Hnode]; [pose proof (Hw2 _ _ (names_walk_nil _ _)); eauto|].
    rewrite Hnode in Hf2. by simplify_eq.
Qed.
End open.

Section files.
Context {BP : BuildProfile} {WR : WasiRights} {WL : WasiRightsLaws WR} {HO : HashOrder}
  {NL : NativeLibs}.
Local Open Scope Z_scope.

Abbreviation tbl s := (inode_table (world s)).

(** ** Closing *)

(** Closing a descriptor on an ordinary file only removes it. *)
Lemma fd_close_run fd s i e f b :
  on_file s fd i e f b →
  fd_close fd s = (Ok tt, set_fd_table (delete fd (fd_table (handle s))) s).
Proof.
  intros [Hfd Hi Hf Hd Hb]. unfold fd_close, bind at 1. rewrite get_inode_by_fd_run, Hfd, Hi.
  unfold bind at 1, lock_inode_table, zoom, InodeTable_get_mut, InodeTable_get, bind at 1 2, get, ok_or.
  simpl. rewrite Hf. unfold bind at 1, get. unfold InodeEntry_is_service. rewrite Hd.
  unfold ret, InodeTable_insert, modify, bind at 1, lift. simpl. rewrite insert_id by done.
  assert (set_inode_table (set_table (table (tbl s)) (tbl s)) s = s) as ->
    by by destruct s as [? [[] ?]].
  unfold bind. rewrite fd_get_run, Hfd. done.
Qed.

(** ** Writing a file *)

(** The path leads to the special file of a service. *)
Definition names_service (s : fs_state) (p : Path) : Prop :=
  ∃ fd rel e i f, find_prestat p s = (Ok (fd, rel), s) ∧ fd_table (handle s) !! fd = Some e ∧
    walk (dirs (tbl s)) (fe_inode e) (p_comps rel) = Some i ∧
    table (tbl s) !! i = Some f ∧ InodeEntry_is_service f = true.

(** Where a path leads in a handler: the directory of the preopened
    descriptor, and the path below it. *)
Definition resolves (s : fs_state) (p : Path) (fd j : Z) (rel : Path) (e : FdEntry) : Prop :=
  find_prestat p s = (Ok (fd, rel), s) ∧ fd_table (handle s) !! fd = Some e ∧ fe_inode e = j.

(** The regular file at [rel] below the directory [j] has the bytes [b]. *)
Definition file_at (w : World) (j : Z) (rel : Path) (b : bytes) : Prop :=
  ∃ i f, walk (dirs (inode_table w)) j (p_comps rel) = Some i ∧
    is_Some (dirs (inode_table w) !! j) ∧
    table (inode_table w) !! i = Some f ∧ data f = File b ∧ file_size (file_stat f) = len b.

Lemma find_prestat_run p s :
  find_prestat p s =
    (match find_prestat_in (handle s) (ancestors p) with
     | None => Err ErrNo.Access
     | Some r => match strip_prefix p r.2 with Some rel => Ok (r.1, rel) | None => Err ErrNo.Inval end
     end, s).
Proof.
  unfold find_prestat, bind, get, ok_or, ret. simpl.
  destruct (find_prestat_in _ _) as [[fd q]|]; [|done]. simpl. by destruct (strip_prefix p q).
Qed.

Lemma write_file_with_spec n t0 serve p dat s s' :
  fs_inv n t0 s → path_ok p → ¬ names_service s p → len dat < i64_bound →
  write_file_by_absolute_path_with serve p dat false s = (Ok tt, s') →
  ∃ fd j rel e i f, resolves s p fd j rel e ∧
    (∀ r cs, names_walk (tbl s) r cs j → walk (dirs (tbl s')) r (cs ++ p_comps rel) = Some i) ∧
    table (tbl s') !! i = Some f ∧ data f = File dat ∧ file_size (file_stat f) = len dat ∧
    services (world s') = services (world s) ∧
    fd_table (handle s') = fd_table (handle s) ∧
    prestat_table (handle s') = prestat_table (handle s).
Proof.
  intros Hs Hp Hns Hlen. unfold write_file_by_absolute_path_with. rewrite bind_ok.
  intros ([fd rel] & s0 & Hfind & Hrun).
  pose proof Hfind as Hfind0. rewrite find_prestat_run in Hfind0. assert (s0 = s) as -> by congruence.
  clear Hfind0.
  assert (path_ok rel) as Hrel.
  { pose proof (find_prestat_triple (λ _, True) p Hp s Logic.I) as Htr. rewrite Hfind in Htr. apply Htr. }
  apply bind_ok in Hrun as (nfd & s1 & Hopen & Hrun). simpl in Hopen.
  destruct (path_open_spec n t0 _ _ _ _ _ _ _ _ _ Hs Hrel Hopen) as (i & e & e1 & f1 & Hop).
  destruct Hop as [Hfrom Hpo Hfresh Hfds Hpre Hi Hoff Hbase Hinh Hw Hf1 Htr Hsv Hdir Hsf].
  specialize (Htr eq_refl).
  assert (InodeEntry_is_service f1 = false) as Hnsf.
  { destruct (InodeEntry_is_service f1); [|done]. destruct Hns.
    destruct (Hsf eq_refl) as (Hw0 & f0 & Hf0 & Hf0s). by exists fd, rel, e, i, f0. }
  assert (data f1 = File []) as Hd1.
  { unfold file_content in Htr. unfold InodeEntry_is_service in Hnsf.
    destruct (data f1); simplify_eq/=; done. }
  apply bind_ok in Hrun as (e1' & s1' & He1 & Hrun). rewrite fd_get_run, Hfds, lookup_insert_eq in He1.
  simplify_eq. apply bind_ok in Hrun as ([] & s1 & Hck & Hrun). unfold fail_if in Hck.
  destruct (rights_contains _ _) eqn:Hr; simplify_eq/=. rewrite contains_union_r in Hr.
  apply andb_true_iff in Hr as [Hrw Hrs].
  apply bind_ok in Hrun as ([] & s1' & Hsk & Hrun). unfold ret in Hsk. simplify_eq.
  assert (on_file s1' nfd (fe_inode e1') e1' f1 []) as Hon.
  { split; [by rewrite Hfds, lookup_insert_eq|done|done|done|done]. }
  apply bind_ok in Hrun as (k & s2 & Hwr & Hcl).
  pose proof (fd_write_with_run serve nfd [dat] s1' _ e1' f1 [] Hon Hrw Hrs ltac:(done)) as Hwrun.
  rewrite Hoff in Hwrun. simpl in Hwrun. rewrite app_nil_r in Hwrun.
  rewrite Hwrun in Hwr by (done || lia). simplify_eq. clear Hwrun.
  assert (splice [] (Z.to_nat 0) dat = dat) as Hsp
    by (unfold splice; simpl; by rewrite drop_nil, app_nil_r).
  rewrite Hsp in Hcl. set (s2 := set_fd nfd _ _) in Hcl.
  assert (on_file s2 nfd (fe_inode e1') (set_offset (len dat) e1') (with_bytes dat f1) dat) as Hon2.
  { split; [apply lookup_insert_eq|done|by apply lookup_insert_eq|done|done]. }
  rewrite (fd_close_run nfd s2 _ _ _ _ Hon2) in Hcl. simplify_eq.
  exists fd, (fe_inode e), rel, e, (fe_inode e1'), (with_bytes dat f1).
  split_and!; [done..| |by apply lookup_insert_eq|done|done|exact Hsv| |exact Hpre].
  - intros r cs Hr. etrans; [|exact (Hw r cs Hr)]. f_equal.
    apply (set_entry_dirs (fe_inode e1') (with_bytes dat f1) s1' f1 Hf1); [|done].
    unfold dir_of. by rewrite Hd1.
  - simpl. rewrite Hfds, insert_insert_eq. by apply delete_insert_id.
Qed.

(** ** Reading a file *)

(** The handler can open and read below the descriptor entry [e]: rights,
    and a free descriptor. *)
Record can_read (h : FileSystem) (e : FdEntry) : Prop := {
  cr_open : has_right e PATH_OPEN;
  cr_read : rights_contains (rights_inheriting (fd_stat e)) (right_of FD_READ) = true;
  cr_seek : rights_contains (rights_inheriting (fd_stat e)) (right_of FD_SEEK) = true;
  cr_free : fd_table h !! next_fd_candidate h = None;
  cr_next : 0 ≤ next_fd_candidate h < 2 ^ 31;
}.

Lemma new_fd_ok s :
  fd_table (handle s) !! next_fd_candidate (handle s) = None →
  0 ≤ next_fd_candidate (handle s) < 2 ^ 31 →
  new_fd s = (Ok (next_fd_candidate (handle s)), set_next_fd (next_fd_candidate (handle s) + 1) s).
Proof.
  intros Hfree Hnext. unfold new_fd, bind, get, fail_if. simpl.
  rewrite Z.bits_above_log2, Hfree; [|lia|].
  - simpl. unfold lift, u32_add. by rewrite unsigned_add_small by lia.
  - destruct (Z.eq_dec (next_fd_candidate (handle s)) 0) as [->|]; [done|].
    apply Z.log2_lt_pow2; lia.
Qed.

(** Opening a file that exists, to read it. *)
Lemma path_open_existing_run fd p s e i f b :
  fd_table (handle s) !! fd = Some e → can_read (handle s) e →
  is_Some (dirs (tbl s) !! fe_inode e) →
  walk (dirs (tbl s)) (fe_inode e) (p_comps p) = Some i →
  table (tbl s) !! i = Some f → data f = File b →
  let nfd := next_fd_candidate (handle s) in
  ∃ e1, path_open fd p OpenFlags_empty DEFAULT_RIGHTS DEFAULT_RIGHTS FdFlags_empty s =
      (Ok nfd, set_fd nfd e1 (set_next_fd (nfd + 1) s)) ∧
    fe_inode e1 = i ∧ offset e1 = 0 ∧ has_right e1 FD_READ ∧ has_right e1 FD_SEEK.
Proof.
  intros He [Hpo Hrd Hsk Hfree Hnext] Hdir Hw Hf Hd nfd.
  unfold path_open, bind at 1. rewrite check_right_run, He, Hpo.
  unfold bind at 1. rewrite get_inode_by_fd_run, He. unfold bind at 1.
  rewrite lock_is_dir_run, bool_decide_true by done. unfold fail_if at 1. simpl negb.
  unfold bind at 1, ret at 1. unfold bind at 1. rewrite fd_get_run, He.
  assert (path_open_inode fd (fe_inode e) p OpenFlags_empty s = (Ok i, s)) as Hopen.
  { unfold path_open_inode, try_match. rewrite (get_inode_by_fd_path_run fd (fe_inode e)).
    - rewrite (proj2 (lookup_ok _ _ _ i f)) by done. simpl.
      unfold bind at 1, fail_if at 1, ret at 1. simpl. unfold bind at 1.
      by rewrite lock_is_dir_run.
    - split; [eauto|]. destruct Hdir as [d Hdd]. apply lookup_dirs_Some in Hdd as (g & Hg & Hgd).
      exists g. split; [done|]. unfold InodeEntry_is_dir. by rewrite Hgd. }
  unfold bind at 1. rewrite Hopen. change (TRUNC OpenFlags_empty) with false. cbv iota.
  unfold bind at 1. unfold ret at 1. unfold bind at 1. rewrite new_fd_ok by done. unfold bind at 1. rewrite lock_get_run. simpl.
  rewrite Hf. eexists. split; [done|]. unfold has_right. simpl.
  split_and!; [done|done|..]; rewrite contains_inter_l; unfold DEFAULT_RIGHTS;
    rewrite contains_all; by simpl.
Qed.

(** The part of [read_file_by_absolute_path] after the file is open. *)
Definition read_opened (fd : Fd) : ST fs_state ErrNo.t bytes :=
  let! e := fd_get fd in
  do! fail_if (negb (rights_contains (rights_base (fd_stat e))
        (rights_union (right_of FD_READ) (right_of FD_SEEK)))) ErrNo.Access in
  let! st := fd_filestat_get fd in
  let! vec := zeroed (file_size st) in
  let! r := fd_read fd [vec] in
  do! debug_assert (r.1 =? len (concat r.2))%Z in
  do! fd_close fd in
  ret (concat r.2).

Lemma read_file_opened p :
  read_file_by_absolute_path p =
    (let! r := find_prestat p in
     let! fd := path_open r.1 r.2 OpenFlags_empty DEFAULT_RIGHTS DEFAULT_RIGHTS FdFlags_empty in
     read_opened fd).
Proof. done. Qed.

Lemma read_opened_run s fd i e f b :
  on_file s fd i e f b → offset e = 0 → has_right e FD_READ → has_right e FD_SEEK →
  file_size (file_stat f) = len b →
  read_opened fd s = (Ok b, set_fd_table (delete fd (fd_table (handle s))) s).
Proof.
  intros Hon Hoff Hr Hs Hsz. pose proof Hon as [Hfd Hi Hf Hd Hb].
  unfold read_opened, bind at 1. rewrite fd_get_run, Hfd. unfold bind at 1, fail_if.
  rewrite contains_union_r, Hr, Hs. simpl negb. cbv iota.
  unfold bind at 1, fd_filestat_get. unfold bind at 1. rewrite get_inode_by_fd_run, Hfd, Hi.
  unfold bind at 1. rewrite lock_get_run, Hf. unfold ret at 1.
  unfold bind at 1, zeroed, lift. rewrite Hsz.
  rewrite vec_resize_in by done. rewrite take_nil, app_nil_l. simpl length. rewrite Nat.sub_0_r.
  set (z := replicate _ _).
  assert (length z = length b) as Hz
    by (subst z; rewrite length_replicate; unfold len; lia).
  destruct (fd_read_run fd [z] s i e f b Hon Hr Hs Hsz) as (bufs & Hrun & Hcat);
    [pose proof (len_nonneg b); lia|].
  cbn zeta in *. rewrite Hoff in *. simpl concat in Hrun, Hcat. rewrite app_nil_r in Hrun, Hcat.
  assert (Z.min (len z) (len b - 0) = len b) as Hmin by (unfold len; rewrite Hz; lia).
  rewrite Hmin in Hrun, Hcat. unfold bind at 1. rewrite Hrun. simpl fst. simpl snd.
  assert (concat bufs = b) as ->.
  { rewrite Hcat. unfold slice, len. rewrite Nat2Z.id, (drop_ge z) by (by rewrite Hz). simpl.
    rewrite app_nil_r, drop_0. by apply take_ge. }
  unfold bind at 1, debug_assert. rewrite Z.eqb_refl, andb_false_r. unfold ret at 1.
  set (s2 := set_fd fd _ s).
  assert (on_file s2 fd i (set_offset (0 + len b) e) f b) as Hon2
    by (split; [apply lookup_insert_eq|done..]).
  unfold bind at 1. rewrite (fd_close_run fd s2 _ _ _ _ Hon2). unfold ret. f_equal.
  unfold s2, set_fd, set_fd_table. simpl. by rewrite delete_insert_eq.
Qed.

Lemma read_file_run s p fd j rel e b :
  resolves s p fd j rel e → can_read (handle s) e → file_at (world s) j rel b →
  len b < i64_bound →
  read_file_by_absolute_path p s = (Ok b, set_next_fd (next_fd_candidate (handle s) + 1) s).
Proof.
  intros (Hfind & He & Hj) Hcan (i & f & Hw & Hdir & Hf & Hd & Hsz) Hb. subst j.
  destruct (path_open_existing_run fd rel s e i f b) as (e1 & Hopen & Hi & Hoff & Hr & Hs); try done.
  destruct Hcan as [_ _ _ Hfree _].
  rewrite read_file_opened. unfold bind at 1. rewrite Hfind. simpl fst. simpl snd.
  unfold bind at 1. rewrite Hopen. set (nfd := next_fd_candidate (handle s)) in *.
  set (s1 := set_fd nfd e1 _).
  assert (on_file s1 nfd i e1 f b) as Hon by (split; [apply lookup_insert_eq|done..]).
  rewrite (read_opened_run s1 nfd i e1 f b) by done. f_equal.
  unfold s1, set_fd, set_fd_table, set_next_fd. simpl. by rewrite delete_insert_id.
Qed.

(** Opening a file that exists, without truncating it, changes the handler
    only. *)
Lemma path_open_existing_inv fd p s e i f nfd s1 :
  fd_table (handle s) !! fd = Some e →
  walk (dirs (tbl s)) (fe_inode e) (p_comps p) = Some i → table (tbl s) !! i = Some f →
  path_open fd p OpenFlags_empty DEFAULT_RIGHTS DEFAULT_RIGHTS FdFlags_empty s = (Ok nfd, s1) →
  ∃ e1, world s1 = world s ∧ fd_table (handle s1) !! nfd = Some e1 ∧ fe_inode e1 = i ∧ offset e1 = 0.
Proof.
  intros He Hw Hf. unfold path_open. rewrite bind_ok. intros ([] & s' & Hck & Hrun).
  rewrite check_right_run, He in Hck. destruct (rights_contains _ _); [|done].
  injection Hck as <-.
  apply bind_ok in Hrun as (j & s2 & Hj & Hrun). rewrite get_inode_by_fd_run, He in Hj.
  injection Hj as <- <-.
  apply bind_ok in Hrun as (b & s2 & Hb & Hrun). rewrite lock_is_dir_run in Hb. injection Hb as <- <-.
  apply bind_ok in Hrun as ([] & s2 & Hd & Hrun). unfold fail_if in Hd.
  case_bool_decide as Hdir; [|done]. injection Hd as <-.
  apply bind_ok in Hrun as (e' & s2 & He' & Hrun). rewrite fd_get_run, He in He'.
  injection He' as <- <-.
  assert (path_open_inode fd (fe_inode e) p OpenFlags_empty s = (Ok i, s)) as Hopen.
  { unfold path_open_inode, try_match. rewrite (get_inode_by_fd_path_run fd (fe_inode e)).
    - rewrite (proj2 (lookup_ok _ _ _ i f)) by done. simpl.
      unfold bind at 1, fail_if at 1, ret at 1. simpl. unfold bind at 1.
      by rewrite lock_is_dir_run.
    - split; [eauto|]. destruct Hdir as [d Hdd]. apply lookup_dirs_Some in Hdd as (g & Hg & Hgd).
      exists g. split; [done|]. unfold InodeEntry_is_dir. by rewrite Hgd. }
  unfold bind at 1 in Hrun. rewrite Hopen in Hrun.
  apply bind_ok in Hrun as ([] & s' & Htr & Hrun). simpl in Htr. unfold ret in Htr. simplify_eq.
  apply bind_ok in Hrun as (nfd' & s4 & Hnew & Hrun).
  apply new_fd_run in Hnew as (_ & _ & next & ->).
  apply bind_ok in Hrun as (f' & s5 & Hf' & Hrun). rewrite lock_get_run in Hf'. simpl in Hf'.
  rewrite Hf in Hf'. simplify_eq.
  apply bind_ok in Hrun as ([] & s6 & Hins & Hrun). unfold fd_insert, modify, ret in Hins, Hrun.
  simplify_eq. eexists. split_and!; [done|apply lookup_insert_eq|done|done].
Qed.

(** A read that succeeds gives the bytes of the file the path leads to. *)
Lemma read_file_ok_bytes s p fd j rel e i f b r s' :
  resolves s p fd j rel e → walk (dirs (tbl s)) j (p_comps rel) = Some i →
  table (tbl s) !! i = Some f → data f = File b → file_size (file_stat f) = len b →
  len b < i64_bound →
  read_file_by_absolute_path p s = (Ok r, s') → r = b ∧ world s' = world s.
Proof.
  intros (Hfind & He & Hj) Hw Hf Hd Hsz Hb. subst j.
  rewrite read_file_opened. rewrite bind_ok. intros (r' & s0 & Hfind' & Hrun).
  rewrite Hfind in Hfind'. simplify_eq/=.
  apply bind_ok in Hrun as (nfd & s1 & Hopen & Hrun).
  destruct (path_open_existing_inv _ _ _ _ _ _ _ _ He Hw Hf Hopen) as (e1 & Hw1 & He1 & Hi & Hoff).
  assert (on_file s1 nfd i e1 f b) as Hon by (split; [done|done|by rewrite Hw1|done|done]).
  assert (has_right e1 FD_READ ∧ has_right e1 FD_SEEK) as [Hr Hs].
  { clear -Hrun He1 WL. unfold read_opened in Hrun. apply bind_ok in Hrun as (e & s & He & Hrun).
    rewrite fd_get_run, He1 in He. simplify_eq. apply bind_ok in Hrun as ([] & s2 & Hck & _).
    unfold fail_if in Hck. destruct (rights_contains _ _) eqn:Hc; [|done].
    rewrite contains_union_r in Hc. by apply andb_true_iff in Hc. }
  rewrite (read_opened_run s1 nfd i e1 f b) in Hrun by done. by simplify_eq.
Qed.

(** ** Theorems *)

(** C18: a successful [path_open] adds one descriptor, under a number that was
    free, and leaves the other descriptors and the preopened directories
    alone.  The new descriptor stands for the inode the path leads to from
    the directory, starts at offset 0, and its rights are at most those asked
    for and at most the inheriting rights of the directory, which itself has
    the right to open. *)
Theorem path_open_attenuates n t0 fd p oflags base inh fl s nfd s1 :
  fs_inv n t0 s → path_ok p → path_open fd p oflags base inh fl s = (Ok nfd, s1) →
  ∃ e e1, fd_table (handle s) !! fd = Some e ∧ has_right e PATH_OPEN ∧
    fd_table (handle s) !! nfd = None ∧
    fd_table (handle s1) = <[nfd := e1]> (fd_table (handle s)) ∧
    prestat_table (handle s1) = prestat_table (handle s) ∧
    walk (dirs (tbl s1)) (fe_inode e) (p_comps p) = Some (fe_inode e1) ∧
    offset e1 = 0 ∧
    let held := rights_inheriting (fd_stat e) in
    rights_contains base (rights_base (fd_stat e1)) = true ∧
    rights_contains held (rights_base (fd_stat e1)) = true ∧
    rights_contains inh (rights_inheriting (fd_stat e1)) = true ∧
    rights_contains held (rights_inheriting (fd_stat e1)) = true.
Proof.
  intros Hs Hp Hrun. destruct (path_open_spec _ _ _ _ _ _ _ _ _ _ _ Hs Hp Hrun) as (i & e & e1 & f1 & []).
  subst i. exists e, e1. rewrite op_base0, op_inh0. cbn zeta.
  split_and!; solve [done|exact (op_walk0 _ _ (names_walk_nil _ _))|eauto with veracruz].
Qed.

End files.

Section witnesses.
Import Demo.
Local Open Scope Z_scope.

Lemma st0_inv : fs_inv 2 (inode_table (world st0)) st0.
Proof.
  assert (FileSystem_new demo_rights = Ok st0) as Hnew.
  { assert (is_ok (FileSystem_new demo_rights) = true) as Hok by by vm_compute.
    unfold st0. destruct (FileSystem_new demo_rights); [reflexivity|discriminate..]. }
  exact (proj1 (FileSystem_new_inv demo_rights st0 demo_rights_ok Hnew)).
Qed.

Lemma demo_find p r s : (find_prestat p s).1 = Ok r → find_prestat p s = (Ok r, s).
Proof. rewrite find_prestat_run. simpl. by intros ->. Qed.

Lemma no_entry_no_service p s fd rel e :
  (find_prestat p s).1 = Ok (fd, rel) → fd_table (handle s) !! fd = Some e →
  walk (dirs (inode_table (world s))) (fe_inode e) (p_comps rel) = None → ¬ names_service s p.
Proof.
  intros Hfind He Hw (fd' & rel' & e' & i & f & Hfind' & He' & Hw' & _).
  rewrite Hfind' in Hfind. by simplify_eq/=.
Qed.

Lemma demo_no_service : ¬ names_service st0 (path "/data/f").
Proof.
  apply (no_entry_no_service _ _ 3 (path "data/f") (fd_entry st0 3)); by vm_compute.
Qed.

Lemma path_open_attenuates_witness :
  ∃ e1, fd_table (handle st1) !! 7 = Some e1 ∧
    rights_contains (rights_inheriting (fd_stat (fd_entry st0 3))) (rights_base (fd_stat e1)) = true.
Proof.
  destruct (path_open_attenuates 2 (inode_table (world st0)) 3 (path "x") create rights_all
    rights_all FdFlags_empty st0 7 st1 st0_inv (path_path_ok _))
    as (e & e1 & He & _ & _ & Hfds & _ & _ & _ & _ & Hin & _).
  - assert ((path_open 3 (path "x") create rights_all rights_all FdFlags_empty st0).1 = Ok 7)
      as Hok by by vm_compute.
    exact (run_value _ _ _ Hok).
  - exists e1. rewrite Hfds, lookup_insert_eq. split; [done|]. unfold fd_entry. by rewrite He.
Defined.

Lemma st_data_written : write_file_by_absolute_path (path "/data/f") hello false st0 = (Ok tt, st_data).
Proof.
  assert (is_ok (write_file_by_absolute_path (path "/data/f") hello false st0).1 = true) as Hok
    by by vm_compute.
  exact (run_ok _ _ Hok).
Qed.

End witnesses.
