(* ===== verification/FsSpawn.v ===== *)
(** * Handlers and the paths they stand on

    A handler that was just created stands on the directories its principal
    has rights for: each preopened descriptor is on the directory its path
    leads to from the root, and creating the handler only made directories
    that were missing.  An absolute path of ordinary names therefore means the
    same file to every handler.

    Source: [execution-engine/src/fs.rs], [spawn], [install_prestat],
    [find_prestat], [read_file_by_absolute_path], [write_file_by_absolute_path]. *)

From S2P Require Import Prelude RustPath WasiTypes Policy InodeTable FileSystem FsOps Services.
From S2P Require Import InodeWf Walk FsWf FsInv FsSystem FsSafe FsProps FsData FsFiles.

(** ** Absolute paths *)

(** The names of an absolute path, when it has only ordinary names. *)
Definition plain_path (p : Path) (cs : list Component) : Prop :=
  p_comps p = RootDir :: cs ∧ Forall is_normal cs.

Definition rooted (p : Path) : Prop := ∃ cs, p_comps p = RootDir :: cs.

Lemma parent_rooted p q : rooted p → parent p = Some q → rooted q.
Proof.
  intros [cs Hcs]. unfold parent. rewrite Hcs.
  destruct cs as [|c cs]; [done|]. destruct (last (RootDir :: c :: cs)) as [[]|]; [done|..|done];
    intros [= <-]; by exists (removelast (c :: cs)).
Qed.

Lemma ancestors_rooted n p q : rooted p → q ∈ ancestors_from n p → rooted q.
Proof.
  revert p. induction n as [|n IH]; intros p Hp; simpl.
  { by intros ->%list_elem_of_singleton. }
  rewrite elem_of_cons. intros [->|Hq]; [done|].
  destruct (parent p) as [p'|] eqn:Hpar; [|by apply elem_of_nil in Hq].
  apply (IH p'); [by eapply parent_rooted|done].
Qed.

Section spawn.
Context {BP : BuildProfile} {WR : WasiRights} {WL : WasiRightsLaws WR} {HO : HashOrder}
  {HL : HashOrderLaws HO} {NL : NativeLibs}.

Abbreviation tbl s := (inode_table (world s)).

(** ** A new handler *)

(** Every preopened descriptor is on the directory its path leads to. *)
Definition stands (t : InodeTable) (h : FileSystem) : Prop := ∀ fd q,
  prestat_table h !! fd = Some q →
  ∃ e, fd_table h !! fd = Some e ∧
    names_walk t ROOT_DIRECTORY_INODE (p_comps (strip_root_slash q)) (fe_inode e).

Lemma names_walk_grows t t' r cs j : grows t t' → names_walk t r cs j → names_walk t' r cs j.
Proof. intros Hg (Hn & Hok & Hw). split_and!; [done..|by eapply grows_walk]. Qed.

Lemma stands_grows t t' h : grows t t' → stands t h → stands t' h.
Proof.
  intros Hg Hs fd q Hq. destruct (Hs fd q Hq) as (e & He & Hw). eauto using names_walk_grows.
Qed.

Lemma fs_inv_walk_at n t0 s :
  fs_inv n t0 s → walk_at n t0 (λ _, False) ROOT_DIRECTORY_INODE (tbl s).
Proof. intros Hs. destruct (root_at n t0 s Hs) as [[Ht _ _] Hr]. by split; [split|]. Qed.

Lemma install_prestat_dir_stands n t0 index e s k s' :
  fs_inv n t0 s → path_ok e.1 → stands (tbl s) (handle s) →
  install_prestat_dir index e s = (Ok k, s') →
  grows (tbl s) (tbl s') ∧ stands (tbl s') (handle s').
Proof.
  intros Hs Hp Hst. unfold install_prestat_dir. rewrite bind_ok. intros (i32 & s1 & H1 & Hrun).
  unfold lift in H1. injection H1 as _ <-.
  apply bind_ok in Hrun as (fd & s1 & H1 & Hrun). unfold lift in H1. injection H1 as _ <-.
  apply bind_ok in Hrun as (j & s1 & Hj & Hrun).
  assert (handle s1 = handle s ∧ grows (tbl s) (tbl s1) ∧
    names_walk (tbl s1) ROOT_DIRECTORY_INODE (p_comps (strip_root_slash e.1)) j) as (Hh & Hg & Hw).
  { destruct (path_eqb _ _) eqn:Heq.
    - unfold ret in Hj. injection Hj as <- <-. apply bool_decide_eq_true in Heq. rewrite Heq.
      split_and!; [done..|apply names_walk_nil].
    - apply lock_run in Hj as (t' & Hadd & ->). unfold add_all_dir in Hadd.
      pose proof (strip_root_slash_ok _ Hp) as [Hok _].
      destruct (add_all_dir_grows n t0 _ _ _ _ _ Hok (fs_inv_walk_at _ _ _ Hs) Hadd) as [Hg Hw].
      split_and!; [done..|]. split_and!; [by eapply add_all_dir_normal|done|done]. }
  unfold install_fd, fd_insert, bind, modify, ret in Hrun. injection Hrun as _ <-. split; [done|].
  intros fd' q. simpl. rewrite lookup_insert_Some. intros [[-> <-]|[Hne Hq]].
  - rewrite lookup_insert_eq. eauto.
  - rewrite lookup_insert_ne by done. rewrite Hh in *.
    destruct (Hst fd' q Hq) as (e' & He' & Hw'). eauto using names_walk_grows.
Qed.

Lemma install_prestat_dirs_stand n t0 l index s k s' :
  Forall (λ e : Path * Rights, path_ok e.1) l → fs_inv n t0 s → stands (tbl s) (handle s) →
  fold_st install_prestat_dir l index s = (Ok k, s') →
  grows (tbl s) (tbl s') ∧ stands (tbl s') (handle s').
Proof.
  revert index s. induction l as [|e l IH]; intros index s Hl Hs Hst; simpl.
  { unfold ret. intros [= _ <-]. by split. }
  apply Forall_cons in Hl as [He Hl]. rewrite bind_ok. intros (i & s1 & Hstep & Hrest).
  destruct (install_prestat_dir_stands n t0 index e s i s1 Hs He Hst Hstep) as [Hg1 Hst1].
  assert (fs_inv n t0 s1) as Hs1.
  { pose proof (install_prestat_dir_wf n t0 index e He s Hs) as Htr. by rewrite Hstep in Htr. }
  destruct (IH i s1 Hl Hs1 Hst1 Hrest) as [Hg2 Hst2]. split; [by etrans|done].
Qed.

(** The standard streams touch neither the table nor the preopened paths. *)
Definition streams_only (w : World) (s : fs_state) : Prop :=
  world s = w ∧ prestat_table (handle s) = ∅.

Lemma install_streams_only w l : preserves (streams_only w) (install_standard_streams_fd l).
Proof.
  apply preserves_fold. intros _ fr s Hs. unfold install_standard_stream, bind, get. simpl.
  destruct (std_stream_target _ _) as [[fd i]|]; [|done]. unfold lift, ok_or.
  destruct (try_from_or_errno _ _); [|done..]. by destruct (rights_from_bits _).
Qed.

Lemma install_paths_ok (m : PathMap Rights) :
  keys_ok m → Forall (λ e : Path * Rights, path_ok e.1)
    (filter (λ e : Path * Rights, is_std_path e.1 = false) (pm_iter m)).
Proof.
  intros Hm. apply Forall_forall. intros [q r] [_ Hin]%list_elem_of_filter.
  rewrite (pm_iter_ok _ _ _ Hm Hin). apply path_path_ok.
Qed.

Lemma install_prestat_stands n t0 m s s' :
  keys_ok m → fs_inv n t0 s → prestat_table (handle s) = ∅ →
  install_prestat m s = (Ok tt, s') → grows (tbl s) (tbl s') ∧ stands (tbl s') (handle s').
Proof.
  intros Hm Hs Hpre. unfold install_prestat. rewrite bind_ok. intros ([] & s1 & Hstd & Hrun).
  assert (streams_only (world s) s1) as [Hw1 Hp1].
  { pose proof (install_streams_only (world s) (omap std_stream_rights (pm_iter m)) s) as Htr.
    rewrite Hstd in Htr. by apply Htr. }
  assert (fs_inv n t0 s1) as Hs1.
  { pose proof (preserves_fold (fs_inv n t0) (λ _, install_standard_stream)
      (omap std_stream_rights (pm_iter m)) tt (λ _ fr, install_standard_stream_wf n t0 fr) s Hs) as Htr.
    unfold install_standard_streams_fd in Hstd. by rewrite Hstd in Htr. }
  apply bind_ok in Hrun as (k & s2 & Hdirs & Hrun).
  assert (stands (tbl s1) (handle s1)) as Hst1 by (intros fd q; by rewrite Hp1, lookup_empty).
  destruct (install_prestat_dirs_stand n t0 _ _ s1 _ _ (install_paths_ok m Hm) Hs1 Hst1 Hdirs)
    as [Hg Hst].
  rewrite Hw1 in Hg.
  apply bind_ok in Hrun as (z & s3 & H3 & Hrun). unfold lift in H3. injection H3 as _ <-.
  apply bind_ok in Hrun as (next & s3 & H3 & Hrun). unfold lift in H3. injection H3 as _ <-.
  unfold modify in Hrun. injection Hrun as <-. by split.
Qed.

Lemma spawn_stands n t0 pr s h s' :
  fs_inv n t0 s → spawn pr s = (Ok h, s') →
  grows (tbl s) (tbl s') ∧ stands (tbl s') h ∧ fs_inv n t0 (mkState h (world s')).
Proof.
  intros Hs Hrun.
  assert (fs_inv n t0 (mkState h (world s'))) as Hinv.
  { pose proof (spawn_triple n t0 pr s Hs) as Htr. rewrite Hrun in Htr.
    destruct Htr as [[? ? ?] ?]. by split. }
  unfold spawn in Hrun. apply bind_ok in Hrun as (m & s1 & Hm & Hrun).
  unfold lock_inode_table, zoom, get_rights, bind, get, ok_or in Hm. simpl in Hm.
  destruct (rights_table (tbl s) !! pr) as [m'|] eqn:Hr; [|done]. injection Hm as <- <-.
  rewrite set_inode_table_id in Hrun. apply bind_ok in Hrun as ([[] h'] & s2 & Hw & Hret).
  unfold ret in Hret. simpl in Hret. injection Hret as <- <-. unfold with_handle in Hw.
  destruct (install_prestat m' _) as [[[]| |] s3] eqn:Hins; [|done..]. injection Hw as <- <-.
  assert (keys_ok m') as Hk by by eapply (tw_rights _ _ (proj1 (fi_table _ _ _ Hs))).
  destruct (install_prestat_stands n t0 m' (mkState empty_handle (world s)) s3) as [Hg Hst]; try done.
  destruct Hs as [Ht _ Hsv]. split; [done|apply empty_handle_wf|done].
Qed.

(** ** What an absolute path means *)

Lemma prestat_of_Some h q fd :
  prestat_of h q = Some fd → ∃ q', prestat_table h !! fd = Some q' ∧ p_comps q' = p_comps q.
Proof.
  unfold prestat_of. destruct (list_find _ _) as [[k [fd' q']]|] eqn:Hf; [|done].
  intros [= <-]. apply list_find_Some in Hf as (Hk & Heq & _). exists q'.
  apply list_elem_of_lookup_2, elem_of_hash_iter in Hk.
  split; [done|]. simpl in Heq. by apply bool_decide_eq_true in Heq.
Qed.

Lemma find_prestat_in_Some h l fd q :
  find_prestat_in h l = Some (fd, q) → q ∈ l ∧ prestat_of h q = Some fd.
Proof.
  induction l as [|q' l IH]; simpl; [done|]. destruct (prestat_of h q') eqn:Hq'.
  - intros [= -> ->]. split; [apply list_elem_of_here|done].
  - intros H. destruct (IH H). split; [by apply list_elem_of_further|done].
Qed.

Lemma strip_absolute_comps q cs : p_comps q = RootDir :: cs → p_comps (strip_root_slash q) = cs.
Proof. intros Hq. unfold strip_root_slash, strip_prefix. by rewrite Hq. Qed.

(** In a new handler an absolute path is a descriptor, and a rest that
    continues the path of that descriptor. *)
Lemma find_prestat_stands s p cs fd rel :
  stands (tbl s) (handle s) → plain_path p cs → find_prestat p s = (Ok (fd, rel), s) →
  ∃ e cs0, fd_table (handle s) !! fd = Some e ∧ cs = cs0 ++ p_comps rel ∧
    names_walk (tbl s) ROOT_DIRECTORY_INODE cs0 (fe_inode e).
Proof.
  intros Hst [Hp Hn]. rewrite find_prestat_run.
  destruct (find_prestat_in _ _) as [[fd' q]|] eqn:Hin; [|done]. simpl.
  destruct (strip_prefix p q) as [rel'|] eqn:Hstrip; [|done]. intros [= -> ->].
  apply find_prestat_in_Some in Hin as [Hanc Hq].
  apply prestat_of_Some in Hq as (q' & Hq' & Hcomps).
  destruct (ancestors_rooted _ p q ltac:(by eexists) Hanc) as [cs0 Hcs0].
  destruct (Hst fd q' Hq') as (e & He & Hw). exists e, cs0.
  rewrite (strip_absolute_comps q' cs0) in Hw by congruence. split_and!; [done| |done].
  unfold strip_prefix in Hstrip. rewrite Hp, Hcs0 in Hstrip. simpl in Hstrip.
  destruct (strip_list cs0 cs) as [rest|] eqn:Hl; [|done]. injection Hstrip as <-.
  by apply strip_list_Some in Hl.
Qed.

(** ** Files at absolute paths *)

(** The names [cs] from the root lead to a regular file with the bytes [b]. *)
Definition holds (w : World) (cs : list Component) (b : bytes) : Prop := ∃ i f,
  walk (dirs (inode_table w)) ROOT_DIRECTORY_INODE cs = Some i ∧
  table (inode_table w) !! i = Some f ∧ data f = File b ∧ file_size (file_stat f) = len b.

(** The names lead to no special file of a native service. *)
Definition no_service (w : World) (cs : list Component) : Prop := ∀ i f,
  walk (dirs (inode_table w)) ROOT_DIRECTORY_INODE cs = Some i →
  table (inode_table w) !! i = Some f → InodeEntry_is_service f = false.

Lemma holds_grows w w' cs b :
  grows (inode_table w) (inode_table w') → holds w cs b → holds w' cs b.
Proof.
  intros Hg (i & f & Hw & Hf & Hd & Hsz). exists i, f. split_and!; [by eapply grows_walk| |done|done].
  apply (gr_files _ _ Hg); [done|]. unfold dir_of. by rewrite Hd.
Qed.

Lemma no_service_grows n w w' cs :
  table_wf n (inode_table w) → grows (inode_table w) (inode_table w') →
  Forall is_normal cs → Forall comp_ok cs → no_service w cs → no_service w' cs.
Proof.
  intros Hwf Hg Hn Hok Hno i f Hw Hf. destruct (InodeEntry_is_service f) eqn:Hs; [|done].
  assert (dirs (inode_table w') !! i = None) as Hnd.
  { rewrite lookup_dirs, Hf. simpl. unfold InodeEntry_is_service in Hs. unfold dir_of.
    by destruct (data f). }
  destruct (table (inode_table w) !! i) as [f0|] eqn:Hf0.
  - assert (is_Some (table (inode_table w) !! ROOT_DIRECTORY_INODE)) as Hroot.
    { destruct (tw_root _ _ Hwf) as (e & He & _). eauto. }
    apply (grows_walk_back n (inode_table w)) in Hw; [|done..|by rewrite Hf0].
    rewrite <- Hs. apply (Hno i f Hw).
    assert (dir_of f0 = None) as Hd0.
    { destruct (dir_of f0) as [d|] eqn:Hd; [|done].
      destruct (gr_dirs _ _ Hg i d) as (d' & Hd' & _); [by rewrite lookup_dirs, Hf0|congruence]. }
    pose proof (gr_files _ _ Hg i f0 Hf0 Hd0). congruence.
  - destruct (gr_newdir _ _ Hg i Hf0 ltac:(eauto)). congruence.
Qed.

Lemma plain_path_ok s cs : plain_path (path s) cs → Forall comp_ok cs.
Proof. intros [Hp _]. pose proof (components_ok s) as Hok. simpl in Hp. rewrite Hp in Hok. by inv Hok. Qed.

(** A new handler that writes a file makes its path lead to the bytes. *)
Lemma spawned_write n t0 pr f cs dat s h s1 s2 :
  fs_inv n t0 s → plain_path (path f) cs → no_service (world s) cs → (len dat < i64_bound)%Z →
  spawn pr s = (Ok h, s1) →
  write_file_by_absolute_path (path f) dat false (mkState h (world s1)) = (Ok tt, s2) →
  holds (world s2) cs dat.
Proof.
  intros Hs Hp Hns Hlen Hsp Hw. pose proof (plain_path_ok _ _ Hp) as Hok.
  destruct (spawn_stands n t0 pr s h s1 Hs Hsp) as (Hg & Hst & Hinv).
  assert (no_service (world s1) cs) as Hns1.
  { eapply no_service_grows; [exact (proj1 (fi_table _ _ _ Hs))|done|apply Hp|done|done]. }
  set (s0 := mkState h (world s1)) in *.
  assert (¬ names_service s0 (path f)) as Hnone.
  { intros (fd & rel & e & i & g & Hfind & He & Hwi & Hgi & Hsv).
    destruct (find_prestat_stands s0 _ _ _ _ Hst Hp Hfind) as (e' & cs0 & He' & -> & _ & _ & Hw0).
    assert (e' = e) as -> by congruence.
    rewrite (Hns1 i g) in Hsv; [done| |done]. etrans; [apply walk_app|]. simpl in Hw0. by rewrite Hw0. }
  destruct (write_file_with_spec n t0 _ (path f) dat s0 s2 Hinv (path_path_ok _) Hnone Hlen Hw)
    as (fd & j & rel & e & i & g & (Hfind & He & Hj) & Hwalk & Hg' & Hd & Hsz & _).
  destruct (find_prestat_stands s0 _ _ _ _ Hst Hp Hfind) as (e' & cs0 & He' & -> & Hw0).
  assert (e' = e) as -> by congruence. subst j. exists i, g.
  split_and!; [|done..]. by apply Hwalk.
Qed.

(** A new handler that reads a file gets the bytes its path leads to. *)
Lemma spawned_read n t0 pr f cs b s h s1 r s2 :
  fs_inv n t0 s → plain_path (path f) cs → holds (world s) cs b →
  spawn pr s = (Ok h, s1) →
  read_file_by_absolute_path (path f) (mkState h (world s1)) = (Ok r, s2) →
  r = b ∧ holds (world s2) cs b.
Proof.
  intros Hs Hp Hb Hsp Hr.
  destruct (spawn_stands n t0 pr s h s1 Hs Hsp) as (Hg & Hst & Hinv).
  apply (holds_grows _ _ _ _ Hg) in Hb as Hb1. set (s0 := mkState h (world s1)) in *.
  pose proof Hr as ([fd rel] & s0' & Hfind & _)%bind_ok.
  assert (s0' = s0) as -> by (rewrite find_prestat_run in Hfind; congruence).
  destruct (find_prestat_stands s0 _ _ _ _ Hst Hp Hfind) as (e & cs0 & He & -> & _ & _ & Hw0).
  destruct Hb1 as (i & g & Hwi & Hgi & Hd & Hsz). simpl in Hw0; rewrite walk_app, Hw0 in Hwi. simpl in Hwi.
  assert (len b < i64_bound)%Z as Hlen.
  { destruct (tw_entry _ _ (proj1 (fi_table _ _ _ Hinv)) _ _ Hgi) as [_ Hent].
    rewrite Hd in Hent. apply Hent. }
  destruct (read_file_ok_bytes s0 (path f) fd (fe_inode e) rel e i g b r s2) as [-> Hw2]; try done.
  split; [done|]. rewrite Hw2. by eapply holds_grows.
Qed.

(** Checking that a file may be run leaves it where it is. *)
Lemma is_executable_holds n t0 pr f cs b s r s' :
  fs_inv n t0 s → plain_path (path f) cs → holds (world s) cs b →
  is_executable pr (path f) s = (Ok r, s') → holds (world s') cs b.
Proof.
  intros Hs Hp Hb Hrun. unfold is_executable in Hrun.
  apply bind_ok in Hrun as (h & s1 & Hsp & Hrun).
  destruct (spawn_stands n t0 pr s h s1 Hs Hsp) as (Hg & Hst & _).
  apply (holds_grows _ _ _ _ Hg) in Hb as Hb1. set (s0 := mkState h (world s1)) in *.
  apply bind_ok in Hrun as (x & s2 & Hwith & Hret). unfold ret in Hret. injection Hret as _ <-.
  unfold with_handle in Hwith. fold s0 in Hwith.
  match type of Hwith with (match ?m with _ => _ end) = _ =>
    destruct m as [[[]| |] s3] eqn:Hop end; [|done..].
  injection Hwith as _ <-.
  apply bind_ok in Hop as ([fd rel] & s0' & Hfind & Hop).
  assert (s0' = s0) as -> by (rewrite find_prestat_run in Hfind; congruence).
  destruct (find_prestat_stands s0 _ _ _ _ Hst Hp Hfind) as (e & cs0 & He & -> & _ & _ & Hw0).
  apply bind_ok in Hop as (nfd & s4 & Hopen & Hck).
  destruct Hb1 as (i & g & Hwi & Hgi & Hd & Hsz). pose proof Hwi as Hwi0.
  simpl in Hw0. rewrite walk_app, Hw0 in Hwi. simpl in Hwi.
  destruct (path_open_existing_inv fd rel s0 e i g nfd s4 He Hwi Hgi Hopen) as (e1 & Hw4 & He1 & _).
  rewrite check_right_run, He1 in Hck. destruct (rights_contains _ _); [|done]. injection Hck as <-.
  simpl. rewrite Hw4. by exists i, g.
Qed.
End spawn.
