(* ===== verification/FsBoot.v ===== *)
(** * The filesystem can always be made

    [FileSystem::new] returns a filesystem for every table of rights, in
    whatever order its hash maps are visited, so that the protocol state of
    the runtime manager exists for every policy whose digests are hexadecimal.

    Sources: [execution-engine/src/fs.rs] ([FileSystem::new]),
    [runtime-manager/src/managers/mod.rs] ([ProtocolState::new]). *)

From S2P Require Import Prelude RustPath WasiTypes Policy InodeTable FileSystem FsOps Services.
From S2P Require Import InodeWf Transport Framing Session Csr Runtime.

(** A run from [P] returns a value and ends in [Q]. *)
Definition succeeds {S E A} (P : S → Prop) (m : ST S E A) (Q : A → S → Prop) : Prop := ∀ s, P s →
  ∃ a s', m s = (Ok a, s') ∧ Q a s'.

Section rules.
Context {S E : Type}.

Lemma succeeds_bind {A B} P Q R (m : ST S E A) (k : A → ST S E B) :
  succeeds P m Q → (∀ a, succeeds (Q a) (k a) R) → succeeds P (bind m k) R.
Proof.
  intros Hm Hk s Hs. destruct (Hm s Hs) as (a & s1 & Ha & H1). destruct (Hk a s1 H1) as (b & s2 & Hb & H2).
  exists b, s2. split; [|done]. unfold bind. by rewrite Ha.
Qed.

Lemma succeeds_fold {A X} (I : A → S → Prop) (Q : X → Prop) (body : A → X → ST S E A) l acc :
  Forall Q l → (∀ a x, Q x → succeeds (I a) (body a x) I) → succeeds (I acc) (fold_st body l acc) I.
Proof.
  intros Hl Hbody. revert acc. induction Hl as [|x l Hx _ IH]; intros acc s Hs; [by exists acc, s|].
  exact (succeeds_bind _ _ _ _ _ (Hbody acc x Hx) IH s Hs).
Qed.
End rules.

Section boot.
Context {BP : BuildProfile} {WR : WasiRights} {WL : WasiRightsLaws WR} {HO : HashOrder}
  {HL : HashOrderLaws HO} {NL : NativeLibs}.

(** The shared state is [w]. *)
Definition over (w : World) (s : fs_state) : Prop := world s = w.

(** ** The entries of the first handler *)

Definition stream_or_root (e : Path * Rights) : Prop :=
  e.2 = rights_all ∧ (is_std_path e.1 = true ∨ p_comps e.1 = [RootDir]).

Lemma initial_entries : Forall stream_or_root (pm_iter initial_rights).
Proof.
  apply Forall_forall. intros [p r] Hin. apply elem_of_pm_iter in Hin. unfold initial_rights, pm_insert in Hin.
  rewrite !lookup_insert in Hin. unfold stream_or_root, is_std_path, path_eqb. simpl.
  repeat case_decide; simplify_eq/=; rewrite ?lookup_empty in *; try done;
    repeat match goal with H : _ = p_comps p |- _ => rewrite <- H end; auto.
Qed.

Lemma install_stream_succeeds w e fr :
  stream_or_root e → std_stream_rights e = Some fr →
  succeeds (over w) (install_standard_stream fr) (λ _, over w).
Proof.
  intros [Hr _] Hfr s Hs. unfold std_stream_rights, try_from_or_errno in Hfr. rewrite Hr in Hfr.
  destruct (is_std_stream _); [|done]. destruct ((0 <=? _)%Z && _) eqn:Hb; [|done]. injection Hfr as <-.
  unfold install_standard_stream, bind at 1, get. destruct (std_stream_target _ _) as [[fd i]|]; [|by exists tt, s].
  unfold bind at 1, lift, try_from_or_errno. cbn [fr_rights].
  apply andb_true_iff in Hb as [H0%Z.leb_le H1%Z.ltb_lt].
  assert ((0 <=? rights_bits rights_all)%Z && (rights_bits rights_all <? u64_bound)%Z = true) as ->.
  { apply andb_true_iff. rewrite Z.leb_le, Z.ltb_lt. lia. }
  unfold bind, ok_or. rewrite from_bits_bits. by eexists _, _.
Qed.

Lemma install_root_succeeds w e (index : Z) :
  p_comps e.1 = [RootDir] → (0 ≤ index < 1000)%Z →
  succeeds (over w) (install_prestat_dir index e) (λ i s, over w s ∧ i = (index + 1)%Z).
Proof.
  intros He Hi s Hs. unfold install_prestat_dir, try_from_or_errno.
  assert ((0 <=? index)%Z && (index <? u32_bound)%Z = true) as ->.
  { apply andb_true_iff. rewrite Z.leb_le, Z.ltb_lt. lia. }
  unfold bind at 1, lift. unfold u32_add, unsigned_add. unfold bind at 1.
  assert ((index + FIRST_FD <? u32_bound)%Z = true) as -> by (apply Z.ltb_lt; unfold FIRST_FD; lia).
  unfold strip_root_slash, strip_prefix. rewrite He. by eexists _, _.
Qed.

Lemma install_roots_succeed w (l : list (Path * Rights)) (index : Z) :
  Forall (λ e, p_comps e.1 = [RootDir]) l → (0 ≤ index)%Z → (index + Z.of_nat (length l) < 1000)%Z →
  succeeds (over w) (fold_st install_prestat_dir l index) (λ _, over w).
Proof.
  intros Hl. revert index. induction Hl as [|e l He _ IH]; intros index H0 Hi; [by intros s Hs; exists index, s|].
  cbn [fold_st length] in *. eapply succeeds_bind; [apply install_root_succeeds; [done|lia]|].
  intros i s [Hs ->]. apply IH; [lia..|done].
Qed.

Lemma install_prestat_succeeds w : succeeds (over w) (install_prestat initial_rights) (λ _, over w).
Proof.
  pose proof initial_entries as He. unfold install_prestat. cbv zeta.
  eapply succeeds_bind with (Q := λ _, over w).
  { apply (succeeds_fold (λ _, over w) (λ fr, ∃ e, stream_or_root e ∧ std_stream_rights e = Some fr)).
    - apply Forall_forall. intros fr (e & Hin & Hfr)%list_elem_of_omap. exists e. split; [|done].
      by eapply Forall_forall in He.
    - intros _ fr (e & Hs & Hfr). by eapply install_stream_succeeds. }
  intros _. eapply succeeds_bind with (Q := λ _, over w).
  { apply install_roots_succeed; [|lia|].
    - apply Forall_forall. intros e [Hf Hin]%list_elem_of_filter. eapply Forall_forall in He; [|exact Hin].
      destruct He as [_ [Hstd|Hroot]]; [congruence|done].
    - pose proof (length_filter (λ e : Path * Rights, is_std_path e.1 = false) (pm_iter initial_rights)) as Hlen.
      assert (length (pm_iter initial_rights) = 4) as H4; [|rewrite H4 in Hlen; lia].
      unfold pm_iter. rewrite length_fmap, length_hash_iter. reflexivity. }
  intros _ s Hs. by eexists _, _.
Qed.

Lemma install_services_succeed rt :
  ∃ t, InodeTable_install_services
    [(path "/services/postcard_string.dat", 0); (path "/services/aesctr.dat", 1)]
    (mkInodeTable initial_inodes rt 3 4 5 6) = (Ok tt, t).
Proof. eexists. vm_compute. reflexivity. Qed.

(** A filesystem is made for every table of rights, in whatever order the
    hash maps are visited. *)
Theorem FileSystem_new_succeeds rt : ∃ s, FileSystem_new rt = Ok s.
Proof.
  unfold FileSystem_new. rewrite InodeTable_new_eq. set (t := mkInodeTable _ _ _ _ _ _).
  destruct (install_prestat_succeeds (mkWorld t initial_services)
    (mkState empty_handle (mkWorld t initial_services)) eq_refl) as ([] & s & Hp & Hw).
  destruct (install_services_succeed rt) as (t' & Ht).
  unfold bind. rewrite Hp. unfold FileSystem_install_services, lock_inode_table, zoom.
  unfold over in Hw. rewrite Hw. cbn [inode_table]. subst t. rewrite Ht. by eexists.
Qed.
End boot.

(** ** The protocol state *)

Section protocol.
Context {BP : BuildProfile} {WR : WasiRights} {WL : WasiRightsLaws WR} {HO : HashOrder}
  {HL : HashOrderLaws HO} {NL : NativeLibs} {PL : PolicyLibs} {WE : WasmEngines} {TL : TlsLibs}.

Lemma ProtocolState_new_succeeds policy hash t :
  get_file_hash_table policy = Ok t →
  ∃ state, ProtocolState_new policy hash = Ok state ∧ global_policy state = policy ∧ digest_table state = t.
Proof.
  intros Ht. unfold ProtocolState_new. rewrite Ht. cbn [err_into].
  destruct (FileSystem_new_succeeds (<[InternalSuperUser := su_read_rights]> (get_rights_table policy))) as (s & ->).
  by eexists.
Qed.
End protocol.
