(* ===== verification/SessionProps.v ===== *)
(** * Properties of TLS sessions

    The loop that feeds a connection ends and does what its big-step
    description says; a message is attributed to the client with the peer's
    certificate; the session context goes through its states in order.

    Sources: [session-manager/src/session.rs], [session_context.rs]. *)

From S2P Require Import Prelude RustPath WasiTypes Policy InodeTable FileSystem FsOps Services.
From S2P Require Import Demo PolicyProps Session.

Section feeding.
Context {TL : TlsLibs} {LW : TlsLaws TL}.

(** ** Feeding a connection *)

(** What feeding the bytes of [input] to a connection does, as a relation
    with no bound on the number of turns. *)
Inductive fed (ps : list (Identity bytes)) :
  ServerConnection → bytes → outcome SessionManagerError unit → Session → Prop :=
  | fed_done c : fed ps c [] (Ok tt) (mkSession c ps)
  | fed_io c input e c' :
      input ≠ [] → read_tls c input = (inr e, c') →
      fed ps c input (Err (IOError e)) (mkSession c' ps)
  | fed_tls c input n c1 e c2 :
      input ≠ [] → read_tls c input = (inl n, c1) → process_new_packets c1 = (inr e, c2) →
      fed ps c input (Err (TLSError e)) (mkSession c2 ps)
  | fed_more c input n c1 c2 r s' :
      input ≠ [] → read_tls c input = (inl n, c1) → process_new_packets c1 = (inl tt, c2) →
      fed ps c2 (drop n input) r s' → fed ps c input r s'.

Lemma fed_det ps c input r s : fed ps c input r s → ∀ r' s', fed ps c input r' s' → r = r' ∧ s = s'.
Proof.
  induction 1 as [|???? Hne Hrd|?????? Hne Hrd Hp|??????? Hne Hrd Hp Hf IH]; intros r' s1 Hf';
    inversion Hf'; subst; try done;
    repeat match goal with
    | H1 : read_tls ?c ?l = _, H2 : read_tls ?c ?l = _ |- _ => rewrite H1 in H2; simplify_eq
    | H1 : process_new_packets ?c = _, H2 : process_new_packets ?c = _ |- _ =>
        rewrite H1 in H2; simplify_eq
    end; eauto.
Qed.

Lemma send_tls_loop_step fuel input :
  input ≠ [] →
  send_tls_loop (S fuel) input =
    (let! n := on_connection (λ c, read_tls c input) IOError in
     let! _u := on_connection process_new_packets TLSError in
     send_tls_loop fuel (drop n input)).
Proof. by destruct input. Qed.

Lemma send_tls_loop_fed fuel input c ps :
  length input ≤ fuel →
  fed ps c input (send_tls_loop fuel input (mkSession c ps)).1
    (send_tls_loop fuel input (mkSession c ps)).2.
Proof.
  revert input c. induction fuel as [|fuel IH]; intros l c Hlen.
  { destruct l; [constructor|simpl in Hlen; lia]. }
  destruct (decide (l = [])) as [->|Hne]; [constructor|]. rewrite send_tls_loop_step by done.
  unfold bind, on_connection. simpl.
  destruct (read_tls c l) as [[n|e] c1] eqn:Hrd; simpl; [|by eapply fed_io].
  destruct (process_new_packets c1) as [[[]|e] c2] eqn:Hp; simpl; [|by eapply fed_tls].
  eapply fed_more; [done|done|done|]. apply IH. rewrite length_drop.
  pose proof (read_tls_progress _ _ _ _ Hrd Hne). lia.
Qed.

(** Feeding bytes from the network to a session ends, and is described by
    [fed]: the connection is given what it has not taken yet until all is
    taken or an error stops it, the errors keep their kind, and the
    principals of the session do not change. *)
Theorem send_tls_data_feeds s input r s' :
  send_tls_data input s = (r, s') ↔ fed (session_principals s) (tls_connection s) input r s'.
Proof.
  destruct s as [c ps]. unfold send_tls_data. simpl.
  pose proof (send_tls_loop_fed (length input) input c ps (le_n _)) as Hf. split.
  - by intros Hrun; rewrite Hrun in Hf.
  - intros Hf'. destruct (fed_det _ _ _ _ _ Hf _ _ Hf') as [<- <-]. by destruct (send_tls_loop _ _ _).
Qed.
End feeding.

Section clients.
Context {TL : TlsLibs}.

(** ** Who sent a message *)

Lemma client_id_of_last ps cert :
  client_id_of ps cert =
    default 0%Z (identity_id <$> last (filter (λ p, certificate p = cert) ps)).
Proof.
  unfold client_id_of. generalize 0%Z as d. induction ps as [|p ps IH]; intros d; simpl; [done|].
  rewrite IH, filter_cons. case_bool_decide as Hc.
  - rewrite decide_True, last_cons by done. by destruct (last _).
  - by rewrite decide_False.
Qed.

(** A message is read from a session only when the peer presented exactly
    one certificate; it is not empty, and is attributed to the last principal
    of the session with that certificate, or to the client 0 when no
    principal has it. *)
Theorem read_plaintext_data_attributed s s' id msg :
  read_plaintext_data s = (Ok (Some (id, msg)), s') →
  msg ≠ [] ∧ session_principals s' = session_principals s ∧
  ∃ cert, peer_certificates (tls_connection s') = Some [cert] ∧
    match last (filter (λ p, certificate p = cert) (session_principals s)) with
    | Some p => id = identity_id p
    | None => id = 0%Z
    end.
Proof.
  destruct s as [c ps]. unfold read_plaintext_data, bind at 1, on_connection at 1. simpl.
  destruct (read_to_end c) as [[buf err] c1]. simpl. unfold bind at 1.
  match goal with |- (let (_, _) := ?m in _) = _ → _ => destruct m as [[buf'| |] s1] eqn:Hbuf end;
    [|done..].
  assert (buf' = buf ∧ s1 = mkSession c1 ps) as [-> ->].
  { destruct err as [e|]; [destruct (io_would_block e)|]; unfold ret, throw in Hbuf; by simplify_eq. }
  unfold bind at 1, on_connection. simpl. destruct (process_new_packets c1) as [[[]|e] c2]; [|done].
  destruct buf as [|b buf]; [done|]. unfold bind, get, ok_or, throw, ret. simpl.
  destruct (peer_certificates c2) as [[|cert [|]]|] eqn:Hpc; simpl; try done.
  intros [= <- <- <-]. split_and!; [done|done|]. exists cert. split; [done|].
  rewrite client_id_of_last. by destruct (last _).
Qed.

(** ** The session context *)

(** A principal of the context and the identity of the policy it is made of. *)
Definition principal_of (i : Identity string) (p : Identity bytes) : Prop :=
  convert_cert_buffer (certificate i) = Ok (certificate p) ∧
  identity_id p = identity_id i ∧ file_rights p = file_rights i.

Lemma collect_principals_spec l store acc store' ps :
  collect_principals l store acc = Ok (store', ps) →
  ∃ ps', ps = acc ++ ps' ∧ Forall2 principal_of l ps'.
Proof.
  revert store acc. induction l as [|i l IH]; intros store acc; simpl.
  { intros [= <- <-]. exists []. by rewrite app_nil_r. }
  destruct (convert_cert_buffer _) as [cert| |] eqn:Hc; [|done|done].
  destruct (root_store_add _ _) as [st|]; [|done]. intros (ps' & -> & Hps')%IH.
  eexists (_ :: ps'). rewrite <- app_assoc. split; [done|]. by constructor.
Qed.

(** The calls that change a session context. *)
Inductive ctx_step : SessionContext → SessionContext → Prop :=
  | step_set_policy c p r c' : set_policy p c = (r, c') → ctx_step c c'
  | step_set_cert_chain c chain r c' : set_cert_chain chain c = (r, c') → ctx_step c c'.

(** What holds of a context made with the keys of [c0]. *)
Record ctx_ok (c0 c : SessionContext) : Prop := {
  co_private : private_key c = private_key c0;
  co_public : public_key c = public_key c0;
  co_principals :
    match sc_policy c, sc_principals c with
    | Some p, Some ps => Forall2 principal_of (identities p) ps
    | None, None => sc_config c = None ∧ sc_config_builder c = None
    | _, _ => False
    end;
}.

Lemma set_policy_ok c0 c p : ctx_ok c0 c → ctx_ok c0 (set_policy p c).2.
Proof.
  intros Hc. unfold set_policy, bind, lift, ok_or, throw, modify, ret.
  destruct (collect_principals _ _ _) as [[store ps]| |] eqn:Hps; simpl; [|done|done].
  destruct (lookup_ciphersuite _); simpl; [|done]. destruct (config_builder _ _); simpl; [|done].
  destruct Hc. apply collect_principals_spec in Hps as (ps' & -> & Hps). by split.
Qed.

Lemma set_cert_chain_ok c0 c chain : ctx_ok c0 c → ctx_ok c0 (set_cert_chain chain c).2.
Proof.
  intros [Hpr Hpu Hps]. unfold set_cert_chain, bind, get, modify, throw. simpl.
  assert (ctx_ok c0 (mkContext None (sc_config c) (sc_policy c) (sc_principals c)
    (sc_private_key c) (sc_public_key c))) as Hc.
  { split; [done|done|]. simpl. destruct (sc_policy c), (sc_principals c); try done. naive_solver. }
  destruct (sc_config_builder c) as [b|] eqn:Hb; [|done]. destruct (with_single_cert _ _ _); [|done].
  split; [done|done|]. simpl. destruct (sc_policy c), (sc_principals c); try done. naive_solver.
Qed.

Lemma ctx_steps_ok c0 c : SessionContext_new = Ok c0 → rtc ctx_step c0 c → ctx_ok c0 c.
Proof.
  intros Hnew. apply (rtc_ind_r (ctx_ok c0)).
  - unfold SessionContext_new in Hnew. destruct generate_key as [[pub key]|]; [|done].
    case_decide; [|done]. simplify_eq. by split.
  - intros c1 c2 _ Hstep Hc1. destruct Hstep as [c1 p r c2 Hrun|c1 chain r c2 Hrun].
    + pose proof (set_policy_ok c0 c1 p Hc1) as H. by rewrite Hrun in H.
    + pose proof (set_cert_chain_ok c0 c1 chain Hc1) as H. by rewrite Hrun in H.
Qed.

(** Whatever the order of the calls on a session context, it gives out a
    session only after a policy was set, and the principals of the session
    are the identities of the policy in force, in order, with the
    certificates of the policy decoded and the same IDs and rights; the keys
    of the context never change. *)
Theorem create_session_principals c0 c s :
  SessionContext_new = Ok c0 → rtc ctx_step c0 c → create_session c = Ok s →
  (∃ p, sc_policy c = Some p ∧ Forall2 principal_of (identities p) (session_principals s)) ∧
  private_key c = private_key c0 ∧ public_key c = public_key c0.
Proof.
  intros Hnew Hsteps Hs. destruct (ctx_steps_ok _ _ Hnew Hsteps) as [Hpr Hpu Hps].
  split; [|done]. unfold create_session, server_config, principals, Session_new in Hs.
  destruct (sc_config c) eqn:Hcfg; [|done]. destruct (sc_principals c) as [ps|]; [|done].
  destruct (connection_new _); [|done]. simplify_eq. simpl.
  destruct (sc_policy c) as [p|]; [|done]. eauto.
Qed.

(** The configuration is built once per policy, in order: a certificate
    chain without a policy, or a second chain for the same policy, is
    refused with [InvalidStateError], and so is a session before the chain. *)
Theorem set_cert_chain_once c0 c chain r c' :
  SessionContext_new = Ok c0 →
  (∀ chain, set_cert_chain chain c0 = (Err InvalidStateError, c0)) ∧
  (∀ p, create_session (set_policy p c0).2 = Err InvalidStateError) ∧
  (set_cert_chain chain c = (r, c') →
   ∀ chain', set_cert_chain chain' c' = (Err InvalidStateError, c')).
Proof.
  intros Hnew. assert (sc_config c0 = None ∧ sc_config_builder c0 = None) as [Hc0 Hb0].
  { unfold SessionContext_new in Hnew. destruct generate_key as [[pub key]|]; [|done].
    case_decide; [|done]. by simplify_eq. }
  split_and!.
  - intros ch. destruct c0. simpl in *. subst. done.
  - intros p. unfold set_policy, bind, lift, ok_or, throw, modify, ret, create_session, server_config.
    destruct (collect_principals _ _ _) as [[store ps]| |]; simpl; [|by rewrite Hc0..].
    destruct (lookup_ciphersuite _); simpl; [|by rewrite Hc0].
    destruct (config_builder _ _); simpl; by rewrite Hc0.
  - unfold set_cert_chain at 1, bind, get, modify, throw. simpl.
    destruct (sc_config_builder c); [destruct (with_single_cert _ _ _)|]; intros [= <- <-] ch; done.
Qed.
End clients.

(** ** A small TLS stack

    Connections without encryption that take four bytes at a time, from a
    client with Alice's certificate. *)
Module SmallTls.
Import Demo.

Record conn := mkConn { inbox : bytes; outbox : bytes }.

#[export] Instance tls : TlsLibs := {|
  TlsError := unit; IoError := bool; io_would_block b := b; PrivateKey := bytes;
  pem_certs s := Some [as_bytes s];
  RootCertStore := list bytes; root_store_empty := []; root_store_add st c := inl (c :: st);
  CipherSuite := string; cipher_suite_eqb a b := bool_decide (a = b);
  lookup_value s := Some s; SupportedCipherSuite := string; suite_of s := s;
  ALL_CIPHER_SUITES := ["TLS1_3_CHACHA20_POLY1305_SHA256"];
  ConfigBuilder := list bytes; config_builder _ st := inl st;
  ServerConfig := list bytes; with_single_cert _ chain _ := inl chain;
  generate_key := Some (replicate 88 Byte.x05, replicate 32 Byte.x06);
  ServerConnection := conn; connection_new _ := inl (mkConn [] []);
  read_tls c l := (inl (Nat.min 4 (length l)), mkConn (inbox c ++ take 4 l) (outbox c));
  process_new_packets c := (inl tt, c);
  write_all c l := (inl tt, mkConn (inbox c) (outbox c ++ l));
  wants_write c := bool_decide (outbox c ≠ []);
  write_tls c := (inl (outbox c), mkConn (inbox c) []);
  read_to_end c := ((inbox c, Some true), mkConn [] (outbox c));
  peer_certificates _ := Some [as_bytes (pem "alice")];
  is_handshaking _ := false;
|}.

#[export] Instance tls_laws : TlsLaws tls.
Proof. split. simpl. intros c [|x l] n c' [= <- _] Hne; [done|]. simpl. lia. Qed.

Definition ctx0 : SessionContext :=
  mkContext None None None None (replicate 32 Byte.x06) (replicate 65 Byte.x05).
Definition ctx1 : SessionContext := (set_policy demo_policy ctx0).2.
Definition ctx2 : SessionContext := (set_cert_chain [] ctx1).2.
Definition session : Session :=
  match create_session ctx2 with Ok s => s | _ => mkSession (mkConn [] []) [] end.

Lemma ctx0_new : SessionContext_new = Ok ctx0.
Proof. done. Qed.

Lemma ctx2_reached : rtc ctx_step ctx0 ctx2.
Proof.
  eapply rtc_l; [by apply (step_set_policy ctx0 demo_policy (Ok tt) ctx1)|].
  apply rtc_once. by apply (step_set_cert_chain ctx1 [] (Ok tt) ctx2).
Qed.

Lemma create_session_principals_witness :
  identity_id <$> session_principals session = [1; 2]%Z ∧
  ∃ p, sc_policy ctx2 = Some p ∧ Forall2 principal_of (identities p) (session_principals session).
Proof.
  split; [by vm_compute|].
  exact (proj1 (create_session_principals ctx0 ctx2 session ctx0_new ctx2_reached eq_refl)).
Defined.

Lemma set_cert_chain_once_witness : set_cert_chain [] ctx2 = (Err InvalidStateError, ctx2).
Proof. exact (proj2 (proj2 (set_cert_chain_once ctx0 ctx1 [] (Ok tt) ctx2 ctx0_new)) eq_refl []). Defined.

Lemma send_tls_data_feeds_witness :
  fed (session_principals session) (tls_connection session) (hello ++ hello) (Ok tt)
    (mkSession (mkConn (hello ++ hello) []) (session_principals session)).
Proof. apply send_tls_data_feeds. by vm_compute. Defined.

Definition greeted : Session := mkSession (mkConn hello [] : ServerConnection) (session_principals session).

Lemma read_plaintext_data_attributed_witness :
  ∃ s', read_plaintext_data greeted = (Ok (Some (1%Z, hello)), s') ∧
    session_principals s' = session_principals greeted.
Proof.
  eexists. split; [by vm_compute|].
  refine (proj1 (proj2 (read_plaintext_data_attributed greeted _ 1%Z hello _))). by vm_compute.
Defined.
End SmallTls.
