(* ===== verification/RuntimeProps.v ===== *)
(** * Properties of the runtime manager

    What the manager lets a client do: digests, rights and principals, the
    shutdown of the state, the isolation of sessions.

    Sources: [runtime-manager/src/managers/mod.rs],
    [execution_engine_manager.rs], [session_manager.rs]. *)

From S2P Require Import Prelude RustPath WasiTypes Policy InodeTable FileSystem FsOps Services.
From S2P Require Import InodeWf Walk FsWf FsInv FsSystem FsSafe Demo FsProps FsReadAll FsReach.
From S2P Require Import PolicyProps Transport TransportProps Session SessionProps Csr Runtime.

Section protocol.
Context {BP : BuildProfile} {WR : WasiRights} {WL : WasiRightsLaws WR} {HO : HashOrder}
  {HL : HashOrderLaws HO} {NL : NativeLibs}
  {PL : PolicyLibs} {WE : WasmEngines} {EL : WasmEnginesLaws WE} {TL : TlsLibs} {MC : MbedtlsCsr}
  {P1 : ProtobufMessage RuntimeManagerRequest} {P2 : ProtobufMessage RuntimeManagerResponse}.

(** ** Digests *)

Lemma zip_eqb_eq (d h : bytes) :
  length d = length h → forallb (λ e, Byte.eqb e.1 e.2) (zip d h) = true → d = h.
Proof.
  revert h. induction d as [|x d IH]; intros [|y h] Hlen Hall; try done. simpl in *.
  apply andb_true_iff in Hall as [->%Byte.byte_dec_bl Hall]. f_equal. apply IH; [lia|done].
Qed.

Lemma digest_matches_eq d h : digest_matches d h = true ↔ d = h.
Proof.
  unfold digest_matches. rewrite andb_true_iff, Z.eqb_eq. unfold len. split.
  - intros [Hlen Hall]. apply zip_eqb_eq; [lia|done].
  - intros <-. split; [done|]. induction d as [|x d IH]; simpl; [done|].
    by rewrite (Byte.byte_dec_lb eq_refl).
Qed.

(** C24: a file for which the policy has a digest can only be written whole,
    with contents of that digest: other contents are refused with [Access],
    and so is every attempt to append; nothing changes. *)
Theorem digest_enforced p pr f data d :
  pm_get (path f) (digest_table p) = Some d →
  (sha256 data ≠ d → write_file pr f data p = (Err (FileSystemError ErrNo.Access), p)) ∧
  append_file pr f data p = (Err (FileSystemError ErrNo.Access), p).
Proof.
  intros Hd. split.
  - intros Hne. unfold write_file, check_digest, bind, get. simpl. rewrite Hd.
    destruct (digest_matches d (sha256 data)) eqn:Hm; [|done].
    apply digest_matches_eq in Hm. congruence.
  - unfold append_file, bind, get. simpl. rewrite Hd. done.
Qed.

(** ** Principals *)

Lemma set_vfs_id p : set_vfs (vfs p) p = p.
Proof. by destruct p. Qed.

Lemma spawn_unknown pr s :
  rights_table (inode_table (world s)) !! pr = None → spawn pr s = (Err ErrNo.Access, s).
Proof.
  intros Hpr. unfold spawn, lock_inode_table, zoom, get_rights, bind, get, ok_or. simpl.
  rewrite Hpr. unfold set_inode_table. by destruct s as [? []].
Qed.

Lemma on_spawned_unknown {A} pr (op : M A) p :
  rights_table (inode_table (world (vfs p))) !! pr = None →
  on_spawned pr op p = (Err (FileSystemError ErrNo.Access), p).
Proof.
  intros Hpr. unfold on_spawned, on_vfs, map_err, zoom, bind. rewrite spawn_unknown by done.
  by rewrite set_vfs_id.
Qed.

Lemma execute_unknown pr f p :
  rights_table (inode_table (world (vfs p))) !! pr = None →
  execute pr f p = (Err (FileSystemError ErrNo.Access), p).
Proof.
  intros Hpr. unfold execute, on_vfs, is_executable, map_err, zoom, bind, get. simpl.
  rewrite spawn_unknown by done. by rewrite set_vfs_id.
Qed.

Lemma write_file_unknown pr f d p :
  rights_table (inode_table (world (vfs p))) !! pr = None →
  write_file pr f d p = (Err (FileSystemError ErrNo.Access), p).
Proof.
  intros Hpr. unfold write_file, check_digest, bind at 1, bind at 1, get.
  destruct (pm_get _ _) as [dg|]; [unfold fail_if; destruct (negb _)|]; try done; unfold ret at 1;
    (case_decide; [unfold bind|]); by rewrite on_spawned_unknown.
Qed.

(** ** The protocol state *)

(** [p] evolved from [p0] by requests: only the filesystem moved on. *)
Record evolved (p0 p : ProtocolState) : Prop := {
  ev_policy : global_policy p = global_policy p0;
  ev_hash : global_policy_hash p = global_policy_hash p0;
  ev_shutdown : expected_shutdown_sources p = expected_shutdown_sources p0;
  ev_digests : digest_table p = digest_table p0;
  ev_vfs : fs_inv 2 (inode_table (world (vfs p0))) (vfs p);
}.

Lemma vfs_evolved {E A} p0 (f : E → RuntimeManagerError) (op : ST fs_state E A) :
  preserves (fs_inv 2 (inode_table (world (vfs p0)))) op →
  preserves (evolved p0) (map_err f (zoom vfs set_vfs op)).
Proof.
  intros Hop p [Hp Hh Hs Hd Hv]. specialize (Hop (vfs p) Hv). unfold map_err, zoom.
  destruct (op (vfs p)) as [[] s']; by split.
Qed.

Lemma spawned_wf {E A} n t0 h (op : ST fs_state E A) (k : A * FileSystem → ST fs_state E A) :
  (∀ t1, preserves (fs_inv n t1) op) → (∀ r, preserves (fs_inv n t0) (k r)) →
  triple (λ s, fs_inv n t0 s ∧ handle_wf (inode_table (world s)) h)
    (let! r := with_handle h op in k r) (λ _, fs_inv n t0) (fs_inv n t0).
Proof.
  intros Hop Hk. eapply triple_bind; [by apply with_handle_triple|]. intros r.
  eapply triple_conseq; [apply Hk|naive_solver..].
Qed.

Lemma on_spawned_evolved {A} p0 pr (op : M A) :
  (∀ t1, preserves (fs_inv 2 t1) op) → preserves (evolved p0) (on_spawned pr op).
Proof.
  intros Hop. apply vfs_evolved. eapply triple_bind; [apply spawn_triple|]. intros h.
  apply spawned_wf; [done|]. intros r. apply preserves_ret.
Qed.

Lemma read_file_evolved p0 pr f : preserves (evolved p0) (read_file pr f).
Proof.
  unfold read_file. apply preserves_bind; [|intros; apply preserves_ret]. apply on_spawned_evolved.
  intros t1. repeat case_decide; [apply read_std_stream_wf|apply read_std_stream_wf|].
  apply read_file_by_absolute_path_wf, path_path_ok.
Qed.

Lemma check_digest_evolved p0 f d : preserves (evolved p0) (check_digest f d).
Proof. unfold check_digest. preserve. Qed.

Lemma write_file_evolved p0 pr f d : preserves (evolved p0) (write_file pr f d).
Proof.
  unfold write_file. apply preserves_bind; [apply check_digest_evolved|]. intros _. case_decide.
  - apply preserves_bind; [|intros; apply preserves_ret]. apply on_spawned_evolved. intros t1.
    apply fd_write_wf.
  - apply on_spawned_evolved. intros t1. apply write_file_by_absolute_path_wf, path_path_ok.
Qed.

Lemma append_file_evolved p0 pr f d : preserves (evolved p0) (append_file pr f d).
Proof.
  unfold append_file. preserve. apply on_spawned_evolved. intros t1.
  apply write_file_by_absolute_path_wf, path_path_ok.
Qed.

Lemma run_calls_inv n t0 cs s : fs_inv n t0 s → fs_inv n t0 (run_calls cs s).
Proof.
  revert s. induction cs as [|c cs IH]; intros s Hs; [done|]. apply IH.
  by apply (preserves_run _ _ _ (run_call_inv n t0 c)).
Qed.

(** A program keeps the filesystem well formed, whatever it is. *)
Lemma execute_program_wf n t0 st prog clk : preserves (fs_inv n t0) (execute_program st prog clk).
Proof.
  intros s Hs. unfold execute_program.
  assert (∀ m : ST fs_state FatalEngineError Z, (∃ cs, (m s).2 = run_calls cs s) →
    fs_inv n t0 (m s).2) as Hm by (intros m [cs ->]; by apply run_calls_inv).
  pose proof (Hm _ (wasmi_calls clk prog s)) as H1.
  pose proof (Hm _ (wasmtime_calls clk prog s)) as H2.
  destruct st; [|destruct jit_available; [|done]].
  - by destruct (wasmi_run clk prog s) as [[] ?].
  - by destruct (wasmtime_run clk prog s) as [[] ?].
Qed.

Lemma spawn_evolved p0 pr :
  triple (evolved p0) (on_vfs (spawn pr))
    (λ h p, evolved p0 p ∧ handle_wf (inode_table (world (vfs p))) h) (evolved p0).
Proof.
  intros p [Hp Hh Hs Hd Hv]. pose proof (spawn_triple _ _ pr (vfs p) Hv) as Hsp.
  unfold on_vfs, map_err, zoom. destruct (spawn pr (vfs p)) as [[] s']; [|by split..].
  destruct Hsp. by split; [split|].
Qed.

Lemma engine_evolved {E A} p0 h (f : E → RuntimeManagerError) (op : ST fs_state E A) :
  (∀ t1, preserves (fs_inv 2 t1) op) →
  triple (λ p, evolved p0 p ∧ handle_wf (inode_table (world (vfs p))) h)
    (map_err f (zoom vfs set_vfs (with_handle h op))) (λ _, evolved p0) (evolved p0).
Proof.
  intros Hop p [[Hp Hh Hs Hd Hv] Hwf].
  pose proof (with_handle_triple 2 _ h op Hop (vfs p) (conj Hv Hwf)) as Hrun.
  unfold map_err, zoom. destruct (with_handle h op (vfs p)) as [[] s']; [|by split..].
  destruct Hrun. by split.
Qed.

Lemma execute_evolved p0 pr f : preserves (evolved p0) (execute pr f).
Proof.
  unfold execute. apply preserves_bind; [apply preserves_get|]. intros p.
  apply preserves_bind; [apply vfs_evolved, is_executable_wf, path_path_ok|]. intros ok.
  apply preserves_bind; [apply preserves_fail_if|]. intros _.
  apply preserves_bind; [apply read_file_evolved|]. intros content.
  apply preserves_bind; [apply preserves_ok_or|]. intros program.
  eapply triple_bind; [apply spawn_evolved|]. intros h.
  eapply triple_bind; [apply engine_evolved; intros t1; apply execute_program_wf|]. intros r.
  preserve.
Qed.

Lemma request_and_check_shutdown_evolved p0 id : preserves (evolved p0) (request_and_check_shutdown id).
Proof. unfold request_and_check_shutdown. preserve. Qed.

Lemma evolved_refl p0 :
  fs_inv 2 (inode_table (world (vfs p0))) (vfs p0) → evolved p0 p0.
Proof. by split. Qed.

(** ** Requests *)

(** What is known of the protocol state of the running manager. *)
Record protocol_ok (p : ProtocolState) : Prop := {
  po_policy : policy_valid (global_policy p);
  po_hash : policy_hash (global_policy p) = Some (global_policy_hash p);
  po_shutdown : expected_shutdown_sources p = ids (identities (global_policy p));
  po_digests : get_file_hash_table (global_policy p) = Ok (digest_table p);
  po_vfs : fs_inv 2 (inode_table (world (vfs p))) (vfs p);
  po_rights : rights_table (inode_table (world (vfs p))) =
    <[InternalSuperUser := su_read_rights]> (get_rights_table (global_policy p));
}.

Lemma evolved_ok p0 p : protocol_ok p0 → evolved p0 p → protocol_ok p.
Proof.
  intros [Hv Hh Hs Hd Hf Hr] [Ep Eh Es Ed Ev]. destruct Ev as [[Hwf Hext] Hhd Hsv].
  split; rewrite ?Ep, ?Eh, ?Es, ?Ed; try done. by rewrite (ex_rights _ _ Hext).
Qed.

Lemma su_rights_ok p : rights_ok (<[InternalSuperUser := su_read_rights]> (get_rights_table p)).
Proof.
  intros pr m. rewrite lookup_insert_Some. intros [[_ <-]|[_ Hm]].
  - apply keys_ok_insert, keys_ok_empty.
  - by eapply get_rights_table_keys.
Qed.

Lemma ProtocolState_new_ok policy hash p :
  policy_valid policy → policy_hash policy = Some hash →
  ProtocolState_new policy hash = Ok p → protocol_ok p ∧ global_policy_hash p = hash.
Proof.
  intros Hv Hh. unfold ProtocolState_new.
  destruct (get_file_hash_table policy) as [t| |] eqn:Ht; [|done|done]. simpl.
  destruct (FileSystem_new _) as [s| |] eqn:Hs; [|done|done]. intros [= <-].
  destruct (FileSystem_new_inv _ s (su_rights_ok policy) Hs) as [Hfs Hr].
  split; [|done]. split; try done. simpl. unfold expected_shutdown_list.
  by rewrite (foldl_acc (λ i : Identity string, identity_id i)).
Qed.

(** ** The manager *)

(** The entry points of the runtime manager. *)
Inductive entry :=
  | InitSessionManager
  | LoadPolicy (policy_json : string)
  | LoadCertChain (chain : list bytes)
  | NewSession
  | CloseSession (session_id : Z)
  | SendData (session_id : Z) (input_data : bytes)
  | GetData (session_id : Z)
  | GetDataNeeded (session_id : Z)
  | GenerateCsr.

Definition run_entry (e : entry) : ST Runtime RuntimeManagerError unit :=
  match e with
  | InitSessionManager => init_session_manager
  | LoadPolicy json => load_policy json
  | LoadCertChain chain => load_cert_chain chain
  | NewSession => let! _i := new_session in ret tt
  | CloseSession id => close_session id
  | SendData id input => send_data id input
  | GetData id => let! _d := get_data id in ret tt
  | GetDataNeeded id => let! _b := get_data_needed id in ret tt
  | GenerateCsr => let! _c := generate_csr in ret tt
  end.

Inductive rt_step : Runtime → Runtime → Prop :=
  | entry_step e r o r' : run_entry e r = (o, r') → rt_step r r'.

(** The protocol state, when there is one, is sound, and its hash satisfies [K]. *)
Definition state_ok (K : string → Prop) (r : Runtime) : Prop :=
  match PROTOCOL_STATE r with Some p => protocol_ok p ∧ K (global_policy_hash p) | None => True end.

Section keep.
Context (K : string → Prop).

Lemma on_protocol_ok {A} (op : ST ProtocolState RuntimeManagerError A) :
  (∀ p0, preserves (evolved p0) op) → preserves (state_ok K) (on_protocol op).
Proof.
  intros Hop r Hr. unfold on_protocol. unfold state_ok in Hr.
  destruct (PROTOCOL_STATE r) as [p|] eqn:Hp; [|unfold state_ok; by rewrite Hp].
  destruct Hr as [Hok HK].
  pose proof (preserves_run _ _ _ (Hop p) (evolved_refl p (po_vfs _ Hok))) as Hev.
  assert (protocol_ok (op p).2 ∧ K (global_policy_hash (op p).2)) as Hp'.
  { split; [by apply (evolved_ok p)|]. by rewrite (ev_hash _ _ Hev). }
  by destruct (op p) as [[] p'].
Qed.

#[local] Hint Resolve read_file_evolved write_file_evolved append_file_evolved execute_evolved
  request_and_check_shutdown_evolved : veracruz.

Lemma dispatch_on_request_ok id rq : preserves (state_ok K) (dispatch_on_request id rq).
Proof.
  destruct rq; simpl; try (apply on_protocol_ok; intros p0;
    unfold dispatch_on_write, dispatch_on_append, dispatch_on_read, dispatch_on_result,
      dispatch_on_policy_hash, response_invalid_request, serialize; preserve).
  apply preserves_bind; [apply on_protocol_ok; eauto with veracruz|]. intros dead.
  apply preserves_bind; [destruct dead; [by intros r Hr|apply preserves_ret]|]. intros _. preserve.
Qed.

(** A change that leaves the protocol state alone. *)
Lemma frame_ok {A} (m : ST Runtime RuntimeManagerError A) :
  (∀ r, PROTOCOL_STATE (m r).2 = PROTOCOL_STATE r) → preserves (state_ok K) m.
Proof.
  intros Hm r Hr. specialize (Hm r). unfold state_ok in *.
  destruct (m r) as [[] r']; simpl in Hm; by rewrite Hm.
Qed.

Lemma on_session_ok {A} id (op : ST Session SessionManagerError A) :
  preserves (state_ok K) (on_session id op).
Proof.
  apply frame_ok. intros r. unfold on_session. destruct (SESSIONS r !! id); [|done]. by destruct (op _).
Qed.

Lemma on_session_manager_ok {A} name (op : ST SessionContext SessionManagerError A) :
  preserves (state_ok K) (on_session_manager name op).
Proof.
  apply frame_ok. intros r. unfold on_session_manager. destruct (MY_SESSION_MANAGER r); [|done].
  by destruct (op _).
Qed.

Lemma parse_incoming_buffer_ok id input : preserves (state_ok K) (parse_incoming_buffer id input).
Proof.
  apply frame_ok. intros r. unfold parse_incoming_buffer.
  by destruct (parse_runtime_manager_request _ _ _) as [[|[]|] h].
Qed.
#[local] Hint Resolve on_session_ok on_session_manager_ok parse_incoming_buffer_ok
  dispatch_on_request_ok : veracruz.

Lemma modify_ok f : (∀ r, PROTOCOL_STATE (f r) = PROTOCOL_STATE r) →
  preserves (state_ok K) (modify (E:=RuntimeManagerError) f).
Proof. intros Hf. by apply frame_ok. Qed.
#[local] Hint Extern 1 (preserves (state_ok _) (modify _)) => by apply modify_ok : veracruz.

Lemma load_policy_ok json :
  K (hex_encode (sha256 (as_bytes json))) → preserves (state_ok K) (load_policy json).
Proof.
  intros HK. unfold load_policy. apply preserves_bind_lift. intros policy Hp.
  destruct (Policy_from_json json) as [policy'| |] eqn:Hj; simplify_eq/=.
  destruct (Policy_from_json_ok json policy Hj) as (Hv & Hh & _).
  apply preserves_bind; [destruct (debug policy); eauto with veracruz|]. intros _.
  apply preserves_bind_lift. intros p Hnew.
  destruct (ProtocolState_new_ok _ _ _ Hv Hh Hnew) as [Hok Hhash].
  apply preserves_bind; [intros r _; unfold state_ok; simpl; by rewrite Hhash|]. eauto with veracruz.
Qed.

Lemma dispatch_on_incoming_data_ok id client input :
  preserves (state_ok K) (dispatch_on_incoming_data id client input).
Proof.
  unfold dispatch_on_incoming_data, response_invalid_request, serialize.
  apply preserves_bind; [eauto with veracruz|]. intros [[[rq|] v]|]; preserve.
Qed.
#[local] Hint Resolve load_policy_ok dispatch_on_incoming_data_ok : veracruz.

Lemma run_entry_ok e :
  (∀ json, e = LoadPolicy json → K (hex_encode (sha256 (as_bytes json)))) →
  preserves (state_ok K) (run_entry e).
Proof.
  intros HK. destruct e; simpl; unfold init_session_manager, load_cert_chain, new_session, close_session,
    send_data, get_data, get_data_needed, generate_csr, get_enclave_private_key; preserve.
Qed.

End keep.

Lemma reachable_state_ok r p :
  rtc rt_step Runtime_initial r → PROTOCOL_STATE r = Some p → protocol_ok p.
Proof.
  intros Hr Hp. assert (state_ok (λ _, True) r) as Hok; [|unfold state_ok in Hok; rewrite Hp in Hok; apply Hok].
  clear Hp. revert r Hr.
  apply (rtc_ind_r (state_ok (λ _, True))); [done|]. intros r1 r2 _ Hstep Hr1.
  destruct Hstep as [e r1 o r2 Hrun].
  pose proof (preserves_run _ _ _ (run_entry_ok (λ _, True) e (λ _ _, Logic.I)) Hr1) as H.
  by rewrite Hrun in H.
Qed.

(** C21: in every state the manager can reach, through any sequence of calls
    at its entry points and whatever they return, the protocol state, when
    there is one, is sound: it holds a valid policy with the hash of its
    text, the digests and the shutdown list of that policy, and a well-formed
    filesystem in which the rights of the principals are exactly those of the
    policy, with the read-only superuser. *)
Theorem runtime_reachable_ok r p :
  rtc rt_step Runtime_initial r → PROTOCOL_STATE r = Some p → protocol_ok p.
Proof. apply reachable_state_ok. Qed.

Lemma on_protocol_id {A} (op : ST ProtocolState RuntimeManagerError A) r p o :
  PROTOCOL_STATE r = Some p → op p = (o, p) → on_protocol op r = (o, r).
Proof.
  intros Hp Hop. unfold on_protocol. rewrite Hp, Hop. destruct r. simpl in *. by subst.
Qed.

Lemma outsider_unknown p id :
  protocol_ok p → id ∉ ids (identities (global_policy p)) →
  rights_table (inode_table (world (vfs p))) !! Participant id = None.
Proof.
  intros Hp Hid. rewrite (po_rights _ Hp), lookup_insert_ne by done.
  rewrite get_rights_table_lookup. apply fmap_None.
  destruct (last _) as [i|] eqn:Hl; [|done].
  apply last_Some_elem_of, list_elem_of_filter in Hl as [<- Hi].
  destruct Hid. by apply list_elem_of_fmap_2.
Qed.

Lemma bind_err {S E A B} (m : ST S E A) (k : A → ST S E B) s e :
  m s = (Err e, s) → bind m k s = (Err e, s).
Proof. unfold bind. by intros ->. Qed.

(** The requests that act on files. *)
Definition on_files (rq : RuntimeManagerRequest_oneof) : bool :=
  match rq with
  | Rq_write_file _ | Rq_append_file _ | Rq_read_file _ | Rq_request_result _ => true
  | _ => false
  end.

(** C22: a client that is not an identity of the policy can do nothing with
    files: writing, appending, reading and running a program are all refused
    with [Access], and leave the manager as it was. *)
Theorem outsider_denied r p id rq :
  rtc rt_step Runtime_initial r → PROTOCOL_STATE r = Some p →
  id ∉ ids (identities (global_policy p)) → on_files rq = true →
  dispatch_on_request id rq r = (Err (FileSystemError ErrNo.Access), r).
Proof.
  intros Hr Hp Hid Hrq. pose proof (reachable_state_ok r p Hr Hp) as Hok.
  pose proof (outsider_unknown p id Hok Hid) as Hun.
  destruct rq; simplify_eq/=; apply (on_protocol_id _ _ p); try done.
  - by apply bind_err, write_file_unknown.
  - apply bind_err. unfold append_file, bind, get, fail_if. simpl.
    destruct (bool_decide _); [done|]. by apply on_spawned_unknown.
  - by apply execute_unknown.
  - by apply bind_err, bind_err, on_spawned_unknown.
Qed.

(** ** Shutdown *)


Lemma load_policy_sets (K : string → Prop) json r r1 :
  K (hex_encode (sha256 (as_bytes json))) → load_policy json r = (Ok tt, r1) → state_ok K r1.
Proof.
  intros HK Hload. unfold load_policy in Hload.
  apply bind_ok in Hload as (policy & s1 & Hj & Hload). unfold lift in Hj.
  destruct (Policy_from_json json) as [policy'| |] eqn:Hpj; simplify_eq/=.
  destruct (Policy_from_json_ok json policy Hpj) as (Hv & Hh & _).
  apply bind_ok in Hload as ([] & s2 & _ & Hload).
  apply bind_ok in Hload as (p & s3 & Hnew & Hload). unfold lift in Hnew.
  injection Hnew as Hnew <-. destruct (ProtocolState_new_ok _ _ _ Hv Hh Hnew) as [Hok Hhash].
  apply bind_ok in Hload as ([] & s4 & Hset & Hload). unfold modify in Hset. simplify_eq.
  assert (state_ok K (set_protocol_state (Some p) s2)) as Hs4.
  { unfold state_ok. simpl. by rewrite Hhash. }
  pose proof (preserves_run _ _ _ (on_session_manager_ok K "session_manager_state" (set_policy policy)) Hs4) as H.
  by rewrite Hload in H.
Qed.

(** An entry other than the loading of a policy. *)
Inductive rt_step_served : Runtime → Runtime → Prop :=
  | served_step e r o r' :
      (∀ json, e ≠ LoadPolicy json) → run_entry e r = (o, r') → rt_step_served r r'.

(** After a policy is loaded, and until another one is, the manager
    answers a request for the policy hash with the hexadecimal SHA-256 digest
    of exactly the text that was loaded: no session, no request and no
    program changes it. *)
Theorem policy_hash_reported json r r1 r2 p :
  load_policy json r = (Ok tt, r1) → rtc rt_step_served r1 r2 →
  PROTOCOL_STATE r2 = Some p →
  dispatch_on_policy_hash p =
    (let! response := serialize (serialize_policy_hash
       (as_bytes (hex_encode (sha256 (as_bytes json))))) in ret (Some response)) p.
Proof.
  intros Hload Hsteps Hp. set (h := hex_encode _).
  assert (state_ok (λ x, x = h) r1) as H1 by by apply (load_policy_sets _ json r).
  assert (state_ok (λ x, x = h) r2) as H2.
  { clear Hp Hload. induction Hsteps as [|r1 r3 r2 Hstep _ IH]; [done|]. apply IH.
    destruct Hstep as [e r1 o' r3 Hne Hrun].
    pose proof (preserves_run _ _ r1 (run_entry_ok (λ x, x = h) e ltac:(by intros j ->; destruct (Hne j))) H1)
      as H. by rewrite Hrun in H. }
  unfold state_ok in H2. rewrite Hp in H2. destruct H2 as [_ H2].
  unfold dispatch_on_policy_hash, bind at 1, get, get_policy_hash. by rewrite H2.
Qed.

(** ** Rights *)

(** Some right of [B] includes [r]. *)
Definition grants (B : list Rights) (r : right_name) : Prop :=
  ∃ g, g ∈ B ∧ rights_contains g (right_of r) = true.

Lemma within_grants B e r :
  within B e → rights_contains (rights_base (fd_stat e)) (right_of r) = true → grants B r.
Proof. intros (g & Hg & Hb & _) Hr. exists g. split; [done|]. by eapply contains_trans. Qed.

(** A successful run goes through the states of its parts. *)
Lemma confined_bind {A C} B (m : M A) (k : A → M C) s c s' :
  preserves (λ s, confined B (handle s)) m → confined B (handle s) →
  bind m k s = (Ok c, s') → ∃ a s1, k a s1 = (Ok c, s') ∧ m s = (Ok a, s1) ∧ confined B (handle s1).
Proof.
  intros Hm Hs (a & s1 & Ha & Hk)%bind_ok. exists a, s1. split_and!; [done|done|].
  pose proof (preserves_run _ _ _ Hm Hs) as H. by rewrite Ha in H.
Qed.

(** Opening a file by its path and looking at the rights of the descriptor. *)
Lemma open_entry_within B p oflags (s : fs_state) {A} (k : Fd → FdEntry → M A) a s' :
  confined B (handle s) →
  (let! r := find_prestat p in
   let! fd := path_open r.1 r.2 oflags DEFAULT_RIGHTS DEFAULT_RIGHTS FdFlags_empty in
   let! e := fd_get fd in k fd e) s = (Ok a, s') →
  ∃ fd e s1, within B e ∧ k fd e s1 = (Ok a, s').
Proof.
  intros Hs Hrun. apply (confined_bind B) in Hrun as (r & s1 & Hrun & _ & H1);
    [|apply find_prestat_preserves|done].
  apply (confined_bind B) in Hrun as (fd & s2 & Hrun & _ & H2); [|apply path_open_confined|done].
  apply (confined_bind B) in Hrun as (e & s3 & Hrun & He & H3);
    [|apply fd_get_preserves|done].
  exists fd, e, s3. split; [|done]. rewrite fd_get_run in He.
  destruct (fd_table (handle s2) !! fd) as [e'|] eqn:Hfd; [|done]. simplify_eq. by eapply H2.
Qed.

Lemma read_needs_grant B p s b s' :
  confined B (handle s) → read_file_by_absolute_path p s = (Ok b, s') → grants B FD_READ.
Proof.
  intros Hs (fd & e & s1 & He & Hrun)%(open_entry_within B); [|done].
  apply bind_ok in Hrun as ([] & s2 & Hck & _). unfold fail_if in Hck.
  destruct (rights_contains _ _) eqn:Hr; [|done]. rewrite contains_union_r in Hr.
  apply andb_true_iff in Hr as [Hr _]. by eapply within_grants.
Qed.

Lemma write_needs_grant B p d app s s' :
  confined B (handle s) → write_file_by_absolute_path p d app s = (Ok tt, s') → grants B FD_WRITE.
Proof.
  intros Hs (fd & e & s1 & He & Hrun)%(open_entry_within B); [|done].
  apply bind_ok in Hrun as ([] & s2 & Hck & _). unfold fail_if in Hck.
  destruct (rights_contains _ _) eqn:Hr; [|done]. rewrite contains_union_r in Hr.
  apply andb_true_iff in Hr as [Hr _]. by eapply within_grants.
Qed.

Lemma on_spawned_ok {A} pr (op : M A) p a p' :
  on_spawned pr op p = (Ok a, p') →
  ∃ m h s s', rights_table (inode_table (world (vfs p))) !! pr = Some m ∧
    confined (granted m) h ∧ handle s = h ∧ op s = (Ok a, s').
Proof.
  unfold on_spawned, on_vfs, map_err, zoom. destruct (bind _ _ (vfs p)) as [[a'| |] s'] eqn:Hrun;
    intros; simplify_eq. apply bind_ok in Hrun as (h & s1 & Hsp & Hrun).
  destruct (spawn_confined _ _ _ _ Hsp) as (m & Hm & Hc).
  apply bind_ok in Hrun as ([a' h'] & s2 & Hw & Hret). unfold ret in Hret. simplify_eq/=.
  unfold with_handle in Hw. destruct (op _) as [[] s3] eqn:Hop; simplify_eq.
  exists m, h, (mkState h (world s1)), s3. by split_and!.
Qed.

Lemma is_executable_grant pr f s b s' :
  is_executable pr f s = (Ok b, s') →
  ∃ m, rights_table (inode_table (world s)) !! pr = Some m ∧ grants (granted m) FD_EXECUTE.
Proof.
  intros (h & s1 & Hsp & Hrun)%bind_ok. destruct (spawn_confined _ _ _ _ Hsp) as (m & Hm & Hc).
  exists m. split; [done|]. apply bind_ok in Hrun as (r & s2 & Hw & _).
  unfold with_handle in Hw.
  match type of Hw with (match ?x with _ => _ end) = _ => destruct x as [[a| |] s3] eqn:Hop end;
    simplify_eq.
  destruct (confined_bind (granted m) _ _ (mkState h (world s1)) _ _ (find_prestat_preserves _ _) Hc Hop)
    as (q & s4 & Hop1 & _ & H4).
  destruct (confined_bind (granted m) _ _ _ _ _ (path_open_confined _ _ _ _ _ _ _) H4 Hop1)
    as (fd & s5 & Hop2 & _ & H5).
  rewrite check_right_run in Hop2. destruct (fd_table (handle s5) !! fd) as [e|] eqn:Hfd; [|done].
  destruct (rights_contains _ _) eqn:Hr; [|done]. eapply within_grants; [by eapply H5|done].
Qed.

Lemma execute_grant pr f p r p' :
  execute pr f p = (Ok r, p') →
  ∃ m, rights_table (inode_table (world (vfs p))) !! pr = Some m ∧ grants (granted m) FD_EXECUTE.
Proof.
  intros (p0 & p1 & [= <- <-] & Hrun)%bind_ok.
  apply bind_ok in Hrun as (ok & p2 & Hex & _). unfold on_vfs, map_err, zoom in Hex.
  destruct (is_executable pr (path f) (vfs p)) as [[] s'] eqn:He; [|done..].
  by eapply is_executable_grant.
Qed.

(** The rights the policy gives the participant [id]. *)
Definition policy_grants (policy : Policy) (id : Z) (r : right_name) : Prop :=
  ∃ i, i ∈ identities policy ∧ identity_id i = id ∧
    grants (granted (compute_right_map (file_rights i))) r.

Lemma participant_grants p id r :
  protocol_ok p →
  (∃ m, rights_table (inode_table (world (vfs p))) !! Participant id = Some m ∧ grants (granted m) r) →
  policy_grants (global_policy p) id r.
Proof.
  intros Hp (m & Hm & Hg). rewrite (po_rights _ Hp), lookup_insert_ne in Hm by done.
  rewrite get_rights_table_lookup in Hm. apply fmap_Some in Hm as (i & Hi & ->).
  apply last_Some_elem_of, list_elem_of_filter in Hi as [Hid Hi]. by exists i.
Qed.


(** ** Sessions *)

(** What the manager keeps for the session [id]. *)
Definition session_is (id : Z) (s : option Session) (b : option (Z * bytes)) (r : Runtime) : Prop :=
  SESSIONS r !! id = s ∧ INCOMING_BUFFER_HASH r !! id = b.

Section isolation.
Context (id' : Z) (s : option Session) (b : option (Z * bytes)).

Lemma on_session_other {A} id (op : ST Session SessionManagerError A) :
  id' ≠ id → preserves (session_is id' s b) (on_session id op).
Proof.
  intros Hne r [Hs Hb]. unfold on_session. destruct (SESSIONS r !! id) as [x|]; [|done].
  destruct (op x) as [[] x']; simpl; (split; [|done]); simpl; by rewrite lookup_insert_ne.
Qed.

Lemma on_protocol_other {A} (op : ST ProtocolState RuntimeManagerError A) :
  preserves (session_is id' s b) (on_protocol op).
Proof.
  intros r Hr. unfold on_protocol. destruct (PROTOCOL_STATE r); [|done]. by destruct (op _) as [[] ?].
Qed.

Lemma dispatch_on_request_other client rq :
  preserves (session_is id' s b) (dispatch_on_request client rq).
Proof.
  destruct rq; simpl; try apply on_protocol_other.
  apply preserves_bind; [apply on_protocol_other|]. intros dead.
  apply preserves_bind; [destruct dead; by intros r Hr|]. intros _. preserve.
Qed.

Lemma parse_incoming_other id input :
  id' ≠ id → preserves (session_is id' s b) (parse_incoming_buffer id input).
Proof.
  intros Hne r [Hs Hb]. unfold parse_incoming_buffer, parse_runtime_manager_request, parse_message, bind.
  pose proof (handle_frame id' id input (INCOMING_BUFFER_HASH r) Hne) as Hf.
  destruct (handle_protocol_buffer _ _ _) as [[m|[]|] h]; simpl in Hf |- *;
    try (split; [done|by rewrite <- Hb]).
  unfold ok_or. destruct (parse_from_bytes m); simpl; (split; [done|by rewrite <- Hb]).
Qed.
End isolation.
#[local] Hint Resolve on_session_other dispatch_on_request_other parse_incoming_other : veracruz.

(** C27: bytes that arrive on one session change no other session: neither its
    connection nor the message it is in the middle of. *)
Theorem send_data_isolated id input r o r' id' :
  send_data id input r = (o, r') → id' ≠ id →
  SESSIONS r' !! id' = SESSIONS r !! id' ∧
  INCOMING_BUFFER_HASH r' !! id' = INCOMING_BUFFER_HASH r !! id'.
Proof.
  intros Hrun Hne.
  assert (preserves (session_is id' (SESSIONS r !! id') (INCOMING_BUFFER_HASH r !! id'))
    (send_data id input)) as Hp.
  { unfold send_data, dispatch_on_incoming_data, response_invalid_request, serialize. preserve. }
  pose proof (preserves_run _ _ r Hp (conj eq_refl eq_refl)) as H. by rewrite Hrun in H.
Qed.

(** Session IDs: [n] of them were handed out. *)
Definition ids_below (n : Z) (r : Runtime) : Prop :=
  SESSION_COUNTER r = (n + 1)%Z ∧
  ∀ id, is_Some (SESSIONS r !! id) → (1 ≤ id ≤ n)%Z.

Lemma on_session_ids {A} n id (op : ST Session SessionManagerError A) :
  preserves (ids_below n) (on_session id op).
Proof.
  intros r [Hc Hs]. unfold on_session. destruct (SESSIONS r !! id) as [x|] eqn:Hx; [|done].
  assert (∀ x', ids_below n (set_sessions (<[id := x']> (SESSIONS r)) r)) as H.
  { intros x'. split; [done|]. intros i. simpl. rewrite lookup_insert_is_Some'.
    intros [<-|Hi]; apply Hs; [by rewrite Hx|done]. }
  destruct (op x) as [[] x']; apply H.
Qed.

Lemma frame_ids {A} n (m : ST Runtime RuntimeManagerError A) :
  (∀ r, SESSIONS (m r).2 = SESSIONS r ∧ SESSION_COUNTER (m r).2 = SESSION_COUNTER r) →
  preserves (ids_below n) m.
Proof.
  intros Hm r [Hc Hs]. destruct (Hm r) as [Es Ec]. unfold ids_below.
  destruct (m r) as [[] r']; simpl in *; by rewrite Es, Ec.
Qed.

Lemma on_session_manager_ids {A} n name (op : ST SessionContext SessionManagerError A) :
  preserves (ids_below n) (on_session_manager name op).
Proof.
  apply frame_ids. intros r. unfold on_session_manager. destruct (MY_SESSION_MANAGER r); [|done].
  by destruct (op _).
Qed.

Lemma parse_incoming_ids n id input : preserves (ids_below n) (parse_incoming_buffer id input).
Proof.
  apply frame_ids. intros r. unfold parse_incoming_buffer.
  by destruct (parse_runtime_manager_request _ _ _) as [[|[]|] h].
Qed.

Lemma on_protocol_ids {A} n (op : ST ProtocolState RuntimeManagerError A) :
  preserves (ids_below n) (on_protocol op).
Proof.
  apply frame_ids. intros r. unfold on_protocol. destruct (PROTOCOL_STATE r); [|done].
  by destruct (op _).
Qed.

Lemma modify_ids n f :
  (∀ r, SESSIONS (f r) = SESSIONS r ∧ SESSION_COUNTER (f r) = SESSION_COUNTER r) →
  preserves (ids_below n) (modify (E:=RuntimeManagerError) f).
Proof. intros Hf. by apply frame_ids. Qed.

Lemma close_session_ids n id : preserves (ids_below n) (close_session id).
Proof.
  intros r [Hc Hs]. split; [done|]. intros i. simpl. rewrite lookup_delete_is_Some.
  intros [_ Hi]. by apply Hs.
Qed.

#[local] Hint Resolve on_session_ids on_session_manager_ids parse_incoming_ids on_protocol_ids
  close_session_ids : veracruz.
#[local] Hint Extern 1 (preserves (ids_below _) (modify _)) => by apply modify_ids : veracruz.

Lemma run_entry_ids n e : e ≠ NewSession → preserves (ids_below n) (run_entry e).
Proof.
  intros Hne. destruct e; try done; simpl; unfold init_session_manager, load_policy, load_cert_chain,
    send_data, get_data, get_data_needed, generate_csr, get_enclave_private_key,
    dispatch_on_incoming_data, dispatch_on_request, response_invalid_request, serialize; preserve.
Qed.

(** [new_session] hands out the next ID even when it fails. *)
Lemma new_session_ids n r :
  (0 ≤ n)%Z → (n + 2 < u32_bound)%Z → ids_below n r → ids_below (n + 1) (new_session r).2.
Proof.
  intros Hn Hlt [Hc Hs]. unfold new_session, bind, get, modify, on_session_manager, ret. simpl.
  assert (∀ r' : Runtime, SESSIONS r' = SESSIONS r →
    SESSION_COUNTER r' = ((SESSION_COUNTER r + 1) mod u32_bound)%Z → ids_below (n + 1) r') as Hfail.
  { intros r' Es Ec. split; [rewrite Ec, Hc, Z.mod_small; lia|]. intros i. rewrite Es. intros Hi%Hs. lia. }
  destruct (MY_SESSION_MANAGER r) as [c|]; [|by apply Hfail].
  destruct (create_session c) as [x|e|a]; simpl; [|by apply Hfail..].
  split; simpl; [rewrite Hc, Z.mod_small; lia|]. intros i. rewrite lookup_insert_is_Some'.
  intros [<-|Hi%Hs]; lia.
Qed.

(** The states reached with [n] calls of [new_session]. *)
Inductive reach_sessions : Z → Runtime → Prop :=
  | reach_start : reach_sessions 0 Runtime_initial
  | reach_new n r o r' :
      reach_sessions n r → run_entry NewSession r = (o, r') → reach_sessions (n + 1) r'
  | reach_other n r e o r' :
      reach_sessions n r → e ≠ NewSession → run_entry e r = (o, r') → reach_sessions n r'.

Lemma reach_sessions_below n r :
  reach_sessions n r → (0 ≤ n)%Z ∧ ((n + 1 < u32_bound)%Z → ids_below n r).
Proof.
  induction 1 as [|n r o r' _ [Hn IH] Hrun|n r e o r' _ [Hn IH] Hne Hrun].
  - split; [done|]. intros _. split; [done|]. intros i. simpl. rewrite lookup_empty. by intros [? ?].
  - split; [lia|]. intros Hlt. pose proof (new_session_ids n r Hn ltac:(lia) (IH ltac:(lia))) as H.
    simpl in Hrun. unfold bind, ret in Hrun. destruct (new_session r) as [[] ?]; by simplify_eq/=.
  - split; [done|]. intros Hlt.
    pose proof (preserves_run _ _ _ (run_entry_ids n e Hne) (IH Hlt)) as H. by rewrite Hrun in H.
Qed.

(** Session IDs are not reused: as long as fewer than 2^32 - 1 sessions
    were asked for, a new session gets the next number, which no session of
    the manager has, and the other sessions stay as they are. *)
Theorem new_session_fresh n r id r' :
  reach_sessions n r → (n + 1 < u32_bound)%Z → new_session r = (Ok id, r') →
  id = (n + 1)%Z ∧ SESSIONS r !! id = None ∧ is_Some (SESSIONS r' !! id) ∧
  ∀ id', id' ≠ id → SESSIONS r' !! id' = SESSIONS r !! id'.
Proof.
  intros Hr Hlt Hrun. destruct (reach_sessions_below n r Hr) as [Hn Hb].
  destruct (Hb Hlt) as [Hc Hs]. clear Hb.
  unfold new_session, bind, get, modify, on_session_manager, ret in Hrun. simpl in Hrun.
  destruct (MY_SESSION_MANAGER r) as [c|]; [|done].
  destruct (create_session c) as [x|e|a]; simplify_eq/=.
  rewrite Hc. split_and!; [done| |by rewrite lookup_insert_eq|].
  - apply eq_None_not_Some. intros Hi%Hs. lia.
  - intros id' Hne. by rewrite lookup_insert_ne.
Qed.
End protocol.

(** ** A small runtime

    An engine whose programs read one file, and a key encoder. *)
Module SmallRuntime.
Import Demo SmallCodec SmallTls.
Local Open Scope Z_scope.

Definition program_run (s : fs_state) : fs_state := (run_call (ReadFileByAbsolutePath "/data/f") s).2.

#[export] Instance engines : WasmEngines := {|
  FatalEngineError := unit; EngineIsNotReady := tt; jit_available := false;
  wasmi_run _ _ s := (Ok 0, program_run s);
  wasmtime_run _ _ s := (Err tt, s);
|}.
#[export] Instance engines_laws : WasmEnginesLaws engines.
Proof.
  split; intros clk p s; [by exists [ReadFileByAbsolutePath "/data/f"]|by exists []].
Qed.
#[export] Instance csr_lib : MbedtlsCsr := {|
  Pk := bytes;
  Pk_from_private_key k := Some k;
  csr_subject _ := true;
  csr_write_der k _ := Some k;
|}.

Definition step (e : entry) (r : Runtime) : Runtime := (run_entry e r).2.
Definition boot : list entry :=
  [InitSessionManager; LoadPolicy "{policy}"; LoadCertChain []; NewSession; NewSession].
Definition booted : Runtime := foldl (λ r e, step e r) Runtime_initial boot.

Lemma steps_reach (es : list entry) r : rtc rt_step r (foldl (λ r e, step e r) r es).
Proof.
  revert r. induction es as [|e es IH]; intros r; [apply rtc_refl|].
  eapply rtc_l; [|apply IH]. apply (entry_step e r (run_entry e r).1). unfold step.
  by destruct (run_entry e r).
Qed.

Lemma booted_reached : rtc rt_step Runtime_initial booted.
Proof. apply steps_reach. Qed.

Definition protocol : ProtocolState :=
  match PROTOCOL_STATE booted with
  | Some p => p
  | None => mkProtocolState demo_policy "" [] st0 ∅
  end.

Lemma is_Some_default {A} (o : option A) d :
  bool_decide (is_Some o) = true → o = Some (match o with Some x => x | None => d end).
Proof. by destruct o. Qed.

Lemma booted_protocol : PROTOCOL_STATE booted = Some protocol.
Proof. apply is_Some_default. by vm_compute. Qed.

Lemma runtime_reachable_ok_witness : protocol_ok protocol.
Proof. exact (runtime_reachable_ok booted protocol booted_reached booted_protocol). Defined.

Lemma digest_enforced_witness :
  write_file (Participant 1) "/program/p.wasm" [] protocol =
    (Err (FileSystemError ErrNo.Access), protocol).
Proof.
  refine (proj1 (digest_enforced protocol (Participant 1) "/program/p.wasm" []
    (replicate 32 Byte.x07) _) _); [by vm_compute|by vm_compute].
Defined.

Lemma outsider_denied_witness :
  dispatch_on_request 3 (Rq_read_file "/data/f") booted = (Err (FileSystemError ErrNo.Access), booted).
Proof.
  refine (outsider_denied booted protocol 3 (Rq_read_file "/data/f") booted_reached booted_protocol _ _);
    [|reflexivity].
  apply (bool_decide_unpack (_ ∉ _)). by vm_compute.
Defined.

Lemma run_unit {S E} (m : ST S E unit) s : is_ok (m s).1 = true → m s = (Ok tt, (m s).2).
Proof. by destruct (m s) as [[[]| |] ?]. Qed.

Definition success : bytes := wire_of (serialize_result (ResponseStatus_as_i32 SUCCESS) None).

Lemma success_response : response_success None = Ok success.
Proof.
  assert (is_ok (serialize_result (ResponseStatus_as_i32 SUCCESS) None) = true) as Hok by by vm_compute.
  unfold response_success, success, wire_of.
  destruct (serialize_result _ _); [reflexivity|discriminate..].
Qed.

Lemma bob_listed : 2 ∈ ids (identities (global_policy protocol)).
Proof. apply (bool_decide_unpack (_ ∈ _)). by vm_compute. Qed.


Definition ready : Runtime := step InitSessionManager Runtime_initial.
Definition loaded : Runtime := step (LoadPolicy "{policy}") ready.
Definition loaded_protocol : ProtocolState :=
  match PROTOCOL_STATE loaded with
  | Some p => p
  | None => mkProtocolState demo_policy "" [] st0 ∅
  end.

Lemma loaded_run : load_policy "{policy}" ready = (Ok tt, loaded).
Proof.
  assert (is_ok (load_policy "{policy}" ready).1 = true) as Hok by by vm_compute.
  exact (run_unit _ _ Hok).
Qed.

Lemma loaded_state : PROTOCOL_STATE loaded = Some loaded_protocol.
Proof. apply is_Some_default. by vm_compute. Qed.

Lemma policy_hash_reported_witness :
  is_ok (dispatch_on_policy_hash loaded_protocol).1 = true ∧
  dispatch_on_policy_hash loaded_protocol =
    (let! response := serialize (serialize_policy_hash (as_bytes (to_hex (replicate 32 Byte.x07)))) in
     ret (Some response)) loaded_protocol.
Proof.
  split; [by vm_compute|].
  exact (policy_hash_reported "{policy}" ready loaded loaded loaded_protocol loaded_run
    (rtc_refl _ _) loaded_state).
Defined.

Definition after_write : ProtocolState := (write_file (Participant 1) "/data/f" hello protocol).2.
Lemma after_write_run : write_file (Participant 1) "/data/f" hello protocol = (Ok tt, after_write).
Proof.
  assert (is_ok (write_file (Participant 1) "/data/f" hello protocol).1 = true) as Hok by by vm_compute.
  exact (run_unit _ _ Hok).
Qed.


Lemma send_data_isolated_witness :
  SESSIONS (step (SendData 1 hello) booted) !! 2 = SESSIONS booted !! 2.
Proof.
  refine (proj1 (send_data_isolated 1 hello booted (send_data 1 hello booted).1 _ 2 _ _));
    [|discriminate]. unfold step. simpl run_entry. apply surjective_pairing.
Defined.

Definition two_sessions : Runtime := booted.
Lemma two_sessions_reached : reach_sessions 2 two_sessions.
Proof.
  assert (∀ n e r, e ≠ NewSession → reach_sessions n r → reach_sessions n (step e r)) as Ho.
  { intros n e r Hne Hr. apply (reach_other n r e (run_entry e r).1); [done|done|].
    unfold step. apply surjective_pairing. }
  assert (∀ n r, reach_sessions n r → reach_sessions (n + 1) (step NewSession r)) as Hn.
  { intros n r Hr. apply (reach_new n r (run_entry NewSession r).1); [done|].
    unfold step. apply surjective_pairing. }
  unfold two_sessions, booted, boot. cbn [foldl]. apply (Hn 1), (Hn 0). repeat (apply Ho; [done|]).
  constructor.
Qed.

Lemma ok_is {E} (o : outcome E Z) i :
  match o with Ok x => (x =? i)%Z | _ => false end = true → o = Ok i.
Proof. destruct o; [|done..]. by intros ->%Z.eqb_eq. Qed.

Lemma third_session : (new_session two_sessions).1 = Ok 3.
Proof. apply ok_is. vm_compute. reflexivity. Qed.

Lemma new_session_fresh_witness :
  SESSIONS two_sessions !! 3 = None ∧ is_Some (SESSIONS (new_session two_sessions).2 !! 3).
Proof.
  destruct (new_session_fresh 2 two_sessions 3 (new_session two_sessions).2 two_sessions_reached)
    as (_ & H1 & H2 & _); [lia| |by split].
  rewrite <- third_session. apply surjective_pairing.
Defined.
End SmallRuntime.
