(* ===== verification/Provision.v ===== *)
(** * Provisioned data

    What a client provisions is what others get: once a file has been written
    under an absolute path, whoever may read that path gets its bytes, and
    running it runs them.  Writer and reader may reach the file through
    different directories of the policy.

    Sources: [runtime-manager/src/managers/mod.rs], [write_file], [read_file],
    [execute]; [execution_engine_manager.rs], [dispatch_on_request]. *)

From S2P Require Import Prelude RustPath WasiTypes Policy InodeTable FileSystem FsOps Services.
From S2P Require Import InodeWf Walk FsWf FsInv FsSystem FsSafe Demo FsProps FsFiles FsSpawn.
From S2P Require Import Transport TransportProps Session SessionProps Csr Runtime RuntimeProps.

Section provision.
Context {BP : BuildProfile} {WR : WasiRights} {WL : WasiRightsLaws WR} {HO : HashOrder}
  {HL : HashOrderLaws HO} {NL : NativeLibs}
  {PL : PolicyLibs} {WE : WasmEngines} {EL : WasmEnginesLaws WE} {TL : TlsLibs} {MC : MbedtlsCsr}
  {P1 : ProtobufMessage RuntimeManagerRequest} {P2 : ProtobufMessage RuntimeManagerResponse}.

Lemma plain_not_stream f cs : plain_path (path f) cs → is_std_stream f = false.
Proof.
  intros [Hp _]. unfold is_std_stream. repeat case_bool_decide; subst; by vm_compute in Hp.
Qed.

Lemma on_spawned_inv {A} pr (op : M A) p a p' :
  on_spawned pr op p = (Ok a, p') →
  ∃ h s1 s2, spawn pr (vfs p) = (Ok h, s1) ∧ op (mkState h (world s1)) = (Ok a, s2) ∧
    world (vfs p') = world s2.
Proof.
  unfold on_spawned, on_vfs, map_err, zoom. destruct (bind _ _ (vfs p)) as [[a'| |] s'] eqn:Hrun;
    intros; simplify_eq. apply bind_ok in Hrun as (h & s1 & Hsp & Hrun).
  apply bind_ok in Hrun as ([a' h'] & s2 & Hw & Hret). unfold ret in Hret. simplify_eq/=.
  unfold with_handle in Hw. destruct (op _) as [[] s3] eqn:Hop; simplify_eq. eauto 10.
Qed.

Lemma write_file_holds p pr f cs dat p1 :
  protocol_ok p → plain_path (path f) cs → no_service (world (vfs p)) cs →
  (len dat < i64_bound)%Z → write_file pr f dat p = (Ok tt, p1) → holds (world (vfs p1)) cs dat.
Proof.
  intros Hok Hp Hns Hlen. unfold write_file. rewrite bind_ok. intros ([] & p0 & Hck & Hrun).
  assert (p0 = p) as ->.
  { unfold check_digest, bind, get, fail_if, ret in Hck. simpl in Hck.
    destruct (pm_get _ _); [destruct (negb _)|]; by simplify_eq. }
  rewrite decide_False in Hrun.
  - apply on_spawned_inv in Hrun as (h & s1 & s2 & Hsp & Hw & ->).
    by eapply (spawned_write 2 (inode_table (world (vfs p)))); [apply po_vfs|..].
  - intros ->. by apply plain_not_stream in Hp.
Qed.

Definition file_answer (b : bytes) : option bytes := match b with [] => None | _ => Some b end.

Lemma read_file_holds p pr f cs b o p2 :
  protocol_ok p → plain_path (path f) cs → holds (world (vfs p)) cs b →
  read_file pr f p = (Ok o, p2) → o = file_answer b ∧ holds (world (vfs p2)) cs b.
Proof.
  intros Hok Hp Hb. unfold read_file. rewrite bind_ok. intros (r & p0 & Hrun & Hret).
  unfold ret in Hret. injection Hret as <- <-. apply plain_not_stream in Hp as Hnot.
  unfold is_std_stream in Hnot. apply orb_false_iff in Hnot as [[_ H1]%orb_false_iff H2].
  apply on_spawned_inv in Hrun as (h & s1 & s2 & Hsp & Hr & ->).
  rewrite !decide_False in Hr by (intros ->; done).
  destruct (spawned_read 2 (inode_table (world (vfs p))) pr f cs b (vfs p) h s1 r s2) as [-> Hb2];
    [by apply po_vfs|done..].
Qed.

Lemma execute_holds p pr f cs b o p2 :
  protocol_ok p → plain_path (path f) cs → holds (world (vfs p)) cs b →
  execute pr f p = (Ok o, p2) →
  b ≠ [] ∧ ∃ s k s', execute_program (execution_strategy (global_policy p)) b
    (enable_clock (global_policy p)) s = (Ok k, s') ∧
    Ok <$> o = Some (response_error_code_returned k).
Proof.
  intros Hok Hp Hb. unfold execute. rewrite bind_ok. intros (p' & p'' & [= <- <-] & Hrun).
  apply bind_ok in Hrun as (ok & p3 & Hex & Hrun).
  apply bind_ok in Hrun as ([] & p4 & Hfail & Hrun).
  assert (p4 = p3) as -> by (unfold fail_if in Hfail; by destruct (negb ok); simplify_eq).
  assert (protocol_ok p3 ∧ holds (world (vfs p3)) cs b) as [Hok3 Hb3].
  { pose proof (vfs_evolved p FileSystemError (is_executable pr (path f))
      (is_executable_wf _ _ _ _ (path_path_ok _)) p (evolved_refl _ (po_vfs _ Hok))) as Hev.
    unfold on_vfs in Hex. rewrite Hex in Hev. split; [by eapply evolved_ok|].
    unfold map_err, zoom in Hex.
    destruct (is_executable pr (path f) (vfs p)) as [[] s'] eqn:He; simplify_eq.
    by eapply (is_executable_holds 2 (inode_table (world (vfs p)))); [apply po_vfs|..]. }
  apply bind_ok in Hrun as (c & p5 & Hread & Hrun).
  destruct (read_file_holds p3 InternalSuperUser f cs b c p5 Hok3 Hp Hb3 Hread) as [-> _].
  apply bind_ok in Hrun as (prog & p6 & Hprog & Hrun). unfold ok_or in Hprog.
  destruct b as [|b0 b]; simplify_eq/=. split; [done|].
  apply bind_ok in Hrun as (h & p7 & _ & Hrun). apply bind_ok in Hrun as ([k h'] & p8 & Heng & Hrun).
  unfold map_err, zoom, with_handle in Heng.
  destruct (execute_program _ _ _ _) as [[k'| |] s'] eqn:He; simplify_eq/=.
  apply bind_ok in Hrun as (resp & p9 & Hresp & Hret). unfold lift in Hresp. unfold ret in Hret.
  injection Hresp as Hresp <-. injection Hret as <- _.
  eexists _, _, _. split; [exact He|]. simpl. by rewrite Hresp.
Qed.

Lemma on_protocol_ok_inv {A} (op : ST ProtocolState RuntimeManagerError A) r a r' p :
  PROTOCOL_STATE r = Some p → on_protocol op r = (Ok a, r') →
  ∃ p', op p = (Ok a, p') ∧ PROTOCOL_STATE r' = Some p'.
Proof.
  intros Hp. unfold on_protocol. rewrite Hp. destruct (op p) as [o p'] eqn:Hop.
  intros [= -> <-]. eauto.
Qed.

End provision.

(** ** A small run *)
Module SmallProvision.
Import Demo SmallCodec SmallTls SmallRuntime.
Local Open Scope Z_scope.

Definition write_request : ST Runtime RuntimeManagerError (option bytes) :=
  dispatch_on_request 1 (Rq_write_file (mkData "/data/f" hello)).
Definition written : Runtime := (write_request booted).2.

Lemma ok_run {S E A} (m : ST S E A) s : is_ok (m s).1 = true → ∃ a, m s = (Ok a, (m s).2).
Proof. destruct (m s) as [[a| |] s']; [eauto|discriminate..]. Qed.

End SmallProvision.
