(* ===== verification/EnclaveProps.v ===== *)
(** * Properties of the enclave

    Whatever the server sends, the enclave does nothing but call the entry
    points of its managers, so that what holds of the managers holds of it;
    and the three platforms answer the requests about sessions alike.

    Sources: [runtime-manager/src/runtime_manager_linux.rs],
    [runtime_manager_nitro.rs], [runtime_manager_icecap.rs]. *)

From S2P Require Import Prelude RustPath WasiTypes Policy InodeTable FileSystem FsOps Services.
From S2P Require Import FsSystem Transport Framing FramingProps Session Csr Runtime Enclave.
From S2P Require Import TransportProps SessionProps RuntimeProps.
Local Open Scope Z_scope.

Section enclave.
Context {BP : BuildProfile} {WR : WasiRights} {WL : WasiRightsLaws WR} {HO : HashOrder}
  {HL : HashOrderLaws HO} {NL : NativeLibs}
  {PL : PolicyLibs} {WE : WasmEngines} {EL : WasmEnginesLaws WE} {TL : TlsLibs} {MC : MbedtlsCsr}
  {P1 : ProtobufMessage Transport.RuntimeManagerRequest}
  {P2 : ProtobufMessage Transport.RuntimeManagerResponse} {A : Type}.

(** ** Code that only calls the managers *)

(** The managers of a state, whatever happens, move by calls of their entry
    points. *)
Definition managed {S E X} (view : S → Runtime) (m : ST S E X) : Prop :=
  ∀ s, rtc rt_step (view s) (view (m s).2).

Section rules.
Context {S E : Type} (view : S → Runtime).

Lemma managed_bind {X Y} (m : ST S E X) (k : X → ST S E Y) :
  managed view m → (∀ x, managed view (k x)) → managed view (bind m k).
Proof.
  intros Hm Hk s. unfold bind. specialize (Hm s).
  destruct (m s) as [[x|e|p] s'] eqn:Hs; simpl in *; [|done..].
  etransitivity; [exact Hm|apply Hk].
Qed.

Lemma managed_try_match {X Y} (m : ST S E X) (ok : X → ST S E Y) err :
  managed view m → (∀ x, managed view (ok x)) → (∀ e, managed view (err e)) →
  managed view (try_match m ok err).
Proof.
  intros Hm Hok Herr s. unfold try_match. specialize (Hm s).
  destruct (m s) as [[x|e|p] s'] eqn:Hs; simpl in *; [| |done];
    (etransitivity; [exact Hm|]); [apply Hok|apply Herr].
Qed.

Lemma managed_map_err {F X} (f : E → F) (m : ST S E X) :
  managed view m → managed view (map_err f m).
Proof. intros Hm s. specialize (Hm s). unfold map_err. by destruct (m s) as [[] ?]. Qed.

Lemma managed_view {X} (m : ST S E X) : (∀ s, view (m s).2 = view s) → managed view m.
Proof. intros Hm s. rewrite Hm. apply rtc_refl. Qed.

Lemma managed_ret {X} (x : X) : managed view (ret x : ST S E X).
Proof. by apply managed_view. Qed.
Lemma managed_throw {X} e : managed view (throw e : ST S E X).
Proof. by apply managed_view. Qed.
Lemma managed_panic {X} p : managed view (panic p : ST S E X).
Proof. by apply managed_view. Qed.
Lemma managed_fail_if b e : managed view (fail_if b e : ST S E unit).
Proof. apply managed_view. intros s. unfold fail_if. by destruct b. Qed.
Lemma managed_ok_or {X} (o : option X) e : managed view (ok_or o e : ST S E X).
Proof. apply managed_view. intros s. unfold ok_or. by destruct o. Qed.
Lemma managed_get : managed view (get : ST S E S).
Proof. by apply managed_view. Qed.
End rules.

Lemma managed_zoom {S T E X} (view : S → Runtime) (view' : T → Runtime) (get : S → T) set
    (m : ST T E X) :
  (∀ s, view s = view' (get s)) → (∀ s t, view (set t s) = view' t) →
  managed view' m → managed view (zoom get set m).
Proof.
  intros Hg Hs Hm s. unfold zoom. specialize (Hm (get s)). rewrite <- Hg in Hm.
  destruct (m (get s)) as [x t]. simpl. by rewrite Hs.
Qed.

#[local] Hint Resolve managed_ret managed_throw managed_panic managed_fail_if managed_ok_or
  managed_get : enclave.

(** An entry point is one step. *)
Lemma managed_entry e {X} (op : ST Runtime RuntimeManagerError X) :
  (∀ r, (run_entry e r).2 = (op r).2) → managed id op.
Proof.
  intros He r. rewrite <- He. apply rtc_once, (entry_step e r (run_entry e r).1). simpl.
  by destruct (run_entry e r).
Qed.

Lemma bind_unit_state {S E X} (op : ST S E X) s : ((let! _x := op in ret tt) s).2 = (op s).2.
Proof. unfold bind. by destruct (op s) as [[] ?]. Qed.

Lemma managed_init : managed id init_session_manager.
Proof. by apply (managed_entry InitSessionManager). Qed.
Lemma managed_load_policy json : managed id (load_policy json).
Proof. by apply (managed_entry (LoadPolicy json)). Qed.
Lemma managed_load_cert_chain chain : managed id (load_cert_chain chain).
Proof. by apply (managed_entry (LoadCertChain chain)). Qed.
Lemma managed_new_session : managed id new_session.
Proof. apply (managed_entry NewSession). intros r. apply bind_unit_state. Qed.
Lemma managed_close_session i : managed id (close_session i).
Proof. by apply (managed_entry (CloseSession i)). Qed.
Lemma managed_send_data i d : managed id (send_data i d).
Proof. by apply (managed_entry (SendData i d)). Qed.
Lemma managed_get_data i : managed id (get_data i).
Proof. apply (managed_entry (GetData i)). intros r. apply bind_unit_state. Qed.
Lemma managed_get_data_needed i : managed id (get_data_needed i).
Proof. apply (managed_entry (GetDataNeeded i)). intros r. apply bind_unit_state. Qed.
Lemma managed_generate_csr : managed id generate_csr.
Proof. apply (managed_entry GenerateCsr). intros r. apply bind_unit_state. Qed.
#[local] Hint Resolve managed_init managed_load_policy managed_load_cert_chain managed_new_session
  managed_close_session managed_send_data managed_get_data managed_get_data_needed
  managed_generate_csr : enclave.

Abbreviation calls_managers m := (managed (en_runtime (A:=A)) m).

Lemma managed_on_managers {X} (op : ST Runtime RuntimeManagerError X) :
  managed id op → calls_managers (on_managers op).
Proof. by apply managed_zoom. Qed.
Lemma managed_on_service {X} (op : A → X * A) : calls_managers (on_service op).
Proof. apply managed_view. intros s. unfold on_service. by destruct (op (en_service s)). Qed.
#[local] Hint Resolve managed_on_managers managed_on_service : enclave.

Ltac managed_tac :=
  repeat first
    [ solve [eauto with enclave]
    | match goal with
      | |- managed _ (bind _ _) => apply managed_bind; [|intros ?]
      | |- managed _ (try_match _ _ _) => apply managed_try_match; [|intros ?..]
      | |- managed _ (match ?x with _ => _ end) => destruct x
      end ].

Lemma managed_or_fail {X} (op : ST (Enclave (A:=A)) RuntimeManagerError X) ok :
  calls_managers op → calls_managers (or_fail op ok).
Proof. intros Hop. unfold or_fail. managed_tac. Qed.
#[local] Hint Resolve managed_or_fail : enclave.

(** ** The platforms call only the managers *)

Lemma linux_handle_managed {PA : PsaAttestation A} key measurement req :
  calls_managers (linux_handle key measurement req).
Proof.
  destruct req; cbn [linux_handle]; unfold linux_initialize, linux_native_attestation, unsafe_call;
    cbv zeta; managed_tac.
Qed.

Lemma nitro_handle_managed {NA : NitroAttestation A} req : calls_managers (nitro_handle req).
Proof.
  destruct req; cbn [nitro_handle]; unfold nitro_attestation, nitro_initialize; managed_tac.
Qed.

Lemma managed_result_and {X Y} (a : ST (Enclave (A:=A)) RuntimeManagerError X)
    (b : ST (Enclave (A:=A)) RuntimeManagerError Y) :
  calls_managers a → calls_managers b → calls_managers (result_and a b).
Proof. intros Ha Hb. unfold result_and. managed_tac. Qed.
#[local] Hint Resolve managed_result_and : enclave.

Lemma icecap_handle_managed {PA : PsaAttestation A} key hash req :
  calls_managers (icecap_handle key hash req).
Proof.
  destruct req; cbn [icecap_handle]; managed_tac.
  apply managed_or_fail, managed_result_and; [auto with enclave|].
  unfold handle_attestation, icecap_native_attestation, asserted_call. cbv zeta. managed_tac.
Qed.

Lemma turn_managed {T} {B1 : Bincode Message.RuntimeManagerRequest}
    {B2 : Bincode Message.RuntimeManagerResponse} receive send handle :
  (∀ req, calls_managers (handle req)) →
  managed (λ p, en_runtime (ep_enclave (T:=T) p)) (turn receive send handle).
Proof.
  intros Hh. unfold turn.
  assert (∀ X (m : ST T RuntimeManagerError X), managed (λ p : Endpoint (A:=A) T, en_runtime (ep_enclave p))
            (zoom ep_socket ep_set_socket m)) as Hsock.
  { intros X m. apply managed_view. intros p. unfold zoom. by destruct (m (ep_socket p)). }
  managed_tac. by apply (managed_zoom _ en_runtime).
Qed.

Lemma turns_managed {S E} (view : S → Runtime) n (body : ST S E unit) :
  managed view body → managed view (turns n body).
Proof.
  intros Hb. induction n as [|n IH]; simpl; [apply managed_ret|]. by apply managed_bind.
Qed.

Lemma icecap_run_managed {T} {RB : RingBuffer T} {PA : PsaAttestation A}
    {B1 : Bincode Message.RuntimeManagerRequest} {B2 : Bincode Message.RuntimeManagerResponse}
    {BU : Bincode Z} key hash n :
  managed (λ m : RuntimeManager (A:=A) T, en_runtime (rm_enclave m)) (icecap_run key hash n).
Proof.
  assert (∀ X (op : T → X * T),
    managed (λ m : RuntimeManager (A:=A) T, en_runtime (rm_enclave m)) (on_channel op)) as Hch.
  { intros X op. apply managed_view. intros m. unfold on_channel. by destruct (op (rm_channel m)). }
  induction n as [|n IH]; cbn [icecap_run]; [apply managed_ret|].
  apply managed_bind; [|intros _; managed_tac].
  unfold icecap_process, icecap_respond.
  managed_tac.
  all: first [by apply managed_view
             |apply managed_map_err, (managed_zoom _ en_runtime); [done|done|apply icecap_handle_managed]].
Qed.

(** ** What the enclave does *)

Section runs.
Context {B1 : Bincode Message.RuntimeManagerRequest} {B2 : Bincode Message.RuntimeManagerResponse}
  {BU : Bincode Z} {PA : PsaAttestation A} {NA : NitroAttestation A}.


(** ** Attestation *)

Lemma unsafe_call_inv {X} name (op : A → (Z * X) * A) e x e' :
  unsafe_call name op e = (Ok x, e') →
  (op (en_service e)).1 = (0, x) ∧ e' = set_service (op (en_service e)).2 e.
Proof.
  intros H. apply bind_inv in H as (r & e1 & Ho & H). unfold on_service in Ho.
  destruct (op (en_service e)) as [r' a]. injection Ho as <- <-.
  apply bind_inv in H as ([] & e2 & Hf & [= <- <-]). unfold fail_if in Hf.
  destruct (Z.eqb_spec r'.1 0) as [Hz|]; [|done]. injection Hf as <-. simpl. split; [|done].
  destruct r'. simpl in *. by subst.
Qed.

Lemma generate_csr_inv r csr r' :
  generate_csr r = (Ok csr, r') → r' = r ∧
  ∃ c, MY_SESSION_MANAGER r = Some c ∧ csr_generate_csr (sc_private_key c) = Ok csr.
Proof.
  intros H. apply bind_inv in H as (k & r1 & Hk & H).
  unfold get_enclave_private_key, on_session_manager in Hk.
  destruct (MY_SESSION_MANAGER r) as [c|] eqn:Hc; [|done]. simpl in Hk. injection Hk as <- <-.
  unfold lift in H. destruct (csr_generate_csr (private_key c)) as [b|e|p] eqn:Hb; [|done..].
  simpl in H. injection H as <- <-. split; [|by exists c]. destruct r. simpl in *. by subst.
Qed.

(** An enclave that answers an attestation request has asked the attestation
    service for a token over its own measurement, the challenge of the
    request, and the digest of a certificate request for the private key that
    the session manager holds afterwards: the key of the TLS sessions. *)
Lemma attestation_inv key measurement challenge id (e : Enclave (A:=A)) token csr e' :
  linux_handle key measurement (Message.Attestation challenge id) e =
    (Ok (Message.AttestationData token csr), e') →
  (∃ c, MY_SESSION_MANAGER (en_runtime e') = Some c ∧
        csr_generate_csr (sc_private_key c) = Ok csr) ∧
  ∃ a, (psa_initial_attest_get_token measurement (sha256 csr) challenge a).1 = (0, token).
Proof.
  cbn [linux_handle]. intros H. apply bind_inv in H as (st & e1 & _ & H).
  apply bind_inv in H as (csr' & e2 & Hcsr & H). apply bind_inv in H as (tok & e3 & Htok & H).
  injection H as -> -> ->. apply zoom_ok in Hcsr as (r & Hcsr & ->).
  apply generate_csr_inv in Hcsr as [-> (c & Hc & Hk)].
  unfold linux_native_attestation in Htok. cbv zeta in Htok.
  apply bind_inv in Htok as (h & e4 & H4 & Htok). apply unsafe_call_inv in H4 as [_ ->].
  apply bind_inv in Htok as (t & e5 & H5 & Htok). apply unsafe_call_inv in H5 as [H5 ->].
  apply bind_inv in Htok as ([] & e6 & H6 & [= -> ->]). apply unsafe_call_inv in H6 as [_ ->].
  split; [by exists c|]. simpl in H5. eauto.
Qed.
End runs.

(** ** Policies and sessions *)

(** A new policy leaves the sessions as they are, with the identities of the
    policy they were made under. *)
Lemma load_policy_keeps_sessions json (r : Runtime) : SESSIONS (load_policy json r).2 = SESSIONS r.
Proof.
  assert (preserves (λ r', SESSIONS r' = SESSIONS r) (load_policy json)) as H.
  { unfold load_policy. cbv zeta. preserve.
    all: intros r1 Hr1; unfold modify, on_session_manager; try exact Hr1.
    destruct (MY_SESSION_MANAGER r1) as [c|]; [|exact Hr1].
    by destruct (set_policy _ c) as [[] ?]. }
  specialize (H r eq_refl). by destruct (load_policy json r) as [[] ?].
Qed.

(** A policy that is loaded starts from an empty filesystem: nothing a former
    policy protected is left in it, and when loading fails before that the
    former state is kept. *)
Theorem load_policy_fresh json (r : Runtime) :
  let r' := (load_policy json r).2 in
  PROTOCOL_STATE r' = PROTOCOL_STATE r ∨
  ∃ policy p, Policy_from_json json = Ok policy ∧
    ProtocolState_new policy (hex_encode (sha256 (as_bytes json))) = Ok p ∧
    PROTOCOL_STATE r' = Some p.
Proof.
  unfold load_policy, bind, lift, modify. destruct (Policy_from_json json) as [policy|e|p] eqn:Hp;
    [|by left..]. cbn [err_into].
  destruct (debug policy); cbn [ret];
    (destruct (ProtocolState_new policy (hex_encode (sha256 (as_bytes json)))) as [ps|e|a] eqn:Hn;
     [right; exists policy, ps; split_and!; [done|done|]|by left..]);
    unfold on_session_manager; simpl; (destruct (MY_SESSION_MANAGER r) as [c|]; [|done]);
    by destruct (set_policy policy c) as [[] ?].
Qed.
End enclave.
