(* ===== verification/Network.v ===== *)
(** * The server and the enclave together

    The Veracruz server and the enclave at the two ends of a connection.  A
    request travels as a length and a [bincode] buffer, in pieces; the enclave
    makes a turn of its loop; the response travels back.  The whole is proved
    to be the server calling the enclave directly, and the server's operations
    are described by what the managers of the enclave do.

    Sources: [veracruz-server/src/veracruz_server_linux.rs],
    [runtime-manager/src/runtime_manager_linux.rs], [io-utils/src/]. *)

From S2P Require Import Prelude RustFmt RustPath WasiTypes Policy InodeTable FileSystem FsOps.
From S2P Require Import Services FsSystem Transport Framing FramingProps Session Csr Runtime.
From S2P Require Import Enclave EnclaveProps Server TransportProps SessionProps RuntimeProps.
Local Open Scope Z_scope.

Section network.
Context {BP : BuildProfile} {WR : WasiRights} {HO : HashOrder} {NL : NativeLibs}
  {PL : PolicyLibs} {WE : WasmEngines} {TL : TlsLibs} {MC : MbedtlsCsr}
  {P1 : ProtobufMessage Transport.RuntimeManagerRequest}
  {P2 : ProtobufMessage Transport.RuntimeManagerResponse}
  {P4 : ProtobufMessage ProxyAttestationServerResponse} {N : Type} {CU : Curl N}
  {A : Type} {PA : PsaAttestation A}
  {B1 : Bincode Message.RuntimeManagerRequest} {B2 : Bincode Message.RuntimeManagerResponse}
  (key measurement : bytes).

Abbreviation SErr := (VeracruzServerError (E:=IoError) (N:=N)).

(** ** The two ends *)

Record Network := mkNetwork { nw_server : channel; nw_enclave : Endpoint (A:=A) channel }.

(** What one end has sent arrives at the other. *)
Definition emptied (c : channel) : channel := mkChannel [] (ch_pending c) (ch_sched c).
Definition delivered (bs : bytes) (c : channel) : channel :=
  mkChannel (ch_sent c) (ch_pending c ++ bs) (ch_sched c).

(** The server sends, the enclave makes a turn, the server receives. *)
Definition network_call (fuel : nat) (req : Message.RuntimeManagerRequest) :
  ST Network SErr Message.RuntimeManagerResponse := λ w,
  match map_err ServerSocketError (send_message fuel req) (nw_server w) with
  | (Ok _, c) =>
      let p := (linux_turn key measurement fuel
                 (mkEndpoint (ep_enclave (nw_enclave w))
                    (delivered (ch_sent c) (ep_socket (nw_enclave w))))).2 in
      let '(r, c') := map_err ServerSocketError (receive_message fuel)
                        (delivered (ch_sent (ep_socket p)) (emptied c)) in
      (r, mkNetwork c' (mkEndpoint (ep_enclave p) (emptied (ep_socket p))))
  | (Err e, c) => (Err e, mkNetwork c (nw_enclave w))
  | (Abort a, c) => (Abort a, mkNetwork c (nw_enclave w))
  end.
Definition network_link : EnclaveLink (T:=Network) (E:=IoError) (N:=N) := {| call_enclave := network_call |}.

(** ** The enclave called directly *)

Definition fitsb {M} {BM : Bincode M} (m : M) : bool :=
  match bincode_serialize m with Some b => len b <? i64_bound | None => false end.

(** A message that cannot travel is not considered; an enclave that stops
    leaves the server waiting. *)
Definition direct_call (req : Message.RuntimeManagerRequest) :
  ST (Enclave (A:=A)) SErr Message.RuntimeManagerResponse := λ e,
  if fitsb req then
    match linux_handle key measurement req e with
    | (Ok resp, e') => if fitsb resp then (Ok resp, e') else (Abort CapacityOverflow, e')
    | (_, e') => (Abort OutOfFuel, e')
    end
  else (Abort CapacityOverflow, e).
Definition direct_link : EnclaveLink (T:=Enclave (A:=A)) (E:=IoError) (N:=N) :=
  {| call_enclave _ := direct_call |}.

(** ** The network is transparent *)

(** Nothing is under way. *)
Definition quiet (w : Network) : Prop :=
  ch_sent (nw_server w) = [] ∧ ch_pending (nw_server w) = [] ∧
  ch_sent (ep_socket (nw_enclave w)) = [] ∧ ch_pending (ep_socket (nw_enclave w)) = [].

(** When the direct run returns, so does the run over the network, with the
    same result, the same enclave, and nothing under way. *)
Definition transfers {X} (md : ST (Enclave (A:=A)) SErr X) (mn : ST Network SErr X) : Prop :=
  ∀ w, quiet w →
  match md (ep_enclave (nw_enclave w)) with
  | (Abort _, _) => True
  | (o, e') => ∃ w', mn w = (o, w') ∧ quiet w' ∧ ep_enclave (nw_enclave w') = e'
  end.

Lemma fitsb_fits {M} {BM : Bincode M} (m : M) : fitsb m = true → fits m.
Proof.
  unfold fitsb, fits. destruct (bincode_serialize m) as [b|]; [|done]. intros H%Z.ltb_lt. eauto.
Qed.

Context {L1 : BincodeLaws Message.RuntimeManagerRequest}
  {L2 : BincodeLaws Message.RuntimeManagerResponse}.

(** The turn of the enclave on a request that has arrived. *)
Lemma linux_turn_serves fuel req rb resp pb e e' d :
  bincode_serialize req = Some rb → len rb < i64_bound →
  linux_handle key measurement req e = (Ok resp, e') →
  bincode_serialize resp = Some pb → len pb < i64_bound →
  ch_sent d = [] → ch_pending d = frame rb →
  ∃ d', linux_turn key measurement fuel (mkEndpoint e d) = (Ok tt, mkEndpoint e' d') ∧
    ch_sent d' = frame pb ∧ ch_pending d' = [].
Proof.
  intros Hreq Hrb Hh Hresp Hpb Hs Hp. unfold linux_turn, turn.
  unfold bind at 1. unfold zoom at 1, map_err at 1, receive_buffer. simpl.
  rewrite <- (app_nil_r (frame rb)) in Hp.
  destruct (receive_framed_receives (S_:=channel_stream (E:=IoError)) (λ _, false) fuel rb [] d Hrb Hp)
    as (d1 & -> & Hp1 & Hs1).
  unfold bind at 1. rewrite (deserialize_serialized req rb Hreq). cbn [ok_or ret].
  unfold bind at 1. unfold zoom at 1. cbn [ep_set_socket ep_enclave]. rewrite Hh.
  unfold bind at 1. rewrite Hresp. cbn [ok_or ret].
  unfold zoom at 1, map_err at 1, send_buffer. cbn [ep_set_enclave ep_set_socket ep_socket].
  destruct (send_framed_sends (S_:=channel_stream (E:=IoError)) (λ _, false) (λ _, false) fuel pb d1 Hpb)
    as (d2 & -> & Hs2 & Hp2).
  exists d2. split; [done|]. rewrite Hs2, Hs1, Hs, Hp2, Hp1. done.
Qed.

Lemma network_call_direct fuel req : transfers (direct_call req) (network_call fuel req).
Proof.
  intros w (Hs & Hp & Hs' & Hp'). unfold direct_call.
  destruct (fitsb req) eqn:Hreq; [|done].
  destruct (linux_handle key measurement req _) as [[resp|x|a] e'] eqn:Hh; [|done..].
  destruct (fitsb resp) eqn:Hresp; [|done].
  apply fitsb_fits in Hreq as (rb & Hreq & Hrb). apply fitsb_fits in Hresp as (pb & Hresp & Hpb).
  unfold network_call, map_err.
  destruct (send_message_sends (S_:=channel_stream (E:=IoError)) fuel req rb (nw_server w) Hreq Hrb)
    as (c & -> & Hcs & Hcp).
  rewrite Hs in Hcs. rewrite Hp in Hcp.
  destruct (linux_turn_serves fuel req rb resp pb _ e'
    (delivered (ch_sent c) (ep_socket (nw_enclave w))) Hreq Hrb Hh Hresp Hpb) as (d' & -> & Hds & Hdp).
  { done. }
  { simpl. by rewrite Hp', Hcs. }
  cbn [snd ep_socket ep_enclave].
  destruct (receive_message_receives (S_:=channel_stream (E:=IoError)) fuel resp pb []
    (delivered (ch_sent d') (emptied c)) Hresp Hpb) as (c' & -> & Hcp' & Hcs').
  { simpl. by rewrite Hcp, Hds, app_nil_r. }
  eexists. split; [done|]. by split_and!.
Qed.

Section rules.
Context {X Y : Type}.

Lemma transfers_ret (x : X) : transfers (ret x) (ret x).
Proof. intros w Hw. simpl. by exists w. Qed.
Lemma transfers_throw (e : SErr) : transfers (X:=X) (throw e) (throw e).
Proof. intros w Hw. simpl. by exists w. Qed.
Lemma transfers_panic a (m : ST Network SErr X) : transfers (panic a) m.
Proof. by intros w Hw. Qed.

Lemma transfers_bind (md : ST Enclave SErr X) mn (kd : X → ST Enclave SErr Y) kn :
  transfers md mn → (∀ x, transfers (kd x) (kn x)) → transfers (bind md kd) (bind mn kn).
Proof.
  intros Hm Hk w Hw. unfold bind. specialize (Hm w Hw).
  destruct (md _) as [[x|e|p] e1]; [| |done]; destruct Hm as (w1 & -> & Hq & He).
  - specialize (Hk x w1 Hq). by rewrite He in Hk.
  - eauto.
Qed.
End rules.

Ltac transfer :=
  repeat first
    [ apply transfers_ret | apply transfers_throw | apply transfers_panic
    | apply network_call_direct
    | match goal with
      | |- transfers (bind _ _) (bind _ _) => apply transfers_bind; [|intros ?]
      | |- transfers (match ?x with _ => _ end) _ => destruct x
      end ].

Lemma transfers_new_tls_session fuel :
  transfers (linux_new_tls_session (LK:=direct_link) fuel) (linux_new_tls_session (LK:=network_link) fuel).
Proof. unfold linux_new_tls_session. cbn [call_enclave direct_link network_link]. transfer. Qed.

Lemma transfers_close_tls_session fuel i :
  transfers (linux_close_tls_session (LK:=direct_link) fuel i)
    (linux_close_tls_session (LK:=network_link) fuel i).
Proof. unfold linux_close_tls_session. cbn [call_enclave direct_link network_link]. transfer. Qed.

Lemma transfers_tls_loop n fuel i active acc :
  transfers (linux_tls_loop (LK:=direct_link) n fuel i active acc)
    (linux_tls_loop (LK:=network_link) n fuel i active acc).
Proof.
  revert active acc. induction n as [|n IH]; intros active acc; cbn [linux_tls_loop];
    unfold linux_tls_data_needed, linux_read_tls_data; cbn [call_enclave direct_link network_link];
    transfer. apply IH.
Qed.

Lemma transfers_tls_data fuel i input :
  transfers (linux_tls_data (LK:=direct_link) fuel i input)
    (linux_tls_data (LK:=network_link) fuel i input).
Proof.
  unfold linux_tls_data. cbn [call_enclave direct_link network_link]. transfer.
  all: try apply transfers_tls_loop.
Qed.

(** C10: the network is transparent: when the server, calling the enclave
    directly, starts a session, closes one or relays data, and returns a
    result or an error, it returns the same over the connection, whatever the
    pieces in which the bytes travel, and leaves the enclave in the same state
    and nothing under way. *)
Theorem network_transparent fuel i input :
  transfers (linux_new_tls_session (LK:=direct_link) fuel)
    (linux_new_tls_session (LK:=network_link) fuel) ∧
  transfers (linux_close_tls_session (LK:=direct_link) fuel i)
    (linux_close_tls_session (LK:=network_link) fuel i) ∧
  transfers (linux_tls_data (LK:=direct_link) fuel i input)
    (linux_tls_data (LK:=network_link) fuel i input).
Proof.
  split_and!; [apply transfers_new_tls_session|apply transfers_close_tls_session|apply transfers_tls_data].
Qed.

(** ** What the server relays *)

(** The records a session has ready, taken one by one, and whether the state
    of the policy was there when the last was taken. *)
Inductive drained (i : Z) : Runtime → bool → list bytes → Runtime → bool → Prop :=
  | drained_done r active :
      get_data_needed i r = (Ok false, r) → drained i r active [] r active
  | drained_more r active d active1 r1 r2 outs r' active' :
      get_data_needed i r = (Ok true, r1) → get_data i r1 = (Ok (active1, d), r2) →
      drained i r2 active1 outs r' active' → drained i r active (d :: outs) r' active'.

Lemma or_fail_inv {X} (op : ST Runtime RuntimeManagerError X) ok (e : Enclave (A:=A)) resp e' :
  or_fail (on_managers op) ok e = (Ok resp, e') →
  ∃ r', e' = set_runtime r' e ∧
    ((∃ x, op (en_runtime e) = (Ok x, r') ∧ resp = ok x) ∨
     (∃ x, op (en_runtime e) = (Err x, r') ∧ resp = Message.StatusMsg Message.Fail)).
Proof.
  unfold or_fail, try_match, on_managers, zoom. destruct (op (en_runtime e)) as [[x|x|p] r']; [| |done];
    intros [= <- <-]; exists r'; split; [done|left; eauto|done|right; eauto].
Qed.

Lemma direct_call_ok req (e : Enclave (A:=A)) resp e' :
  direct_call req e = (Ok resp, e') → linux_handle key measurement req e = (Ok resp, e').
Proof.
  unfold direct_call. destruct (fitsb req); [|done].
  destruct (linux_handle key measurement req e) as [[x|x|p] e1]; [|done..].
  destruct (fitsb x); [|done]. by intros [= <- <-].
Qed.

Lemma get_data_needed_state i r b r' : get_data_needed i r = (Ok b, r') → r' = r.
Proof.
  unfold get_data_needed, on_session. destruct (SESSIONS r !! i) as [s|] eqn:Hs; [|done].
  simpl. intros [= _ <-]. rewrite insert_id by done. by destruct r.
Qed.

Lemma tls_loop_drains n fuel i active acc (e : Enclave (A:=A)) active' outs e' :
  linux_tls_loop (LK:=direct_link) n fuel i active acc e = (Ok (active', outs), e') →
  ∃ outs', outs = acc ++ outs' ∧ drained i (en_runtime e) active outs' (en_runtime e') active'.
Proof.
  revert active acc e. induction n as [|n IH]; intros active acc e Hrun; cbn [linux_tls_loop] in Hrun;
    apply bind_inv in Hrun as (needed & e1 & Hn & Hrun);
    apply bind_inv in Hn as (resp & e2 & Hc & Hn);
    cbn [call_enclave direct_link] in Hc; apply direct_call_ok in Hc; cbn [linux_handle] in Hc;
    apply or_fail_inv in Hc as (r1 & -> & [(b & Hb & ->)|(x & _ & ->)]); try done;
    injection Hn as <- <-; pose proof (get_data_needed_state i _ _ _ Hb) as ->;
    destruct b; try done.
  - injection Hrun as <- <- <-. exists []. rewrite app_nil_r. split; [done|]. by constructor.
  - apply bind_inv in Hrun as ([a d] & e3 & Hr & Hrun).
    apply bind_inv in Hr as (resp & e4 & Hc & Hr).
    cbn [call_enclave direct_link] in Hc; apply direct_call_ok in Hc; cbn [linux_handle] in Hc.
    apply or_fail_inv in Hc as (r2 & -> & [([a' d'] & Hd & ->)|(x & _ & ->)]); [|done].
    injection Hr as <- <- <-. apply IH in Hrun as (outs' & -> & Hdr).
    exists (d' :: outs'). rewrite <- app_assoc. split; [done|].
    by eapply drained_more.
  - injection Hrun as <- <- <-. exists []. rewrite app_nil_r. split; [done|]. by constructor.
Qed.

(** What the server answers to the data of a client is what the session of
    the enclave has to say: the enclave takes exactly the data, and the answer
    are the records its session then has ready, in order, until it has none
    left; the flag says whether the state of the policy is still there. *)
Lemma tls_data_drains fuel i input (e : Enclave (A:=A)) active outs e' :
  linux_tls_data (LK:=direct_link) fuel i input e = (Ok (active, outs), e') →
  ∃ r records, send_data i input (en_runtime e) = (Ok tt, r) ∧
    drained i r true records (en_runtime e') active ∧ outs = if_empty records.
Proof.
  intros H. apply bind_inv in H as (resp & e1 & Hc & H).
  cbn [call_enclave direct_link] in Hc. apply direct_call_ok in Hc. cbn [linux_handle] in Hc.
  apply bind_inv in H as ([] & e2 & Hm & H).
  apply or_fail_inv in Hc as (r & -> & [([] & Hs & ->)|(x & _ & ->)]); [|done].
  injection Hm as <-. apply bind_inv in H as ([a l] & e3 & Hl & H). injection H as <- <- <-.
  apply tls_loop_drains in Hl as (outs' & -> & Hd). exists r, outs'. by split_and!.
Qed.

(** ** The relay ends *)

(** A measure of what a connection has to write, which writing lowers. *)
Class TlsBacklog (backlog : ServerConnection → nat) : Prop := {
  write_tls_lowers c : wants_write c = true → (backlog (write_tls c).2 < backlog c)%nat;
}.

Definition session_backlog (backlog : ServerConnection → nat) (i : Z) (r : Runtime) : nat :=
  match SESSIONS r !! i with Some s => backlog (tls_connection s) | None => 0 end.

Lemma get_data_lowers backlog `{!TlsBacklog backlog} i r r1 r2 x :
  get_data_needed i r = (Ok true, r1) → get_data i r1 = (Ok x, r2) →
  (session_backlog backlog i r2 < session_backlog backlog i r)%nat.
Proof.
  intros Hn. pose proof (get_data_needed_state i _ _ _ Hn) as ->. revert Hn.
  unfold get_data_needed, on_session. destruct (SESSIONS r !! i) as [s|] eqn:Hs; [|done].
  simpl. intros [= Hw _]. unfold get_data, bind, on_session. rewrite Hs.
  unfold read_tls_data, bind, get, read_tls_needed in *. rewrite Hw. unfold on_connection.
  pose proof (write_tls_lowers (tls_connection s) Hw) as Hlow.
  destruct (write_tls (tls_connection s)) as [[o|err] c]; simpl; [|done].
  intros [= _ <-]. unfold session_backlog. simpl. rewrite lookup_insert_eq, Hs. done.
Qed.

Lemma direct_call_returns {X} req (op : ST Runtime RuntimeManagerError X) ok (e : Enclave (A:=A)) :
  linux_handle key measurement req = or_fail (on_managers op) ok →
  (∀ a, (op (en_runtime e)).1 ≠ Abort a) → (direct_call req e).1 ≠ Abort OutOfFuel.
Proof.
  intros Hh Hop. unfold direct_call. rewrite Hh. destruct (fitsb req); [|done].
  unfold or_fail, try_match, on_managers, zoom.
  destruct (op (en_runtime e)) as [[x|x|p] r] eqn:Hr; simpl in *;
    [by case_match..|by destruct (Hop p)].
Qed.

Lemma get_data_needed_returns i r a : (get_data_needed i r).1 ≠ Abort a.
Proof. unfold get_data_needed, on_session. by destruct (SESSIONS r !! i). Qed.

Lemma get_data_returns i r a : (get_data i r).1 ≠ Abort a.
Proof.
  unfold get_data, bind, on_session. destruct (SESSIONS r !! i) as [s|]; [|done].
  unfold read_tls_data, bind, get. destruct (wants_write (tls_connection s)); [|done].
  unfold on_connection. by destruct (write_tls (tls_connection s)) as [[] ?].
Qed.

Lemma wants_write_backlog backlog `{!TlsBacklog backlog} i r r' :
  get_data_needed i r = (Ok true, r') → (0 < session_backlog backlog i r)%nat.
Proof.
  unfold get_data_needed, on_session, session_backlog. destruct (SESSIONS r !! i) as [s|]; [|done].
  simpl. intros [= Hw _]. pose proof (write_tls_lowers (tls_connection s) Hw). lia.
Qed.

(** C11: the loop that fetches the records of a session ends: as many turns are
    enough as the connection has work to write. *)
Theorem tls_data_ends backlog `{!TlsBacklog backlog} n fuel i active acc (e : Enclave (A:=A)) :
  (session_backlog backlog i (en_runtime e) ≤ n)%nat →
  (linux_tls_loop (LK:=direct_link) n fuel i active acc e).1 ≠ Abort OutOfFuel.
Proof.
  revert active acc e. induction n as [|n IH]; intros active acc e Hn; cbn [linux_tls_loop];
    unfold bind at 1, linux_tls_data_needed, bind at 1; cbn [call_enclave direct_link];
    pose proof (direct_call_returns (Message.GetTlsDataNeeded i) (get_data_needed i)
      Message.TlsDataNeeded e eq_refl (get_data_needed_returns i _)) as Hret;
    destruct (direct_call (Message.GetTlsDataNeeded i) e) as [[resp|x|p] e1] eqn:Hc;
    [|done|intros [= ->]; by destruct Hret| |done|intros [= ->]; by destruct Hret].
  all: apply direct_call_ok in Hc; cbn [linux_handle] in Hc;
    apply or_fail_inv in Hc as (r1 & -> & [(b & Hb & ->)|(x & _ & ->)]); [|done];
    pose proof (get_data_needed_state i _ _ _ Hb) as ->; destruct b; [|done].
  - pose proof (wants_write_backlog backlog i _ _ Hb). lia.
  - cbn [ret]. unfold bind at 1, linux_read_tls_data, bind at 1. cbn [call_enclave direct_link].
    pose proof (direct_call_returns (Message.GetTlsData i) (get_data i)
      (λ r, Message.TlsData r.2 r.1) (set_runtime (en_runtime e) e) eq_refl
      (get_data_returns i _)) as Hret2.
    destruct (direct_call (Message.GetTlsData i) _) as [[resp|x|p] e2] eqn:Hc; [|done|intros [= ->]; by destruct Hret2].
    apply direct_call_ok in Hc. cbn [linux_handle] in Hc.
    apply or_fail_inv in Hc as (r2 & -> & [([a d] & Hd & ->)|(x & _ & ->)]); [|done].
    cbn [ret]. apply IH. simpl in *.
    pose proof (get_data_lowers backlog i _ _ _ _ Hb Hd). lia.
Qed.
End network.
