(* ===== verification/ProxyProps.v ===== *)
(** * Properties of the proxy attestation server

    A certificate is issued only for a token that verifies, over the challenge
    given out and the digest of the request; a challenge is used once; what
    the server hands out at the start is what the other side receives.

    Sources: [proxy-attestation-server/src/], [io-utils/src/http.rs]. *)

From S2P Require Import Prelude RustFmt RustPath WasiTypes Policy Transport TransportProps Framing.
From S2P Require Import Enclave Server Proxy.
Import ProxyError.
Local Open Scope Z_scope.

Section proxy.
Context {PL : PolicyLibs} {OT : OpenSSLTypes} {OS : OpenSSL} {ND : NitroDocuments} {PF : ProxyFeatures}
  {P3 : ProtobufMessage ProxyAttestationServerRequest}
  {P4 : ProtobufMessage ProxyAttestationServerResponse} {B64 : Base64}
  {R C : Type} {RG : Rng R} {CV : CoseVerify C}.
Abbreviation Px := (Proxy (R:=R) (C:=C)).

(** ** What a certificate says *)

(** The fields of a certificate for a key and a measurement. *)
Definition certificate_fields (now expiry : Asn1Time) (issuer subject : X509Name) (key : PublicKey)
    (hash : bytes) : list X509Field :=
  [FVersion 2; FNotBefore now; FNotAfter expiry; FSerialNumber 23; FIssuerName issuer;
   FSubjectName subject; FPubkey key; FExtension (SubjectAlternativeName "ComputeEnclave.dev");
   FExtension (BasicConstraints true false 1);
   FExtension (CustomExtension "2.5.30.1" ("DER:" ++ hex_encode hash))].

(** [cert] is signed with the key of the authority, valid for a day, for the
    public key of a request whose signature verifies, and for a measurement. *)
Definition certified (s : Px) (csr hash : bytes) (cert : X509) : Prop :=
  ∃ req key now expiry issuer ca,
    X509Req_from_der csr = Some req ∧ req_public_key req = Some key ∧ req_verify req key = Some true ∧
    days_from_now 0 = Some now ∧ days_from_now 1 = Some expiry ∧ CA_KEY_PKEY s = Some ca ∧
    X509_sign (certificate_fields now expiry issuer (req_subject_name req) key hash) ca = Some cert.

Lemma openssl_inv {X} (o : option X) (s : Px) x s' : openssl o s = (Ok x, s') → o = Some x ∧ s = s'.
Proof. apply ok_or_inv. Qed.
Lemma openssl_ok_inv b (s : Px) u s' : openssl_ok b s = (Ok u, s') → s = s'.
Proof. intros H. by apply fail_if_inv in H as [_ ->]. Qed.
Lemma set_field_inv b f (s : Px) b' s' : set_field b f s = (Ok b', s') → b' = b ++ [f] ∧ s = s'.
Proof. unfold set_field. destruct (builder_takes b f); [|done]. by intros [= <- ->]. Qed.
Lemma append_extension_inv b e (s : Px) b' s' :
  append_extension b e s = (Ok b', s') → b' = b ++ [FExtension e] ∧ s = s'.
Proof.
  intros H. unfold append_extension in H. inv_run. apply openssl_ok_inv in Hx as ->.
  by apply set_field_inv in H.
Qed.
Lemma get_ca_certificate_inv (s : Px) d s' :
  get_ca_certificate s = (Ok d, s') → CA_CERT_DER s = Some d ∧ s = s'.
Proof. intros H. unfold get_ca_certificate in H. inv_run. done. Qed.
Lemma get_ca_key_inv (s : Px) d s' : get_ca_key s = (Ok d, s') → CA_KEY_PKEY s = Some d ∧ s = s'.
Proof. intros H. unfold get_ca_key in H. inv_run. done. Qed.

Lemma issuer_entries_state name entries (s : Px) n s' : issuer_entries name entries s = (Ok n, s') → s = s'.
Proof.
  revert name s. induction entries as [|[nid d] entries IH]; intros name s H; cbn [issuer_entries] in H;
    inv_run; [done|]. apply openssl_inv in Hx as [_ ->]. destruct (name_takes _ _); [|done].
  by apply IH in H.
Qed.

Lemma issuer_name_state (s : Px) n s' : issuer_name s = (Ok n, s') → s = s'.
Proof.
  intros H. unfold issuer_name in H. inv_run. apply get_ca_certificate_inv in Hx as [_ ->].
  apply openssl_inv in Hx0 as [_ ->]. apply openssl_ok_inv in Hx1 as ->. by apply issuer_entries_state in H.
Qed.

Ltac inv_cert :=
  repeat (inv_run; match goal with
  | H : openssl _ _ = (Ok _, _) |- _ => apply openssl_inv in H as [? ?]; subst
  | H : openssl_ok _ _ = (Ok _, _) |- _ => apply openssl_ok_inv in H; subst
  | H : set_field _ _ _ = (Ok _, _) |- _ => apply set_field_inv in H as [? ?]; subst
  | H : append_extension _ _ _ = (Ok _, _) |- _ => apply append_extension_inv in H as [? ?]; subst
  | H : get_ca_certificate _ = (Ok _, _) |- _ => apply get_ca_certificate_inv in H as [? ?]; subst
  | H : get_ca_key _ = (Ok _, _) |- _ => apply get_ca_key_inv in H as [? ?]; subst
  | H : issuer_name _ = (Ok _, _) |- _ => apply issuer_name_state in H; subst
  end); inv_run.

Lemma convert_csr_certified csr hash (s : Px) cert s' :
  convert_csr_to_certificate csr hash s = (Ok cert, s') → s = s' ∧ certified s csr hash cert.
Proof.
  intros H. unfold convert_csr_to_certificate in H. inv_cert.
  match goal with H : negb _ = false |- _ => apply negb_false_iff in H; subst end.
  split; [done|]. unfold certified. simplify_eq.
  exists x, x0, x5, x7, x11, x19. split_and!; [done..|]. exact H.
Qed.

(** The answer of the server: the chain of a certificate. *)
Definition chain_of (s : Px) (cert : X509) (answer : string) : Prop :=
  ∃ root der b, CA_CERT_DER s = Some root ∧ X509_to_der cert = Some der ∧
    serialize_cert_chain der root = Ok b ∧ answer = b64_encode b.

Lemma certify_inv csr hash (s : Px) answer s' :
  certify csr hash s = (Ok answer, s') →
  s = s' ∧ ∃ cert, certified s csr hash cert ∧ chain_of s cert answer.
Proof.
  intros H. unfold certify in H. inv_cert. apply convert_csr_certified in Hx as [-> Hc].
  split; [done|]. exists x. split; [done|]. by repeat eexists.
Qed.

(** ** Tokens *)

(** The request a body holds, with what was buffered before it. *)
Definition holds (s : Px) (body : string) (q : ProxyAttestationServerRequest_oneof) : Prop :=
  ∃ b z h, b64_decode body = Some b ∧
    parse_proxy_attestation_server_request None b (px_buffers s) = (Ok (mkProxyRequest (Some q) z), h).

Lemma holds_det s body q q' : holds s body q → holds s body q' → q = q'.
Proof.
  intros (b & z & h & Hb & Hq) (b' & z' & h' & Hb' & Hq'). rewrite Hb in Hb'. injection Hb' as <-.
  rewrite Hq in Hq'. by injection Hq' as -> _ _.
Qed.

(** The payload of a token that the library has verified with the key of the
    attestation service. *)
Definition verified (c : C) (token payload : bytes) : Prop :=
  ∃ handle, (cose_load_public_key PUBLIC_KEY c).1 = (0, handle) ∧
    (cose_sign1_verify handle token (cose_load_public_key PUBLIC_KEY c).2).1 = (0, payload).

Lemma slice_inv {E A} (v : list A) lo hi x :
  index_slice (E:=E) v lo hi = Ok x → x = take (Z.to_nat (hi - lo)) (drop (Z.to_nat lo) v).
Proof. unfold index_slice. case_match; [|done]. by intros [= <-]. Qed.

Lemma on_cose_inv {X} (op : C → X * C) (s : Px) x s' :
  on_cose op s = (Ok x, s') → x = (op (px_cose s)).1 ∧ s' = set_px_cose (op (px_cose s)).2 s.
Proof. unfold on_cose. destruct (op (px_cose s)) as [y c]. by intros [= <- <-]. Qed.

Lemma verify_token_inv token (s : Px) payload s' :
  verify_token token s = (Ok payload, s') →
  verified (px_cose s) token payload ∧ ∃ c, s' = set_px_cose c s.
Proof.
  intros H. unfold verify_token in H. inv_run.
  repeat match goal with H : on_cose _ _ = _ |- _ => apply on_cose_inv in H as [? ?]; subst end.
  repeat match goal with H : negb _ = false |- _ => apply negb_false_iff, Z.eqb_eq in H end.
  split; [|by eexists]. unfold verified. simpl in *.
  destruct (cose_load_public_key PUBLIC_KEY (px_cose s)) as [[r handle] c]. simpl in *. subst r.
  exists handle. split; [done|]. by destruct (cose_sign1_verify handle token c) as [[r p] c']; simplify_eq/=.
Qed.

Lemma parse_request_inv b (s : Px) q s' :
  parse_request b s = (Ok q, s') →
  ∃ h, parse_proxy_attestation_server_request None b (px_buffers s) = (Ok q, h) ∧ s' = set_px_buffers h s.
Proof. intros H. apply map_err_inv, zoom_ok in H as (h & H & ->). eauto. Qed.

Lemma expect_equal_inv var x y (s : Px) u s' : expect_equal var x y s = (Ok u, s') → x = y ∧ s = s'.
Proof.
  intros H. apply fail_if_inv in H as [H ->]. by apply negb_false_iff, bool_decide_eq_true in H.
Qed.

Lemma check_payload_inv ctx csr payload (s : Px) hash s' :
  check_payload ctx csr payload s = (Ok hash, s') →
  s = s' ∧ take 32 (drop 8 payload) = challenge ctx ∧ take 32 (drop 86 payload) = sha256 csr ∧
  hash = take 32 (drop 47 payload).
Proof.
  intros H. unfold check_payload in H. inv_run.
  repeat match goal with
  | H : expect_equal _ _ _ _ = _ |- _ => apply expect_equal_inv in H as [? ?]; subst
  | H : index_slice _ _ _ = Ok _ |- _ => apply slice_inv in H; subst
  end. by split_and!.
Qed.

Lemma psa_token_inv body (s : Px) answer s' :
  psa_attestation_token body s = (Ok answer, s') →
  ∃ token csr device ctx payload cert,
    holds s body (Pq_native_psa_attestation_token (mkNativeToken token device csr)) ∧
    PSA_CONTEXT s !! device = Some ctx ∧ verified (px_cose s) token payload ∧
    take 32 (drop 8 payload) = challenge ctx ∧ take 32 (drop 86 payload) = sha256 csr ∧
    certified s csr (take 32 (drop 47 payload)) cert ∧ chain_of s cert answer ∧
    PSA_CONTEXT s' = delete device (PSA_CONTEXT s).
Proof.
  intros H. unfold psa_attestation_token in H. inv_run. apply parse_request_inv in Hx0 as (h & Hq & ->).
  destruct x0 as [[[]|] z]; try discriminate. destruct t as [token device csr].
  cbn [pq_message_oneof parse_native_psa_attestation_token nt_token nt_csr nt_device_id] in H. inv_run.
  apply verify_token_inv in Hx1 as [Hv (c & ->)].
  apply check_payload_inv in Hx2 as (<- & Hc & Hh & ->). apply certify_inv in Hx3 as (<- & cert & Hcert & Hch).
  exists token, csr, device. eexists _, _, cert. split_and!; try eassumption; [|done].
  by repeat eexists.
Qed.

(** C6: a certificate is issued over PSA only when the token verifies with the key
    of the attestation service, its payload has the challenge that was given
    to the device and the digest of the certificate request, and the request
    is signed with its own key; the certificate is for that key and carries
    the measurement of the token, and the challenge is forgotten. *)
Theorem psa_certificate_attested body (s : Px) answer s' :
  psa_attestation_token body s = (Ok answer, s') →
  ∃ token csr device ctx payload cert,
    holds s body (Pq_native_psa_attestation_token (mkNativeToken token device csr)) ∧
    PSA_CONTEXT s !! device = Some ctx ∧ verified (px_cose s) token payload ∧
    take 32 (drop 8 payload) = challenge ctx ∧ take 32 (drop 86 payload) = sha256 csr ∧
    certified s csr (take 32 (drop 47 payload)) cert ∧ chain_of s cert answer ∧
    PSA_CONTEXT s' = delete device (PSA_CONTEXT s).
Proof. apply psa_token_inv. Qed.

Lemma check_document_inv ctx doc (s : Px) r s' :
  check_document ctx doc s = (Ok r, s') →
  s = s' ∧ nonce doc = Some (challenge ctx) ∧ user_data doc = Some r.1 ∧
  ∃ pcr0 rest, pcrs doc = pcr0 :: rest ∧ r.2 = take 32 pcr0.
Proof.
  intros H. unfold check_document in H. inv_run. destruct (nonce doc) as [n|]; [|done]. inv_run.
  match goal with H : negb _ = false |- _ => apply negb_false_iff, bool_decide_eq_true in H; subst end.
  destruct (pcrs doc) as [|pcr0 rest]; [done|]. inv_run.
  match goal with H : index_slice _ _ _ = Ok _ |- _ => apply slice_inv in H; subst end.
  split_and!; try done. by exists pcr0, rest.
Qed.

(** A certificate is issued over Nitro only for a document that authenticates
    against the root certificate of the service and has the challenge that was
    given to the device as its nonce; the certificate is for the request in
    the document and carries its first measurement, and the challenge is
    forgotten. *)
Theorem nitro_certificate_attested body (s : Px) answer s' :
  nitro_attestation_token body s = (Ok answer, s') →
  ∃ data device ctx doc csr pcr0 rest cert,
    holds s body (Pq_nitro_attestation_doc (mkNitroDoc data device)) ∧
    NITRO_CONTEXT s !! device = Some ctx ∧
    authenticate data AWS_NITRO_ROOT_CERTIFICATE = Some doc ∧ nonce doc = Some (challenge ctx) ∧
    user_data doc = Some csr ∧ pcrs doc = pcr0 :: rest ∧
    certified s csr (take 32 pcr0) cert ∧ chain_of s cert answer ∧
    NITRO_CONTEXT s' = delete device (NITRO_CONTEXT s).
Proof.
  intros H. unfold nitro_attestation_token in H. inv_run. apply parse_request_inv in Hx0 as (h & Hq & ->).
  destruct x0 as [[[]|] z]; try discriminate. destruct d as [data device].
  cbn [pq_message_oneof parse_nitro_attestation_doc nd_doc nd_device_id] in H. inv_run.
  unfold take_nitro_context in *. inv_run.
  match goal with Hd : check_document _ _ _ = _ |- _ => rename Hd into Hdoc end.
  apply check_document_inv in Hdoc as (<- & Hn & Hu & pcr0 & rest & Hp & Hh).
  apply certify_inv in H as (<- & cert & Hcert & Hch). rewrite Hh in Hcert.
  exists data, device. eexists _, _, _, pcr0, rest, cert. split_and!; try eassumption; [|done].
  by repeat eexists.
Qed.

(** ** Devices *)

Definition shrinks_at (d : Z) (m m' : gmap Z AttestationContext) : Prop :=
  m' !! d = m !! d ∨ m' !! d = None.

(** A request that starts no attestation: contexts may go, and nothing else
    that is kept changes. *)
Definition shrunk (s s' : Px) : Prop :=
  DEVICE_ID s' = DEVICE_ID s ∧ CA_CERT_DER s' = CA_CERT_DER s ∧ CA_KEY_PKEY s' = CA_KEY_PKEY s ∧
  ∀ d, shrinks_at d (PSA_CONTEXT s) (PSA_CONTEXT s') ∧ shrinks_at d (NITRO_CONTEXT s) (NITRO_CONTEXT s').

(** A request that starts one, under the next number. *)
Definition started (s s' : Px) : Prop :=
  DEVICE_ID s' = i32_wrap (DEVICE_ID s + 1) ∧ CA_CERT_DER s' = CA_CERT_DER s ∧
  CA_KEY_PKEY s' = CA_KEY_PKEY s ∧
  ∀ d, d ≠ DEVICE_ID s →
    shrinks_at d (PSA_CONTEXT s) (PSA_CONTEXT s') ∧ shrinks_at d (NITRO_CONTEXT s) (NITRO_CONTEXT s').

Lemma shrunk_refl s : shrunk s s.
Proof. split_and!; try done. intros d. split; by left. Qed.

Lemma shrunk_buffers h s : shrunk s (set_px_buffers h s).
Proof. exact (shrunk_refl s). Qed.

Lemma shrinks_at_delete d k (m m' : gmap Z AttestationContext) :
  shrinks_at d m m' → shrinks_at d m (delete k m').
Proof.
  unfold shrinks_at. intros [H|H]; destruct (decide (k = d)) as [->|Hne];
    rewrite ?lookup_delete_eq, ?lookup_delete_ne by done; auto.
Qed.

Lemma parse_request_shrunk b s : preserves (shrunk s) (parse_request b).
Proof.
  intros s1 H. unfold parse_request, map_err, zoom.
  by destruct (parse_proxy_attestation_server_request None b (px_buffers s1)) as [[] h].
Qed.
Lemma on_cose_shrunk {X} (op : C → X * C) s : preserves (shrunk s) (on_cose op).
Proof. intros s1 H. unfold on_cose. by destruct (op (px_cose s1)). Qed.
Lemma forget_psa_shrunk d s :
  preserves (shrunk s) (modify (λ s, set_PSA_CONTEXT (delete d (PSA_CONTEXT s)) s) : ST Px ProxyAttestationServerError unit).
Proof.
  intros s1 (H1 & H2 & H3 & H4). split_and!; try done. intros k. destruct (H4 k).
  split; [by apply shrinks_at_delete|done].
Qed.
Lemma forget_nitro_shrunk d s :
  preserves (shrunk s) (modify (λ s, set_NITRO_CONTEXT (delete d (NITRO_CONTEXT s)) s) : ST Px ProxyAttestationServerError unit).
Proof.
  intros s1 (H1 & H2 & H3 & H4). split_and!; try done. intros k. destruct (H4 k).
  split; [done|by apply shrinks_at_delete].
Qed.
Lemma issuer_entries_shrunk n es s : preserves (shrunk s) (issuer_entries (R:=R) (C:=C) n es).
Proof. revert n. induction es as [|[] es IH]; intros n; simpl; unfold openssl; preserve. Qed.
#[local] Hint Resolve parse_request_shrunk on_cose_shrunk forget_psa_shrunk forget_nitro_shrunk
  issuer_entries_shrunk : veracruz.

Lemma certify_shrunk csr hash s : preserves (shrunk s) (certify (R:=R) (C:=C) csr hash).
Proof.
  unfold certify, convert_csr_to_certificate, issuer_name, get_ca_certificate, get_ca_key,
    append_extension, set_field, openssl, openssl_ok, map_err. preserve.
  intros s1 H. unfold lift. by destruct (serialize_cert_chain _ _).
Qed.
#[local] Hint Resolve certify_shrunk : veracruz.

Lemma psa_token_shrunk body s : preserves (shrunk s) (psa_attestation_token body).
Proof.
  unfold psa_attestation_token, verify_token, check_payload, expect_equal, parse_native_psa_attestation_token.
  preserve.
Qed.
Lemma nitro_token_shrunk body s : preserves (shrunk s) (nitro_attestation_token body).
Proof.
  unfold nitro_attestation_token, take_nitro_context, check_document, parse_nitro_attestation_doc. preserve.
Qed.

Lemma start_with_psa fw s s1 :
  started s s1 → started s (psa_start fw (DEVICE_ID s) s1).2.
Proof.
  intros (H1 & H2 & H3 & H4). unfold psa_start, start_with, bind, modify, map_err, lift.
  destruct (rng_fill 32 (px_rng s1)) as [c r].
  destruct (serialize_psa_attestation_init c (DEVICE_ID s)); simpl; split_and!; try done;
    intros d Hd; destruct (H4 d Hd); (split; [|done]); unfold shrinks_at in *; simpl;
    by rewrite lookup_insert_ne by done.
Qed.
Lemma start_with_nitro fw s s1 :
  started s s1 → started s (nitro_start fw (DEVICE_ID s) s1).2.
Proof.
  intros (H1 & H2 & H3 & H4). unfold nitro_start, start_with, bind, modify, map_err, lift.
  destruct (rng_fill 32 (px_rng s1)) as [c r].
  destruct (serialize_psa_attestation_init c (DEVICE_ID s)); simpl; split_and!; try done;
    intros d Hd; destruct (H4 d Hd); (split; [done|]); unfold shrinks_at in *; simpl;
    by rewrite lookup_insert_ne by done.
Qed.

Lemma start_moves body (s : Px) : shrunk s (start body s).2 ∨ started s (start body s).2.
Proof.
  unfold start, bind, ok_or, parse_request, map_err, zoom, fetch_device_id.
  destruct (b64_decode body) as [b|]; [|left; apply shrunk_refl].
  destruct (parse_proxy_attestation_server_request None b (px_buffers s)) as [[q|e|p] h];
    try (left; exact (shrunk_buffers h s)).
  destruct (pq_message_oneof q) as [[]|]; try (left; exact (shrunk_buffers h s)).
  destruct (parse_start_msg q) as [protocol fw].
  right. assert (started s (set_DEVICE_ID (i32_wrap (DEVICE_ID s + 1)) (set_px_buffers h s))) as Hst.
  { split_and!; try done. intros d _. split; by left. }
  destruct (with_psa && (protocol =? "psa")%string); [exact (start_with_psa fw s _ Hst)|].
  destruct (with_nitro && (protocol =? "nitro")%string); [exact (start_with_nitro fw s _ Hst)|done].
Qed.

Lemma serve_moves q (s : Px) : shrunk s (serve q s).2 ∨ started s (serve q s).2.
Proof.
  destruct q as [body|name body|name body]; cbn [serve]; [apply start_moves|left..].
  - unfold psa_router. destruct with_psa; [|apply shrunk_refl].
    destruct (name =? _)%string; [|apply shrunk_refl].
    apply preserves_run; [apply psa_token_shrunk|apply shrunk_refl].
  - unfold nitro_router. destruct with_nitro; [|apply shrunk_refl].
    destruct (name =? _)%string; [|apply shrunk_refl].
    apply preserves_run; [apply nitro_token_shrunk|apply shrunk_refl].
Qed.

(** Requests one after the other. *)
Definition serve_all (qs : list proxy_request) (s : Px) : Px := foldl (λ s q, (serve q s).2) s qs.

(** The devices that wait for their token have numbers given out before. *)
Definition devices_ok (s : Px) : Prop :=
  1 ≤ DEVICE_ID s ∧ ∀ d, is_Some (PSA_CONTEXT s !! d) ∨ is_Some (NITRO_CONTEXT s !! d) → 1 ≤ d < DEVICE_ID s.

Lemma server_setup_shape cert_file key_file (r : R) (c : C) :
  ∃ x y, (server_setup cert_file key_file (Proxy_initial r c)).2 =
    set_CA_KEY_PKEY y (set_CA_CERT_DER x (Proxy_initial r c)).
Proof.
  unfold server_setup, load_ca_certificate, load_ca_key, openssl, bind, ok_or, get, put.
  repeat (case_match; simplify_eq/=); 
    (eexists _, _; unfold set_CA_KEY_PKEY, set_CA_CERT_DER; cbn; reflexivity).
Qed.
Lemma setup_device cert_file key_file (r : R) (c : C) :
  DEVICE_ID (server_setup cert_file key_file (Proxy_initial r c)).2 = 1.
Proof. by destruct (server_setup_shape cert_file key_file r c) as (x & y & ->). Qed.
Lemma devices_setup cert_file key_file (r : R) (c : C) :
  devices_ok (server_setup cert_file key_file (Proxy_initial r c)).2.
Proof.
  destruct (server_setup_shape cert_file key_file r c) as (x & y & ->).
  split; [done|]. simpl. intros d [[? H]|[? H]]; by rewrite lookup_empty in H.
Qed.

Lemma i32_wrap_small n : 0 ≤ n < 2147483648 → i32_wrap n = n.
Proof. intros H. unfold i32_wrap. rewrite Z.mod_small by lia. lia. Qed.

Lemma shrinks_at_some d m m' : shrinks_at d m m' → is_Some (m' !! d) → is_Some (m !! d).
Proof. by intros [->| ->] []. Qed.
Lemma shrinks_at_none d m m' : shrinks_at d m m' → m !! d = None → m' !! d = None.
Proof. unfold shrinks_at. intros [->|H]; done. Qed.

(** What never comes back: the contexts of a number that was given out. *)
Definition gone (s s' : Px) : Prop := ∀ d, d < DEVICE_ID s →
  (PSA_CONTEXT s !! d = None → PSA_CONTEXT s' !! d = None) ∧
  (NITRO_CONTEXT s !! d = None → NITRO_CONTEXT s' !! d = None).

Lemma serve_devices q (s : Px) :
  devices_ok s → DEVICE_ID s + 1 < 2147483648 →
  let s' := (serve q s).2 in
  devices_ok s' ∧ DEVICE_ID s ≤ DEVICE_ID s' ≤ DEVICE_ID s + 1 ∧ gone s s'.
Proof.
  intros [H1 Hc] Hb. cbv zeta.
  destruct (serve_moves q s) as [(Hd & _ & _ & Hs)|(Hd & _ & _ & Hs)].
  - rewrite Hd. split_and!; [split; [lia|]|lia..|].
    + intros d Hsome. rewrite Hd. destruct (Hs d) as [Hp Hn]. apply Hc.
      destruct Hsome as [Hx|Hx]; [left|right]; eapply shrinks_at_some; eauto.
    + intros d _. destruct (Hs d). split; by apply shrinks_at_none.
  - rewrite i32_wrap_small in Hd by lia. rewrite Hd. split_and!; [split; [lia|]|lia..|].
    + intros d Hsome. rewrite Hd. destruct (decide (d = DEVICE_ID s)) as [->|Hne]; [lia|].
      destruct (Hs d Hne) as [Hp Hn]. enough (1 ≤ d < DEVICE_ID s) by lia. apply Hc.
      destruct Hsome as [Hx|Hx]; [left|right]; eapply shrinks_at_some; eauto.
    + intros d Hlt. destruct (Hs d) as [Hp Hn]; [lia|]. split; by apply shrinks_at_none.
Qed.

Lemma serve_all_devices qs (s : Px) :
  devices_ok s → DEVICE_ID s + len qs < 2147483648 →
  devices_ok (serve_all qs s) ∧ DEVICE_ID s ≤ DEVICE_ID (serve_all qs s) ≤ DEVICE_ID s + len qs ∧
  gone s (serve_all qs s).
Proof.
  revert s. induction qs as [|q qs IH]; intros s Hok Hb; unfold len in *; cbn [length] in *.
  { simpl. split_and!; [done|lia..|]. intros d _. done. }
  destruct (serve_devices q s Hok) as (Hok' & Hd & Hg); [lia|].
  destruct (IH (serve q s).2 Hok') as (Hok2 & Hd2 & Hg2); [lia|].
  change (serve_all (q :: qs) s) with (serve_all qs (serve q s).2).
  split_and!; [done|lia..|]. intros d Hlt. destruct (Hg d Hlt). destruct (Hg2 d); [lia|]. split; auto.
Qed.

(** ** A challenge is used once *)

Lemma psa_no_device body (s : Px) token csr d :
  holds s body (Pq_native_psa_attestation_token (mkNativeToken token d csr)) →
  PSA_CONTEXT s !! d = None → (psa_attestation_token body s).1 = Err (NoDeviceError d).
Proof.
  intros (b & z & h & Hb & Hq) Hd. unfold psa_attestation_token, bind, ok_or, parse_request, map_err, zoom.
  rewrite Hb, Hq. simpl. by rewrite Hd.
Qed.

Lemma nitro_no_device body (s : Px) data d doc :
  holds s body (Pq_nitro_attestation_doc (mkNitroDoc data d)) →
  authenticate data AWS_NITRO_ROOT_CERTIFICATE = Some doc →
  NITRO_CONTEXT s !! d = None → (nitro_attestation_token body s).1 = Err (NoDeviceError d).
Proof.
  intros (b & z & h & Hb & Hq) Hdoc Hd.
  unfold nitro_attestation_token, bind, ok_or, parse_request, map_err, zoom.
  rewrite Hb, Hq. simpl. rewrite Hdoc. unfold take_nitro_context, bind, ok_or. simpl. by rewrite Hd.
Qed.

(** Once a document for a device authenticates, its challenge is forgotten,
    whatever becomes of the request. *)
Lemma nitro_forgets body (s : Px) data d doc :
  holds s body (Pq_nitro_attestation_doc (mkNitroDoc data d)) →
  authenticate data AWS_NITRO_ROOT_CERTIFICATE = Some doc →
  NITRO_CONTEXT (nitro_attestation_token body s).2 !! d = None.
Proof.
  intros (b & z & h & Hb & Hq) Hdoc.
  unfold nitro_attestation_token, bind, ok_or, parse_request, map_err, zoom.
  rewrite Hb, Hq. simpl. rewrite Hdoc. unfold take_nitro_context, bind, ok_or. simpl.
  destruct (NITRO_CONTEXT s !! d) as [ctx|] eqn:Hd; [|done].
  set (s1 := set_NITRO_CONTEXT _ _).
  assert (preserves (shrunk s1) (let! r := check_document ctx doc in certify r.1 r.2)) as H.
  { unfold check_document. preserve. }
  pose proof (preserves_run _ _ s1 H (shrunk_refl s1)) as (_ & _ & _ & Hs).
  destruct (Hs d) as [_ Hn]. apply (shrinks_at_none _ _ _ Hn). simpl. apply lookup_delete_eq.
Qed.

(** Between requests of a run that gives out fewer numbers than there are. *)
Lemma gone_later (s0 : Px) qs q qs' d :
  devices_ok s0 → DEVICE_ID s0 + len qs + 1 + len qs' < 2147483648 →
  let s := serve_all qs s0 in let s1 := (serve q s).2 in
  (is_Some (PSA_CONTEXT s !! d) → PSA_CONTEXT s1 !! d = None → PSA_CONTEXT (serve_all qs' s1) !! d = None) ∧
  (is_Some (NITRO_CONTEXT s !! d) → NITRO_CONTEXT s1 !! d = None → NITRO_CONTEXT (serve_all qs' s1) !! d = None).
Proof.
  intros Hok Hb. cbv zeta. pose proof (len_nonneg qs). pose proof (len_nonneg qs').
  destruct (serve_all_devices qs s0 Hok) as (Hok1 & Hd1 & _); [lia|].
  destruct (serve_devices q _ Hok1) as (Hok2 & Hd2 & _); [lia|].
  destruct (serve_all_devices qs' _ Hok2) as (_ & _ & Hg); [lia|].
  split; intros Hs Hn.
  - pose proof (proj2 Hok1 d (or_introl Hs)). apply (Hg d); [lia|done].
  - pose proof (proj2 Hok1 d (or_intror Hs)). apply (Hg d); [lia|done].
Qed.


(** ** Requests share one buffer *)

Definition body_of (q : proxy_request) : string :=
  match q with StartRequest body => body | PsaRequest _ body => body | NitroRequest _ body => body end.
Definition decoded_len (q : proxy_request) : Z :=
  match b64_decode (body_of q) with Some b => len b | None => 0 end.
Definition total_len (qs : list proxy_request) : Z := foldr (λ q n, decoded_len q + n) 0 qs.

(** The buffer waits for a message of [n] bytes and has at most [k] of them. *)
Definition waiting (n k : Z) (s : Px) : Prop :=
  ∃ b, px_buffers s !! 0 = Some (n, b) ∧ len b ≤ k.

Lemma waiting_parse n k bs (s : Px) :
  waiting n k s → k + len bs < n →
  ∃ s', parse_request bs s = (Err (TransportProtocolError (PartialBuffer 0)), s') ∧ waiting n (k + len bs) s'.
Proof.
  intros (b & Hb & Hk) Hn. unfold parse_request, map_err, zoom, parse_proxy_attestation_server_request, parse_message, bind.
  change (handle_protocol_buffer None) with (handle_protocol_buffer (Some 0)). rewrite handle_run, Hb. cbn [fst snd].
  rewrite len_app. destruct (Z.ltb_spec (len b + len bs) n); [|lia]. eexists. split; [done|].
  exists (b ++ bs). simpl. rewrite lookup_insert_eq, len_app. split; [done|lia].
Qed.

Lemma waiting_serve n k q (s : Px) :
  waiting n k s → k + decoded_len q < n →
  waiting n (k + decoded_len q) (serve q s).2 ∧ is_ok (serve q s).1 = false.
Proof.
  intros Hw Hn.
  assert (∀ kk : bytes → ST Px ProxyAttestationServerError string,
    (∀ bs, waiting n (k + len bs) (kk bs s).2 ∧ is_ok (kk bs s).1 = false ∨ n ≤ k + len bs) →
    let r := (let! bs := ok_or (b64_decode (body_of q)) Base64Error in kk bs) s in
    waiting n (k + decoded_len q) r.2 ∧ is_ok r.1 = false) as Hrun.
  { intros kk Hkk. unfold decoded_len, bind, ok_or in *. destruct (b64_decode (body_of q)) as [bs|]; simpl.
    - destruct (Hkk bs) as [H|H]; [exact H|lia].
    - rewrite Z.add_0_r. done. }
  assert (∀ bs (m : ProxyAttestationServerRequest → ST Px ProxyAttestationServerError string),
    let r := (let! parsed := parse_request bs in m parsed) s in
    waiting n (k + len bs) r.2 ∧ is_ok r.1 = false ∨ n ≤ k + len bs) as Hparse.
  { intros bs m. destruct (decide (k + len bs < n)) as [Hlt|]; [left|right; lia].
    destruct (waiting_parse n k bs s Hw Hlt) as (s' & Hp & Hs'). unfold bind. by rewrite Hp. }
  assert (waiting n (k + decoded_len q) s) as Hstay.
  { destruct Hw as (b & Hb & Hk). exists b. split; [done|]. unfold decoded_len.
    destruct (b64_decode _); [|lia]. pose proof (len_nonneg l). lia. }
  destruct q as [body|name body|name body]; cbn [serve body_of] in *.
  - apply Hrun. intros bs. apply Hparse.
  - unfold psa_router. destruct with_psa; [|by split]. destruct (name =? _)%string; [|by split].
    apply Hrun. intros bs. apply Hparse.
  - unfold nitro_router. destruct with_nitro; [|by split]. destruct (name =? _)%string; [|by split].
    apply Hrun. intros bs. apply Hparse.
Qed.

Lemma decoded_len_nonneg q : 0 ≤ decoded_len q.
Proof. unfold decoded_len. case_match; [apply len_nonneg|done]. Qed.

Lemma total_len_nonneg qs : 0 ≤ total_len qs.
Proof.
  induction qs as [|q qs IH]; [done|]. simpl. pose proof (decoded_len_nonneg q). fold (total_len qs). lia.
Qed.

Lemma waiting_serve_all n k qs (s : Px) :
  waiting n k s → k + total_len qs < n → waiting n (k + total_len qs) (serve_all qs s).
Proof.
  revert k s. induction qs as [|q qs IH]; intros k s Hw Hn; cbn [total_len foldr] in *.
  { by rewrite Z.add_0_r. }
  fold (total_len qs) in *.
  pose proof (total_len_nonneg qs).
  destruct (waiting_serve n k q s Hw) as [Hw' _]; [lia|].
  rewrite Z.add_assoc. apply (IH (k + decoded_len q) (serve q s).2); [done|lia].
Qed.

(** The requests of all clients are put together in one buffer: a request of
    eight bytes, which is only the length of a message that never comes, stops
    the service for everyone until that many bytes have been sent. *)
Theorem header_blocks_service (s : Px) body0 header qs q :
  px_buffers s !! 0 = None → b64_decode body0 = Some header → length header = 8%nat →
  total_len qs + decoded_len q < from_be_bytes header →
  is_ok (serve q (serve_all qs (serve (StartRequest body0) s).2)).1 = false.
Proof.
  intros Hs Hb Hl Hn. set (n := from_be_bytes header) in *. pose proof (decoded_len_nonneg q).
  pose proof (total_len_nonneg qs).
  assert (waiting n 0 (serve (StartRequest body0) s).2) as Hw.
  { cbn [serve]. unfold start, bind, ok_or. rewrite Hb. unfold parse_request, map_err, zoom,
      parse_proxy_attestation_server_request, parse_message, bind.
    change (handle_protocol_buffer None) with (handle_protocol_buffer (Some 0)). rewrite handle_run, Hs.
    unfold get_length_prefix. rewrite decide_False by (rewrite Hl; unfold LENGTH_PREFIX_SIZE; lia).
    rewrite (firstn_all2 header), (skipn_all2 header) by (rewrite Hl; unfold LENGTH_PREFIX_SIZE; lia).
    fold n. cbn [fst snd app]. destruct (Z.ltb_spec (len (@nil Byte.byte)) n) as [|Hge]; [|unfold len in Hge; simpl in Hge; lia].
    exists []. simpl. by rewrite lookup_insert_eq. }
  pose proof (waiting_serve_all n 0 qs _ Hw) as Hw2. rewrite Z.add_0_l in Hw2.
  apply (waiting_serve n (total_len qs)); [apply Hw2; lia|lia].
Qed.
End proxy.
