(* ===== verification/Attest.v ===== *)
(** * Attestation from end to end

    The Veracruz server, the enclave and the proxy attestation server
    together: the server asks the proxy for a challenge, the enclave for a
    token, the proxy for a certificate, and hands the chain to the enclave.

    Sources: [veracruz-server/src/veracruz_server_linux.rs],
    [io-utils/src/http.rs], [proxy-attestation-server/src/],
    [runtime-manager/src/runtime_manager_linux.rs]. *)

From S2P Require Import Prelude RustFmt RustPath WasiTypes Policy InodeTable FileSystem FsOps Services.
From S2P Require Import FsSystem Transport TransportProps Framing FramingProps Session Csr Runtime.
From S2P Require Import Enclave Server Proxy SessionProps RuntimeProps EnclaveProps Network ProxyProps.
Local Open Scope Z_scope.

Section attest.
Context {BP : BuildProfile} {WR : WasiRights} {HO : HashOrder} {NL : NativeLibs}
  {PL : PolicyLibs} {WE : WasmEngines} {TL : TlsLibs} {MC : MbedtlsCsr}
  {P1 : ProtobufMessage Transport.RuntimeManagerRequest}
  {P2 : ProtobufMessage Transport.RuntimeManagerResponse}
  {P3 : ProtobufMessage ProxyAttestationServerRequest} {L3 : ProtobufLaws ProxyAttestationServerRequest}
  {P4 : ProtobufMessage ProxyAttestationServerResponse} {L4 : ProtobufLaws ProxyAttestationServerResponse}
  {B64 : Base64} {L64 : Base64Laws B64}
  {OT : OpenSSLTypes} {OS : OpenSSL} {ND : NitroDocuments} {PF : ProxyFeatures}
  {R C : Type} {RG : Rng R} {CV : CoseVerify C}
  {A : Type} {PA : PsaAttestation A}
  {B1 : Bincode Message.RuntimeManagerRequest} {B2 : Bincode Message.RuntimeManagerResponse}
  (base : string) (key measurement : bytes).
Abbreviation Px := (Proxy (R:=R) (C:=C)).

(** ** The proxy behind HTTP *)

(** The routes of [server.rs], under a base URL. *)
Definition route (url body : string) : option proxy_request :=
  if (url =? base ++ "/Start")%string then Some (StartRequest body)
  else if (url =? base ++ "/PSA/AttestationToken")%string then Some (PsaRequest "AttestationToken" body)
  else if (url =? base ++ "/Nitro/AttestationToken")%string then Some (NitroRequest "AttestationToken" body)
  else None.

(** The status line of an answer; a handler that panics answers nothing. *)
Definition status_line (code : Z) : string :=
  if code =? 200 then HTTP_OK else ("HTTP/1.1 " ++ fmt_dec code)%string.

#[local] Instance proxy_curl : Curl Px := {|
  CurlError := unit;
  curl_post url body s :=
    match route url body with
    | None => (inl (status_line 404, ""), s)
    | Some q =>
        match serve q s with
        | (Ok answer, s') => (inl (status_line 200, answer), s')
        | (Err e, s') => (inl (status_line (ProxyError.status_code e), ""), s')
        | (Abort _, s') => (inr tt, s')
        end
    end;
|}.

Lemma error_status e : contains HTTP_OK (status_line (ProxyError.status_code e)) = false.
Proof. by destruct e. Qed.

Lemma post_buffer_inv url body (s : Net (N:=Px)) answer s' :
  post_buffer url body s = (Ok answer, s') →
  ∃ q px, route url body = Some q ∧ serve q (net s) = (Ok answer, px) ∧ s' = set_net px s.
Proof.
  unfold post_buffer. cbn [curl_post proxy_curl]. destruct (route url body) as [q|]; [|done].
  destruct (serve q (net s)) as [[x|e|p] px] eqn:Hs; [| |done].
  - change (contains HTTP_OK (status_line 200)) with true. intros [= -> <-]. by exists q, px.
  - by rewrite error_status.
Qed.

Lemma route_start body : route (base ++ "/Start") body = Some (StartRequest body).
Proof. unfold route. by rewrite String.eqb_refl. Qed.
Lemma route_psa body :
  route (base ++ "/PSA/AttestationToken") body = Some (PsaRequest "AttestationToken" body).
Proof.
  unfold route. rewrite String.eqb_refl.
  destruct (String.eqb_spec (base ++ "/PSA/AttestationToken") (base ++ "/Start")) as [H|]; [|done].
  by apply (inj (String.append base)) in H.
Qed.

(** What a side sent whole is what the other side parses, when nothing else
    was buffered. *)
Lemma parse_answer b m (s : Net (N:=Px)) x s' :
  write_prefixed m = Ok b → net_buffers s !! 0 = None →
  proxy_response b s = (Ok x, s') → x = m ∧ s' = s.
Proof.
  intros Hw Hn H. apply zoom_ok in H as (h & H & ->).
  unfold parse_proxy_attestation_server_response in H.
  rewrite (parse_written_message m b None (net_buffers s) Hw Hn) in H. injection H as -> <-.
  by destruct s.
Qed.

(** Nothing is buffered on either side. *)
Definition clean (s : Net (N:=Px)) : Prop := net_buffers s !! 0 = None ∧ px_buffers (net s) !! 0 = None.

(** The body of a request that was sent whole is that request. *)
Lemma sent_request q b (px : Px) o :
  write_prefixed (mkProxyRequest (Some q) 0) = Ok b → px_buffers px !! 0 = None →
  holds px (b64_encode b) o → o = q.
Proof.
  intros Hw Hn (b' & z & h & Hb & Hp). rewrite b64_decode_encode in Hb. injection Hb as <-.
  unfold parse_proxy_attestation_server_request in Hp.
  rewrite (parse_written_message _ b None (px_buffers px) Hw Hn) in Hp. by injection Hp as -> _ _.
Qed.

(** What a request to start an attestation over PSA leaves. *)
Lemma start_psa_inv fw b (px : Px) answer px' :
  serialize_start_msg "psa" fw = Ok b → px_buffers px !! 0 = None →
  start (b64_encode b) px = (Ok answer, px') →
  ∃ ch rng reply, rng_fill 32 (px_rng px) = (ch, rng) ∧
    serialize_psa_attestation_init ch (DEVICE_ID px) = Ok reply ∧ answer = b64_encode reply ∧
    with_psa = true ∧
    px' = set_PSA_CONTEXT (<[DEVICE_ID px := mkAttestationContext fw ch]> (PSA_CONTEXT px))
            (set_px_rng rng (set_DEVICE_ID (i32_wrap (DEVICE_ID px + 1)) px)).
Proof.
  intros Hw Hn. unfold start, bind, ok_or, parse_request, map_err, zoom, fetch_device_id.
  rewrite b64_decode_encode. unfold parse_proxy_attestation_server_request.
  rewrite (parse_written_message _ b None (px_buffers px) Hw Hn).
  cbn [pq_message_oneof parse_start_msg sm_protocol sm_firmware_version].
  change (("psa" =? "psa")%string) with true. change (("psa" =? "nitro")%string) with false.
  rewrite andb_true_r, andb_false_r. destruct with_psa; [|done].
  unfold psa_start, start_with, bind, modify, map_err, lift. cbn [px_rng set_DEVICE_ID set_px_buffers].
  destruct (rng_fill 32 (px_rng px)) as [ch rng] eqn:Hr. cbn [DEVICE_ID set_px_buffers].
  destruct (serialize_psa_attestation_init ch (DEVICE_ID px)) as [reply|e|p] eqn:Hi; [|done..].
  intros [= <- <-]. exists ch, rng, reply. by split_and!.
Qed.

Lemma send_start_inv fw (s : Net (N:=Px)) id ch s' :
  clean s → send_proxy_attestation_server_start base "psa" fw s = (Ok (id, ch), s') →
  ∃ rng, rng_fill 32 (px_rng (net s)) = (ch, rng) ∧ id = DEVICE_ID (net s) ∧ with_psa = true ∧
    s' = set_net (set_PSA_CONTEXT (<[id := mkAttestationContext fw ch]> (PSA_CONTEXT (net s)))
            (set_px_rng rng (set_DEVICE_ID (i32_wrap (DEVICE_ID (net s) + 1)) (net s)))) s.
Proof.
  intros [Hn Hp] H. unfold send_proxy_attestation_server_start in H. inv_run.
  apply post_buffer_inv in Hx0 as (q & px & Hq & Hs & ->). rewrite route_start in Hq. injection Hq as <-.
  destruct (start_psa_inv fw x (net s0) x0 px) as (c & rng & reply & Hr & Hreply & -> & Hf & ->); try done.
  rewrite b64_decode_encode in *. simplify_eq.
  apply (parse_answer _ _ _ _ _ Hreply) in Hx2 as [-> ->]; [|done].
  cbn in H. inv_run.
  cbn in *. simplify_eq. exists rng. by split_and!.
Qed.

(** ** The server *)

Abbreviation Sv := (Start (N:=Px) (T:=Enclave (A:=A))).
#[local] Existing Instance direct_link.

(** What the proxy has checked before it signs [cert]. *)
Definition attested (px : Px) (token csr : bytes) (id : Z) (cert : X509) : Prop :=
  ∃ ctx payload, PSA_CONTEXT px !! id = Some ctx ∧ verified (px_cose px) token payload ∧
    take 32 (drop 8 payload) = challenge ctx ∧ take 32 (drop 86 payload) = sha256 csr ∧
    certified px csr (take 32 (drop 47 payload)) cert.

Lemma post_token_inv token csr id (s : Sv) root der s' :
  clean (st_net s) → linux_post_token (E:=IoError) base token csr id s = (Ok (root, der), s') →
  st_socket s' = st_socket s ∧
  ∃ cert, attested (net (st_net s)) token csr id cert ∧ X509_to_der cert = Some der ∧
    CA_CERT_DER (net (st_net s)) = Some root.
Proof.
  intros [Hn Hp] H. unfold linux_post_token, on_net in H. inv_run.
  apply zoom_ok in Hx0 as (n1 & Hpost & ->). apply post_buffer_inv in Hpost as (q & px & Hq & Hs & ->).
  rewrite route_psa in Hq. injection Hq as <-. cbn [serve] in Hs. unfold psa_router in Hs.
  destruct with_psa; [|done]. cbn in Hs. change (psa_attestation_token (b64_encode x) (net (st_net s0)) = (Ok x0, px)) in Hs.
  apply psa_token_inv in Hs as (tok & cs & d & ctx & pl & cert & Hh & Hctx & Hv & Hc & Hcs & Hcert & Hch & _).
  match goal with Hw : serialize_native_psa_attestation_token _ _ _ = Ok _ |- _ =>
    apply (sent_request _ _ _ _ Hw Hp) in Hh end. injection Hh as -> -> ->.
  destruct Hch as (rt & dr & b & Hroot & Hder & Hser & ->).
  rewrite b64_decode_encode in *. simplify_eq.
  apply zoom_ok in Hx2 as (n2 & Hresp & ->). apply (parse_answer _ _ _ _ _ Hser) in Hresp as [-> ->]; [|done].
  cbn in *. simplify_eq. split; [done|]. exists cert. split_and!; [|done..]. by exists ctx, pl.
Qed.

(** ** The chain in the enclave *)

Lemma on_session_manager_inv {X} name (op : ST SessionContext SessionManagerError X) r x r' :
  on_session_manager name op r = (Ok x, r') →
  ∃ c c', MY_SESSION_MANAGER r = Some c ∧ op c = (Ok x, c') ∧ r' = set_session_manager (Some c') r.
Proof.
  unfold on_session_manager. destruct (MY_SESSION_MANAGER r) as [c|]; [|done].
  destruct (op c) as [[y|e|p] c'] eqn:Ho; [|done..]. intros [= -> <-]. by exists c, c'.
Qed.

(** The configuration of the TLS sessions: the policy, and the chain for the
    key that the session manager holds. *)
Definition serves_chain (r : Runtime) (policy : Policy) (chain : list bytes) (c : SessionContext) : Prop :=
  MY_SESSION_MANAGER r = Some c ∧ sc_policy c = Some policy ∧
  ∃ b config, with_single_cert b chain (sc_private_key c) = inl config ∧ sc_config c = Some config.

Lemma load_policy_inv json (r r' : Runtime) :
  load_policy json r = (Ok tt, r') →
  ∃ policy c c', Policy_from_json json = Ok policy ∧ MY_SESSION_MANAGER r = Some c ∧
    MY_SESSION_MANAGER r' = Some c' ∧ sc_private_key c' = sc_private_key c ∧ sc_policy c' = Some policy.
Proof.
  intros H. unfold load_policy in H. inv_run.
  apply on_session_manager_inv in H as (c & c' & Hc & Hp & ->). exists x, c, c'.
  assert (Policy_from_json json = Ok x) as Hj.
  { match goal with He : err_into _ _ = Ok _ |- _ => by destruct (Policy_from_json json); simplify_eq/= end. }
  unfold set_policy in Hp. inv_run. case_match; inv_run.
  split_and!; try done. destruct (debug x); inv_run; exact Hc.
Qed.

Lemma set_cert_chain_inv chain c c' :
  set_cert_chain chain c = (Ok tt, c') →
  sc_private_key c' = sc_private_key c ∧ sc_policy c' = sc_policy c ∧
  ∃ b config, with_single_cert b chain (sc_private_key c') = inl config ∧ sc_config c' = Some config.
Proof.
  intros H. unfold set_cert_chain in H. inv_run.
  destruct (sc_config_builder _) as [b|]; [|done].
  destruct (with_single_cert _ _ _) as [config|] eqn:Hw; [|done]. inv_run. split_and!; [done..|].
  by exists b, config.
Qed.

Lemma initialize_inv json chain (e e' : Enclave (A:=A)) :
  linux_handle key measurement (Message.Initialize json chain) e =
    (Ok (Message.StatusMsg Message.Success), e') →
  ∃ policy c c', Policy_from_json json = Ok policy ∧ MY_SESSION_MANAGER (en_runtime e) = Some c ∧
    sc_private_key c' = sc_private_key c ∧ serves_chain (en_runtime e') policy chain c'.
Proof.
  cbn [linux_handle]. intros H. apply bind_inv in H as (loaded & e1 & Hl & H).
  unfold try_match, on_managers, zoom in Hl.
  destruct (load_policy json (en_runtime e)) as [[[]|x|p] r1] eqn:Hp; cbn in Hl;
    [injection Hl as <- <-|injection Hl as <- <-; discriminate H|discriminate Hl].
  apply load_policy_inv in Hp as (policy & c & c1 & Hj & Hc & Hc1 & Hk1 & Hp1).
  inv_run. apply zoom_ok in Hx as (r2 & Hch & ->).
  apply on_session_manager_inv in Hch as (c1' & c2 & Hc1' & Hset & ->). simpl in Hc1'. simplify_eq.
  destruct x. apply set_cert_chain_inv in Hset as (Hk & Hpol & Hcfg).
  exists policy, c, c2. split_and!; [done|done|congruence|]. split_and!; [done|congruence|done].
Qed.

(** C1: a server that has started its enclave on Linux has had it attested: the
    enclave serves its sessions with the chain of a certificate that the proxy
    has signed for the key the enclave holds, after the proxy verified a token
    of the attestation service over the challenge it had drawn, the digest of
    the request for that key, and a measurement, which the certificate
    carries; the service made the token for the measurement of the enclave. *)
Theorem linux_new_attested fuel json (s : Sv) s' :
  clean (st_net s) →
  (∀ policy, Policy_from_json json = Ok policy → proxy_attestation_server_url policy = base) →
  linux_new (E:=IoError) (LK:=direct_link key measurement) fuel json s = (Ok tt, s') →
  ∃ policy c csr token id cert der root px a,
    serves_chain (en_runtime (st_socket s')) policy [der; root] c ∧ Policy_from_json json = Ok policy ∧
    csr_generate_csr (sc_private_key c) = Ok csr ∧
    challenge <$> PSA_CONTEXT px !! id = Some (rng_fill 32 (px_rng (net (st_net s)))).1 ∧
    (psa_initial_attest_get_token measurement (sha256 csr) (rng_fill 32 (px_rng (net (st_net s)))).1 a).1 =
      (0, token) ∧
    attested px token csr id cert ∧ X509_to_der cert = Some der ∧
    CA_CERT_DER px = CA_CERT_DER (net (st_net s)) ∧ CA_KEY_PKEY px = CA_KEY_PKEY (net (st_net s)) ∧
    CA_CERT_DER px = Some root.
Proof.
  intros Hclean Hurl H. unfold linux_new in H.
  apply bind_inv in H as (policy & s1 & Hpol & H).
  apply map_err_inv, lift_inv in Hpol as [Hpol <-]. pose proof (Hurl _ Hpol) as Hu. rewrite Hu in H.
  apply bind_inv in H as (received & sr & H & Hfin). apply lift_inv in Hfin as [Hfin ->].
  unfold linux_start, on_net, on_socket in H.
  apply bind_inv in H as ([id ch] & s2 & Hstart & H).
  apply map_err_inv, zoom_ok in Hstart as (n2 & Hstart & ->).
  apply send_start_inv in Hstart as (rng & Hrng & Hid & Hf & ->); [|done].
  apply bind_inv in H as (resp & s3 & Hatt & H). apply zoom_ok in Hatt as (e3 & Hatt & ->).
  apply direct_call_ok in Hatt.
  apply bind_inv in H as ([token csr] & s4 & Hr & H). destruct resp; inv_run. simplify_eq.
  apply attestation_inv in Hatt as [(c & Hc & Hcsr) (a & Htok)].
  match goal with Hp : linux_post_token _ _ _ _ _ = (Ok ?x, _) |- _ => destruct x as [root der]; rename Hp into Hpost end.
  apply post_token_inv in Hpost as (Hsock & cert & Hcert & Hder & Hroot); [|exact Hclean].
  match goal with Hi : zoom _ _ (call_enclave _ (Message.Initialize _ _)) _ = _ |- _ =>
    apply zoom_ok in Hi as (e5 & Hinit & ->) end.
  apply direct_call_ok in Hinit. rewrite Hsock in Hinit.
  match goal with Hinit : linux_handle _ _ _ _ = (Ok ?r, _) |- _ => destruct r as [| |[]| | |]; inv_run; try done end.
  apply initialize_inv in Hinit as (policy' & c1 & c' & Hj & Hc1 & Hk & Hserve).
  simpl in *. simplify_eq.
  eexists policy', c', csr, token, _, cert, der, root, _, a.
  split_and!; [exact Hserve|done|congruence| |by rewrite Hrng|exact Hcert|done..].
  simpl. rewrite lookup_insert_eq, Hrng. done.
Qed.
End attest.
