(* ===== verification/ClientProps.v ===== *)
(** * Properties of the client

    Nothing of what a client has to send leaves it before the policy and the
    measurement of the enclave have been checked; and what it writes to its
    connection reaches the enclave's session, whose records it reads back.

    Sources: [veracruz-client/src/veracruz_client.rs],
    [veracruz-server/src/server.rs]. *)

From S2P Require Import Prelude RustFmt RustPath WasiTypes Policy Transport TransportProps Framing.
From S2P Require Import Enclave Server Proxy Client.
Import ClientError.
Local Open Scope Z_scope.

(** ** The checks *)

Section client.
Context {PL : PolicyLibs} {MT : MbedtlsTypes} {MB : Mbedtls} {WP : Webpki} {N : Type} {RQ : Reqwest N}
  {B64 : Base64} {P1 : ProtobufMessage Transport.RuntimeManagerRequest}
  {P2 : ProtobufMessage Transport.RuntimeManagerResponse}.
Abbreviation Cl := (VeracruzClient (N:=N)).
Abbreviation CL A := (ST Cl VeracruzClientError A).

(** A measurement that the policy lists for one of its platforms. *)
Definition measurement_listed (policy : Policy) (hash : bytes) : Prop :=
  ∃ platform text, platform ∈ [Linux; Nitro; IceCap] ∧
    runtime_manager_hash policy platform = Ok text ∧ hex_decode text = Some hash.

Lemma compare_platforms_ok policy received platforms :
  compare_platforms policy received platforms = Ok tt →
  ∃ platform text, platform ∈ platforms ∧
    runtime_manager_hash policy platform = Ok text ∧ hex_decode text = Some received.
Proof.
  induction platforms as [|p ps IH]; cbn [compare_platforms]; [done|].
  assert (compare_platforms policy received ps = Ok tt → ∃ platform text, platform ∈ p :: ps ∧
    runtime_manager_hash policy platform = Ok text ∧ hex_decode text = Some received) as Hlater.
  { intros (q & t & Hq & H)%IH. exists q, t. split; [by right|done]. }
  destruct (runtime_manager_hash policy p) as [text|e|a] eqn:Hp; [|done..].
  destruct (hex_decode text) as [h|] eqn:Hh; [|done]. case_bool_decide as Heq; [|done].
  intros _. subst h. exists p, text. split_and!; [left|done..].
Qed.

(** The measurement is accepted exactly when the policy lists it, if every
    measurement of the policy is a hexadecimal text. *)
Lemma compare_runtime_hash_listed policy received :
  (∀ platform text, runtime_manager_hash policy platform = Ok text → is_Some (hex_decode text)) →
  measurement_listed policy received → compare_runtime_hash policy received = Ok tt.
Proof.
  intros Hall (p & t & Hp & Ht & Hh). unfold compare_runtime_hash.
  induction [Linux; Nitro; IceCap] as [|q ps IH]; [by apply not_elem_of_nil in Hp|].
  cbn [compare_platforms]. apply elem_of_cons in Hp as [<-|Hp].
  - rewrite Ht, Hh. by rewrite bool_decide_true.
  - destruct (runtime_manager_hash policy q) as [u|e|a] eqn:Hq; [|auto..].
    destruct (Hall _ _ Hq) as [h ->]. case_bool_decide; auto.
Qed.

(** What the two checks establish: the answer of the enclave has the digest of
    the policy the client was given, and the certificate of the enclave has a
    measurement that the policy lists. *)
Definition checked (c c1 : Cl) : Prop :=
  (∃ response c0, exchange serialize_request_policy_hash c = (Ok response, c0) ∧
    rs_status response = SUCCESS ∧
    String.string_of_list_byte (get_policy_hash response) = cl_policy_hash c0 ∧ c1 = c0) ∧
  ∃ cert certs ee hash, peer_cert (tls_context c1) = Some (Some (cert :: certs)) ∧
    ee_try_from cert = Some ee ∧ unrecognized_extension ee encoded_extension_id = Some hash ∧
    measurement_listed (cl_policy c1) hash.

Lemma check_policy_hash_inv (c c1 : Cl) :
  check_policy_hash c = (Ok tt, c1) →
  ∃ response, exchange serialize_request_policy_hash c = (Ok response, c1) ∧
    rs_status response = SUCCESS ∧
    String.string_of_list_byte (get_policy_hash response) = cl_policy_hash c1.
Proof.
  intros H. apply bind_inv in H as (response & c0 & Hx & H). destruct (rs_status response) eqn:Hs; try done.
  cbv zeta in H. inv_run. exists response. split_and!; try done.
  match goal with H : negb (bool_decide _) = false |- _ =>
    apply negb_false_iff, bool_decide_eq_true in H; by rewrite H end.
Qed.

Lemma check_runtime_hash_inv (c c1 : Cl) :
  check_runtime_hash c = (Ok tt, c1) →
  c1 = c ∧ ∃ cert certs ee hash, peer_cert (tls_context c) = Some (Some (cert :: certs)) ∧
    ee_try_from cert = Some ee ∧ unrecognized_extension ee encoded_extension_id = Some hash ∧
    measurement_listed (cl_policy c) hash.
Proof.
  intros H. unfold check_runtime_hash in H. inv_run.
  destruct (peer_cert _) as [[[|cert certs]|]|] eqn:Hp; try done. inv_run.
  destruct (unrecognized_extension _ _) as [hash|] eqn:Hu; [|done]. inv_run.
  split; [done|]. eexists _, _, _, hash. split_and!; try done. by apply compare_platforms_ok.
Qed.

(** The checks one after the other, as every operation begins. *)
Definition checks : CL unit := do! check_policy_hash in check_runtime_hash.

Lemma checks_inv (c c1 : Cl) : checks c = (Ok tt, c1) → checked c c1.
Proof.
  intros H. apply bind_inv in H as ([] & c0 & Hp & H).
  apply check_policy_hash_inv in Hp as (r & Hx & Hs & Hh). apply check_runtime_hash_inv in H as [-> Hr].
  split; [by exists r, c0|exact Hr].
Qed.

Lemma checks_then {X} (k : CL X) c :
  (do! check_policy_hash in do! check_runtime_hash in k) c = (do! checks in k) c.
Proof.
  unfold checks, bind. destruct (check_policy_hash c) as [[[]|e|p] c0]; [|done..].
  by destruct (check_runtime_hash c0) as [[[]|e|p] c1].
Qed.

Lemma checks_failed {X} (k k' : CL X) c :
  is_ok (checks c).1 = false →
  (do! check_policy_hash in do! check_runtime_hash in k) c =
  (do! check_policy_hash in do! check_runtime_hash in k') c ∧
  ((do! check_policy_hash in do! check_runtime_hash in k) c).2 = (checks c).2.
Proof.
  intros Hf. rewrite !checks_then. unfold bind. by destruct (checks c) as [[[]|e|p] c1].
Qed.

(** C2: nothing of a program, of data, or of a path leaves the client before both
    checks have passed: when one of them fails, the outcome and the state of
    the client, its connection and the network included, do not depend on
    them, and nothing is done but the checks. *)
Theorem secrets_kept (c : Cl) path path' data data' :
  is_ok (checks c).1 = false →
  (send_data path data c = send_data path' data' c ∧ (send_data path data c).2 = (checks c).2) ∧
  (send_program path data c = send_program path' data' c ∧ (send_program path data c).2 = (checks c).2) ∧
  (request_compute path c = request_compute path' c ∧ (request_compute path c).2 = (checks c).2) ∧
  (get_results path c = get_results path' c ∧ (get_results path c).2 = (checks c).2).
Proof.
  intros Hf. exact (conj (checks_failed _ _ c Hf) (conj (checks_failed _ _ c Hf)
    (conj (checks_failed _ _ c Hf) (checks_failed _ _ c Hf)))).
Qed.

Lemma after_checks {X} (k : CL X) c x c' :
  (do! check_policy_hash in do! check_runtime_hash in k) c = (Ok x, c') → ∃ c1, checked c c1 ∧ k c1 = (Ok x, c').
Proof.
  rewrite checks_then. intros H. apply bind_inv in H as ([] & c1 & Hc & H). exists c1.
  split; [by apply checks_inv|done].
Qed.

(** The enclave passed the checks and then answered the request for a path
    with success. *)
Definition answered (c : Cl) (path : option string)
    (request : string → outcome Transport.TransportProtocolError bytes) response (c' : Cl) : Prop :=
  ∃ c1 p, checked c c1 ∧ path = Some p ∧
    exchange (request (enforce_leading_backslash p)) c1 = (Ok response, c') ∧ rs_status response = SUCCESS.

Lemma expect_success_inv name response (c : Cl) u c' :
  expect_success name response c = (Ok u, c') → rs_status response = SUCCESS ∧ c = c'.
Proof. unfold expect_success. destruct (rs_status response); try done. by intros [= _ <-]. Qed.
Lemma expect_result_inv response (c : Cl) x c' :
  expect_result response c = (Ok x, c') → rs_message_oneof response = Some (Rs_result x) ∧ c = c'.
Proof. unfold expect_result. destruct (rs_message_oneof response) as [[]|]; try done. by intros [= <- <-]. Qed.

Lemma operation_answered {X} path request name (k : Transport.RuntimeManagerResponse → CL X) c x c' :
  (∀ response c2, k response c2 = (Ok x, c') → ∃ c3, expect_success name response c2 = (Ok tt, c3)) →
  (do! check_policy_hash in do! check_runtime_hash in let! path := path_of path in
   let! response := exchange (request path) in k response) c = (Ok x, c') →
  ∃ response c2, answered c path request response c2 ∧ k response c2 = (Ok x, c').
Proof.
  intros Hk (c1 & Hc & H)%after_checks. apply bind_inv in H as (p & c2 & Hp & H). unfold path_of in Hp. inv_run.
  destruct (Hk _ _ H) as (c3 & He). apply expect_success_inv in He as [? _].
  eexists _, _. split; [|exact H]. by eexists _, _.
Qed.

Lemma operation_result path request name (c : Cl) x c' :
  (do! check_policy_hash in do! check_runtime_hash in let! path := path_of path in
   let! response := exchange (request path) in
   do! expect_success name response in expect_result response) c = (Ok x, c') →
  ∃ response, answered c path request response c' ∧ rs_message_oneof response = Some (Rs_result x).
Proof.
  intros H. apply (operation_answered _ _ name) in H as (r & c2 & Ha & Hr).
  - apply bind_inv in Hr as ([] & c3 & He & Hr). apply expect_success_inv in He as [_ <-].
    apply expect_result_inv in Hr as [Hr <-]. eauto.
  - intros r c2 Hr. apply bind_inv in Hr as ([] & c3 & He & _). eauto.
Qed.

Lemma operation_success path request name (c c' : Cl) :
  (do! check_policy_hash in do! check_runtime_hash in let! path := path_of path in
   let! response := exchange (request path) in expect_success name response) c = (Ok tt, c') →
  ∃ response, answered c path request response c'.
Proof.
  intros H. apply (operation_answered _ _ name) in H as (r & c2 & Ha & Hr); [|by eauto].
  apply expect_success_inv in Hr as [_ <-]. eauto.
Qed.

(** C4: an operation of the client that succeeds was answered with success by an
    enclave that runs under the policy of the client and whose certificate
    carries a measurement listed in that policy; a result is what it answered. *)
Theorem enclave_checked (c : Cl) path data x c' :
  (send_data path data c = (Ok tt, c') →
    ∃ response, answered c path (serialize_program_data data) response c') ∧
  (send_program path data c = (Ok tt, c') →
    ∃ response, answered c path (serialize_program data) response c') ∧
  (request_compute path c = (Ok x, c') →
    ∃ response, answered c path serialize_request_result response c' ∧
      rs_message_oneof response = Some (Rs_result x)) ∧
  (get_results path c = (Ok x, c') →
    ∃ response, answered c path serialize_read_file response c' ∧
      rs_message_oneof response = Some (Rs_result x)).
Proof.
  split_and!; [apply operation_success|apply operation_success|apply operation_result|apply operation_result].
Qed.
End client.

(** ** The client's connection and the server *)

Section relay.
Context {N : Type} {CU : Curl N} {P4 : ProtobufMessage ProxyAttestationServerResponse} {E : Type}
  {B64 : Base64} {L64 : Base64Laws B64} {V : Type} {VI : VeracruzServer (N:=N) (E:=E) V}
  (base : string) (fuel : nat).

(** The route of the server that the client uses; every error of a handler is
    an internal server error, and a handler that panics does not answer. *)
#[local] Instance server_reqwest : Reqwest (Handlers V) := {|
  reqwest_post url body h :=
    if (url =? "http://" ++ base ++ "/runtime_manager")%string then
      match runtime_manager_request fuel body h with
      | (Ok answer, h') => (inl (200, Some answer), h')
      | (Err _, h') => (inl (500, Some EmptyString), h')
      | (Abort _, h') => (inr "reqwest send", h')
      end
    else (inl (404, Some EmptyString), h);
|}.

(** The session of a request: a new one when the client has none yet. *)
Definition session_for (id : Z) : ST V (VeracruzServerError (N:=N) (E:=E)) Z :=
  if id =? 0 then new_tls_session fuel else ret id.

Definition after_data (h : Handlers V) (v : V) (active : bool) : Handlers V :=
  if active then mkHandlers (Some v) (stops h) else mkHandlers None (S (stops h)).

(** The answer of the server to the data of a session *)
Definition answer_of (sid : Z) (outs : option (list bytes)) : string :=
  match outs with
  | None => EmptyString
  | Some l => fmt_dec sid ++ " " ++ String.concat " " (b64_encode <$> l)
  end%string.

Lemma request_fields id data :
  0 ≤ id → data ≠ [] →
  split_whitespace (fmt_dec id ++ " " ++ b64_encode data)%string = [fmt_dec id; b64_encode data].
Proof.
  intros Hid Hd. rewrite split_whitespace_cons.
  - rewrite decide_False by (by apply fmt_dec_nonempty). rewrite split_whitespace_word by apply b64_graphic.
    by rewrite decide_False by (by apply b64_nonempty).
  - eapply Forall_impl; [by apply fmt_dec_digits|]. apply is_digit_graphic.
Qed.

Lemma runtime_manager_request_run id data h v sid v1 active outs v2 :
  enclave_handler h = Some v → 0 ≤ id < u32_bound → data ≠ [] →
  session_for id v = (Ok sid, v1) → tls_data fuel sid data v1 = (Ok (active, outs), v2) →
  runtime_manager_request fuel (fmt_dec id ++ " " ++ b64_encode data) h =
    (Ok (answer_of sid outs), after_data h v2 active).
Proof.
  intros Hv Hid Hd Hs Ht. unfold runtime_manager_request. rewrite request_fields by (done || lia).
  unfold bind at 1, ok_or. rewrite parse_u32_fmt_dec by done. unfold session_for in Hs.
  assert ((if id =? 0 then with_enclave (new_tls_session fuel) else ret id) h =
    (Ok sid, mkHandlers (Some v1) (stops h))) as Hsess.
  { destruct (id =? 0); [unfold with_enclave; rewrite Hv; by rewrite Hs|].
    injection Hs as -> ->. unfold ret. destruct h. simpl in *. by subst. }
  unfold bind at 1. rewrite Hsess. unfold bind at 1. rewrite b64_decode_encode.
  unfold bind at 1, with_enclave. cbn [enclave_handler stops]. rewrite Ht.
  unfold after_data, send_stop, modify, bind. by destruct active.
Qed.

Lemma append_items_run (l : list bytes) (c : InsecureConnection (N:=Handlers V)) :
  append_items (filter (λ w, w ≠ EmptyString) (b64_encode <$> l)) c =
    (Ok tt, set_read_buffer (read_buffer c ++ concat l) c).
Proof.
  revert c. induction l as [|b l IH]; intros c; [cbn; rewrite app_nil_r; by destruct c|].
  rewrite fmap_cons, filter_cons. case_decide as Hne.
  - cbn [append_items]. unfold bind at 1, ok_or. rewrite b64_decode_encode. unfold bind, modify.
    rewrite IH. cbn. by rewrite <- app_assoc.
  - destruct (decide (b = [])) as [->|Hb]; [by rewrite IH|]. by apply b64_nonempty in Hb.
Qed.

(** What the client writes is what the session of the enclave receives, and
    the records of the session are what the client reads next, in order; the
    client keeps the number of the session once the session has answered.  The
    server drops the enclave and stops once the enclave is no longer active. *)
Lemma write_relayed_run (c : InsecureConnection (N:=Handlers V)) v data sid v1 active outs v2 :
  cn_server_url c = base → enclave_handler (cn_net c) = Some v → data ≠ [] →
  0 ≤ default 0 (remote_session_id c) < u32_bound → 0 ≤ sid < u32_bound →
  session_for (default 0 (remote_session_id c)) v = (Ok sid, v1) →
  tls_data fuel sid data v1 = (Ok (active, outs), v2) →
  insecure_write data c =
    (Ok (len data), mkConnection (read_buffer c ++ concat (default [] outs)) base
       (match outs with Some _ => Some sid | None => remote_session_id c end)
       (after_data (cn_net c) v2 active)).
Proof.
  intros Hu Hv Hd Hid Hsid Hs Ht. unfold insecure_write. cbv zeta. unfold bind at 1, get at 1.
  unfold bind at 1, post. cbn [reqwest_post server_reqwest]. rewrite Hu, String.eqb_refl.
  rewrite (runtime_manager_request_run _ _ _ v sid v1 active outs v2) by done.
  change (negb (200 =? 200)) with false. cbv beta iota.
  unfold answer_of. destruct outs as [l|].
  2: { cbn. rewrite app_nil_r. unfold set_cn_net. by rewrite Hu. }
  rewrite split_whitespace_cons.
  2: { eapply Forall_impl; [by apply fmt_dec_digits; lia|]. apply is_digit_graphic. }
  rewrite decide_False by (apply fmt_dec_nonempty; lia).
  rewrite split_whitespace_words by (apply Forall_fmap, Forall_true; intros; apply b64_graphic).
  unfold bind, ok_or. rewrite parse_u32_fmt_dec by done. unfold modify. rewrite append_items_run.
  unfold ret, set_read_buffer, set_remote_session_id, set_cn_net. cbn. by rewrite Hu.
Qed.
End relay.
