(* ===== verification/EndToEnd.v ===== *)
(** * From the client to the enclave

    The client's connection, the HTTP interface of the server, the TCP
    connection and the enclave together.

    Sources: [veracruz-client/src/veracruz_client.rs],
    [veracruz-server/src/], [io-utils/src/],
    [runtime-manager/src/runtime_manager_linux.rs]. *)

From S2P Require Import Prelude RustFmt RustPath WasiTypes Policy InodeTable FileSystem FsOps Services.
From S2P Require Import FsSystem Transport TransportProps Framing FramingProps Session Csr Runtime.
From S2P Require Import Enclave Server Proxy Client SessionProps RuntimeProps EnclaveProps Network.
From S2P Require Import ProxyProps Attest ClientProps.
Local Open Scope Z_scope.

Section relay.
Context {BP : BuildProfile} {WR : WasiRights} {HO : HashOrder} {NL : NativeLibs}
  {PL : PolicyLibs} {WE : WasmEngines} {TL : TlsLibs} {MC : MbedtlsCsr}
  {P1 : ProtobufMessage Transport.RuntimeManagerRequest}
  {P2 : ProtobufMessage Transport.RuntimeManagerResponse}
  {P4 : ProtobufMessage ProxyAttestationServerResponse} {N : Type} {CU : Curl N}
  {A : Type} {PA : PsaAttestation A}
  {B1 : Bincode Message.RuntimeManagerRequest} {B2 : Bincode Message.RuntimeManagerResponse}
  {L1 : BincodeLaws Message.RuntimeManagerRequest} {L2 : BincodeLaws Message.RuntimeManagerResponse}
  {B64 : Base64} {L64 : Base64Laws B64}
  (base : string) (fuel : nat) (key measurement : bytes).

(** The Linux server, over the connection and over the enclave itself. *)
Definition over_network : VeracruzServer (N:=N) (E:=IoError) (Network (A:=A)) :=
  VeracruzServerLinux (LK:=network_link key measurement).
Definition over_enclave : VeracruzServer (N:=N) (E:=IoError) (Enclave (A:=A)) :=
  VeracruzServerLinux (LK:=direct_link key measurement).

Lemma session_transfers id :
  transfers (session_for (VI:=over_enclave) fuel id) (session_for (VI:=over_network) fuel id).
Proof.
  unfold session_for. destruct (id =? 0); [exact (transfers_new_tls_session (N:=N) key measurement fuel)|].
  intros w Hw. by exists w.
Qed.

(** C3: what a client writes travels as text over HTTP and in pieces over TCP to
    its session in the enclave, which takes exactly those bytes; the records
    the session then has ready travel back, and the client will read exactly
    those, in order, after what it had not read yet. *)
Theorem client_reaches_enclave (c : InsecureConnection (N:=Handlers (Network (A:=A)))) w data sid e1 active outs e2 :
  cn_server_url c = base → enclave_handler (cn_net c) = Some w → quiet w → data ≠ [] →
  0 ≤ default 0 (remote_session_id c) < u32_bound → 0 ≤ sid < u32_bound →
  session_for (VI:=over_enclave) fuel (default 0 (remote_session_id c)) (ep_enclave (nw_enclave w)) = (Ok sid, e1) →
  linux_tls_data (N:=N) (LK:=direct_link key measurement) fuel sid data e1 = (Ok (active, outs), e2) →
  ∃ w' r records,
    insecure_write (RQ:=server_reqwest (VI:=over_network) base fuel) data c =
      (Ok (len data), mkConnection (read_buffer c ++ concat records) base
         (match records with [] => remote_session_id c | _ => Some sid end) (after_data (cn_net c) w' active)) ∧
    quiet w' ∧ ep_enclave (nw_enclave w') = e2 ∧
    Runtime.send_data sid data (en_runtime e1) = (Ok tt, r) ∧ drained sid r true records (en_runtime e2) active.
Proof.
  intros Hu Hw Hq Hd Hid Hsid Hs Ht.
  pose proof (session_transfers (default 0 (remote_session_id c)) w Hq) as H1. rewrite Hs in H1.
  destruct H1 as (w1 & Hs' & Hq1 & He1).
  pose proof (transfers_tls_data (N:=N) key measurement fuel sid data w1 Hq1) as H2. rewrite He1, Ht in H2.
  destruct H2 as (w2 & Ht' & Hq2 & He2).
  destruct (tls_data_drains (N:=N) key measurement fuel sid data e1 active outs e2 Ht) as (r & records & Hsend & Hdr & ->).
  exists w2, r, records. split_and!; [|done..].
  rewrite (write_relayed_run (VI:=over_network) base fuel c w data sid w1 active (if_empty records) w2) by done.
  by destruct records.
Qed.
End relay.
