(* ===== verification/EnclaveDemo.v ===== *)
(** * A small enclave behind a small server

    Codecs, an attestation service and a network small enough to run, with
    the enclave of [RuntimeProps.SmallRuntime] behind them: the properties of
    the connection, the enclave and the server hold of it. *)

From S2P Require Import Prelude RustFmt RustPath WasiTypes Policy InodeTable FileSystem FsOps.
From S2P Require Import Services FsSystem Demo Transport TransportProps Framing FramingProps Session.
From S2P Require Import Csr Runtime Enclave Server SessionProps RuntimeProps EnclaveProps Network.
Local Open Scope Z_scope.

Module SmallEnclave.
Import Demo SmallCodec SmallTls SmallRuntime.

(** ** Codecs *)

Definition small (n : Z) (rest : bytes) : option bytes :=
  if (0 <=? n) && (n <? 256) then Some (byte_of_Z n :: rest) else None.

Lemma small_inv n rest b : small n rest = Some b → b = byte_of_Z n :: rest ∧ Z_of_byte (byte_of_Z n) = n.
Proof.
  unfold small. destruct (Z.leb_spec 0 n), (Z.ltb_spec n 256); simpl; [|done..].
  intros [= <-]. split; [done|]. by rewrite Z_of_byte_of_Z, Z.mod_small by lia.
Qed.

Lemma small_nat (a : bytes) :
  Z_of_byte (byte_of_Z (len a)) = len a → Byte.to_nat (byte_of_Z (len a)) = length a.
Proof.
  assert (∀ x, Byte.to_nat x = N.to_nat (Byte.to_N x)) as Hx by by intros [].
  rewrite Hx. unfold Z_of_byte, len. lia.
Qed.

Definition tagged (t : Byte.byte) (b : option bytes) : option bytes := cons t <$> b.

#[export] Instance request_bincode : Bincode Message.RuntimeManagerRequest := {|
  bincode_serialize m :=
    match m with
    | Message.Attestation c i => tagged Byte.x00 (small i c)
    | Message.CloseTlsSession i => tagged Byte.x01 (small i [])
    | Message.GetTlsData i => tagged Byte.x02 (small i [])
    | Message.GetTlsDataNeeded i => tagged Byte.x03 (small i [])
    | Message.NewTlsSession => Some [Byte.x05; Byte.x00]
    | Message.ResetEnclave => Some [Byte.x06; Byte.x00]
    | Message.SendTlsData i d => tagged Byte.x07 (small i d)
    | Message.Initialize json [a; b] =>
        if decide (json = "{policy}") then tagged Byte.x04 (small (len a) (a ++ b)) else None
    | Message.Initialize _ _ => None
    end;
  bincode_deserialize b :=
    match b with
    | Byte.x00 :: i :: c => Some (Message.Attestation c (Z_of_byte i))
    | Byte.x01 :: i :: _ => Some (Message.CloseTlsSession (Z_of_byte i))
    | Byte.x02 :: i :: _ => Some (Message.GetTlsData (Z_of_byte i))
    | Byte.x03 :: i :: _ => Some (Message.GetTlsDataNeeded (Z_of_byte i))
    | Byte.x04 :: i :: c => Some (Message.Initialize "{policy}" [take (Byte.to_nat i) c; drop (Byte.to_nat i) c])
    | Byte.x05 :: _ => Some Message.NewTlsSession
    | Byte.x06 :: _ => Some Message.ResetEnclave
    | Byte.x07 :: i :: d => Some (Message.SendTlsData (Z_of_byte i) d)
    | _ => None
    end;
|}.
#[export] Instance request_bincode_laws : BincodeLaws Message.RuntimeManagerRequest.
Proof.
  split. intros m b. destruct m as [| | | |json [|a [|b0 []]]| | |]; simpl; unfold tagged;
    try (by intros [= <-]); try done.
  all: try (case_decide as Hj; [subst json|done]).
  all: intros (b' & (-> & Hz)%small_inv & ->)%fmap_Some; cbn [fmap]; rewrite ?Hz; try done.
  by rewrite small_nat, take_app_length, drop_app_length.
Qed.

#[export] Instance response_bincode : Bincode Message.RuntimeManagerResponse := {|
  bincode_serialize m :=
    match m with
    | Message.StatusMsg Message.Success => Some [Byte.x00]
    | Message.StatusMsg Message.Fail => Some [Byte.x01]
    | Message.StatusMsg Message.Unimplemented => Some [Byte.x02]
    | Message.TlsData d true => Some (Byte.x03 :: d)
    | Message.TlsData d false => Some (Byte.x04 :: d)
    | Message.TlsDataNeeded true => Some [Byte.x05]
    | Message.TlsDataNeeded false => Some [Byte.x06]
    | Message.TlsSession i => tagged Byte.x07 (small i [])
    | Message.AttestationData t c => tagged Byte.x08 (small (len t) (t ++ c))
    | Message.NitroAttestationData _ => None
    end;
  bincode_deserialize b :=
    match b with
    | Byte.x00 :: _ => Some (Message.StatusMsg Message.Success)
    | Byte.x01 :: _ => Some (Message.StatusMsg Message.Fail)
    | Byte.x02 :: _ => Some (Message.StatusMsg Message.Unimplemented)
    | Byte.x03 :: d => Some (Message.TlsData d true)
    | Byte.x04 :: d => Some (Message.TlsData d false)
    | Byte.x05 :: _ => Some (Message.TlsDataNeeded true)
    | Byte.x06 :: _ => Some (Message.TlsDataNeeded false)
    | Byte.x07 :: i :: _ => Some (Message.TlsSession (Z_of_byte i))
    | Byte.x08 :: i :: d => Some (Message.AttestationData (take (Byte.to_nat i) d) (drop (Byte.to_nat i) d))
    | _ => None
    end;
|}.
#[export] Instance response_bincode_laws : BincodeLaws Message.RuntimeManagerResponse.
Proof.
  split. intros m b. destruct m as [| |[]|? []|[]|]; simpl; unfold tagged; try (by intros [= <-]); try done;
    intros (b' & (-> & Hz)%small_inv & ->)%fmap_Some; cbn [fmap]; rewrite ?Hz; try done.
  by rewrite small_nat, take_app_length, drop_app_length.
Qed.

(** ** An attestation service, and no network but the channel *)

#[export] Instance psa : PsaAttestation unit := {|
  psa_initial_attest_load_key _ a := ((0, 1), a);
  psa_initial_attest_get_token m h c a :=
    ((0, replicate 8 Byte.x00 ++ c ++ replicate 7 Byte.x00 ++ m ++ replicate 7 Byte.x00 ++ h), a);
  psa_initial_attest_remove_key _ a := (0, a);
|}.
#[export] Instance no_curl : Curl unit := {|
  CurlError := unit; curl_post _ _ n := (inr tt, n);
|}.
Definition outbox_records (c : ServerConnection (TlsLibs:=tls)) : nat := match outbox c with [] => 0 | _ => 1 end.
#[export] Instance tls_backlog : TlsBacklog outbox_records.
Proof.
  split. intros c. unfold outbox_records. simpl. rewrite bool_decide_eq_true. destruct (outbox c); simpl; [done|lia].
Qed.

Definition enclave : Enclave (A:=unit) := mkEnclave booted tt.
Definition request_hash : bytes := wire_of serialize_request_policy_hash.
Definition relayed := linux_tls_data (LK:=direct_link [] []) (N:=unit) 3 1 request_hash enclave.
(** In a comparison the run is unfolded, and not the code that runs. *)
Strategy expand [relayed enclave].
Definition records : list bytes :=
  match relayed.1 with Ok (_, Some l) => l | _ => [] end.

Lemma relayed_run : relayed = (Ok (true, Some records), relayed.2).
Proof.
  assert (match relayed.1 with Ok (true, Some _) => true | _ => false end = true) as H by by vm_compute.
  unfold records. destruct relayed as [[[[] [l|]]|e|a] e']; done.
Qed.

Definition quiet_network : Network :=
  mkNetwork (mkChannel [] [] [2; 0; 7]%nat) (mkEndpoint enclave (mkChannel [] [] [1; 30]%nat)).

Lemma network_transparent_witness :
  ∃ w', linux_tls_data (LK:=network_link [] []) (N:=unit) 3 1 request_hash quiet_network =
    (Ok (true, Some records), w') ∧ quiet w' ∧ ep_enclave (nw_enclave w') = relayed.2.
Proof.
  pose proof (proj2 (proj2 (network_transparent (N:=unit) [] [] 3 1 request_hash)) quiet_network) as H.
  change (linux_tls_data _ _ _ (ep_enclave _)) with relayed in H. rewrite relayed_run in H.
  apply H. by split_and!.
Defined.

Lemma if_empty_Some {X} (l l' : list X) : if_empty l = Some l' → l = l'.
Proof. destruct l; [done|]. by intros [= <-]. Qed.

Lemma relayed_drained :
  ∃ r, send_data 1 request_hash booted = (Ok tt, r) ∧ drained 1 r true records (en_runtime relayed.2) true.
Proof.
  destruct (tls_data_drains (N:=unit) [] [] 3 1 request_hash enclave true (Some records) relayed.2
    relayed_run) as (r & l & Hs & Hd & Hl).
  exists r. symmetry in Hl. apply if_empty_Some in Hl. rewrite Hl in Hd. exact (conj Hs Hd).
Qed.

Lemma tls_data_ends_witness :
  (linux_tls_loop (LK:=direct_link [] []) (N:=unit) 1 0 1 true []
     (mkEnclave (send_data 1 request_hash booted).2 tt)).1 ≠ Abort OutOfFuel.
Proof.
  apply (tls_data_ends (N:=unit) [] [] outbox_records). vm_compute. lia.
Defined.

(** ** Messages over a channel *)

Lemma messages_delivered_witness :
  ∃ t' wire, send_all (E:=unit) 0 [Message.NewTlsSession; Message.GetTlsData 3] (mkChannel [] [] [4]%nat) =
      (Ok tt, t') ∧ ch_sent t' = wire ∧
    ∃ u', receive_n (E:=unit) 0 2 (mkChannel [] wire [0; 8]%nat) =
      (Ok [Message.NewTlsSession; Message.GetTlsData 3], u') ∧ ch_pending u' = [].
Proof.
  destruct (messages_delivered (E1:=unit) (E2:=unit) 0 [Message.NewTlsSession; Message.GetTlsData 3]
    (mkChannel [] [] [4]%nat)) as (t' & wire & H1 & H2 & H3).
  - repeat constructor; (eexists; split; [reflexivity|by vm_compute]).
  - exists t', wire. split_and!; [exact H1|exact H2|].
    apply (H3 (mkChannel [] wire [0; 8]%nat) []). by rewrite app_nil_r.
Defined.

Lemma receive_never_returns_witness :
  (receive_buffer (E:=unit) 100 (mkChannel [] [] [])).1 = Abort OutOfFuel.
Proof. apply receive_never_returns. intros k. simpl. by rewrite take_nil, drop_nil. Defined.

(** ** Attestation *)

Definition attested := linux_handle [] [Byte.x09] (Message.Attestation hello 4) (mkEnclave Runtime_initial tt).

Definition attested_token : bytes * bytes :=
  match attested.1 with Ok (Message.AttestationData token csr) => (token, csr) | _ => ([], []) end.

Lemma attested_run :
  attested = (Ok (Message.AttestationData attested_token.1 attested_token.2), attested.2).
Proof.
  assert (match attested.1 with Ok (Message.AttestationData _ _) => true | _ => false end = true) as H
    by by vm_compute.
  unfold attested_token. destruct attested as [[[]| |] e']; done.
Qed.

Lemma attested_key :
  ∃ c, MY_SESSION_MANAGER (en_runtime attested.2) = Some c ∧
       csr_generate_csr (sc_private_key c) = Ok attested_token.2.
Proof.
  exact (proj1 (attestation_inv [] [Byte.x09] hello 4 (mkEnclave Runtime_initial tt) _ _ attested.2
    attested_run)).
Qed.
End SmallEnclave.
