(* ===== verification/SystemDemo.v ===== *)
(** * A small system

    A proxy, a server, an enclave and clients small enough to run: the
    properties of attestation, of the client and of the whole hold of them. *)

From S2P Require Import Prelude RustFmt RustPath WasiTypes Policy InodeTable FileSystem FsOps Services.
From S2P Require Import FsSystem Demo Transport TransportProps Framing FramingProps Session Csr Runtime.
From S2P Require Import Enclave Server Proxy Client SessionProps RuntimeProps EnclaveProps Network.
From S2P Require Import ProxyProps Attest ClientProps EndToEnd EnclaveDemo.
Local Open Scope Z_scope.

Module SmallSystem.
Import Demo SmallCodec SmallTls SmallRuntime SmallEnclave.

(** ** Text and messages *)

#[export] Instance hex64 : Base64 := {| b64_encode := to_hex; b64_decode := of_hex |}.
#[export] Instance hex64_laws : Base64Laws hex64.
Proof.
  split; simpl; [exact of_to_hex| |by intros []].
  induction b as [|x b IH]; [constructor|]. cbn [to_hex list_ascii_of_string].
  assert (∀ n, (n < 16)%N → graphic (hex_digit n)) as Hg.
  { intros n Hn. unfold hex_digit, graphic, nat_of_ascii.
    destruct (N.ltb_spec n 10); rewrite N_ascii_embedding by lia; lia. }
  apply Forall_cons; split; [|apply Forall_cons; split; [apply Hg, N.mod_lt; lia|exact IH]].
  apply Hg, N.Div0.div_lt_upper_bound. by destruct x.
Qed.

(** A start over PSA or Nitro, and tokens of small devices *)
#[export] Instance proxy_request_codec : ProtobufMessage ProxyAttestationServerRequest := {|
  write_to_bytes m :=
    match m with
    | mkProxyRequest (Some (Pq_start_msg (mkStartMsg p f))) 0 =>
        if decide (p = "psa" ∧ f = "0.0") then Some [Byte.x01] else
        if decide (p = "nitro" ∧ f = "0.0") then Some [Byte.x02] else None
    | mkProxyRequest (Some (Pq_native_psa_attestation_token (mkNativeToken t d c))) 0 =>
        if len c <? 1000 then
          match small (len t) (t ++ c) with Some b => tagged Byte.x03 (small d b) | None => None end
        else None
    | mkProxyRequest (Some (Pq_nitro_attestation_doc (mkNitroDoc t d))) 0 =>
        if len t <? 1000 then tagged Byte.x04 (small d t) else None
    | _ => None
    end;
  parse_from_bytes b :=
    match b with
    | [Byte.x01] => Some (mkProxyRequest (Some (Pq_start_msg (mkStartMsg "psa" "0.0"))) 0)
    | [Byte.x02] => Some (mkProxyRequest (Some (Pq_start_msg (mkStartMsg "nitro" "0.0"))) 0)
    | Byte.x03 :: d :: n :: r =>
        Some (mkProxyRequest (Some (Pq_native_psa_attestation_token
          (mkNativeToken (take (Byte.to_nat n) r) (Z_of_byte d) (drop (Byte.to_nat n) r)))) 0)
    | Byte.x04 :: d :: r => Some (mkProxyRequest (Some (Pq_nitro_attestation_doc (mkNitroDoc r (Z_of_byte d)))) 0)
    | _ => None
    end;
|}.

Lemma tagged_small t n r b :
  tagged t (small n r) = Some b → b = t :: byte_of_Z n :: r ∧ Z_of_byte (byte_of_Z n) = n ∧ 0 ≤ n < 256.
Proof.
  unfold tagged, small. destruct (Z.leb_spec 0 n), (Z.ltb_spec n 256); simpl; [|done..]. intros [= <-].
  split_and!; [done| |lia..]. by rewrite Z_of_byte_of_Z, Z.mod_small by lia.
Qed.

#[export] Instance proxy_request_laws : ProtobufLaws ProxyAttestationServerRequest.
Proof.
  split; intros [[[[p f]|[t d c]|?|[t d]]|] []] b; simpl; try done.
  - case_decide as H1; [destruct H1 as [-> ->]; by intros [= <-]|].
    case_decide as H2; [destruct H2 as [-> ->]; by intros [= <-]|done].
  - destruct (len c <? 1000); [|done]. destruct (small (len t) (t ++ c)) as [b'|] eqn:Hs; [|done].
    apply small_inv in Hs as [-> Ht]. intros (-> & Hd & _)%tagged_small. rewrite Hd.
    by rewrite small_nat, take_app_length, drop_app_length.
  - destruct (len t <? 1000); [|done]. intros (-> & Hd & _)%tagged_small. by rewrite Hd.
  - do 2 (case_decide; [by intros [= <-]|]). done.
  - destruct (Z.ltb_spec (len c) 1000); [|done]. unfold small at 1.
    destruct (Z.leb_spec 0 (len t)), (Z.ltb_spec (len t) 256); simpl; try done.
    intros (-> & _ & _)%tagged_small. unfold len in *. simpl. rewrite length_app. lia.
  - destruct (Z.ltb_spec (len t) 1000); [|done]. intros (-> & _ & _)%tagged_small. unfold len in *. simpl. lia.
Qed.

#[export] Instance proxy_response_codec : ProtobufMessage ProxyAttestationServerResponse := {|
  write_to_bytes m :=
    match m with
    | mkProxyResponse (Some (Ps_psa_attestation_init (mkPsaInit c d))) 0 =>
        if len c <? 1000 then tagged Byte.x01 (small d c) else None
    | mkProxyResponse (Some (Ps_cert_chain (mkCertChain r e))) 0 =>
        if len e <? 1000 then tagged Byte.x02 (small (len r) (r ++ e)) else None
    | _ => None
    end;
  parse_from_bytes b :=
    match b with
    | Byte.x01 :: d :: c => Some (mkProxyResponse (Some (Ps_psa_attestation_init (mkPsaInit c (Z_of_byte d)))) 0)
    | Byte.x02 :: n :: r =>
        Some (mkProxyResponse (Some (Ps_cert_chain (mkCertChain (take (Byte.to_nat n) r) (drop (Byte.to_nat n) r)))) 0)
    | _ => None
    end;
|}.
#[export] Instance proxy_response_laws : ProtobufLaws ProxyAttestationServerResponse.
Proof.
  split; intros [[[[c d]|[r e]]|] []] b; simpl; try done.
  - destruct (len c <? 1000); [|done]. intros (-> & Hd & _)%tagged_small. by rewrite Hd.
  - destruct (len e <? 1000); [|done]. intros (-> & Hd & _)%tagged_small.
    by rewrite small_nat, take_app_length, drop_app_length.
  - destruct (Z.ltb_spec (len c) 1000); [|done]. intros (-> & _ & _)%tagged_small. unfold len in *. simpl. lia.
  - destruct (Z.ltb_spec (len e) 1000); [|done]. intros (-> & _ & ?)%tagged_small. unfold len in *. simpl.
    rewrite length_app. lia.
Qed.

(** The value of a run that returned one. *)
Definition value_of {E A} (d : A) (o : outcome E A) : A := match o with Ok a => a | _ => d end.
Lemma run_succeeds {S E A} (m : ST S E A) s d :
  is_ok (m s).1 = true → m s = (Ok (value_of d (m s).1), (m s).2).
Proof. by destruct (m s) as [[] ?]. Qed.

(** ** A proxy *)

#[export] Instance ssl_types : OpenSSLTypes :=
  {| PublicKey := bytes; PKey := bytes; X509 := bytes; X509Req := bytes; Asn1Time := Z |}.
#[export] Instance ssl : OpenSSL := {|
  X509Req_from_der b := Some (b : X509Req); req_public_key r := Some (r : PublicKey);
  req_verify _ _ := Some true; req_subject_name _ := [];
  X509_from_pem b := Some (b : X509); X509_from_der b := Some (b : X509); X509_to_der c := Some (c : bytes);
  X509_subject_entries _ := [(13, Some "ca")];
  private_key_from_pem b := Some (b : PKey);
  days_from_now d := Some (d : Asn1Time);
  builder_new := true; name_builder_new := true; integer_new _ := true; extension_new _ := true; name_takes _ _ := true;
  builder_takes _ _ := true;
  X509_sign fs k := Some (take 4 (k : bytes) ++ flat_map (λ f, match f with FPubkey p => p | _ => [] end) fs);
|}.
#[export] Instance cose : CoseVerify unit := {|
  cose_load_public_key _ c := ((0, 1), c);
  cose_sign1_verify _ token c := ((0, token), c);
  cose_delete_public_key _ c := (0, c);
|}.
#[export] Instance nitro_docs : NitroDocuments := {|
  authenticate data _ :=
    Some (mkDocument (Some (take 32 data)) [take 32 (drop 32 data)] (Some (drop 64 data)));
|}.
#[export] Instance counter_rng : Rng nat := {|
  rng_fill n r := (replicate n (byte_of_Z (Z.of_nat r)), S r);
|}.
#[export] Instance both_features : ProxyFeatures := {| with_psa := true; with_nitro := true |}.

Definition proxy0 : Proxy (R:=nat) (C:=unit) :=
  (server_setup (Some [Byte.x41]) (Some [Byte.x42]) (Proxy_initial 5%nat tt)).2.
Definition hash32 : bytes := replicate 32 Byte.x09.
Definition csr : bytes := hello.
Definition start_body (protocol : string) : string := b64_encode (wire_of (serialize_start_msg protocol "0.0")).
Definition starts : list proxy_request := [StartRequest (start_body "psa"); StartRequest (start_body "nitro")].
Definition proxy2 : Proxy := serve_all starts proxy0.

(** Device 1 attests over PSA, device 2 over Nitro. *)
Definition psa_token : bytes :=
  (psa_initial_attest_get_token hash32 (sha256 csr) (replicate 32 Byte.x05) tt).1.2.
Definition psa_body : string := b64_encode (wire_of (serialize_native_psa_attestation_token psa_token csr 1)).
Definition nitro_doc : bytes := replicate 32 Byte.x06 ++ hash32 ++ csr.
Definition nitro_body : string := b64_encode (wire_of (serialize_nitro_attestation_doc nitro_doc 2)).

Lemma psa_run :
  psa_attestation_token psa_body proxy2 =
    (Ok (value_of EmptyString (psa_attestation_token psa_body proxy2).1), (psa_attestation_token psa_body proxy2).2).
Proof. apply run_succeeds. by vm_compute. Qed.
Lemma nitro_run :
  nitro_attestation_token nitro_body proxy2 =
    (Ok (value_of EmptyString (nitro_attestation_token nitro_body proxy2).1), (nitro_attestation_token nitro_body proxy2).2).
Proof. apply run_succeeds. by vm_compute. Qed.

Lemma psa_certificate_attested_witness :
  ∃ token csr device ctx payload cert,
    PSA_CONTEXT proxy2 !! device = Some ctx ∧ take 32 (drop 8 payload) = challenge ctx ∧
    verified (px_cose proxy2) token payload ∧ certified proxy2 csr (take 32 (drop 47 payload)) cert.
Proof.
  destruct (psa_certificate_attested psa_body proxy2 _ _ psa_run)
    as (token & c & d & ctx & pl & cert & _ & H1 & H2 & H3 & _ & H4 & _).
  exists token, c, d, ctx, pl, cert. by split_and!.
Defined.

Lemma nitro_certificate_attested_witness :
  ∃ device ctx csr hash cert,
    NITRO_CONTEXT proxy2 !! device = Some ctx ∧ certified proxy2 csr hash cert.
Proof.
  destruct (nitro_certificate_attested nitro_body proxy2 _ _ nitro_run)
    as (data & d & ctx & doc & c & pcr0 & rest & cert & _ & H1 & _ & _ & _ & _ & H2 & _).
  eexists d, ctx, c, _, cert. by split.
Defined.

Lemma psa_body_holds (s : Proxy (R:=nat) (C:=unit)) :
  px_buffers s !! 0 = None →
  holds s psa_body (Pq_native_psa_attestation_token (mkNativeToken psa_token 1 csr)).
Proof.
  intros Hs. exists (wire_of (serialize_native_psa_attestation_token psa_token csr 1)), 0, (px_buffers s).
  split; [apply b64_decode_encode|].
  apply parse_written_message; [|done]. by vm_compute.
Qed.


(** Eight bytes, and a million bytes of requests go unanswered. *)
Lemma header_blocks_service_witness :
  is_ok (serve (StartRequest (start_body "psa"))
    (serve_all starts (serve (StartRequest (to_hex (to_be_bytes 8 1000000))) proxy0).2)).1 = false.
Proof.
  apply (header_blocks_service proxy0 _ (to_be_bytes 8 1000000)); by vm_compute.
Defined.

(** ** Attestation of the small enclave *)

Definition proxy_url : string := "127.0.0.1:3010".
Definition start0 : Start (N:=Proxy (R:=nat) (C:=unit)) (T:=Enclave (A:=unit)) :=
  mkStart (mkNet proxy0 ∅) (mkEnclave Runtime_initial tt).
Definition started := linux_new (CU:=proxy_curl proxy_url) (E:=IoError)
  (LK:=direct_link (CU:=proxy_curl proxy_url) [] hash32) 0 "{policy}" start0.

Lemma started_run : started = (Ok tt, started.2).
Proof.
  assert (is_ok started.1 = true) as H by by vm_compute.
  exact (run_unit _ start0 H).
Qed.

Lemma demo_url policy : Policy_from_json "{policy}" = Ok policy → proxy_attestation_server_url policy = proxy_url.
Proof.
  assert (match Policy_from_json "{policy}" with
    | Ok p => bool_decide (proxy_attestation_server_url p = proxy_url) | _ => true end = true) as H by by vm_compute.
  intros Hp. rewrite Hp in H. by apply bool_decide_eq_true in H.
Qed.

Lemma linux_new_attested_witness :
  ∃ policy c chain, serves_chain (en_runtime (st_socket started.2)) policy chain c.
Proof.
  destruct (linux_new_attested proxy_url [] hash32 0 "{policy}" start0 started.2)
    as (policy & c & cs & tk & id & cert & der & root & px & a & H & _);
    [split; reflexivity|exact demo_url|exact started_run|]. by exists policy, c, [der; root].
Defined.

(** ** A client whose session has its answers ready *)

#[export] Instance mbed_types : MbedtlsTypes :=
  {| MbedCert := bytes; MbedPk := bytes; MbedContext := list bytes; MbedError := unit |}.
#[export] Instance mbed : Mbedtls := {|
  from_pem_multiple b := Some [b]; mbed_private_key b := Some b; mbed_public_key b := inl b;
  write_public_der k := inl k; mbed_lookup_ciphersuite _ := Some 1;
  set_min_version _ := None; set_max_version _ := None; rng_new := None; push_cert _ _ := None;
  establish D cb config := ret [];
  ctx_write_all D cb data := ret tt;
  ctx_read_to_end D cb := λ x,
    match x with (a :: ctx, d) => (Ok a, (ctx, d)) | ([], d) => (Err tt, ([], d)) end;
  peer_cert _ := Some (Some [[Byte.x00]]);
|}.
#[export] Instance webpki : Webpki := {|
  EndEntityCert := bytes; ee_try_from b := Some b; unrecognized_extension e _ := Some e;
|}.
#[export] Instance no_reqwest : Reqwest unit := {| reqwest_post _ _ n := (inr "reqwest new", n) |}.
(** Requests are not read by anyone here. *)
Definition any_request : ProtobufMessage Transport.RuntimeManagerRequest :=
  {| write_to_bytes _ := Some []; parse_from_bytes _ := None |}.

Definition client_with (answers : list bytes) : VeracruzClient (N:=unit) :=
  mkClient (answers : MbedContext) (mkConnection [] "" (Some 0) tt) demo_policy "ff" ∅.
Definition hash_answer (h : string) : bytes := wire_of (serialize_policy_hash (as_bytes h)).
Definition good_client : VeracruzClient :=
  client_with [hash_answer "ff"; wire_of (serialize_result (ResponseStatus_as_i32 SUCCESS) (Some hello))].

(** An enclave under another policy gets nothing. *)
Lemma secrets_kept_witness :
  send_data (P1:=any_request) (Some "f") hello (client_with [hash_answer "00"]) =
  send_data (P1:=any_request) (Some "f") [] (client_with [hash_answer "00"]).
Proof.
  refine (proj1 (proj1 (secrets_kept (P1:=any_request) (client_with [hash_answer "00"]) (Some "f") (Some "f") hello [] _))).
  by vm_compute.
Defined.

(** An enclave that passes the checks answers. *)
Lemma enclave_checked_witness :
  ∃ response c', answered (P1:=any_request) good_client (Some "f") (serialize_read_file (P1:=any_request)) response c' ∧
    rs_message_oneof response = Some (Rs_result hello).
Proof.
  destruct (proj2 (proj2 (proj2 (enclave_checked (P1:=any_request) good_client (Some "f") [] hello
    (get_results (P1:=any_request) (Some "f") good_client).2)))) as (response & H1 & H2).
  - by vm_compute.
  - exists response, (get_results (P1:=any_request) (Some "f") good_client).2. exact (conj H1 H2).
Defined.

(** ** From a client to the small enclave *)

Definition wire : InsecureConnection (N:=Handlers (Network (A:=unit))) :=
  mkConnection [] "server" (Some 1) (mkHandlers (Some quiet_network) 0).

Lemma client_reaches_enclave_witness :
  ∃ w' r rs, insecure_write (RQ:=server_reqwest (VI:=over_network (N:=unit) [] []) "server" 3) request_hash wire =
      (Ok (len request_hash), mkConnection (concat rs) "server"
         (match rs with [] => Some 1 | _ => Some 1 end) (after_data (cn_net wire) w' true)) ∧
    drained 1 r true rs (en_runtime relayed.2) true.
Proof.
  destruct (client_reaches_enclave (N:=unit) "server" 3 [] [] wire quiet_network request_hash 1 enclave true
    (Some records) relayed.2) as (w' & r & rs & H1 & _ & _ & _ & H2);
    [reflexivity|reflexivity|by split_and!|discriminate|by vm_compute|by vm_compute|reflexivity|exact relayed_run|].
  exists w', r, rs. exact (conj H1 H2).
Defined.

(** A server that echoes. *)
#[export] Instance echo : VeracruzServer (N:=unit) (E:=unit) nat := {|
  plaintext_data _ := throw UnimplementedError;
  new_tls_session _ := ret 7;
  close_tls_session _ _ := ret tt;
  tls_data _ _ d := ret (true, Some [d; d]);
|}.

Lemma echoed :
  insecure_write (RQ:=server_reqwest (VI:=echo) "server" 0) hello (mkConnection [] "server" (Some 0) (mkHandlers (Some 4%nat) 0)) =
    (Ok (len hello), mkConnection (hello ++ hello) "server" (Some 7) (mkHandlers (Some 4%nat) 0)).
Proof.
  refine (write_relayed_run (VI:=echo) "server" 0 (mkConnection [] "server" (Some 0) (mkHandlers (Some 4%nat) 0))
    4%nat hello 7 4%nat true (Some [hello; hello]) 4%nat _ _ _ _ _ _ _);
    first [reflexivity|discriminate|by vm_compute].
Qed.
End SmallSystem.
