(* ===== verification/Host.v ===== *)
(** * The machine of the command-line tools

    The files, the directories and the standard streams that the tools of the
    repository read and write, as one interface: opening and reading a file
    to its end, creating a file (which empties it), writing to it.  A tool
    ends by returning, by [process::exit] or by a panic; [Exit] is the second
    of these.  The texts the tools print for their users are left out.

    [Disk] is an instance: files by their names, directories by their
    entries. *)

From S2P Require Import Prelude RustFmt RustPath Policy Client.
Local Open Scope Z_scope.

(** [process::exit] *)
Inductive Exit := ExitCode (code : Z).

Class HostSystem (D : Type) := {
  (** opening a file and reading it to the end: the bytes read, and how the
      reading ended *)
  host_read : string → D → option (bytes * read_end);
  (** [File::create] *)
  host_create : string → D → option D;
  (** [write_all] to the file just created *)
  host_write : string → bytes → D → bool * D;
  (** [Path::is_file] and [Path::is_dir] *)
  host_is_file : string → D → bool;
  host_is_dir : string → D → bool;
  (** [read_dir]: the paths of the entries, each of which may fail *)
  host_read_dir : string → D → option (list (option string));
  (** [create_dir_all] *)
  host_create_dir_all : string → D → option D;
  stdin_read_to_end : D → option bytes * D;
  stdout_write_all : bytes → D → bool * D;
}.

(** A file holds what was written to it. *)
Class HostSystemLaws {D : Type} (HS : HostSystem D) : Prop := {
  host_write_read p data d d1 d2 :
    host_create p d = Some d1 → host_write p data d1 = (true, d2) →
    host_read p d2 = Some (data, ReadDone);
}.

Section host.
Context {D : Type} {HS : HostSystem D}.
Abbreviation H A := (ST D Exit A).

(** [eprintln!(..); exit(1)] *)
Definition abort_with {A} (msg : string) : H A := throw (ExitCode 1).

(** [r.expect(..)] and [r.unwrap()] *)
Definition expect {S E A} (o : option A) : ST S E A :=
  match o with Some a => ret a | None => panic UnwrapOnErr end.

Definition expect_ok {S E F A} (o : outcome F A) : ST S E A :=
  match o with Ok a => ret a | Err _ => panic UnwrapOnErr | Abort p => panic p end.

(** [fs::read], [fs::read_to_string] *)
Definition fs_read (p : string) (d : D) : option bytes :=
  match host_read p d with Some (b, ReadDone) => Some b | _ => None end.

Definition text_of (b : bytes) : option string :=
  let s := String.string_of_list_byte b in if utf8_valid s then Some s else None.

Definition fs_read_to_string (p : string) (d : D) : option string :=
  match fs_read p d with Some b => text_of b | None => None end.

(** [fs::write] *)
Definition fs_write (p : string) (data : bytes) (d : D) : bool * D :=
  match host_create p d with Some d1 => host_write p data d1 | None => (false, d) end.

(** The files, as the client library sees them *)
Definition client_files (d : D) : ClientFiles := {| open_file p := host_read p d |}.

Lemma fs_write_read {HL : HostSystemLaws HS} p data d d' :
  fs_write p data d = (true, d') → fs_read p d' = Some data.
Proof.
  unfold fs_write, fs_read. destruct (host_create p d) as [d1|] eqn:Hc; [|done].
  intros Hw. by rewrite (host_write_read _ _ _ _ _ Hc Hw).
Qed.
End host.

(** [iter().map(f).collect()] where [f] may exit or panic *)
Fixpoint map_st {S E A B} (f : A → ST S E B) (l : list A) : ST S E (list B) :=
  match l with
  | [] => ret []
  | a :: l' => let! b := f a in let! bs := map_st f l' in ret (b :: bs)
  end.

Lemma map_st_inv {S E A B} (f : A → ST S E B) (l : list A) s bs s' :
  (∀ a s b s', f a s = (Ok b, s') → s' = s) →
  map_st f l s = (Ok bs, s') → s' = s ∧ Forall2 (λ a b, f a s = (Ok b, s)) l bs.
Proof.
  intros Hf. revert bs. induction l as [|a l IH]; intros bs Hrun; simpl in Hrun; inv_run.
  - by split; [|constructor].
  - match goal with H : f a s = _ |- _ => pose proof (Hf _ _ _ _ H) as ->; rename H into Ha end.
    match goal with H : map_st f l s = _ |- _ => apply IH in H as [-> HF] end.
    split; [done|]. by constructor.
Qed.

(** ** A disk *)

Record Disk := mkDisk {
  files : gmap string bytes;
  directories : gmap string (list string);
  unread : bytes;
  printed : bytes;
}.

Definition set_files (m : gmap string bytes) (d : Disk) : Disk :=
  mkDisk m (directories d) (unread d) (printed d).

#[export] Instance disk_system : HostSystem Disk := {|
  host_read p d := match files d !! p with Some b => Some (b, ReadDone) | None => None end;
  host_create p d :=
    if decide (is_Some (directories d !! p)) then None else Some (set_files (<[p := []]> (files d)) d);
  host_write p data d := (true, set_files (<[p := data]> (files d)) d);
  host_is_file p d := bool_decide (is_Some (files d !! p));
  host_is_dir p d := bool_decide (is_Some (directories d !! p));
  host_read_dir p d :=
    match directories d !! p with
    | Some entries => Some ((λ e, Some (p ++ "/" ++ e)%string) <$> entries)
    | None => None
    end;
  host_create_dir_all p d :=
    if decide (is_Some (files d !! p)) then None
    else if decide (is_Some (directories d !! p)) then Some d
    else Some (mkDisk (files d) (<[p := []]> (directories d)) (unread d) (printed d));
  stdin_read_to_end d := (Some (unread d), mkDisk (files d) (directories d) [] (printed d));
  stdout_write_all data d := (true, mkDisk (files d) (directories d) (unread d) (printed d ++ data));
|}.

#[export] Instance disk_laws : HostSystemLaws disk_system.
Proof.
  split. intros p data d d1 d2 _. simpl. intros [= <-]. simpl. by rewrite lookup_insert_eq.
Qed.
