(* ===== verification/Programs.v ===== *)
(** * The world of the example programs

    What the programs that run in the enclave, and the generators of their
    inputs, have in common: the files of a program, random numbers, the
    [postcard] format, vectors accessed by index, and loops over them. *)

From S2P Require Import Prelude Policy Client Host.

(** [rand::thread_rng().gen_range(lo..=hi)] *)
Class ThreadRng (R : Type) := { gen_range : Z → Z → R → Z * R }.
Class ThreadRngLaws {R} (RG : ThreadRng R) : Prop := {
  gen_range_within lo hi r : (lo ≤ hi)%Z → (lo ≤ (gen_range lo hi r).1 ≤ hi)%Z;
}.

(** [std::io::ErrorKind], as far as the programs look at it *)
Inductive ErrorKind := NotFound | PermissionDenied | OtherKind.

(** [fs::read] *)
Inductive io_read := ReadBytes (b : bytes) | ReadFails (k : ErrorKind).

(** The files of a program that runs in the enclave: [fs::read] and
    [fs::write]. *)
Class GuestFiles (G : Type) := {
  guest_read : string → G → io_read;
  guest_write : string → bytes → G → bool * G;
}.
(** A file that was written holds what was written. *)
Class GuestFilesLaws {G} (GF : GuestFiles G) : Prop := {
  guest_read_written p data g g' : guest_write p data g = (true, g') → guest_read p g' = ReadBytes data;
}.

(** [postcard::to_allocvec] and [postcard::from_bytes] *)
Class Postcard (A : Type) := {
  to_allocvec : A → option bytes;
  from_postcard : bytes → option A;
}.
Class PostcardLaws {A} (PC : Postcard A) : Prop := {
  postcard_roundtrip a b : to_allocvec a = Some b → from_postcard b = Some a;
}.

(** ** Vectors *)

(** [l.iter().enumerate()] *)
Definition enumerate {A} (l : list A) : list (nat * A) := imap pair l.

(** [l[i]] *)
Definition index {S E A} (l : list A) (i : Z) : ST S E A :=
  match l !! Z.to_nat i with
  | Some x => if (i <? 0)%Z then panic SliceOutOfRange else ret x
  | None => panic SliceOutOfRange
  end.

(** [l[i] = x] *)
Definition index_set {S E A} (l : list A) (i : Z) (x : A) : ST S E (list A) :=
  if (0 <=? i)%Z && (i <? len l)%Z then ret (<[Z.to_nat i := x]> l) else panic SliceOutOfRange.

(** [a - b] on [usize] *)
Definition usize_sub {BP : BuildProfile} {E} (a b : Z) : outcome E Z :=
  if (b <=? a)%Z then Ok (a - b)%Z
  else if overflow_checks then Abort ArithmeticOverflow else Ok ((a - b) mod u64_bound)%Z.

Lemma index_run {S E A} (l : list A) i d (s : S) :
  (0 ≤ i < Z.of_nat (length l))%Z → index (E:=E) l i s = (Ok (nth (Z.to_nat i) l d), s).
Proof.
  intros Hi. unfold index.
  destruct (lookup_lt_is_Some_2 l (Z.to_nat i)) as [x Hx]; [lia|]. rewrite Hx.
  replace (i <? 0)%Z with false by (symmetry; apply Z.ltb_ge; lia).
  unfold ret. by rewrite (nth_lookup_Some _ _ _ _ Hx).
Qed.

Lemma index_set_run {S E A} (l : list A) i x (s : S) :
  (0 ≤ i < len l)%Z → index_set (E:=E) l i x s = (Ok (<[Z.to_nat i := x]> l), s).
Proof.
  intros Hi. unfold index_set. destruct (Z.leb_spec 0 i), (Z.ltb_spec i (len l)); try lia. done.
Qed.

(** ** Loops without effects *)

Lemma fold_st_pure {T E A X} (body : A → X → ST T E A) (g : A → X → A) l acc s :
  (∀ a x s, body a x s = (Ok (g a x), s)) → fold_st body l acc s = (Ok (foldl g acc l), s).
Proof.
  intros Hb. revert acc. induction l as [|x l IH]; intros acc; [done|]. simpl.
  unfold bind. by rewrite Hb, IH.
Qed.

Lemma fold_st_app {T E A X} (body : A → X → ST T E A) l1 l2 acc s :
  fold_st body (l1 ++ l2) acc s = (let! a := fold_st body l1 acc in fold_st body l2 a) s.
Proof.
  revert acc s. induction l1 as [|x l1 IH]; intros acc s; [done|]. simpl. unfold bind at 1 2 3.
  destruct (body acc x s) as [[a|e|p] s1]; [|done..]. apply IH.
Qed.

Lemma map_st_pure {S E A B} (f : A → ST S E B) (g : A → B) l s :
  (∀ a s, a ∈ l → f a s = (Ok (g a), s)) → map_st f l s = (Ok (g <$> l), s).
Proof.
  intros Hf. induction l as [|a l IH]; [done|]. simpl. unfold bind at 1.
  rewrite Hf by apply list_elem_of_here. unfold bind at 1.
  rewrite IH by (intros; apply Hf; by apply list_elem_of_further). done.
Qed.

(** ** A small format

    Values one after the other, a list after its length in one byte. *)

Module SmallPostcard.
Class Packed (A : Type) := {
  pack : A → option bytes;
  unpack : bytes → option (A * bytes);
  pack_unpack a b rest : pack a = Some b → unpack (b ++ rest) = Some (a, rest);
}.

#[export] Program Instance packed_byte : Packed Byte.byte := {|
  pack x := Some [x];
  unpack b := match b with x :: rest => Some (x, rest) | [] => None end;
|}.
Next Obligation. intros x b rest; simpl. by intros [= <-]. Qed.

#[local] Program Instance packed_Z (n : nat) : Packed Z := {|
  pack z := if decide (0 ≤ z < 256 ^ Z.of_nat n)%Z then Some (to_le_bytes n z) else None;
  unpack b := if decide (n ≤ length b) then Some (from_le_bytes (take n b), drop n b) else None;
|}.
Next Obligation.
  intros n z b rest; simpl. case_decide; [|done]. intros [= <-]. rewrite decide_True by (rewrite length_app, length_to_le_bytes; lia).
  rewrite take_app_length', drop_app_length' by (by rewrite length_to_le_bytes).
  by rewrite from_to_le_bytes, Z.mod_small.
Qed.

#[export] Program Instance packed_prod {A B} `{Packed A, Packed B} : Packed (A * B) := {|
  pack p := x ← pack p.1; y ← pack p.2; Some (x ++ y);
  unpack b := x ← unpack b; y ← unpack x.2; Some ((x.1, y.1), y.2);
|}.
Next Obligation.
  intros A B PA PB [a b] c rest; simpl.
  destruct (pack a) as [x|] eqn:Hx; simpl; [|done]. destruct (pack b) as [y|] eqn:Hy; simpl; [|done].
  intros [= <-]. rewrite <- app_assoc, (pack_unpack _ _ _ Hx). simpl. by rewrite (pack_unpack _ _ _ Hy).
Qed.

Section lists.
Context {A : Type} `{PA : Packed A}.

Fixpoint unpack_n (n : nat) (b : bytes) : option (list A * bytes) :=
  match n with
  | O => Some ([], b)
  | S n' => x ← unpack b; y ← unpack_n n' x.2; Some (x.1 :: y.1, y.2)
  end.

Lemma unpack_n_pack l b rest : mapM pack l = Some b → unpack_n (length l) (concat b ++ rest) = Some (l, rest).
Proof.
  revert b. induction l as [|a l IH]; intros b; [by intros [= <-]|]. simpl.
  destruct (pack a) as [x|] eqn:Hx; simpl; [|done]. destruct (mapM pack l) as [bs|]; simpl; [|done].
  intros [= <-]. simpl. rewrite <- app_assoc, (pack_unpack _ _ _ Hx). simpl. by rewrite (IH bs).
Qed.

#[export] Program Instance packed_list : Packed (list A) := {|
  pack l := if decide (length l < 256) then b ← mapM pack l; Some (byte_of (len l) :: concat b) else None;
  unpack b := match b with n :: b' => unpack_n (Z.to_nat (byte_val n)) b' | [] => None end;
|}.
Next Obligation.
  intros l c rest; simpl. case_decide as Hl; [|done]. destruct (mapM pack l) as [bs|] eqn:Hbs; simpl; [|done].
  intros [= <-]. simpl. rewrite byte_val_of. unfold len. rewrite Z.mod_small, Nat2Z.id by lia.
  by apply unpack_n_pack.
Qed.
End lists.

Definition small_postcard {A} `{Packed A} : Postcard A := {|
  to_allocvec := pack;
  from_postcard b := match unpack b with Some (a, []) => Some a | _ => None end;
|}.
Lemma small_postcard_laws {A} `{Packed A} : PostcardLaws (small_postcard (A:=A)).
Proof. split. simpl. intros a b Hb. by rewrite <- (app_nil_r b), (pack_unpack _ _ _ Hb). Qed.
End SmallPostcard.

(** ** Files as a map *)

Module SmallGuest.
#[export] Instance map_files : GuestFiles (gmap string bytes) := {|
  guest_read p g := match g !! p with Some b => ReadBytes b | None => ReadFails NotFound end;
  guest_write p b g := (true, <[p := b]> g);
|}.
#[export] Instance map_files_laws : GuestFilesLaws map_files.
Proof. split. intros p data g g' [= <-]. simpl. by rewrite lookup_insert_eq. Qed.
End SmallGuest.
