(* ===== verification/Csv.v ===== *)
(** * The CSV encoder

    The tool that turns a CSV file into a [postcard] file of encoded entries,
    as a schema in a TOML file says.  It ends by [exit(-1)], by an error of
    [main] (exit code 1), or by writing the file.

    Source: [sdk/data-generators/csv-encoder/src/main.rs].

    [clap] gives the values of the options; the [toml] and [csv] crates are
    classes.  What goes to the log and to the user is left out. *)

From S2P Require Import Prelude RustFmt RustStr Policy Client Host Programs.
From S2P Require Import Demo.
Local Open Scope Z_scope.

(** A value of TOML *)
Class Toml := {
  Value : Type;
  toml_from_str : string → option Value;
  toml_get : Value → string → option Value;
  as_integer : Value → option Z;
  as_bool : Value → option bool;
  as_array : Value → option (list Value);
  as_str : Value → option string;
}.

Inductive Trim := TrimAll | TrimNone.

(** What [csv::ReaderBuilder] is given *)
Record ReaderBuilder := mkReader {
  rb_delimiter : Z;
  rb_quote : Z;
  rb_has_headers : bool;
  rb_flexible : bool;
  rb_trim : Trim;
}.

(** [reader.records()]: of the bytes read from the file, and how the reading
    ended; a record may be an error. *)
Class CsvReader := {
  csv_records : ReaderBuilder → bytes * read_end → list (option (list string));
}.

(** ** Encodings *)

Inductive Encoding := Discard | F64 | F32 | I64 | I32 | U64 | U32 | EncString.
#[global] Instance Encoding_eq_dec : EqDecision Encoding.
Proof. solve_decision. Defined.

Definition Encoding_from_str (value : string) : option Encoding :=
  let eq x := bool_decide (value = x) in
  if eq "discard" then Some Discard
  else if eq "f64" || eq "F64" then Some F64
  else if eq "f32" || eq "F32" then Some F32
  else if eq "i64" || eq "I64" then Some I64
  else if eq "i32" || eq "I32" then Some I32
  else if eq "u32" || eq "U32" then Some U32
  else if eq "u64" || eq "U64" then Some U64
  else if eq "string" || eq "String" then Some EncString
  else None.

(** [column_entry.parse()], and the bytes of the number; an entry to discard
    has none. *)
Definition encode_entry (data_type : Encoding) (column_entry : string) : option bytes :=
  match data_type with
  | Discard => None
  | EncString => Some (as_bytes column_entry)
  | I32 => to_le_bytes 4 <$> parse_i32 column_entry
  | I64 => to_le_bytes 8 <$> parse_i64 column_entry
  | U32 => to_le_bytes 4 <$> parse_u32 column_entry
  | U64 => to_le_bytes 8 <$> parse_u64 column_entry
  | F32 => to_le_bytes 4 <$> parse_f32 column_entry
  | F64 => to_le_bytes 8 <$> parse_f64 column_entry
  end.

(** ** The command line *)

Record CommandLineConfiguration := mkCommandLine {
  source_filename : string;
  output_filename : string;
  schema_filename : string;
}.

Definition CommandLineConfiguration_new : CommandLineConfiguration := mkCommandLine "" "" "".
Definition set_source_filename (file : string) (c : CommandLineConfiguration) : CommandLineConfiguration :=
  mkCommandLine file (output_filename c) (schema_filename c).
Definition set_output_filename (file : string) (c : CommandLineConfiguration) : CommandLineConfiguration :=
  mkCommandLine (source_filename c) file (schema_filename c).
Definition set_schema_filename (file : string) (c : CommandLineConfiguration) : CommandLineConfiguration :=
  mkCommandLine (source_filename c) (output_filename c) file.
Definition get_input_filename (c : CommandLineConfiguration) : string := source_filename c.
Definition get_output_filename (c : CommandLineConfiguration) : string := output_filename c.
Definition get_schema_filename (c : CommandLineConfiguration) : string := schema_filename c.

(** [value_of(name)], and [exit(-1)] when it is not there *)
Definition exit_if_none {A} (o : option A) : outcome Exit A :=
  match o with Some a => Ok a | None => Err (ExitCode (-1)) end.

(** ** Schemas *)

Record Schema := mkSchema {
  delimiter : Z;
  quote : Z;
  has_headers : bool;
  trim_whitespace : bool;
  flexible : bool;
  skip_rows_on_decoding_error : bool;
  columns : list Encoding;
}.

Definition Schema_new : Schema := mkSchema 0 0 false false false true [].
Definition set_delimiter (d : Z) (s : Schema) : Schema :=
  mkSchema d (quote s) (has_headers s) (trim_whitespace s) (flexible s) (skip_rows_on_decoding_error s) (columns s).
Definition set_quote (q : Z) (s : Schema) : Schema :=
  mkSchema (delimiter s) q (has_headers s) (trim_whitespace s) (flexible s) (skip_rows_on_decoding_error s) (columns s).
Definition set_has_headers (b : bool) (s : Schema) : Schema :=
  mkSchema (delimiter s) (quote s) b (trim_whitespace s) (flexible s) (skip_rows_on_decoding_error s) (columns s).
Definition set_trim_whitespace (b : bool) (s : Schema) : Schema :=
  mkSchema (delimiter s) (quote s) (has_headers s) b (flexible s) (skip_rows_on_decoding_error s) (columns s).
Definition set_flexible (b : bool) (s : Schema) : Schema :=
  mkSchema (delimiter s) (quote s) (has_headers s) (trim_whitespace s) b (skip_rows_on_decoding_error s) (columns s).
Definition set_skip_rows_on_decoding_error (b : bool) (s : Schema) : Schema :=
  mkSchema (delimiter s) (quote s) (has_headers s) (trim_whitespace s) (flexible s) b (columns s).
Definition set_columns (l : list Encoding) (s : Schema) : Schema :=
  mkSchema (delimiter s) (quote s) (has_headers s) (trim_whitespace s) (flexible s) (skip_rows_on_decoding_error s) l.

Definition get_delimiter (s : Schema) : Z := delimiter s.
Definition get_quote (s : Schema) : Z := quote s.
Definition get_has_headers (s : Schema) : bool := has_headers s.
Definition get_trim_whitespace (s : Schema) : bool := trim_whitespace s.
Definition get_flexible (s : Schema) : bool := flexible s.
Definition get_skip_rows_on_decoding_error (s : Schema) : bool := skip_rows_on_decoding_error s.
Definition get_columns (s : Schema) : list Encoding := columns s.

Section encoder.
Context {BP : BuildProfile} {TM : Toml} {CR : CsvReader} {PC : Postcard (list (list bytes))}
  {D : Type} {HS : HostSystem D}.
Abbreviation H A := (ST D Exit A).

Definition parse_command_line (value_of : string → option string) : H CommandLineConfiguration :=
  let config := CommandLineConfiguration_new in
  let! infile := lift (exit_if_none (value_of "input")) in
  let config := set_source_filename infile config in
  let! outfile := lift (exit_if_none (value_of "output")) in
  let config := set_output_filename outfile config in
  let! schema := lift (exit_if_none (value_of "schema")) in
  ret (set_schema_filename schema config).

Definition read_u8 (value : Value) (field : string) : option Z :=
  d ← toml_get value field; s ← as_integer d; if (0 <=? s) && (s <? u8_bound) then Some s else None.
Definition read_bool (value : Value) (field : string) : option bool :=
  d ← toml_get value field; as_bool d.
Definition read_encoding_array (value : Value) (field : string) : option (list Encoding) :=
  d ← toml_get value field; array ← as_array d;
  mapM (λ entry, s ← as_str entry; Encoding_from_str s) array.

Definition schema_of_toml (toml : Value) : option Schema :=
  let schema := Schema_new in
  let schema := set_delimiter (default 44 (read_u8 toml "delimiter")) schema in
  let schema := set_quote (default 34 (read_u8 toml "quote")) schema in
  let schema := set_has_headers (default false (read_bool toml "has-headers")) schema in
  let schema := set_trim_whitespace (default false (read_bool toml "trim-whitespace")) schema in
  let schema := set_flexible (default false (read_bool toml "flexible")) schema in
  let schema := set_skip_rows_on_decoding_error
                  (default false (read_bool toml "skip-rows-on-decoding-error")) schema in
  columns ← read_encoding_array toml "columns"; Some (set_columns columns schema).

Definition from_file (filename : string) : H Schema :=
  let! d := get in
  let! contents := lift (exit_if_none (fs_read_to_string filename d)) in
  let! toml := lift (exit_if_none (toml_from_str contents)) in
  lift (exit_if_none (schema_of_toml toml)).

(** [None] is an error: the file cannot be opened, or a record is bad. *)
Definition read_csv (config : CommandLineConfiguration) (schema : Schema) (d : D) :
  option (list (list string)) :=
  let trimming_mode := if get_trim_whitespace schema then TrimAll else TrimNone in
  let builder := mkReader (get_delimiter schema) (get_quote schema) (get_has_headers schema)
                   (get_flexible schema) trimming_mode in
  contents ← host_read (get_input_filename config) d;
  mapM id (csv_records builder contents).

(** ** Encoding of rows *)

(** The variables of the loops *)
Record Encoder := mkEncoder {
  encoding : list (list bytes);
  current_row : list bytes;
  adjustment : Z;
  error : bool;
}.
Definition set_encoding l (e : Encoder) : Encoder := mkEncoder l (current_row e) (adjustment e) (error e).
Definition set_current_row r (e : Encoder) : Encoder := mkEncoder (encoding e) r (adjustment e) (error e).
Definition set_adjustment a (e : Encoder) : Encoder := mkEncoder (encoding e) (current_row e) a (error e).
Definition set_error b (e : Encoder) : Encoder := mkEncoder (encoding e) (current_row e) (adjustment e) b.
Definition bump (e : Encoder) : Encoder := set_adjustment (adjustment e + 1) e.

(** The body of the inner loop: an entry is stored at its column less the
    columns skipped before it in the row. *)
Definition encode_column (schema : Schema) (column : nat) (column_entry : string) : ST Encoder Exit unit :=
  match get_columns schema !! column with
  | None => throw (ExitCode (-1))
  | Some Discard => modify bump
  | Some data_type =>
      match encode_entry data_type column_entry with
      | Some bytes =>
          let! e := get in
          let! i := lift (usize_sub (Z.of_nat column) (adjustment e)) in
          let! row := index_set (current_row e) i bytes in
          modify (set_current_row row)
      | None =>
          if get_skip_rows_on_decoding_error schema then modify (λ e, bump (set_error true e))
          else throw (ExitCode (-1))
      end
  end.

(** The body of the outer loop *)
Definition encode_row (schema : Schema) (row_entry : list string) : ST Encoder Exit unit :=
  do! fold_st (λ _ '(column, column_entry), encode_column schema column column_entry)
        (enumerate row_entry) tt in
  let! e := get in
  do! (if error e then modify (set_error false)
       else modify (set_encoding (encoding e ++ [current_row e]))) in
  modify (set_adjustment 0).

(** The vectors before the loops *)
Definition Encoder_new (schema : Schema) (rows : list (list string)) : Encoder :=
  let n := length (get_columns schema) in
  mkEncoder (replicate n (replicate (length rows) [])) (replicate n []) 0 false.

Definition encode_csv_content (config : CommandLineConfiguration) (schema : Schema)
    (rows : list (list string)) : H unit :=
  let '(o, e) := fold_st (λ _ row, encode_row schema row) rows tt (Encoder_new schema rows) in
  do! lift o in
  let! bytes := lift (exit_if_none (to_allocvec (encoding e))) in
  λ d, match fs_write (get_output_filename config) bytes d with
       | (true, d') => (Ok tt, d')
       | (false, d') => (Err (ExitCode (-1)), d')
       end.

Definition csv_main (value_of : string → option string) : H unit :=
  let! config := parse_command_line value_of in
  let! schema := from_file (get_schema_filename config) in
  let! d := get in
  match read_csv config schema d with
  | Some rows => encode_csv_content config schema rows
  | None => throw (ExitCode 1)
  end.
End encoder.

(** * Properties of the CSV encoder

    What the file that the encoder writes holds, row by row.

    Source: [sdk/data-generators/csv-encoder/src/main.rs]. *)

Local Open Scope nat_scope.

(** ** What the rows should give *)

(** The encoded entries of a row, without those to discard and those that are
    no values of their type *)
Definition stored (cols : list Encoding) (row : list string) : list bytes :=
  omap (λ p, encode_entry p.1 p.2) (zip cols row).

(** An entry is fine when it is to be discarded, or is a value of its type. *)
Definition entry_ok (p : Encoding * string) : bool :=
  bool_decide (p.1 = Discard) || bool_decide (is_Some (encode_entry p.1 p.2)).
Definition row_ok (cols : list Encoding) (row : list string) : bool := forallb entry_ok (zip cols row).

(** The number of the columns that are kept *)
Definition kept (cols : list Encoding) : nat := length (filter (λ c, c ≠ Discard) cols).

Lemma stored_length cols row :
  length (stored cols row) ≤ kept cols ∧
  (length row = length cols → row_ok cols row = true → length (stored cols row) = kept cols).
Proof.
  revert row. induction cols as [|c cols IH]; intros [|x row];
    unfold stored, kept, row_ok in *; simpl; try (by split; [lia|try discriminate]).
  specialize (IH row) as [IH1 IH2]. unfold entry_ok at 1. simpl.
  destruct (decide (c = Discard)) as [->|Hc].
  - rewrite filter_cons_False by naive_solver. rewrite bool_decide_eq_true_2 by done. simpl.
    split; [done|intros Hl Hok; apply IH2; [by simplify_eq|done]].
  - rewrite filter_cons_True by done. rewrite (bool_decide_eq_false_2 _ Hc). simpl.
    destruct (encode_entry c x) as [b|]; simpl; [|split; [by apply Nat.le_le_succ_r|done]].
    split; [by apply le_n_S|]. intros Hl Hok. f_equal. apply IH2; [by simplify_eq|done].
Qed.

Section runs.
Context {BP : BuildProfile}.
Implicit Types (schema : Schema) (e : Encoder).

(** ** One row *)

(** What an entry of a column of type [c] does *)
Definition column_step (c : Encoding) (x : string) (i : nat) (e : Encoder) : Encoder :=
  match encode_entry c x with
  | Some b => set_current_row (<[i - Z.to_nat (adjustment e) := b]> (current_row e)) e
  | None => bump (if bool_decide (c = Discard) then e else set_error true e)
  end.

Lemma column_run schema i c x e :
  columns schema !! i = Some c → length (current_row e) = length (columns schema) →
  (0 ≤ adjustment e ≤ Z.of_nat i)%Z →
  encode_column schema i x e =
    if skip_rows_on_decoding_error schema || entry_ok (c, x) then (Ok tt, column_step c x i e)
    else (Err (ExitCode (-1)), e).
Proof.
  intros Hc Hlen Hadj. unfold encode_column, get_columns, column_step, entry_ok, get_skip_rows_on_decoding_error.
  rewrite Hc. cbn [fst snd]. pose proof (lookup_lt_Some _ _ _ Hc) as Hlt.
  destruct (decide (c = Discard)) as [->|Hd].
  { rewrite bool_decide_eq_true_2 by done. by rewrite orb_true_l, orb_true_r. }
  rewrite (bool_decide_eq_false_2 _ Hd), orb_false_l.
  assert (match encode_entry c x with
    | Some bytes => let! e := get in
        let! i := lift (usize_sub (Z.of_nat i) (adjustment e)) in
        let! row := index_set (current_row e) i bytes in modify (set_current_row row)
    | None => if skip_rows_on_decoding_error schema then modify (λ e, bump (set_error true e))
              else throw (ExitCode (-1)) end e =
    if skip_rows_on_decoding_error schema || bool_decide (is_Some (encode_entry c x))
    then (Ok tt, match encode_entry c x with
                 | Some b => set_current_row (<[i - Z.to_nat (adjustment e) := b]> (current_row e)) e
                 | None => bump (set_error true e) end)
    else (Err (ExitCode (-1)), e)) as Hrun; [|by destruct c].
  destruct (encode_entry c x) as [b|].
  - rewrite bool_decide_eq_true_2, orb_true_r by eauto.
    unfold bind, get, lift, usize_sub. destruct (Z.leb_spec (adjustment e) (Z.of_nat i)); [|lia].
    unfold index_set, len. destruct (Z.leb_spec 0 (Z.of_nat i - adjustment e)); [|lia].
    destruct (Z.ltb_spec (Z.of_nat i - adjustment e) (Z.of_nat (length (current_row e)))); [|lia].
    simpl. unfold ret, modify. do 4 f_equal. lia.
  - rewrite bool_decide_eq_false_2, orb_false_r by (intros [? ?]; discriminate).
    by destruct (skip_rows_on_decoding_error schema).
Qed.

(** Entries from column [i] on: those that are fine are stored one after the
    other, from where the row stands. *)
Definition columns_step (cols : list Encoding) (es : list string) (i : nat) (e : Encoder) : Encoder :=
  let pos := i - Z.to_nat (adjustment e) in
  let new := stored cols es in
  mkEncoder (encoding e) (take pos (current_row e) ++ new ++ drop (pos + length new) (current_row e))
    (Z.of_nat (i + length es - (pos + length new))) (error e || negb (row_ok cols es)).

Lemma columns_step_cons c cols x es i e :
  i < length (current_row e) → (0 ≤ adjustment e ≤ Z.of_nat i)%Z →
  columns_step cols es (S i) (column_step c x i e) = columns_step (c :: cols) (x :: es) i e.
Proof.
  intros Hi Hadj. unfold columns_step, column_step, stored, row_ok, entry_ok. cbn [zip_with omap list_omap forallb fst snd].
  destruct e as [l r a b]; cbn [encoding current_row adjustment error] in *.
  destruct (encode_entry c x) as [y|] eqn:Hy; cbn.
  - rewrite orb_true_r. simpl. set (new := omap _ _). f_equal; [|lia].
    replace (S i - Z.to_nat a) with (S (i - Z.to_nat a)) by lia. set (p := i - Z.to_nat a).
    rewrite (take_S_r _ _ y) by (apply list_lookup_insert_eq; lia).
    rewrite take_insert_ge by lia. rewrite <- app_assoc. simpl. do 2 f_equal.
    rewrite drop_insert_lt by lia. f_equal. f_equal. lia.
  - rewrite orb_false_r. destruct (decide (c = Discard)) as [->|Hd].
    + rewrite !bool_decide_eq_true_2 by done. simpl. set (new := omap _ _).
      replace (S i - Z.to_nat (a + 1)) with (i - Z.to_nat a) by lia. f_equal. lia.
    + rewrite !(bool_decide_eq_false_2 _ Hd). simpl. set (new := omap _ _).
      replace (S i - Z.to_nat (a + 1)) with (i - Z.to_nat a) by lia. rewrite orb_true_r. f_equal. lia.
Qed.

Lemma columns_run schema es i e :
  i + length es ≤ length (columns schema) → length (current_row e) = length (columns schema) →
  (0 ≤ adjustment e ≤ Z.of_nat i)%Z →
  ∃ e', fold_st (λ _ '(column, x), encode_column schema column x) (imap (λ k x, (i + k, x)) es) tt e =
    if skip_rows_on_decoding_error schema || row_ok (drop i (columns schema)) es
    then (Ok tt, columns_step (drop i (columns schema)) es i e) else (Err (ExitCode (-1)), e').
Proof.
  revert i e. induction es as [|x es IH]; intros i e Hi Hlen Hadj; simpl in Hi.
  { exists e. unfold columns_step, stored, row_ok. rewrite zip_with_nil_r. simpl. rewrite orb_true_r.
    rewrite !Nat.add_0_r, take_drop, orb_false_r. destruct e as [l r a b]; simpl in *. unfold ret. do 2 f_equal. lia. }
  destruct (lookup_lt_is_Some_2 (columns schema) i) as [c Hc]; [lia|].
  rewrite (drop_S _ _ _ Hc). cbn [imap fold_st]. rewrite Nat.add_0_r.
  replace (imap ((λ k y, (i + k, y)) ∘ S) es) with (imap (λ k y, (S i + k, y)) es)
    by (apply imap_ext; intros k y _; simpl; f_equal; lia).
  unfold bind at 1. rewrite (column_run _ _ _ _ _ Hc Hlen Hadj).
  assert (length (current_row (column_step c x i e)) = length (columns schema) ∧
    (0 ≤ adjustment (column_step c x i e) ≤ Z.of_nat (S i))%Z) as [Hlen' Hadj'].
  { unfold column_step. destruct (encode_entry c x); [|destruct (bool_decide _)]; simpl; rewrite ?length_insert; lia. }
  destruct (IH (S i) (column_step c x i e)) as [e' He']; [lia|done|done|].
  rewrite columns_step_cons in He' by lia.
  unfold row_ok in *. cbn [zip_with forallb]. fold (zip (drop (S i) (columns schema)) es).
  destruct (skip_rows_on_decoding_error schema), (entry_ok (c, x)); cbn [orb andb] in *; eauto.
Qed.

(** A whole row *)
Definition row_image (cols : list Encoding) (row : list string) (old : list bytes) : list bytes :=
  stored cols row ++ drop (length (stored cols row)) old.

Lemma row_run schema row l old :
  length row ≤ length (columns schema) → length old = length (columns schema) →
  ∃ e', encode_row schema row (mkEncoder l old 0 false) =
    if skip_rows_on_decoding_error schema || row_ok (columns schema) row
    then (Ok tt, mkEncoder (l ++ if row_ok (columns schema) row then [row_image (columns schema) row old] else [])
                   (row_image (columns schema) row old) 0 false)
    else (Err (ExitCode (-1)), e').
Proof.
  intros Hr Ho. destruct (columns_run schema row 0 (mkEncoder l old 0 false)) as [e' He']; [done|done|done|].
  exists e'. unfold encode_row, bind at 1.
  change (enumerate row) with (imap (λ k x, (0 + k, x)) row). rewrite He'. rewrite drop_0.
  destruct (skip_rows_on_decoding_error schema || row_ok (columns schema) row); [|done].
  unfold columns_step. simpl. unfold bind, get, modify. simpl. fold (row_image (columns schema) row old).
  destruct (row_ok (columns schema) row); simpl; [done|by rewrite app_nil_r].
Qed.

(** ** All rows *)

Fixpoint rows_image (cols : list Encoding) (rows : list (list string)) (old : list bytes) : list (list bytes) :=
  match rows with
  | [] => []
  | row :: rows' =>
      (if row_ok cols row then [row_image cols row old] else []) ++ rows_image cols rows' (row_image cols row old)
  end.

Lemma row_image_length cols row old :
  length row ≤ length cols → length old = length cols → length (row_image cols row old) = length cols.
Proof.
  intros Hr Ho. unfold row_image. rewrite length_app, length_drop.
  pose proof (stored_length cols row) as [Hs _]. pose proof (length_filter (λ c, c ≠ Discard) cols).
  unfold kept in Hs. lia.
Qed.

Lemma rows_run schema rows l old :
  Forall (λ row, length row ≤ length (columns schema)) rows → length old = length (columns schema) →
  let o := fold_st (λ _ row, encode_row schema row) rows tt (mkEncoder l old 0 false) in
  if skip_rows_on_decoding_error schema || forallb (row_ok (columns schema)) rows
  then o.1 = Ok tt ∧ encoding o.2 = l ++ rows_image (columns schema) rows old
  else o.1 = Err (ExitCode (-1)).
Proof.
  cbv zeta. revert l old. induction rows as [|row rows IH]; intros l old HF Hold.
  { simpl. rewrite orb_true_r. by rewrite app_nil_r. }
  apply Forall_cons in HF as [Hr HF]. cbn [fold_st forallb rows_image].
  destruct (row_run schema row l old Hr Hold) as [e' He']. unfold bind at 1 2 3. rewrite He'.
  specialize (IH (l ++ if row_ok (columns schema) row then [row_image (columns schema) row old] else [])
    (row_image (columns schema) row old) HF (row_image_length _ _ _ Hr Hold)).
  destruct (skip_rows_on_decoding_error schema), (row_ok (columns schema) row); cbn [orb andb] in *;
    rewrite ?app_assoc; [done|done|done|done].
Qed.

(** A row that is longer than the schema ends the run. *)
Lemma long_row_run schema row l old :
  length (columns schema) < length row → length old = length (columns schema) →
  ∃ e', encode_row schema row (mkEncoder l old 0 false) = (Err (ExitCode (-1)), e').
Proof.
  intros Hr Ho. set (n := length (columns schema)) in *.
  destruct (lookup_lt_is_Some_2 row n Hr) as [x Hx].
  destruct (columns_run schema (take n row) 0 (mkEncoder l old 0 false)) as [e' He'];
    [rewrite length_take; lia|done|done|]. rewrite drop_0 in He'.
  unfold encode_row, bind at 1.
  assert (∃ rest, enumerate row = imap (λ k x, (0 + k, x)) (take n row) ++ (n, x) :: rest) as [rest ->].
  { unfold enumerate. eexists. rewrite <- (take_drop_middle row n x Hx) at 1. rewrite imap_app. simpl.
    rewrite length_take, Nat.min_l, Nat.add_0_r by lia. done. }
  rewrite fold_st_app. unfold bind at 1. rewrite He'.
  destruct (skip_rows_on_decoding_error schema || _); [|by eauto].
  simpl. unfold bind at 1. unfold encode_column at 1.
  rewrite lookup_ge_None_2 by (unfold get_columns; fold n; lia). simpl. by eauto.
Qed.

(** The rows of any file: encoded, or the run ends with [exit(-1)]. *)
Lemma all_rows_run schema rows l old :
  length old = length (columns schema) →
  let o := fold_st (λ _ row, encode_row schema row) rows tt (mkEncoder l old 0 false) in
  (Forall (λ row, length row ≤ length (columns schema)) rows ∧
   (skip_rows_on_decoding_error schema = true ∨ Forall (λ row, row_ok (columns schema) row = true) rows) ∧
   o.1 = Ok tt ∧ encoding o.2 = l ++ rows_image (columns schema) rows old) ∨
  o.1 = Err (ExitCode (-1)).
Proof.
  cbv zeta. intros Hold.
  destruct (decide (Forall (λ row, length row ≤ length (columns schema)) rows)) as [HF|HF].
  { pose proof (rows_run schema rows l old HF Hold) as Hrun. cbv zeta in Hrun.
    destruct (skip_rows_on_decoding_error schema); simpl in Hrun; [naive_solver|].
    destruct (forallb _ rows) eqn:Hok; [|by right]. left. split_and!; [done| |by apply Hrun..].
    right. apply Forall_forall. intros row Hin. by apply (proj1 (forallb_forall _ _) Hok), list_elem_of_In. }
  right. revert l old Hold. induction rows as [|row rows IH]; intros l old Hold; [by destruct HF|].
  cbn [fold_st]. unfold bind at 1.
  destruct (decide (length row ≤ length (columns schema))) as [Hr|Hr].
  - destruct (row_run schema row l old Hr Hold) as [e' ->]. destruct (_ || _); [|done].
    apply IH; [|by apply row_image_length]. intros HF'. by apply HF, Forall_cons.
  - destruct (long_row_run schema row l old) as [e' ->]; [lia|done|]. done.
Qed.

(** ** Rows of the length of the schema *)

Lemma full_rows_image cols rows old :
  Forall (λ row, length row = length cols) rows → drop (kept cols) old = replicate (length cols - kept cols) [] →
  rows_image cols rows old =
    (λ row, stored cols row ++ replicate (length cols - kept cols) []) <$> filter (λ row, row_ok cols row = true) rows.
Proof.
  revert old. induction rows as [|row rows IH]; intros old HF Hold; [done|].
  apply Forall_cons in HF as [Hr HF]. cbn [rows_image].
  pose proof (stored_length cols row) as [Hle Heq].
  rewrite IH; [|done|].
  - destruct (row_ok cols row) eqn:Hok; [rewrite filter_cons_True by done|rewrite filter_cons_False by congruence; done].
    simpl. f_equal. unfold row_image. f_equal. by rewrite Heq.
  - unfold row_image. rewrite drop_app_ge by done. rewrite drop_drop.
    replace (length (stored cols row) + (kept cols - length (stored cols row))) with (kept cols) by lia. done.
Qed.
End runs.

(** ** The whole tool *)

Section tool.
Context {BP : BuildProfile} {TM : Toml} {CR : CsvReader} {PC : Postcard (list (list bytes))}
  {PCL : PostcardLaws PC} {D : Type} {HS : HostSystem D} {HL : HostSystemLaws HS}.

Lemma parse_command_line_keeps value_of (d : D) : (parse_command_line value_of d).2 = d.
Proof.
  unfold parse_command_line, bind, lift, exit_if_none. by repeat (case_match; simplify_eq; simpl).
Qed.

Lemma from_file_keeps f (d : D) : (from_file f d).2 = d.
Proof. unfold from_file, bind, get, lift, exit_if_none. by repeat (case_match; simplify_eq; simpl). Qed.

(** C39: a run of the encoder that succeeds has written a file that decodes to
    one row for each row of the CSV file that fits the schema, in order: the
    entries of the columns that are kept, each encoded by its type, then an
    empty entry for each column that was discarded; without the option to
    skip rows, every row is there.  But before these rows the file holds as
    many others as the schema has columns, each of as many empty entries as
    the CSV file has rows.  When the rows are shorter than the schema, entries
    of earlier rows follow theirs.  A run that fails leaves the disk as it
    was, unless writing the file failed, and no run panics. *)
Theorem csv_encoded value_of (d : D) o d' :
  csv_main value_of d = (o, d') →
  match o with
  | Ok _ =>
      ∃ config schema rows b, parse_command_line value_of d = (Ok config, d) ∧
        from_file (schema_filename config) d = (Ok schema, d) ∧ read_csv config schema d = Some rows ∧
        fs_read (output_filename config) d' = Some b ∧
        let cols := columns schema in
        from_postcard b = Some (replicate (length cols) (replicate (length rows) []) ++
                                rows_image cols rows (replicate (length cols) [])) ∧
        (skip_rows_on_decoding_error schema = true ∨ Forall (λ row, row_ok cols row = true) rows) ∧
        (Forall (λ row, length row = length cols) rows →
         rows_image cols rows (replicate (length cols) []) =
           (λ row, stored cols row ++ replicate (length cols - kept cols) []) <$>
             filter (λ row, row_ok cols row = true) rows)
  | Err _ => d' = d ∨ ∃ p b, fs_write p b d = (false, d')
  | Abort _ => False
  end.
Proof.
  unfold csv_main, bind at 1. pose proof (parse_command_line_keeps value_of d) as Hk1.
  destruct (parse_command_line value_of d) as [[config|e|p] d1] eqn:Hargs; simpl in Hk1; subst d1.
  2:{ intros [= <- <-]. by left. }
  2:{ exfalso. revert Hargs. unfold parse_command_line, bind, lift, exit_if_none.
      by repeat (case_match; simplify_eq; simpl). }
  unfold bind at 1. pose proof (from_file_keeps (get_schema_filename config) d) as Hk2.
  destruct (from_file _ d) as [[schema|e|p] d2] eqn:Hfile; simpl in Hk2; subst d2.
  2:{ intros [= <- <-]. by left. }
  2:{ exfalso. revert Hfile. unfold from_file, bind, get, lift, exit_if_none.
      by repeat (case_match; simplify_eq; simpl). }
  unfold bind at 1, get at 1. destruct (read_csv config schema d) as [rows|] eqn:Hrows.
  2:{ intros [= <- <-]. by left. }
  unfold encode_csv_content, Encoder_new, get_columns. set (cols := columns schema).
  pose proof (all_rows_run schema rows (replicate (length cols) (replicate (length rows) []))
    (replicate (length cols) []) ltac:(by rewrite length_replicate)) as Hall. cbv zeta in Hall.
  destruct (fold_st _ rows tt _) as [o1 e1]. simpl in Hall.
  destruct Hall as [(HF & Hskip & -> & Henc)| ->]; [|intros [= <- <-]; by left].
  unfold bind at 1, lift at 1. unfold bind at 1, lift at 1, exit_if_none. rewrite Henc.
  destruct (to_allocvec _) as [b|] eqn:Hb; [|intros [= <- <-]; by left].
  destruct (fs_write (get_output_filename config) b d) as [[] d3] eqn:Hw; intros [= <- <-]; [|right; by eauto].
  exists config, schema, rows, b. split_and!; [done|done|done|by eapply fs_write_read| |done|].
  - by apply postcard_roundtrip.
  - intros Hfull. apply full_rows_image; [done|]. rewrite drop_replicate. done.
Qed.
End tool.

(** ** A small table *)

Module SmallCsv.
Import SmallPostcard.

Inductive toml_value :=
  | TomlInteger (z : Z)
  | TomlBool (b : bool)
  | TomlString (s : string)
  | TomlArray (l : list toml_value)
  | TomlTable (l : list (string * toml_value)).

(** Two schemas *)
Definition small_schema (flexible : bool) (types : list string) : toml_value :=
  TomlTable [("columns", TomlArray (TomlString <$> types)); ("flexible", TomlBool flexible);
             ("skip-rows-on-decoding-error", TomlBool true); ("delimiter", TomlInteger 44)].
#[export] Instance small_toml : Toml := {|
  toml_from_str s :=
    if decide (s = "people") then Some (small_schema false ["i32"; "discard"; "string"])
    else if decide (s = "gaps") then Some (small_schema true ["string"; "string"]) else None;
  toml_get v f := match v with
                  | TomlTable l => snd <$> (list_find (λ p, p.1 = f) l ≫= λ x, Some x.2)
                  | _ => None
                  end;
  as_integer v := match v with TomlInteger z => Some z | _ => None end;
  as_bool v := match v with TomlBool b => Some b | _ => None end;
  as_array v := match v with TomlArray l => Some l | _ => None end;
  as_str v := match v with TomlString s => Some s | _ => None end;
|}.

(** Lines of fields, without quotes *)
Fixpoint fields (sep : ascii) (l : list ascii) (cur : list ascii) : list (list ascii) :=
  match l with
  | [] => [cur]
  | c :: l' => if decide (c = sep) then cur :: fields sep l' [] else fields sep l' (cur ++ [c])
  end.
#[export] Instance small_csv : CsvReader := {|
  csv_records rb b :=
    (λ line, Some (string_of_list_ascii <$> fields (ascii_of_nat (Z.to_nat (rb_delimiter rb))) line [])) <$>
      fields (ascii_of_nat 10) (ascii_of_byte <$> b.1) [];
|}.
#[export] Instance rows_postcard : Postcard (list (list bytes)) := small_postcard.
#[export] Instance rows_postcard_laws : PostcardLaws rows_postcard := small_postcard_laws.

Definition args (schema input : string) (name : string) : option string :=
  if decide (name = "schema") then Some schema else if decide (name = "input") then Some input
  else if decide (name = "output") then Some "out" else None.
Definition lines (l : list string) : bytes := as_bytes (String.concat newline l).
Definition table : Disk := mkDisk (list_to_map
  [("people.toml", as_bytes "people"); ("gaps.toml", as_bytes "gaps");
   ("people.csv", lines ["7,secret,ann"; "x,secret,bob"; "-1,secret,eve"]);
   ("gaps.csv", lines ["a,password"; "b"])]) ∅ [] [].
Definition run (schema input : string) := csv_main (BP:=Demo.Demo.profile) (args schema input) table.
Definition decoded (d : Disk) : option (list (list bytes)) := b ← fs_read "out" d; from_postcard b.

Lemma csv_encoded_witness :
  ∃ rows, decoded (run "people.toml" "people.csv").2 =
    Some (replicate 3 (replicate 3 []) ++
      ((λ row, stored [I32; Discard; EncString] row ++ replicate 1 []) <$> filter (λ row, row_ok [I32; Discard; EncString] row = true) rows)).
Proof.
  pose proof (csv_encoded (BP:=Demo.Demo.profile) (args "people.toml" "people.csv") table _ _
    (surjective_pairing (run "people.toml" "people.csv"))) as H.
  assert (is_ok (run "people.toml" "people.csv").1 = true) as Hok by by vm_compute.
  destruct (run "people.toml" "people.csv").1 as [[]|e|p]; [|discriminate..].
  destruct H as (config & schema & rows & b & Hargs & Hfile & Hrows & Hread & Hb & _ & Hfull).
  vm_compute in Hargs. injection Hargs as <-. vm_compute in Hfile. injection Hfile as <-.
  vm_compute in Hrows. injection Hrows as <-. cbn [columns length output_filename] in *.
  eexists. unfold decoded. rewrite Hread. cbn [mbind option_bind]. rewrite Hb. f_equal. f_equal.
  apply Hfull. repeat constructor.
Defined.

(** The two good rows after three empty ones; and with rows of different
    lengths, the password of the first row is in the second one too. *)
Example csv_rows :
  decoded (run "people.toml" "people.csv").2 =
    Some [[[]; []; []]; [[]; []; []]; [[]; []; []];
          [to_le_bytes 4 7; as_bytes "ann"; []]; [to_le_bytes 4 (-1); as_bytes "eve"; []]] ∧
  decoded (run "gaps.toml" "gaps.csv").2 =
    Some [[[]; []]; [[]; []]; [as_bytes "a"; as_bytes "password"]; [as_bytes "b"; as_bytes "password"]].
Proof. split; by vm_compute. Qed.
End SmallCsv.
