(* ===== verification/Primes.v ===== *)
(** * Prime numbers by two programs

    A pipeline of two programs: the first writes the numbers from 2 to a
    limit into a file, the second keeps the prime ones, by the sieve of
    Eratosthenes.  The programs run as WebAssembly, where [usize] has 32 bits
    and a vector at most [i32::MAX] bytes.

    Sources: [sdk/rust-examples/prime-numbers-generator/generate-set/src/main.rs],
    [sdk/rust-examples/prime-numbers-generator/keep-primes/src/main.rs]. *)

From Stdlib Require Import Znumtheory Sorted.
From S2P Require Import Prelude RustFmt RustStr Policy Demo Client Host Programs.
Local Open Scope Z_scope.

(** [anyhow::Error]: a file, a number, a text that is not UTF-8 *)
Inductive PrimesError := FileError (k : ErrorKind) | NumberError (x : string) | TextError.

(** [v.join(",")] *)
Definition join_comma (l : list string) : string := String.concat "," l.

Definition isize_max32 : Z := 2147483647.

Section programs.
Context {BP : BuildProfile} {PL : PolicyLibs} {G : Type} {GF : GuestFiles G}.
Abbreviation P A := (ST G PrimesError A).

Definition FILENAME : string := "/output/number-set.txt".

(** [fs::write(path, content)?] *)
Definition write_text (content : string) : P unit := λ g,
  match guest_write FILENAME (as_bytes content) g with
  | (true, g') => (Ok tt, g')
  | (false, g') => (Err (FileError OtherKind), g')
  end.

(** ** The numbers up to a limit *)

(** The vector of the texts has 12 bytes for each. *)
Definition generate_set_main (args : list string) : P unit :=
  let arg := default "100"%string (args !! 0%nat) in
  let! upper_limit := ok_or (parse_u32 arg) (NumberError arg) in
  let set := seqZ 2 (upper_limit - 1) in
  if isize_max32 <? 12 * len set then panic CapacityOverflow
  else write_text (join_comma (fmt_dec <$> set) ++ newline).

(** ** The sieve *)

(** The inner loop, from [i]; each turn ends nearer to [n]. *)
Fixpoint cross_out (fuel : nat) (n p i : Z) (is_prime : list bool) : ST G PrimesError (list bool) :=
  if i <? n then
    match fuel with
    | O => panic OutOfFuel
    | S fuel' =>
        let! is_prime := index_set is_prime i false in
        let! i := lift (u32_add i p) in
        cross_out fuel' n p i is_prime
    end
  else ret is_prime.

(** The outer loop, from [p] *)
Fixpoint sieve_loop (fuel : nat) (n p : Z) (is_prime : list bool) : ST G PrimesError (list bool) :=
  let! square := lift (u32_mul p p) in
  if square <=? n then
    match fuel with
    | O => panic OutOfFuel
    | S fuel' =>
        let! b := index is_prime p in
        let! is_prime :=
          (if b : bool then
             let! i := lift (u32_mul p 2) in cross_out (Z.to_nat n) n p i is_prime
           else ret is_prime) in
        let! p := lift (u32_add p 1) in
        sieve_loop fuel' n p is_prime
    end
  else ret is_prime.

(** [retain]: the closure indexes the table. *)
Fixpoint retain (is_prime : list bool) (nums : list Z) : ST G PrimesError (list Z) :=
  match nums with
  | [] => ret []
  | x :: nums' =>
      let! b := index is_prime x in
      let! rest := retain is_prime nums' in
      ret (if b : bool then x :: rest else rest)
  end.

Definition sieve_of_eratosthenes (nums : list Z) : ST G PrimesError (list Z) :=
  let! last := (match last nums with Some x => ret x | None => panic SliceOutOfRange end) in
  let! n := lift (u32_add last 1) in
  do! (if isize_max32 <? n then panic CapacityOverflow else ret tt) in
  let is_prime := replicate (Z.to_nat n) true in
  let! is_prime := sieve_loop (Z.to_nat n) n 2 is_prime in
  let! is_prime := index_set is_prime 0 false in
  let! is_prime := index_set is_prime 1 false in
  retain is_prime nums.

Definition keep_primes_main : P unit :=
  let! g := get in
  let! b := match guest_read FILENAME g with
            | ReadBytes b => ret b
            | ReadFails k => throw (FileError k)
            end in
  let! content := ok_or (text_of b) TextError in
  let! num_vec := map_st (λ x, ok_or (parse_u32 x) (NumberError x)) (split_char "," (trim content)) in
  let! num_vec := sieve_of_eratosthenes num_vec in
  write_text (join_comma (fmt_dec <$> num_vec) ++ newline).
End programs.

(** ** The sieve is right *)

#[local] Instance divide_dec : RelDecision Z.divide := Zdivide_dec.

(** No number below [p] divides [x] but itself. *)
Definition survives (p x : Z) : Prop := ∀ d, 2 ≤ d < p → (d | x) → x = d.

(** The table after the candidates below [p] *)
Definition sieved (n p : Z) (t : list bool) : Prop :=
  len t = n ∧ ∀ x, 2 ≤ x < n → t !! Z.to_nat x = Some true ↔ survives p x.

Lemma survives_prime n p x : 2 ≤ p → 2 ≤ x < n → n < p * p → survives p x ↔ prime x.
Proof.
  intros Hp Hx Hn. split.
  - intros Hs. destruct (prime_dec x) as [|Hx']; [done|exfalso].
    destruct (not_prime_divide x ltac:(lia) Hx') as (d & Hd & [k Hk]).
    assert (1 < k < x) by nia.
    destruct (Z.le_gt_cases d k).
    + specialize (Hs d). rewrite Hs in Hd; [lia| |by exists k]. nia.
    + specialize (Hs k). assert (x = k); [|lia]. apply Hs; [nia|exists d; lia].
  - intros Hprime d Hd Hdiv. destruct (prime_divisors x Hprime d Hdiv) as [?|[?|[?|?]]]; lia.
Qed.

(** A candidate that was crossed out adds nothing. *)
Lemma survives_skip p x : 2 ≤ p → 2 ≤ x → ¬ survives p p → survives (p + 1) x ↔ survives p x.
Proof.
  intros Hp Hx Hs. split; intros H d Hd Hdiv; [apply H; [lia|done]|].
  destruct (decide (d = p)) as [->|]; [|apply H; [lia|done]].
  destruct Hs. intros e He Hep. rewrite <- (H e) in He by (by etrans || lia). 
  pose proof (Z.divide_pos_le p x ltac:(lia) Hdiv). lia.
Qed.

Lemma survives_next p x : 2 ≤ p → 2 ≤ x → survives (p + 1) x ↔ survives p x ∧ ¬ (2 * p ≤ x ∧ (p | x)).
Proof.
  intros Hp Hx. split.
  - intros H. split; [intros d Hd; apply H; lia|]. intros [Hle Hdiv].
    rewrite (H p) in Hle by (lia || done). lia.
  - intros [H Hm] d Hd Hdiv. destruct (decide (d = p)) as [->|]; [|apply H; [lia|done]].
    destruct Hdiv as [k ->]. assert (k = 1) as ->; [|lia].
    destruct (decide (2 ≤ k)); [|nia]. destruct Hm. split; [nia|by exists k].
Qed.

(** ** Numbers in order *)

Lemma sublist_sorted {A} (R : A → A → Prop) l k : l `sublist_of` k → StronglySorted R k → StronglySorted R l.
Proof.
  induction 1 as [|x l k Hs IH|x l k Hs IH]; intros Hk; [constructor| |].
  - apply StronglySorted_inv in Hk as [Hk HF]. constructor; [by apply IH|].
    apply sublist_submseteq in Hs. rewrite Forall_forall in *. eauto using elem_of_submseteq.
  - apply StronglySorted_inv in Hk as [Hk _]. by apply IH.
Qed.

Lemma seqZ_sorted m n : StronglySorted Z.lt (seqZ m n).
Proof.
  destruct (decide (0 ≤ n)) as [Hn|Hn]; [|rewrite seqZ_nil by lia; constructor].
  rewrite <- (Z2Nat.id n) by done. generalize (Z.to_nat n). intros k. revert m.
  induction k as [|k IH]; intros m; [rewrite seqZ_nil by lia; constructor|].
  rewrite seqZ_cons by lia. rewrite Nat2Z.inj_succ, Z.pred_succ. constructor; [apply IH|].
  apply Forall_forall. intros x [? ?]%elem_of_seqZ. lia.
Qed.

(** ** Texts of numbers *)

Abbreviation chars := list_ascii_of_string.

Lemma split_char_word c w :
  Forall (λ x, x ≠ c) (chars w) → split_char c w = [w].
Proof.
  induction w as [|x w IH]; simpl; [done|]. intros [Hx HF]%Forall_cons.
  rewrite decide_False by done. by rewrite IH.
Qed.

Lemma split_char_cons c w s :
  Forall (λ x, x ≠ c) (chars w) → split_char c (w ++ String c s) = w :: split_char c s.
Proof.
  induction w as [|x w IH]; simpl; [by rewrite decide_True by done|]. intros [Hx HF]%Forall_cons.
  rewrite decide_False by done. by rewrite IH.
Qed.

(** Texts without the separator are found again in their join. *)
Lemma split_join w ws :
  Forall (λ w, Forall (λ x, x ≠ ","%char) (chars w)) (w :: ws) → split_char "," (join_comma (w :: ws)) = w :: ws.
Proof.
  unfold join_comma. revert w. induction ws as [|w' ws IH]; intros w [Hw HF]%Forall_cons; [by apply split_char_word|].
  change (String.concat "," (w :: w' :: ws)) with (w ++ String "," (String.concat "," (w' :: ws)))%string.
  rewrite split_char_cons by done. by rewrite IH.
Qed.

Lemma join_graphic ws :
  Forall (λ w, Forall graphic (chars w)) ws → Forall graphic (chars (join_comma ws)).
Proof.
  unfold join_comma. induction ws as [|w [|w' ws] IH]; intros HF; [constructor|by apply Forall_cons in HF as [? _]|].
  apply Forall_cons in HF as [Hw HF].
  change (String.concat "," (w :: w' :: ws)) with (w ++ String "," (String.concat "," (w' :: ws)))%string.
  rewrite list_ascii_app. apply Forall_app. split; [done|]. cbn [chars]. apply Forall_cons.
  split; [unfold graphic; change (nat_of_ascii ",") with 44%nat; lia|by apply IH].
Qed.

(** A line of visible characters *)
Lemma trim_line w :
  w ≠ ""%string → Forall graphic (chars w) → trim (w ++ newline) = w.
Proof.
  intros Hne HF. unfold trim. rewrite list_ascii_app.
  assert (∀ l, Forall graphic l → trim_end_bytes (l ++ chars newline) = l) as Hend.
  { induction l as [|c l IH]; [done|]. intros [Hc Hl]%Forall_cons. cbn [app trim_end_bytes trim_start_bytes].
    rewrite ws_len_graphic by done. f_equal. by apply IH. }
  destruct w as [|c w]; [done|]. cbn [list_ascii_of_string app] in *. apply Forall_cons in HF as [Hc HF].
  cbn [trim_start_bytes]. rewrite ws_len_graphic by done.
  change (c :: chars w ++ chars newline) with ((c :: chars w) ++ chars newline). rewrite Hend by by constructor.
  simpl. by rewrite string_of_list_ascii_of_string.
Qed.

Lemma utf8_line w : Forall graphic (chars w) → utf8_valid (w ++ newline) = true.
Proof.
  induction w as [|c w IH]; [done|]. intros [Hc Hw]%Forall_cons. simpl.
  replace (in_range 0 127 c) with true; [by apply IH|]. symmetry. unfold in_range, graphic, nat_of_ascii in *.
  apply andb_true_iff. split; apply N.leb_le; lia.
Qed.

Lemma fmt_dec_words l :
  Forall (λ n, 0 ≤ n) l →
  Forall (λ w, Forall graphic (chars w)) (fmt_dec <$> l) ∧
  Forall (λ w, Forall (λ x, x ≠ ","%char) (chars w)) (fmt_dec <$> l).
Proof.
  intros HF. rewrite !Forall_fmap. split; (eapply Forall_impl; [exact HF|]); intros n Hn; simpl;
    (eapply Forall_impl; [by apply fmt_dec_digits|]); [apply is_digit_graphic|].
  intros c [d Hd] ->. done.
Qed.

Section runs.
Context {BP : BuildProfile} {PL : PolicyLibs} {G : Type} {GF : GuestFiles G}.
Implicit Types (t : list bool) (g : G).

Lemma cross_out_run fuel n p k t g :
  2 ≤ p → 0 ≤ k → len t = n → n ≤ isize_max32 → p ≤ n → n - p * k ≤ Z.of_nat fuel →
  ∃ t', cross_out fuel n p (p * k) t g = (Ok t', g) ∧ len t' = n ∧
    ∀ x, 0 ≤ x < n → t' !! Z.to_nat x =
      if decide (p * k ≤ x ∧ (p | x)) then Some false else t !! Z.to_nat x.
Proof.
  intros Hp. unfold isize_max32. revert k t. induction fuel as [|fuel IH]; intros k t Hk Ht Hn Hpn Hf; simpl.
  { destruct (Z.ltb_spec (p * k) n); [lia|]. exists t. split_and!; [done..|].
    intros x Hx. rewrite decide_False by lia. done. }
  destruct (Z.ltb_spec (p * k) n) as [Hlt|].
  2:{ exists t. split_and!; [done..|]. intros x Hx. rewrite decide_False by lia. done. }
  unfold bind at 1. rewrite index_set_run by nia. unfold bind at 1, lift at 1, u32_add.
  rewrite unsigned_add_small by nia. replace (p * k + p) with (p * (k + 1)) by lia.
  destruct (IH (k + 1) (<[Z.to_nat (p * k) := false]> t)) as (t' & Hrun & Hlen & Hlook);
    [lia|unfold len in *; by rewrite length_insert|lia|lia|lia|].
  exists t'. split_and!; [done..|]. intros x Hx. rewrite Hlook by done.
  destruct (decide (x = p * k)) as [->|Hne].
  - rewrite decide_False by lia. rewrite list_lookup_insert_eq by (unfold len in Ht; lia).
    rewrite decide_True; [done|]. split; [lia|by exists k; lia].
  - rewrite list_lookup_insert_ne by nia. 
    destruct (decide (p * (k + 1) ≤ x ∧ (p | x))) as [[? ?]|H1]; destruct (decide (p * k ≤ x ∧ (p | x))) as [[? [j Hj]]|H2];
      try done; [destruct H2; split; [lia|done]|].
    destruct H1. split; [|by exists j]. assert (k ≤ j) by nia.
    assert (k ≠ j) by (intros ->; lia). nia.
Qed.

Lemma sieve_step n p t g :
  2 ≤ p → p * p ≤ n → n ≤ isize_max32 → sieved n p t →
  ∃ t', (let! b := index t p in
         if b : bool then let! i := lift (u32_mul p 2) in cross_out (Z.to_nat n) n p i t else ret t) g = (Ok t', g) ∧
    sieved n (p + 1) t'.
Proof.
  intros Hp Hsq Hn [Hlen Ht]. unfold isize_max32 in Hn. unfold bind at 1.
  assert (p < n) by nia.
  destruct (lookup_lt_is_Some_2 t (Z.to_nat p)) as [b Hb]; [unfold len in Hlen; lia|].
  rewrite (index_run _ _ true) by (unfold len in Hlen; lia). rewrite (nth_lookup_Some _ _ _ _ Hb).
  destruct b.
  - unfold bind at 1, lift, u32_mul. rewrite unsigned_mul_small by lia.
    destruct (cross_out_run (Z.to_nat n) n p 2 t g) as (t' & -> & Hlen' & Hlook); [unfold isize_max32; lia..|].
    exists t'. split; [done|]. split; [done|]. intros x Hx. rewrite Hlook, survives_next by lia. rewrite <- Ht by lia.
    rewrite (Z.mul_comm p 2). case_decide as Hd; [split; [done|intros [_ []]; done]|].
    split; [intros; by split|by intros [? _]].
  - exists t. split; [done|]. split; [done|]. intros x Hx. rewrite survives_skip; [by apply Ht|lia|lia|].
    rewrite <- Ht by lia. by rewrite Hb.
Qed.

Lemma sieve_loop_run fuel n p t g :
  2 ≤ p → n ≤ isize_max32 → (p - 1) * (p - 1) ≤ n ∨ p = 2 → n - p < Z.of_nat fuel ∨ n < 4 → sieved n p t →
  ∃ t', sieve_loop fuel n p t g = (Ok t', g) ∧ len t' = n ∧ ∀ x, 2 ≤ x < n → t' !! Z.to_nat x = Some true ↔ prime x.
Proof.
  unfold isize_max32. revert p t. induction fuel as [|fuel IH]; intros p t Hp Hn Hpn Hf Ht;
    cbn [sieve_loop]; unfold bind at 1, lift at 1, u32_mul at 1; (rewrite unsigned_mul_small by nia).
  - destruct (Z.leb_spec (p * p) n); [nia|]. exists t. destruct Ht as [Hlen Ht]. split_and!; [done..|].
    intros x Hx. rewrite Ht by done. by apply (survives_prime n).
  - destruct (Z.leb_spec (p * p) n) as [Hsq|].
    2:{ exists t. destruct Ht as [Hlen Ht]. split_and!; [done..|].
        intros x Hx. rewrite Ht by done. by apply (survives_prime n). }
    destruct (sieve_step n p t g) as (t1 & Hrun & Ht1); [done..|].
    destruct (IH (p + 1) t1) as (t' & Hloop & Hlen & Hprime); [lia|lia|left; nia|nia|done|].
    exists t'. split_and!; [|done|done]. unfold bind at 1 in Hrun. unfold bind at 1.
    destruct (index t p g) as [[b| |] g1]; [|done..]. unfold bind at 1. rewrite Hrun.
    unfold bind at 1, lift at 1, u32_add. rewrite unsigned_add_small by nia. exact Hloop.
Qed.

Lemma retain_run t nums g :
  Forall (λ x, 0 ≤ x < len t) nums →
  retain t nums g = (Ok (filter (λ x, t !! Z.to_nat x = Some true) nums), g).
Proof.
  induction nums as [|x nums IH]; intros HF; [done|]. apply Forall_cons in HF as [Hx HF]. simpl.
  destruct (lookup_lt_is_Some_2 t (Z.to_nat x)) as [b Hb]; [unfold len in Hx; lia|].
  unfold bind at 1. rewrite (index_run _ _ true) by (unfold len in Hx; lia). rewrite (nth_lookup_Some _ _ _ _ Hb).
  unfold bind at 1. rewrite IH by done. destruct b; unfold ret.
  - by rewrite filter_cons_True by done.
  - by rewrite filter_cons_False by congruence.
Qed.

(** The sieve keeps the primes, whatever the numbers, when none is above the
    last one. *)
Lemma sieve_run nums z g :
  last nums = Some z → 1 ≤ z < isize_max32 → Forall (λ x, 0 ≤ x ≤ z) nums →
  ∃ ps, sieve_of_eratosthenes nums g = (Ok ps, g) ∧ ps `sublist_of` nums ∧
    ∀ x, x ∈ ps ↔ x ∈ nums ∧ prime x.
Proof.
  intros Hlast Hz HF. unfold sieve_of_eratosthenes, isize_max32 in *. rewrite Hlast.
  unfold bind at 1, ret at 1. unfold bind at 1, lift at 1, u32_add. rewrite unsigned_add_small by lia.
  destruct (Z.ltb_spec 2147483647 (z + 1)); [lia|]. unfold bind at 1, ret at 1.
  destruct (sieve_loop_run (Z.to_nat (z + 1)) (z + 1) 2 (replicate (Z.to_nat (z + 1)) true) g)
    as (t & Hloop & Hlen & Ht); [lia|unfold isize_max32; lia|by right|lia| |].
  { split; [unfold len; rewrite length_replicate; lia|]. intros x Hx.
    rewrite lookup_replicate. split; [intros _ d Hd; lia|intros _; split; [done|lia]]. }
  unfold bind at 1. rewrite Hloop. unfold bind at 1. rewrite index_set_run by lia.
  unfold bind at 1. rewrite index_set_run by (unfold len in *; rewrite length_insert; lia).
  assert (len (<[Z.to_nat 1 := false]> (<[Z.to_nat 0 := false]> t)) = z + 1) as Hlen'
    by (unfold len in *; by rewrite !length_insert).
  rewrite retain_run.
  2:{ eapply Forall_impl; [exact HF|]. intros x Hx. cbv beta in *. rewrite Hlen'. lia. }
  eexists. split; [done|]. split; [apply sublist_filter|]. intros x. rewrite list_elem_of_filter.
  enough (x ∈ nums → (<[Z.to_nat 1:=false]> (<[Z.to_nat 0:=false]> t) !! Z.to_nat x = Some true ↔ prime x)) by tauto.
  intros Hx.
  assert (0 ≤ x ≤ z) as Hx' by (by apply (proj1 (Forall_forall _ _) HF)).
  destruct (decide (x < 2)) as [Hx2|Hx2].
  - split; [|intros []; lia].
    assert (x = 0 ∨ x = 1) as [-> | ->] by lia.
    + rewrite list_lookup_insert_ne, list_lookup_insert_eq by (unfold len in Hlen; lia). done.
    + rewrite list_lookup_insert_eq by (rewrite length_insert; unfold len in Hlen; lia). done.
  - rewrite !list_lookup_insert_ne by lia. apply Ht. lia.
Qed.

(** What the second program reads when the first has written some numbers *)
Lemma parse_all l g :
  Forall (λ n, 0 ≤ n < u32_bound) l →
  map_st (λ x, ok_or (parse_u32 x) (NumberError x)) (fmt_dec <$> l) g = (Ok l, g).
Proof.
  induction l as [|n l IH]; [done|]. intros [Hn HF]%Forall_cons. rewrite fmap_cons. cbn [map_st].
  unfold bind at 1. rewrite parse_u32_fmt_dec by done. unfold ok_or at 1, ret at 1, bind at 1. by rewrite IH.
Qed.

Lemma numbers_text n ns :
  Forall (λ n, 0 ≤ n < u32_bound) (n :: ns) →
  text_of (as_bytes (join_comma (fmt_dec <$> n :: ns) ++ newline)) = Some (join_comma (fmt_dec <$> n :: ns) ++ newline)%string ∧
  split_char "," (trim (join_comma (fmt_dec <$> n :: ns) ++ newline)) = fmt_dec <$> n :: ns.
Proof.
  intros HF. destruct (fmt_dec_words (n :: ns)) as [Hg Hc]; [by eapply Forall_impl; [exact HF|]; simpl; lia|].
  assert (join_comma (fmt_dec <$> n :: ns) ≠ ""%string) as Hne.
  { apply Forall_cons in HF as [Hn _]. pose proof (fmt_dec_nonempty n ltac:(lia)) as Hd.
    unfold join_comma. destruct ns; cbn; by destruct (fmt_dec n). }
  apply join_graphic in Hg. split.
  - unfold text_of, as_bytes. rewrite String.string_of_list_byte_of_string. by rewrite utf8_line.
  - rewrite trim_line by done. by rewrite fmap_cons, split_join.
Qed.

Lemma keep_primes_run g b content :
  guest_read FILENAME g = ReadBytes b → text_of b = Some content →
  keep_primes_main g =
    (let! num_vec := map_st (λ x, ok_or (parse_u32 x) (NumberError x)) (split_char "," (trim content)) in
     let! num_vec := sieve_of_eratosthenes num_vec in
     write_text (join_comma (fmt_dec <$> num_vec) ++ newline)) g.
Proof.
  intros Hb Ht. unfold keep_primes_main. unfold bind at 1, get at 1. rewrite Hb.
  unfold bind at 1. cbv iota. unfold ret at 1. unfold bind at 1. by rewrite Ht.
Qed.

(** C40: for a limit from 2 to 178956971, the two programs, run one after the
    other on an enclave's files, leave in the file the text of exactly the
    prime numbers up to the limit, in order; the loops of the sieve end, no
    index is out of range and no product or sum overflows.  For a limit below
    2, the second program fails on the empty list of the first. *)
Theorem primes_generated {GL : GuestFilesLaws GF} limit g g1 :
  0 ≤ limit ≤ 178956971 → generate_set_main [fmt_dec limit] g = (Ok tt, g1) →
  if decide (limit < 2) then keep_primes_main g1 = (Err (NumberError ""), g1)
  else ∃ primes, (∀ x, x ∈ primes ↔ 2 ≤ x ≤ limit ∧ prime x) ∧ StronglySorted Z.lt primes ∧
    keep_primes_main g1 = write_text (join_comma (fmt_dec <$> primes) ++ newline) g1.
Proof.
  intros Hlimit. unfold generate_set_main.
  change (default "100"%string ([fmt_dec limit] !! 0%nat)) with (fmt_dec limit). unfold bind at 1, ok_or.
  rewrite parse_u32_fmt_dec by lia. unfold isize_max32.
  destruct (Z.ltb_spec 2147483647 (12 * len (seqZ 2 (limit - 1)))) as [Hbig|_]; [done|].
  unfold write_text at 1. destruct (guest_write _ _ g) as [[] g'] eqn:Hw; [|done]. intros [= <-].
  apply guest_read_written in Hw.
  case_decide as Hsmall.
  { rewrite seqZ_nil in Hw by lia. by rewrite (keep_primes_run _ _ newline Hw). }
  set (ns := seqZ (Z.succ 2) (Z.pred (limit - 1))).
  assert (seqZ 2 (limit - 1) = 2 :: ns) as Hseq by (apply seqZ_cons; lia). rewrite Hseq in Hw.
  assert (Forall (λ n, 0 ≤ n < u32_bound) (2 :: ns)) as HF.
  { rewrite <- Hseq. apply Forall_seqZ. lia. }
  destruct (numbers_text 2 ns HF) as [Ht Hs]. rewrite (keep_primes_run _ _ _ Hw Ht).
  unfold bind at 1. rewrite Hs, parse_all by done.
  destruct (sieve_run (2 :: ns) limit g') as (ps & Hrun & Hsub & Hps).
  - rewrite <- Hseq. rewrite last_lookup, length_seqZ.
    apply lookup_seqZ. lia.
  - unfold isize_max32. lia.
  - rewrite <- Hseq. apply Forall_seqZ. lia.
  - exists ps. split_and!.
    + intros x. rewrite Hps. rewrite <- Hseq. rewrite elem_of_seqZ.
      split; intros [? ?]; (split; [lia|done]).
    + eapply sublist_sorted; [exact Hsub|]. rewrite <- Hseq. apply seqZ_sorted.
    + unfold bind at 1. by rewrite Hrun.
Qed.
End runs.

(** ** A small run *)

Module SmallPrimes.
Import Demo.Demo SmallGuest.

Definition generated : gmap string bytes := (generate_set_main [fmt_dec 30] ∅).2.

Lemma primes_generated_witness :
  ∃ primes, (∀ x, x ∈ primes ↔ 2 ≤ x ≤ 30 ∧ prime x) ∧ StronglySorted Z.lt primes ∧
    keep_primes_main generated = write_text (join_comma (fmt_dec <$> primes) ++ newline) generated.
Proof.
  apply (primes_generated 30 ∅ generated); [lia|].
  rewrite (surjective_pairing (generate_set_main [fmt_dec 30] ∅)). by f_equal.
Defined.

Example primes_to_30 :
  text_of <$> ((keep_primes_main generated).2 !! FILENAME) =
    Some (Some ("2,3,5,7,11,13,17,19,23,29" ++ newline)%string).
Proof. by vm_compute. Qed.
End SmallPrimes.
