(* ===== verification/Huffman.v ===== *)
(** * Huffman codes

    The program that encodes a text by a Huffman tree of its characters,
    decodes it again, and writes both.

    Source: [sdk/rust-examples/huffman-encoding/src/main.rs].

    A [String] is the list of its characters, each its Unicode number. *)

From S2P Require Import Prelude RustFmt Policy Demo Client Host Programs.
Local Open Scope Z_scope.

(** ** Characters *)

Definition REPLACEMENT : Z := 65533.
Definition between (lo hi a : Z) : bool := (lo <=? a) && (a <=? hi).
Definition cont (a : Z) : bool := between 128 191 a.
(** The second byte of a character, by the first *)
Definition second3 (a b : Z) : bool :=
  if a =? 224 then between 160 191 b else if a =? 237 then between 128 159 b else cont b.
Definition second4 (a b : Z) : bool :=
  if a =? 240 then between 144 191 b else if a =? 244 then between 128 143 b else cont b.

(** [String::from_utf8_lossy]: what cannot begin or go on a character is
    replaced, a broken character by one replacement. *)
Fixpoint from_utf8_lossy (l : list Z) : list Z :=
  match l with
  | [] => []
  | a :: l1 =>
      if a <? 128 then a :: from_utf8_lossy l1
      else if between 194 223 a then
        match l1 with
        | [] => [REPLACEMENT]
        | b :: l2 =>
            if cont b then ((a - 192) * 64 + (b - 128)) :: from_utf8_lossy l2
            else REPLACEMENT :: from_utf8_lossy l1
        end
      else if between 224 239 a then
        match l1 with
        | [] => [REPLACEMENT]
        | b :: l2 =>
            if second3 a b then
              match l2 with
              | [] => [REPLACEMENT]
              | c :: l3 =>
                  if cont c then ((a - 224) * 4096 + (b - 128) * 64 + (c - 128)) :: from_utf8_lossy l3
                  else REPLACEMENT :: from_utf8_lossy l2
              end
            else REPLACEMENT :: from_utf8_lossy l1
        end
      else if between 240 244 a then
        match l1 with
        | [] => [REPLACEMENT]
        | b :: l2 =>
            if second4 a b then
              match l2 with
              | [] => [REPLACEMENT]
              | c :: l3 =>
                  if cont c then
                    match l3 with
                    | [] => [REPLACEMENT]
                    | d :: l4 =>
                        if cont d then
                          ((a - 240) * 262144 + (b - 128) * 4096 + (c - 128) * 64 + (d - 128)) :: from_utf8_lossy l4
                        else REPLACEMENT :: from_utf8_lossy l3
                    end
                  else REPLACEMENT :: from_utf8_lossy l2
              end
            else REPLACEMENT :: from_utf8_lossy l1
        end
      else REPLACEMENT :: from_utf8_lossy l1
  end.

(** The bytes of a character in UTF-8 *)
Definition char_bytes (c : Z) : bytes :=
  byte_of <$>
    (if c <? 128 then [c]
     else if c <? 2048 then [192 + c / 64; 128 + c mod 64]
     else if c <? 65536 then [224 + c / 4096; 128 + (c / 64) mod 64; 128 + c mod 64]
     else [240 + c / 262144; 128 + (c / 4096) mod 64; 128 + (c / 64) mod 64; 128 + c mod 64]).
Definition text_bytes (s : list Z) : bytes := concat (char_bytes <$> s).

(** ** Trees *)

Inductive Node := mkNode (freq : Z) (ch : option Z) (left right : option Node).
Definition freq (n : Node) : Z := let 'mkNode f _ _ _ := n in f.
Definition ch (n : Node) : option Z := let 'mkNode _ c _ _ := n in c.
Definition node_left (n : Node) : option Node := let 'mkNode _ _ l _ := n in l.
Definition node_right (n : Node) : option Node := let 'mkNode _ _ _ r := n in r.

Definition new_node (f : Z) (c : option Z) : Node := mkNode f c None None.

Definition zero : Z := 48.
Definition one : Z := 49.

Fixpoint assign_codes (p : Node) (hm : gmap Z (list Z)) (s : list Z) : gmap Z (list Z) :=
  match p with
  | mkNode _ (Some c) _ _ => <[c := s]> hm
  | mkNode _ None l r =>
      let hm := match l with Some l => assign_codes l hm (s ++ [zero]) | None => hm end in
      match r with Some r => assign_codes r hm (s ++ [one]) | None => hm end
  end.

(** [p.sort_by(|a, b| b.freq.cmp(&a.freq))]: the largest first, equals in
    their order *)
Fixpoint insert_node (x : Node) (l : list Node) : list Node :=
  match l with
  | [] => [x]
  | y :: l' => if freq y <=? freq x then x :: l else y :: insert_node x l'
  end.
Definition sort_nodes (l : list Node) : list Node := foldr insert_node [] l.

(** [p.pop()] *)
Fixpoint pop {A} (l : list A) : option (A * list A) :=
  match l with
  | [] => None
  | x :: l' => match pop l' with None => Some (x, []) | Some (y, k) => Some (y, x :: k) end
  end.

Section program.
Context {BP : BuildProfile} {HO : HashOrder} {G : Type} {GF : GuestFiles G}.
Abbreviation P A := (ST G ErrorKind A).

Definition INPUT_FILENAME : string := "/input/huffman_example_input.txt".
Definition OUTPUT_FILENAME : string := "/output/encoded_output.txt".

(** [hm.entry(ch).or_insert(0)], and one more *)
Definition frequency (s : list Z) : P (gmap Z Z) :=
  fold_st (λ hm c, let! n := lift (u32_add (default 0 (hm !! c)) 1) in ret (<[c := n]> hm)) s ∅.

(** The loop of [main]; each turn makes one tree of two. *)
Fixpoint join_trees (fuel : nat) (p : list Node) : P (list Node) :=
  if Nat.ltb 1 (length p) then
    match fuel with
    | O => panic OutOfFuel
    | S fuel' =>
        let! x := expect (pop (sort_nodes p)) in
        let '(a, p) := x in
        let! y := expect (pop p) in
        let '(b, p) := y in
        let! f := lift (u32_add (freq a) (freq b)) in
        join_trees fuel' (p ++ [mkNode f None (Some a) (Some b)])
    end
  else ret p.

Definition encode_string (s : list Z) (hm : gmap Z (list Z)) : P (list Z) :=
  fold_st (λ r c, let! t := expect (hm !! c) in ret (r ++ t)) s [].

(** The loop over the characters, with [nodeptr] and [retval]; a child that
    is not there leaves the pointer where it is. *)
Fixpoint decode_from (root : Node) (s : list Z) (nodeptr : Node) (retval : list Z) : list Z :=
  match s with
  | [] => retval
  | x :: s' =>
      let nodeptr := if x =? zero then default nodeptr (node_left nodeptr) else default nodeptr (node_right nodeptr) in
      match ch nodeptr with
      | Some c => decode_from root s' root (retval ++ [c])
      | None => decode_from root s' nodeptr retval
      end
  end.
Definition decode_string (s : list Z) (root : Node) : list Z := decode_from root s root [].

(** [fs::write(OUTPUT_FILENAME, ret)?] *)
Definition write_output (text : list Z) : P unit := λ g,
  match guest_write OUTPUT_FILENAME (text_bytes text) g with
  | (true, g') => (Ok tt, g')
  | (false, g') => (Err OtherKind, g')
  end.

Definition huffman_main : P unit :=
  let! g := get in
  let! file_vec := match guest_read INPUT_FILENAME g with
                   | ReadBytes b => ret b
                   | ReadFails k => throw k
                   end in
  let msg := from_utf8_lossy (byte_val <$> file_vec) in
  let! hm := frequency msg in
  let p := (λ x, new_node x.2 (Some x.1)) <$> hash_iter hm in
  let! p := join_trees (length p) p in
  let! x := expect (pop p) in
  let root := x.1 in
  let hm := assign_codes root ∅ [] in
  let! enc := encode_string msg hm in
  let dec := decode_string enc root in
  write_output (enc ++ [10; 10] ++ dec).
End program.

(** * Properties of the Huffman program

    The text decoded is the text encoded, when it has two characters at least.

    Source: [sdk/rust-examples/huffman-encoding/src/main.rs]. *)

Local Open Scope Z_scope.

(** ** Trees *)

(** The trees the program makes: leaves with a character, and inner nodes with
    two children. *)
Inductive tree : Node → Prop :=
  | tree_leaf f c : tree (mkNode f (Some c) None None)
  | tree_inner f l r : tree l → tree r → tree (mkNode f None (Some l) (Some r)).

Fixpoint leaves (n : Node) : list Z :=
  match n with
  | mkNode _ c l r =>
      option_list c ++ match l with Some l => leaves l | None => [] end ++
        match r with Some r => leaves r | None => [] end
  end.

(** The way to a leaf *)
Inductive path_to : Node → list Z → Z → Prop :=
  | path_here f c l r : path_to (mkNode f (Some c) l r) [] c
  | path_left f l r p c : path_to l p c → path_to (mkNode f None (Some l) r) (zero :: p) c
  | path_right f l r p c : path_to r p c → path_to (mkNode f None l (Some r)) (one :: p) c.

Lemma path_leaf t p c : path_to t p c → c ∈ leaves t.
Proof.
  induction 1; simpl; rewrite ?elem_of_app, ?elem_of_cons; auto.
Qed.

Lemma assign_other t c hm s : tree t → c ∉ leaves t → assign_codes t hm s !! c = hm !! c.
Proof.
  intros Ht. revert hm s. induction Ht as [f c'|f l r Hl IHl Hr IHr]; intros hm s; simpl.
  - intros Hc. rewrite lookup_insert_ne; [done|]. intros ->. by apply Hc, list_elem_of_here.
  - rewrite elem_of_app. intros Hc. rewrite IHr, IHl by naive_solver. done.
Qed.

(** Each leaf gets the way to it as its code. *)
Lemma assign_codes_path t hm s :
  tree t → NoDup (leaves t) →
  ∀ c, c ∈ leaves t → ∃ p, path_to t p c ∧ assign_codes t hm s !! c = Some (s ++ p).
Proof.
  intros Ht. revert hm s. induction Ht as [f c'|f l r Hl IHl Hr IHr]; intros hm s Hnd c; simpl.
  - intros ->%list_elem_of_singleton. exists []. split; [constructor|]. by rewrite lookup_insert_eq, app_nil_r.
  - simpl in Hnd. apply NoDup_app in Hnd as (Hndl & Hdis & Hndr). intros [Hc|Hc]%elem_of_app.
    + destruct (IHl hm (s ++ [zero]) Hndl c Hc) as (p & Hp & Hlook). exists (zero :: p).
      split; [by constructor|]. rewrite assign_other by auto. by rewrite Hlook, <- app_assoc.
    + destruct (IHr (assign_codes l hm (s ++ [zero])) (s ++ [one]) Hndr c Hc) as (p & Hp & Hlook). exists (one :: p).
      split; [by constructor|]. by rewrite Hlook, <- app_assoc.
Qed.

(** A code leads from its node to its character, and back to the root. *)
Lemma decode_path root t p c rest retval :
  tree t → path_to t p c → p ≠ [] → decode_from root (p ++ rest) t retval = decode_from root rest root (retval ++ [c]).
Proof.
  intros Ht Hp. revert retval. induction Hp as [|f l r p c Hp IH|f l r p c Hp IH]; intros retval Hne; [done|..];
    inversion Ht; subst; cbn [app decode_from]; inversion Hp; subst; simpl; try done; by rewrite <- IH.
Qed.

(** No code begins another. *)
Lemma path_prefix t p q c d : path_to t p c → path_to t q d → p `prefix_of` q → p = q ∧ c = d.
Proof.
  intros Hp. revert q d. induction Hp as [|f l r p c Hp IH|f l r p c Hp IH]; intros q d Hq Hpre; inversion Hq; subst.
  1: done.
  all: try (by apply prefix_nil_not in Hpre).
  all: try (by apply prefix_cons_inv_1 in Hpre).
  all: apply prefix_cons_inv_2 in Hpre; edestruct IH as [-> ->]; [done|done|done].
Qed.

(** The codes of a text, one after the other *)
Lemma decode_codes root (code : Z → list Z) msg retval :
  tree root → Forall (λ c, path_to root (code c) c ∧ code c ≠ []) msg →
  decode_from root (concat (code <$> msg)) root retval = retval ++ msg.
Proof.
  intros Ht. revert retval. induction msg as [|c msg IH]; intros retval HF; [by rewrite app_nil_r|].
  apply Forall_cons in HF as [[Hp Hne] HF]. simpl. rewrite (decode_path root root _ c) by done.
  rewrite IH by done. by rewrite <- app_assoc.
Qed.

(** ** The loop that joins trees *)

Definition total (l : list Node) : Z := foldr (λ n acc, freq n + acc) 0 l.

Lemma insert_node_perm x l : insert_node x l ≡ₚ x :: l.
Proof.
  induction l as [|y l IH]; simpl; [done|]. destruct (freq y <=? freq x); [done|]. rewrite IH. apply perm_swap.
Qed.
Lemma sort_nodes_perm l : sort_nodes l ≡ₚ l.
Proof. induction l as [|x l IH]; simpl; [done|]. by rewrite insert_node_perm, IH. Qed.

Lemma pop_spec {A} (l : list A) : match pop l with Some (x, k) => l = k ++ [x] | None => l = [] end.
Proof.
  induction l as [|x l IH]; [done|]. simpl. destruct (pop l) as [[y k]|]; by rewrite IH.
Qed.

Lemma total_app l k : total (l ++ k) = total l + total k.
Proof. unfold total. induction l as [|x l IH]; simpl; [done|]. rewrite IH. lia. Qed.
Lemma total_perm l k : l ≡ₚ k → total l = total k.
Proof. unfold total. induction 1; simpl in *; lia. Qed.
Lemma total_nonneg l : Forall (λ n, 0 ≤ freq n) l → 0 ≤ total l.
Proof. unfold total. induction 1; simpl in *; lia. Qed.

(** The sum of the frequencies, and what they count *)
Definition weight (m : gmap Z Z) : Z := map_fold (λ _ n acc, n + acc) 0 m.
Definition counts (msg : list Z) (hm : gmap Z Z) : Prop :=
  weight hm = len msg ∧ (∀ c n, hm !! c = Some n → 0 ≤ n) ∧ ∀ c, is_Some (hm !! c) ↔ c ∈ msg.

Lemma weight_delete (m : gmap Z Z) k n : m !! k = Some n → weight m = n + weight (delete k m).
Proof. intros Hk. apply (map_fold_delete_L (λ _ n acc, n + acc)); [|done]. intros. lia. Qed.

Lemma weight_nonneg (m : gmap Z Z) : (∀ c n, m !! c = Some n → 0 ≤ n) → 0 ≤ weight m.
Proof.
  induction m as [|k n m Hk IH] using map_ind; intros Hm; [done|].
  rewrite (weight_delete _ k n), delete_insert_id by (done || apply lookup_insert_eq).
  pose proof (Hm k n ltac:(apply lookup_insert_eq)). enough (0 ≤ weight m) by lia.
  apply IH. intros k' n' Hk'. apply (Hm k'). rewrite lookup_insert_ne; [done|]. intros ->. congruence.
Qed.

Lemma counts_at_most msg hm c : counts msg hm → 0 ≤ default 0 (hm !! c) ≤ len msg.
Proof.
  intros (Hsum & Hpos & _). destruct (hm !! c) as [n|] eqn:Hc; simpl; [|pose proof (len_nonneg msg); lia].
  rewrite <- Hsum, (weight_delete _ _ _ Hc). split; [by eapply Hpos|].
  enough (0 ≤ weight (delete c hm)) by lia. apply weight_nonneg. intros k m [_ Hk]%lookup_delete_Some. by eapply Hpos.
Qed.

Section runs.
Context {BP : BuildProfile} {HO : HashOrder} {HL : HashOrderLaws HO} {G : Type} {GF : GuestFiles G}.
Implicit Type g : G.

(** One tree is left, with all the leaves. *)
Lemma join_trees_run fuel p g :
  (length p ≤ fuel)%nat → p ≠ [] → Forall tree p → Forall (λ n, 0 ≤ freq n) p → total p < u32_bound →
  ∃ root, join_trees fuel p g = (Ok [root], g) ∧ tree root ∧ leaves root ≡ₚ p ≫= leaves ∧
    ((1 < length p)%nat → ch root = None).
Proof.
  revert p. induction fuel as [|fuel IH]; intros p Hlen Hne Ht Hf Htot; [destruct p; [done|simpl in Hlen; lia]|]. simpl.
  destruct (Nat.ltb_spec 1 (length p)) as [H1|H1].
  2:{ destruct p as [|root [|]]; [done| |simpl in H1; lia]. exists root.
      apply Forall_cons in Ht as [Ht _]. split_and!; [done|done| |simpl; lia]. simpl. by rewrite app_nil_r. }
  pose proof (sort_nodes_perm p) as Hperm. pose proof (Permutation_length Hperm) as Hplen.
  pose proof (pop_spec (sort_nodes p)) as Hpop.
  destruct (pop (sort_nodes p)) as [[a p1]|]; [|rewrite Hpop in Hplen; simpl in Hplen; lia].
  pose proof (pop_spec p1) as Hpop1.
  destruct (pop p1) as [[b p2]|] eqn:Hp1; [|rewrite Hpop, Hpop1 in Hplen; simpl in Hplen; lia].
  assert (p2 ++ [b; a] ≡ₚ p) as Hp by (by rewrite <- Hperm, Hpop, Hpop1, <- app_assoc).
  rewrite <- Hp in Ht, Hf. apply Forall_app in Ht as [Ht2 Htab]. apply Forall_app in Hf as [Hf2 Hfab].
  rewrite !Forall_cons in Htab, Hfab. destruct Htab as (Htb & Hta & _), Hfab as (Hfb & Hfa & _).
  apply total_perm in Hp as Htp. rewrite total_app in Htp. simpl in Htp.
  pose proof (total_nonneg p2 Hf2) as Hnn.
  unfold bind, expect, ret, lift, u32_add. cbv iota beta. rewrite Hp1. rewrite unsigned_add_small by lia.
  destruct (IH (p2 ++ [mkNode (freq a + freq b) None (Some a) (Some b)])) as (root & Hrun & Htr & Hl & Hch).
  - rewrite length_app. simpl. rewrite <- Hp, length_app in Hlen. simpl in Hlen. lia.
  - by destruct p2.
  - apply Forall_app. split; [done|]. by repeat constructor.
  - apply Forall_app. split; [done|]. repeat constructor. simpl. lia.
  - rewrite total_app. simpl. lia.
  - exists root. split_and!; [done|done| |].
    + rewrite Hl, <- Hp, !bind_app. simpl. rewrite !app_nil_r. f_equiv. apply Permutation_app_comm.
    + intros _. destruct p2 as [|x p2]; [|apply Hch; rewrite length_app; simpl; lia].
      clear -Hrun. simpl in Hrun. destruct fuel; simpl in Hrun; by injection Hrun as <-.
Qed.

(** ** Frequencies *)

Lemma count_step done_ (hm : gmap Z Z) c n :
  counts done_ hm → n = default 0 (hm !! c) + 1 → counts (done_ ++ [c]) (<[c := n]> hm).
Proof.
  intros (Hsum & Hpos & Hdom) ->. split_and!.
  - rewrite (weight_delete _ c (default 0 (hm !! c) + 1)) by apply lookup_insert_eq.
    rewrite delete_insert_eq, len_app, <- Hsum. change (len [c]) with 1.
    destruct (hm !! c) as [n|] eqn:Hc; simpl; [rewrite (weight_delete hm _ _ Hc); lia|rewrite delete_id by done; lia].
  - intros k n. destruct (decide (k = c)) as [->|]; [|rewrite lookup_insert_ne by done; apply Hpos].
    rewrite lookup_insert_eq. intros [= <-]. destruct (hm !! c) as [m|] eqn:Hc; simpl; [apply Hpos in Hc|]; lia.
  - intros k. rewrite elem_of_app, list_elem_of_singleton, <- Hdom.
    destruct (decide (k = c)) as [->|]; [rewrite lookup_insert_eq; naive_solver|rewrite lookup_insert_ne by done; naive_solver].
Qed.

Lemma frequency_run msg g :
  len msg < u32_bound → ∃ hm, frequency msg g = (Ok hm, g) ∧ counts msg hm.
Proof.
  intros Hlen. unfold frequency.
  enough (∀ done_ hm, counts done_ hm → len done_ + len msg < u32_bound →
    ∃ hm', fold_st (E:=ErrorKind) (λ hm c, let! n := lift (u32_add (default 0 (hm !! c)) 1) in ret (<[c := n]> hm)) msg hm g =
        (Ok hm', g) ∧ counts (done_ ++ msg) hm') as Hgen.
  { destruct (Hgen [] ∅) as (hm & H); [|by change (len []) with 0|by exists hm].
    split_and!; [done|by intros ??; rewrite lookup_empty|].
    intros c. rewrite lookup_empty. split; [by intros []|by intros ?%elem_of_nil]. }
  clear Hlen. induction msg as [|c msg IH]; intros done_ hm Hc Hlt; [exists hm; by rewrite app_nil_r|].
  cbn [fold_st]. unfold bind at 1. unfold bind at 1, lift.
  assert (len (c :: msg) = 1 + len msg) as Hcons by (unfold len; simpl; lia).
  pose proof (len_nonneg msg). pose proof (counts_at_most _ _ c Hc).
  unfold u32_add. rewrite unsigned_add_small by lia. unfold ret at 1.
  destruct (IH (done_ ++ [c]) (<[c := default 0 (hm !! c) + 1]> hm)) as (hm' & Hrun & H');
    [by apply count_step|rewrite len_app; change (len [c]) with 1; lia|].
  exists hm'. by rewrite <- app_assoc in H'.
Qed.

(** ** The program *)

Definition code_of (root : Node) (c : Z) : list Z := default [] (assign_codes root ∅ [] !! c).

Lemma encode_string_run (hm : gmap Z (list Z)) msg g :
  Forall (λ c, is_Some (hm !! c)) msg →
  encode_string msg hm g = (Ok (concat ((λ c, default [] (hm !! c)) <$> msg)), g).
Proof.
  intros HF. unfold encode_string.
  enough (∀ acc, fold_st (λ r c, let! t := expect (hm !! c) in ret (r ++ t)) msg acc g =
    (Ok (acc ++ concat ((λ c, default [] (hm !! c)) <$> msg)) : outcome ErrorKind (list Z), g)) by done.
  induction msg as [|c msg IH]; intros acc; [by rewrite app_nil_r|].
  apply Forall_cons in HF as [[p Hp] HF]. cbn [fold_st]. unfold bind at 1. unfold bind at 1. rewrite Hp.
  unfold expect, ret. rewrite IH by done. simpl. by rewrite Hp, <- app_assoc.
Qed.

(** The first trees: a leaf for each character *)
Definition leaf_of (x : Z * Z) : Node := new_node x.2 (Some x.1).

Lemma leaves_of l : (leaf_of <$> l) ≫= leaves = l.*1.
Proof. induction l as [|[c n] l IH]; [done|]. rewrite fmap_cons, bind_cons, IH. done. Qed.

Lemma total_of (hm : gmap Z Z) : total (leaf_of <$> hash_iter hm) = weight hm.
Proof.
  unfold weight. rewrite map_fold_foldr.
  rewrite (total_perm _ (leaf_of <$> map_to_list hm)) by (by rewrite hash_iter_perm).
  induction (map_to_list hm) as [|[c n] l IH]; [done|]. rewrite fmap_cons. cbn [foldr uncurry]. rewrite <- IH. done.
Qed.

(** The tree of a text *)
Lemma tree_of_run (hm : gmap Z Z) msg g :
  counts msg hm → len msg < u32_bound → msg ≠ [] →
  let p := leaf_of <$> hash_iter hm in
  ∃ root, join_trees (length p) p g = (Ok [root], g) ∧ tree root ∧ NoDup (leaves root) ∧
    (∀ c, c ∈ leaves root ↔ c ∈ msg) ∧ ((1 < size hm)%nat → ch root = None).
Proof.
  intros (Hsum & Hpos & Hdom) Hlen Hne p.
  assert (length p = size hm) as Hsize.
  { unfold p. rewrite length_fmap, hash_iter_perm. apply length_map_to_list. }
  destruct (join_trees_run (length p) p g) as (root & Hrun & Ht & Hl & Hch).
  - done.
  - destruct msg as [|c msg]; [done|]. destruct (proj2 (Hdom c)) as [n Hn]; [apply list_elem_of_here|].
    apply elem_of_hash_iter in Hn. unfold p. by destruct (hash_iter hm); [apply elem_of_nil in Hn|].
  - unfold p. apply Forall_fmap, Forall_forall. intros [c n] _. constructor.
  - unfold p. apply Forall_fmap, Forall_forall. intros [c n] Hn%elem_of_hash_iter. simpl. by eapply Hpos.
  - unfold p. by rewrite total_of, Hsum.
  - exists root. unfold p in Hl. rewrite leaves_of in Hl. split_and!; [done|done| | |].
    + rewrite Hl. apply NoDup_fst_hash_iter.
    + intros c. rewrite Hl, <- Hdom, list_elem_of_fmap. split.
      * intros ([c' n] & -> & Hn%elem_of_hash_iter). by exists n.
      * intros [n Hn%elem_of_hash_iter]. by exists (c, n).
    + rewrite <- Hsize. done.
Qed.

(** One leaf: the code is empty. *)
Lemma single_code root c :
  tree root → NoDup (leaves root) → (∀ x, x ∈ leaves root → x = c) → code_of root c = [].
Proof.
  assert (∀ t, tree t → leaves t ≠ []) as Hne.
  { induction 1 as [|f l r _ IHl _ _]; simpl; [done|]. by destruct (leaves l). }
  intros Ht Hnd Hall. destruct Ht as [f x|f l r Hl Hr].
  - rewrite <- (Hall x) by apply list_elem_of_here. unfold code_of. simpl. by rewrite lookup_insert_eq.
  - exfalso. simpl in *. pose proof (Hne l Hl) as Hnl. pose proof (Hne r Hr) as Hnr.
    destruct (leaves l) as [|x ll]; [done|]. destruct (leaves r) as [|y rr]; [done|].
    assert (x = c) as -> by (apply Hall; apply list_elem_of_here).
    assert (y = c) as -> by (apply Hall; rewrite elem_of_app, !elem_of_cons; auto).
    apply NoDup_cons in Hnd as [Hnd _]. apply Hnd. rewrite elem_of_app, elem_of_cons. auto.
Qed.

(** Two characters make two entries. *)
Lemma counts_two msg hm c d : counts msg hm → c ∈ msg → d ∈ msg → c ≠ d → (1 < size hm)%nat.
Proof.
  intros (_ & _ & Hdom) [n Hn]%Hdom [m Hm]%Hdom Hne.
  rewrite <- (insert_id hm c n Hn), <- insert_delete_eq.
  rewrite map_size_insert_None by apply lookup_delete_eq.
  enough (size (delete c hm) ≠ 0)%nat by lia. apply map_size_non_empty_iff. intros Hemp.
  assert (delete c hm !! d = Some m) as Hd by (by rewrite lookup_delete_ne). by rewrite Hemp, lookup_empty in Hd.
Qed.

(** What the program writes, with the tree it has made *)
Lemma huffman_main_run b g hm root :
  guest_read INPUT_FILENAME g = ReadBytes b →
  let msg := from_utf8_lossy (byte_val <$> b) in
  frequency msg g = (Ok hm, g) →
  join_trees (length (leaf_of <$> hash_iter hm)) (leaf_of <$> hash_iter hm) g = (Ok [root], g) →
  tree root → NoDup (leaves root) → (∀ c, c ∈ leaves root ↔ c ∈ msg) →
  huffman_main g = write_output (concat (code_of root <$> msg) ++ [10; 10] ++
    decode_string (concat (code_of root <$> msg)) root) g ∧
  (∀ x, x ∈ msg → path_to root (code_of root x) x).
Proof.
  intros Hb msg Hfreq Hjoin Ht Hnd Hl.
  assert (∀ x, x ∈ msg → path_to root (code_of root x) x ∧ is_Some (assign_codes root ∅ [] !! x)) as Hcode.
  { intros x Hx%Hl. destruct (assign_codes_path root ∅ [] Ht Hnd x Hx) as (p & Hp & Hlook).
    unfold code_of. rewrite Hlook. by split; [|eexists]. }
  split; [|intros x Hx; by apply Hcode].
  unfold huffman_main. unfold bind at 1, get at 1. rewrite Hb. unfold bind at 1. cbv iota. unfold ret at 1.
  fold msg. unfold bind at 1. rewrite Hfreq. unfold bind at 1. fold leaf_of. rewrite Hjoin.
  unfold bind at 1. cbn [pop]. unfold expect at 1, ret at 1. cbn [fst].
  unfold bind at 1. rewrite encode_string_run; [done|]. apply Forall_forall. intros x Hx. by apply Hcode.
Qed.

(** A text in ASCII is its bytes. *)
Lemma ascii_text b : Forall (λ x, byte_val x < 128) b → text_bytes (from_utf8_lossy (byte_val <$> b)) = b.
Proof.
  induction 1 as [|x b Hx _ IH]; [done|].
  rewrite fmap_cons. cbn [from_utf8_lossy]. rewrite (proj2 (Z.ltb_lt _ _) Hx). unfold text_bytes in *.
  rewrite fmap_cons. cbn [concat]. rewrite IH. unfold char_bytes. rewrite (proj2 (Z.ltb_lt _ _) Hx). simpl.
  by rewrite byte_of_val.
Qed.

(** C38: the program writes a text that is the concatenation of the codes of
    the characters of its input, two newlines, and what it decodes.  When the
    input has two different characters, what it decodes is the input, each
    character has a code, and no code is the beginning of the code of another
    character; for input in ASCII, the bytes written after the codes are the
    bytes of the input.  When all the characters of the input are the same,
    the program writes the newlines only and the text is lost; with no input
    it panics. *)
Theorem huffman_roundtrip b g :
  guest_read INPUT_FILENAME g = ReadBytes b →
  let msg := from_utf8_lossy (byte_val <$> b) in
  len msg < u32_bound →
  (msg = [] → huffman_main g = (Abort UnwrapOnErr, g)) ∧
  (∀ c d, c ∈ msg → d ∈ msg → c ≠ d →
     ∃ code, huffman_main g = write_output (concat (code <$> msg) ++ [10; 10] ++ msg) g ∧
       (∀ x, x ∈ msg → code x ≠ []) ∧
       (∀ x y, x ∈ msg → y ∈ msg → code x `prefix_of` code y → x = y)) ∧
  (∀ c, msg ≠ [] → Forall (λ x, x = c) msg → huffman_main g = write_output [10; 10] g) ∧
  (Forall (λ x, byte_val x < 128) b → text_bytes msg = b).
Proof.
  intros Hb msg Hlen. destruct (frequency_run msg g Hlen) as (hm & Hfreq & Hc).
  pose proof (λ root, huffman_main_run b g hm root Hb Hfreq) as Hmain. fold msg in Hmain.
  split_and!.
  - intros Hnil. unfold huffman_main. unfold bind at 1, get at 1. rewrite Hb. unfold bind at 1. cbv iota. unfold ret at 1.
    fold msg. unfold bind at 1. rewrite Hfreq.
    assert (hash_iter hm = []) as ->.
    { destruct (hash_iter hm) as [|[c n] l] eqn:Hit; [done|]. destruct Hc as (_ & _ & Hdom).
      assert (c ∈ msg) as Hin by (apply Hdom; exists n; apply elem_of_hash_iter; rewrite Hit; apply list_elem_of_here).
      rewrite Hnil in Hin. by apply elem_of_nil in Hin. }
    done.
  - intros c d Hcm Hdm Hne. destruct (tree_of_run hm msg g Hc Hlen) as (root & Hjoin & Ht & Hnd & Hl & Hch);
      [by intros Hnil; rewrite Hnil in Hcm; apply elem_of_nil in Hcm|].
    specialize (Hch (counts_two _ _ _ _ Hc Hcm Hdm Hne)).
    destruct (Hmain root Hjoin Ht Hnd Hl) as [Hrun Hpath]. exists (code_of root).
    assert (∀ x, x ∈ msg → code_of root x ≠ []) as Hcodes.
    { intros x Hx Hnil. specialize (Hpath x Hx). rewrite Hnil in Hpath. inversion Hpath; subst. done. }
    split_and!; [|done|].
    + rewrite Hrun. unfold decode_string. rewrite decode_codes; [done|done|].
      apply Forall_forall. intros x Hx. split; [by apply Hpath|by apply Hcodes].
    + intros x y Hx Hy Hpre. by apply (path_prefix root _ _ x y (Hpath x Hx) (Hpath y Hy)).
  - intros c Hne Hall. destruct (tree_of_run hm msg g Hc Hlen Hne) as (root & Hjoin & Ht & Hnd & Hl & _).
    destruct (Hmain root Hjoin Ht Hnd Hl) as [Hrun Hpath].
    assert (code_of root c = []) as Hcode.
    { apply (single_code root c); [done|done|]. intros x Hx%Hl. by apply (proj1 (Forall_forall _ _) Hall). }
    assert (concat (code_of root <$> msg) = []) as Hnil.
    { clear -Hall Hcode. induction Hall as [|x l -> _ IH]; [done|]. rewrite fmap_cons. cbn [concat]. by rewrite Hcode, IH. }
    rewrite Hrun, Hnil. done.
  - apply ascii_text.
Qed.
End runs.

(** ** A small text *)

Module SmallHuffman.
Import Demo.Demo SmallGuest.

Definition with_input (s : string) : gmap string bytes := {[INPUT_FILENAME := as_bytes s]}.
Definition output_of (s : string) : option bytes := (huffman_main (with_input s)).2 !! OUTPUT_FILENAME.

Lemma huffman_roundtrip_witness :
  ∃ code, huffman_main (with_input "abracadabra") =
    write_output (concat (code <$> (byte_val <$> as_bytes "abracadabra")) ++ [10; 10] ++
      (byte_val <$> as_bytes "abracadabra")) (with_input "abracadabra").
Proof.
  destruct (huffman_roundtrip (as_bytes "abracadabra") (with_input "abracadabra")) as (_ & H & _);
    [by vm_compute|by vm_compute|].
  destruct (H 97 98) as (code & Hrun & _);
    [apply (bool_decide_unpack (_ ∈ _)); by vm_compute..|done|].
  exists code. exact Hrun.
Defined.

(** A text of five letters takes 23 bits; a text of one letter is lost. *)
Example huffman_texts :
  (length <$> output_of "abracadabra") = Some (23 + 2 + 11)%nat ∧
  output_of "aaaa" = Some (as_bytes (newline ++ newline)) ∧ output_of "" = None.
Proof. split_and!; by vm_compute. Qed.
End SmallHuffman.
