(* ===== verification/Psi.v ===== *)
(** * Private set intersection

    Two programs over the data of two parties, and the generators of their
    inputs: the people in both of two tables, and the number and the total
    value of the customers of a table who are in a sample.

    Sources: [sdk/rust-examples/private-set-intersection/src/main.rs],
    [sdk/rust-examples/private-set-intersection-sum/src/main.rs],
    [sdk/data-generators/private-set-intersection-generator/src/main.rs],
    [sdk/data-generators/private-set-intersection-sum-generator/src/main.rs].

    A [HashSet] is a finite set; the [postcard] format of sets and vectors, and
    the [csv] crate, are classes.  The programs run as WebAssembly, where
    [usize] has 32 bits. *)

From S2P Require Import Prelude RustFmt RustStr RustPath Policy Demo Client Host Programs Csv.
Local Open Scope Z_scope.

(** ** People in both tables *)

Record Person := mkPerson { name : string; employee_id : string; age : Z; grade : Z }.
#[global] Instance Person_eq_dec : EqDecision Person.
Proof. solve_decision. Defined.
#[global] Program Instance Person_countable : Countable Person :=
  inj_countable' (λ p, (name p, employee_id p, age p, grade p)) (λ '(n, e, a, g), mkPerson n e a g) _.
Next Obligation. by intros []. Qed.

(** [anyhow::Error] *)
Inductive PsiError := PsiIo (k : ErrorKind) | PsiPostcard | NoFileName.

(** Reads a file: [fs::read(p)?] and [postcard::from_bytes(..)?] *)
Definition read_postcard {G A} {GF : GuestFiles G} {PC : Postcard A} (p : string) : ST G PsiError A :=
  let! g := get in
  match guest_read p g with
  | ReadBytes b => ok_or (from_postcard b) PsiPostcard
  | ReadFails k => throw (PsiIo k)
  end.

(** [postcard::to_allocvec(..)?] and [fs::write(p, ..)?] *)
Definition write_postcard {G A} {GF : GuestFiles G} {PC : Postcard A} (p : string) (a : A) : ST G PsiError unit :=
  let! b := ok_or (to_allocvec a) PsiPostcard in
  λ g, match guest_write p b g with
       | (true, g') => (Ok tt, g')
       | (false, g') => (Err (PsiIo OtherKind), g')
       end.

Section people.
Context {G : Type} {GF : GuestFiles G} {PC : Postcard (gset Person)}.

Definition psi_read_inputs : ST G PsiError (list (gset Person)) :=
  let! data0 := read_postcard "/input/private-set-1.dat" in
  let! data1 := read_postcard "/input/private-set-2.dat" in
  ret [data0; data1].

Definition set_intersection (sets : list (gset Person)) : gset Person :=
  match sets with
  | [] => ∅
  | s :: tail => foldl (λ result set, result ∩ set) s tail
  end.

Definition psi_main : ST G PsiError unit :=
  let! inputs := psi_read_inputs in
  write_postcard "/output/private-set.dat" (set_intersection inputs).
End people.

Section people_generator.
Context {CR : CsvReader} {PC : Postcard (gset Person)} {D : Type} {HS : HostSystem D}.

Definition psi_read_csv (filename : string) (d : D) : option (list (list string)) :=
  contents ← host_read filename d;
  mapM id (csv_records (mkReader 44 34 true false TrimNone) contents).

(** [entry.get(i).unwrap()], and the numbers [parse::<u8>().unwrap()] *)
Definition extract_person (entry : list string) : ST D Exit Person :=
  let! name := expect (entry !! 0%nat) in
  let! employee_id := expect (entry !! 1%nat) in
  let! age := expect (entry !! 2%nat) in
  let! age := expect (parse_u8 age) in
  let! grade := expect (entry !! 3%nat) in
  let! grade := expect (parse_u8 grade) in
  ret (mkPerson name employee_id age grade).

Definition extract_columns (entries : list (list string)) : ST D Exit (gset Person) :=
  fold_st (λ buffer entry, let! p := extract_person entry in ret ({[p]} ∪ buffer)) entries ∅.

Definition or_error {A} (o : option A) : ST D Exit A :=
  match o with Some a => ret a | None => throw (ExitCode 1) end.

Definition psi_generator_main (value_of : string → option string) : ST D Exit unit :=
  let! input_file := or_error (value_of "input_file") in
  let! file_prefix := or_error (head (split_char "." input_file)) in
  let! d := get in
  let! records := or_error (psi_read_csv input_file d) in
  let! columns := extract_columns records in
  let! encode := or_error (to_allocvec columns) in
  λ d, match fs_write (file_prefix ++ ".dat") encode d with
       | (true, d') => (Ok tt, d')
       | (false, d') => (Err (ExitCode 1), d')
       end.
End people_generator.

(** ** The value of the customers in a sample *)

Abbreviation Id := (Z * Z)%type.
Abbreviation Data := (list (Id * Z)).
Abbreviation Sample := (list Id).

(** The entries of a directory, by their names; an entry may be an error. *)
Class GuestDirs (G : Type) := { guest_read_dir : string → G → list (option string) + ErrorKind }.

Section sums.
Context {BP : BuildProfile} {G : Type} {GF : GuestFiles G} {GD : GuestDirs G}
  {PD : Postcard Data} {PS : Postcard Sample} {PR : Postcard (Z * Z)}.

Definition INPUT_DIR : string := "/input/private-set-inter-sum/".
Definition OUTPUT_DIR : string := "/output/private-set-inter-sum/".

Definition sum_read_inputs (path : string) : ST G PsiError (Data * Sample) :=
  let! sample := read_postcard (path ++ "/sample.dat") in
  let! data := read_postcard (path ++ "/data.dat") in
  ret (data, sample).

Definition set_intersection_sum (data : Data) (sample : Sample) : ST G PsiError (Z * Z) :=
  let sample_set : gset Id := list_to_set sample in
  fold_st (λ '(count, sum) '(id, value),
    if decide (id ∈ sample_set) then
      let! count := lift (u32_add count 1) in
      let! sum := lift (u64_add sum value) in
      ret (count, sum)
    else ret (count, sum)) data (0, 0).

(** The name of an entry of a directory is the name of its path. *)
Definition sum_main : ST G PsiError unit :=
  let! g := get in
  match guest_read_dir INPUT_DIR g with
  | inr k => throw (PsiIo k)
  | inl entries =>
      fold_st (λ _ entry,
        let! name := ok_or entry (PsiIo OtherKind) in
        let! x := sum_read_inputs (INPUT_DIR ++ name) in
        let! result := set_intersection_sum x.1 x.2 in
        write_postcard (OUTPUT_DIR ++ name) result) entries tt
  end.
End sums.

(** ** The data of an input *)

(** [rng.gen()], [rng.gen_range(0..n)] and [shuffle] *)
Class StdRng (R : Type) := {
  gen_u128 : R → Z * R;
  gen_u32 : R → Z * R;
  gen_below : Z → R → Z * R;
  shuffle {A} : list A → R → list A * R;
}.
Class StdRngLaws {R} (RG : StdRng R) : Prop := {
  gen_u128_range r : 0 ≤ (gen_u128 r).1 < 2 ^ 128;
  gen_u32_range r : 0 ≤ (gen_u32 r).1 < u32_bound;
  gen_below_range n r : 0 < n → 0 ≤ (gen_below n r).1 < n;
  shuffle_perm {A} (l : list A) r : (shuffle l r).1 ≡ₚ l;
}.

Section sum_generator.
Context {R : Type} {RG : StdRng R} {E : Type}.

Definition draw {S A} (f : R → A * R) : ST (S * R) E A := λ s, let '(a, r) := f s.2 in (Ok a, (s.1, r)).

Definition mk_lame_id (id : Z) : Id := (Z.shiftr id 64, Z.land id (Z.shiftl 1 64 - 1)).

(** [Unique::next]: draws until the number is new; the fuel bounds the
    attempts.  The state is the set of the numbers used. *)
Fixpoint Unique_next (fuel : nat) : ST (gset Z * R) E Z :=
  match fuel with
  | O => panic OutOfFuel
  | S fuel' =>
      let! id := draw gen_u128 in
      let! s := get in
      if decide (id ∈ s.1) then Unique_next fuel'
      else do! modify (λ s, ({[id]} ∪ s.1, s.2)) in ret id
  end.

Definition generate_with (fuel : nat) (size : Z) : ST (gset Z * R) E (Data * Sample) :=
  let! data := fold_st (λ data _,
    let! id := Unique_next fuel in
    let! value := draw gen_u32 in
    ret (data ++ [(mk_lame_id id, value)])) (seqZ 0 size) [] in
  do! (if 0 <? size then ret tt else panic AssertionFailed) in
  let! intersection := draw (gen_below size) in
  let sample := (take (Z.to_nat intersection) data).*1 in
  let! sample := fold_st (λ sample _,
    let! id := Unique_next fuel in ret (sample ++ [mk_lame_id id])) (seqZ intersection (size - intersection)) sample in
  let! sample := draw (shuffle sample) in
  ret (data, sample).

(** [generate] starts with no number used. *)
Definition generate (fuel : nat) (size : Z) : ST R E (Data * Sample) := λ r,
  let '(o, s) := generate_with fuel size (∅, r) in (o, s.2).
End sum_generator.

(** [Write::write]: the number of the bytes that were written, which may be
    fewer than those given *)
Class WriteSome (D : Type) := { host_write_some : string → bytes → D → option Z * D }.
Class SeedableRng (R : Type) := { seed_from_u64 : Z → R }.

Section sum_generator_main.
Context {BP : BuildProfile} {R : Type} {RG : StdRng R} {SR : SeedableRng R} {D : Type} {HS : HostSystem D}
  {WS : WriteSome D} {PD : Postcard Data} {PS : Postcard Sample}.

(** An error of [main] *)
Definition or_fail {A} (o : option A) : ST (D * R) Exit A :=
  match o with Some a => ret a | None => throw (ExitCode 1) end.

(** [OpenOptions] for a new file, and one call of [write] *)
Definition write_new (p : string) (data : bytes) : ST (D * R) Exit unit := λ s,
  match host_create p s.1 with
  | None => (Err (ExitCode 1), s)
  | Some d =>
      match host_write_some p data d with
      | (Some _, d') => (Ok tt, (d', s.2))
      | (None, d') => (Err (ExitCode 1), (d', s.2))
      end
  end.

Definition create_dir_all (p : string) : ST (D * R) Exit unit := λ s,
  match host_create_dir_all p s.1 with
  | Some d => (Ok tt, (d, s.2))
  | None => (Err (ExitCode 1), s)
  end.

(** The body of the loop *)
Definition store_input (fuel : nat) (dir : string) (size i : Z) : ST (D * R) Exit unit :=
  let! x := zoom snd (λ r s, (s.1, r)) (generate fuel size) in
  let! data := or_fail (to_allocvec x.1) in
  let! sample := or_fail (to_allocvec x.2) in
  let p := push (path dir) (path ("data-" ++ fmt_dec size ++ "-" ++ fmt_dec i)) in
  do! create_dir_all (p_raw p) in
  do! write_new (p_raw (push p (path "data.dat"))) data in
  write_new (p_raw (push p (path "sample.dat"))) sample.

Definition sum_generator_main (fuel : nat) (value_of : string → option string) : ST (D * R) Exit unit :=
  let! dir := or_fail (value_of "directory") in
  let! size := or_fail (value_of "size" ≫= parse_u64) in
  let! iter := or_fail (value_of "number_of_sample" ≫= parse_u64) in
  let! seed := or_fail (value_of "seed" ≫= parse_u64) in
  let! seed := lift (u64_add seed (Z.shiftl iter 48 mod u64_bound)) in
  let! seed := lift (u64_add seed (Z.shiftl size 8 mod u64_bound)) in
  do! modify (λ s, (s.1, seed_from_u64 seed)) in
  fold_st (λ _ i, store_input fuel dir size i) (seqZ 0 iter) tt.
End sum_generator_main.

(** * Properties of private set intersection

    From the tables of two parties to the people in both, and from a generated
    input to the count and the total of its intersection.

    Sources: [sdk/rust-examples/private-set-intersection/src/main.rs],
    [sdk/rust-examples/private-set-intersection-sum/src/main.rs] and the
    generators of their inputs. *)

Local Open Scope Z_scope.

(** ** People *)

(** A row that is a person *)
Definition person_of (entry : list string) : option Person :=
  n ← entry !! 0%nat; e ← entry !! 1%nat; a ← entry !! 2%nat ≫= parse_u8; g ← entry !! 3%nat ≫= parse_u8;
  Some (mkPerson n e a g).

Lemma extract_person_run {D} entry (d : D) :
  extract_person entry d = match person_of entry with Some p => (Ok p, d) | None => (Abort UnwrapOnErr, d) end.
Proof.
  unfold extract_person, person_of, bind, expect, ret, panic.
  destruct (entry !! 0%nat); simpl; [|done]. destruct (entry !! 1%nat); simpl; [|done].
  destruct (entry !! 2%nat) as [a|]; simpl; [|done]. destruct (parse_u8 a); simpl; [|done].
  destruct (entry !! 3%nat) as [b|]; simpl; [|done]. by destruct (parse_u8 b).
Qed.

Lemma extract_columns_run {D} entries (d : D) s d' :
  extract_columns entries d = (Ok s, d') →
  d' = d ∧ ∃ ps, mapM person_of entries = Some ps ∧ s = list_to_set ps.
Proof.
  unfold extract_columns. change s with (s : gset Person).
  enough (∀ acc : gset Person, fold_st (λ buffer entry, let! p := extract_person entry in ret ({[p]} ∪ buffer)) entries acc d =
    (Ok s, d') → d' = d ∧ ∃ ps, mapM person_of entries = Some ps ∧ s = list_to_set ps ∪ acc) as Hgen.
  { intros (-> & ps & -> & ->)%Hgen. split; [done|]. exists ps. split; [done|set_solver]. }
  induction entries as [|entry entries IH]; intros acc; cbn [fold_st].
  { intros [= <- <-]. split; [done|]. exists []. split; [done|set_solver]. }
  unfold bind at 1. unfold bind at 1. rewrite extract_person_run.
  destruct (person_of entry) as [p|] eqn:Hp; [|done]. unfold ret at 1. intros (-> & ps & Hps & ->)%IH.
  split; [done|]. exists (p :: ps). simpl. rewrite Hp. simpl. rewrite Hps. split; [done|]. simpl. set_solver.
Qed.

(** The file a generator writes *)
Definition output_file (input_file : string) : string :=
  (default "" (head (split_char "." input_file)) ++ ".dat")%string.

Section people.
Context {CR : CsvReader} {PC : Postcard (gset Person)} {PCL : PostcardLaws PC}
  {D : Type} {HS : HostSystem D} {HL : HostSystemLaws HS} {G : Type} {GF : GuestFiles G}.

Lemma psi_generator_run value_of input (d d' : D) :
  value_of "input_file" = Some input → psi_generator_main value_of d = (Ok tt, d') →
  ∃ rows ps b, psi_read_csv input d = Some rows ∧ mapM person_of rows = Some ps ∧
    fs_read (output_file input) d' = Some b ∧ from_postcard b = Some (list_to_set ps : gset Person).
Proof.
  intros Hin. unfold psi_generator_main. rewrite Hin. unfold bind at 1, or_error at 1, ret at 1.
  unfold bind at 1. unfold output_file. destruct (head (split_char "." input)) as [prefix|]; [|done].
  unfold or_error at 1, ret at 1. unfold bind at 1, get at 1. unfold bind at 1.
  destruct (psi_read_csv input d) as [rows|]; [|done]. unfold or_error at 1, ret at 1. unfold bind at 1.
  destruct (extract_columns rows d) as [[s|e|p] d1] eqn:Hex; [|done..].
  apply extract_columns_run in Hex as (-> & ps & Hps & ->).
  unfold bind at 1. destruct (to_allocvec _) as [b|] eqn:Hb; [|done]. unfold or_error, ret.
  destruct (fs_write _ b d) as [[] d2] eqn:Hw; [|done]. intros [= <-].
  exists rows, ps, b. split_and!; [done|done|by eapply fs_write_read|by apply postcard_roundtrip].
Qed.

(** The people of two tables that both parties share: when each party has
    turned its table into a file, and the files are the inputs of the program,
    the program writes exactly the people that are in both tables, each row
    with its name, identifier, age and grade. *)
Theorem psi_people_shared v1 v2 in1 in2 (d1 d1' d2 d2' : D) (g : G) :
  v1 "input_file" = Some in1 → v2 "input_file" = Some in2 →
  psi_generator_main v1 d1 = (Ok tt, d1') → psi_generator_main v2 d2 = (Ok tt, d2') →
  (∀ b, fs_read (output_file in1) d1' = Some b → guest_read "/input/private-set-1.dat" g = ReadBytes b) →
  (∀ b, fs_read (output_file in2) d2' = Some b → guest_read "/input/private-set-2.dat" g = ReadBytes b) →
  ∃ rows1 rows2 ps1 ps2 shared,
    psi_read_csv in1 d1 = Some rows1 ∧ mapM person_of rows1 = Some ps1 ∧
    psi_read_csv in2 d2 = Some rows2 ∧ mapM person_of rows2 = Some ps2 ∧
    (∀ p, p ∈ shared ↔ p ∈ ps1 ∧ p ∈ ps2) ∧
    psi_main g = write_postcard "/output/private-set.dat" shared g.
Proof.
  intros Hv1 Hv2 Hr1 Hr2 Hg1 Hg2.
  destruct (psi_generator_run _ _ _ _ Hv1 Hr1) as (rows1 & ps1 & b1 & H1 & H2 & H3 & H4).
  destruct (psi_generator_run _ _ _ _ Hv2 Hr2) as (rows2 & ps2 & b2 & H5 & H6 & H7 & H8).
  exists rows1, rows2, ps1, ps2, (list_to_set ps1 ∩ list_to_set ps2).
  split_and!; [done..|set_solver|].
  unfold psi_main, psi_read_inputs, bind at 1. unfold bind at 1. unfold read_postcard at 1, bind at 1, get at 1.
  rewrite (Hg1 _ H3), H4. unfold ok_or at 1, ret at 1. unfold bind at 1. unfold read_postcard at 1, bind at 1, get at 1.
  rewrite (Hg2 _ H7), H8. done.
Qed.
End people.

(** ** Sums *)

Lemma filter_all {A} (P : A → Prop) `{∀ x, Decision (P x)} l : Forall P l → filter P l = l.
Proof. induction 1; [done|]. rewrite filter_cons_True by done. by f_equal. Qed.
Lemma filter_none {A} (P : A → Prop) `{∀ x, Decision (P x)} l : Forall (λ x, ¬ P x) l → filter P l = [].
Proof. induction 1; [done|]. by rewrite filter_cons_False. Qed.

Definition values_sum (data : Data) : Z := foldr (λ x acc, x.2 + acc) 0 data.

Lemma values_sum_bound data :
  Forall (λ x, 0 ≤ x.2 < u32_bound) data → 0 ≤ values_sum data ≤ len data * (u32_bound - 1).
Proof.
  unfold len. induction 1 as [|x l Hx _ IH]; [done|]. unfold values_sum in *. cbn [foldr length]. lia.
Qed.

Section sums.
Context {BP : BuildProfile} {G : Type}.
Implicit Type g : G.

(** The count and the total of the entries in the sample; nothing overflows. *)
Lemma set_intersection_sum_run (data : Data) (sample : Sample) g :
  len data < u32_bound → Forall (λ x, 0 ≤ x.2 < u32_bound) data →
  let shared := filter (λ x, x.1 ∈ sample) data in
  set_intersection_sum data sample g = (Ok (len shared, values_sum shared), g).
Proof.
  intros Hlen HF. cbv zeta. unfold set_intersection_sum.
  enough (∀ count sum, 0 ≤ count → 0 ≤ sum → count + len data < u32_bound →
    sum + len data * (u32_bound - 1) < u64_bound →
    fold_st (λ '(count, sum) '(id, value),
      if decide (id ∈ (list_to_set sample : gset Id)) then
        let! count := lift (u32_add count 1) in let! sum := lift (u64_add sum value) in ret (count, sum)
      else ret (count, sum)) data (count, sum) g =
    (Ok (count + len (filter (λ x, x.1 ∈ sample) data), sum + values_sum (filter (λ x, x.1 ∈ sample) data))
       : outcome PsiError (Z * Z), g)) as Hgen.
  { rewrite Hgen; [done|lia|lia|lia|]. pose proof (len_nonneg data). nia. }
  clear Hlen. induction HF as [|[id v] data Hv HF IH]; intros count sum Hc Hs Hlt Hlt2.
  { simpl. unfold ret. by rewrite !Z.add_0_r. }
  assert (len ((id, v) :: data) = 1 + len data) as Hl by (unfold len; cbn [length]; lia). rewrite Hl in *.
  pose proof (len_nonneg data). simpl in Hv. cbn [fold_st].
  destruct (decide (id ∈ sample)) as [Hin|Hin].
  - rewrite filter_cons_True by done. unfold bind at 1. rewrite decide_True by (by apply elem_of_list_to_set).
    unfold bind at 1, lift at 1, u32_add. rewrite unsigned_add_small by lia.
    unfold bind at 1, lift at 1, u64_add. rewrite unsigned_add_small by lia. unfold ret at 1.
    rewrite IH by lia. set (k := filter _ data).
    replace (len ((id, v) :: k)) with (1 + len k) by (unfold len; cbn [length]; lia).
    change (values_sum ((id, v) :: k)) with (v + values_sum k). by rewrite !Z.add_assoc.
  - rewrite filter_cons_False by done. unfold bind at 1. rewrite decide_False by (by rewrite elem_of_list_to_set).
    unfold ret at 1. rewrite IH by lia. done.
Qed.
End sums.

(** ** Generated inputs *)

#[export] Instance mk_lame_id_inj : Inj (=) (=) mk_lame_id.
Proof.
  intros a b. unfold mk_lame_id. change (Z.shiftl 1 64 - 1) with (Z.ones 64).
  rewrite !Z.land_ones, !Z.shiftr_div_pow2 by lia. intros [= Hq Hr].
  rewrite (Z.div_mod a (2 ^ 64)), (Z.div_mod b (2 ^ 64)) by lia. congruence.
Qed.

Section generator.
Context {R : Type} {RG : StdRng R} {RL : StdRngLaws RG} {E : Type}.
Implicit Types (s : gset Z * R) (used : gset Z).

Lemma Unique_next_ok fuel s id s' :
  Unique_next (E:=E) fuel s = (Ok id, s') → id ∉ s.1 ∧ s'.1 = {[id]} ∪ s.1.
Proof.
  revert s. induction fuel as [|fuel IH]; intros [used r]; cbn [Unique_next]; [done|].
  unfold bind at 1, draw. simpl. destruct (gen_u128 r) as [x r1]. unfold bind at 1, get. simpl.
  case_decide as Hx; [apply IH|]. unfold bind, modify, ret. simpl. by intros [= <- <-].
Qed.

(** The identifiers so far: the ones used, each once *)
Definition drawn (us : list Z) s : Prop := NoDup us ∧ s.1 = list_to_set us.

Lemma drawn_next fuel us s id s' :
  drawn us s → Unique_next (E:=E) fuel s = (Ok id, s') → drawn (us ++ [id]) s' ∧ id ∉ us.
Proof.
  intros [Hnd Hs] [Hid Hs']%Unique_next_ok. rewrite Hs in Hid, Hs'. rewrite elem_of_list_to_set in Hid.
  split; [|done]. split; [|rewrite Hs', list_to_set_app_L; set_solver].
  apply NoDup_app. split_and!; [done| |apply NoDup_singleton]. intros x Hx ->%list_elem_of_singleton. done.
Qed.

Lemma data_loop_ok fuel {X} (l : list X) us (data : Data) s data' s' :
  drawn us s → data.*1 = mk_lame_id <$> us → Forall (λ x, 0 ≤ x.2 < u32_bound) data →
  fold_st (E:=E) (λ data _, let! id := Unique_next fuel in let! value := draw gen_u32 in
     ret (data ++ [(mk_lame_id id, value)])) l data s = (Ok data', s') →
  ∃ us', drawn us' s' ∧ data'.*1 = mk_lame_id <$> us' ∧ Forall (λ x, 0 ≤ x.2 < u32_bound) data' ∧
    length data' = (length data + length l)%nat.
Proof.
  revert us data s. induction l as [|x l IH]; intros us data s Hd Hids HF; cbn [fold_st].
  { intros [= <- <-]. exists us. split_and!; [done..|simpl; lia]. }
  intros (acc & s2 & Hstep & Hrest)%bind_ok.
  apply bind_ok in Hstep as (id & s1 & Hnext & Hstep). apply bind_ok in Hstep as (v & s3 & Hdraw & Hret).
  unfold ret in Hret. simplify_eq. destruct (drawn_next _ _ _ _ _ Hd Hnext) as [Hd1 _].
  unfold draw in Hdraw. pose proof (gen_u32_range s1.2) as Hv. destruct (gen_u32 s1.2) as [v' r']. simplify_eq.
  apply IH with (us := us ++ [id]) in Hrest as (us' & H1 & H2 & H3 & H4).
  - exists us'. split_and!; [done..|]. rewrite H4, length_app. simpl. lia.
  - destruct Hd1 as [? ?]. by split.
  - rewrite !fmap_app, Hids. done.
  - apply Forall_app. split; [done|]. by apply Forall_singleton.
Qed.

Lemma sample_loop_ok fuel {X} (l : list X) us (sample : Sample) s sample' s' :
  drawn us s →
  fold_st (E:=E) (λ sample _, let! id := Unique_next fuel in ret (sample ++ [mk_lame_id id])) l sample s = (Ok sample', s') →
  ∃ new, sample' = sample ++ (mk_lame_id <$> new) ∧ drawn (us ++ new) s'.
Proof.
  revert us sample s. induction l as [|x l IH]; intros us sample s Hd; cbn [fold_st].
  { intros [= <- <-]. exists []. by rewrite !app_nil_r. }
  intros (acc & s2 & Hstep & Hrest)%bind_ok. apply bind_ok in Hstep as (id & s1 & Hnext & Hret).
  unfold ret in Hret. simplify_eq. destruct (drawn_next _ _ _ _ _ Hd Hnext) as [Hd1 _].
  apply (IH (us ++ [id])) in Hrest as (new & -> & Hd2); [|done].
  exists (id :: new). by rewrite <- !app_assoc in *.
Qed.

(** The entries in the sample are the first ones. *)
Lemma shared_take (data : Data) (sample : Sample) us new k :
  NoDup (us ++ new) → data.*1 = mk_lame_id <$> us →
  (∀ x, x ∈ sample ↔ x ∈ take k (mk_lame_id <$> us) ++ (mk_lame_id <$> new)) →
  filter (λ x, x.1 ∈ sample) data = take k data.
Proof.
  intros Hnd Hids Hs. rewrite <- (take_drop k data) at 1. rewrite filter_app.
  assert (∀ x, x ∈ take k data → x.1 ∈ sample) as Hin.
  { intros x Hx. apply Hs, elem_of_app. left. rewrite <- Hids, <- fmap_take. by apply list_elem_of_fmap_2. }
  assert (∀ x, x ∈ drop k data → x.1 ∉ sample) as Hout.
  { intros x Hx Hsx%Hs. apply (list_elem_of_fmap_2 fst) in Hx. rewrite fmap_drop, Hids in Hx.
    assert (NoDup ((mk_lame_id <$> us) ++ (mk_lame_id <$> new))) as Hnd'
      by (rewrite <- fmap_app; by apply NoDup_fmap_2; [apply _|]).
    rewrite <- (take_drop k (mk_lame_id <$> us)) in Hnd'. rewrite !NoDup_app in Hnd'. set_solver. }
  rewrite (filter_all _ (take k data)), (filter_none _ (drop k data)); [by rewrite app_nil_r|..]; by apply Forall_forall.
Qed.

(** On an input of the generator, the program finds exactly the customers
    that the generator has put into both the data and the sample: their number
    is the size of the intersection that was drawn, their total the sum of
    their values, and nothing overflows. *)
Theorem psi_sum_generated {BP : BuildProfile} {G} fuel size r data sample r' (g : G) :
  size < u32_bound → generate (E:=E) fuel size r = (Ok (data, sample), r') →
  ∃ k, (k < Z.to_nat size)%nat ∧ length data = Z.to_nat size ∧ NoDup data.*1 ∧
    set_intersection_sum data sample g = (Ok (Z.of_nat k, values_sum (take k data)), g).
Proof.
  intros Hsize. unfold generate. destruct (generate_with fuel size (∅, r)) as [o s] eqn:Hgen. intros [= -> <-].
  revert Hgen. unfold generate_with. intros (data0 & s1 & Hdata & Hgen)%bind_ok.
  apply data_loop_ok with (us := []) in Hdata as (us & Hd & Hids & HF & Hlen);
    [|by split; [constructor|]|done|constructor].
  apply bind_ok in Hgen as ([] & s2 & Hpos & Hgen). destruct (Z.ltb_spec 0 size) as [H0|]; [|done].
  unfold ret in Hpos. simplify_eq. apply bind_ok in Hgen as (k & s3 & Hk & Hgen).
  unfold draw in Hk. pose proof (gen_below_range size s2.2 H0) as Hkr. destruct (gen_below size s2.2) as [k' r3]. simplify_eq.
  apply bind_ok in Hgen as (sample1 & s4 & Hsample & Hgen).
  apply (sample_loop_ok _ _ us) in Hsample as (new & -> & Hd2); [|destruct Hd; by split].
  apply bind_ok in Hgen as (sample2 & s5 & Hsh & Hret). unfold draw in Hsh.
  pose proof (shuffle_perm ((take (Z.to_nat k) data0).*1 ++ (mk_lame_id <$> new)) s4.2) as Hperm.
  destruct (shuffle _ s4.2) as [sample3 r4]. unfold ret in Hret. simplify_eq. simpl in Hperm, Hkr.
  rewrite length_seqZ in Hlen. simpl in Hlen.
  exists (Z.to_nat k). split_and!; [lia|done| |].
  { rewrite Hids. apply NoDup_fmap_2; [apply _|by destruct Hd]. }
  rewrite set_intersection_sum_run by (unfold len; lia || done).
  rewrite (shared_take data sample us new (Z.to_nat k)); [|by destruct Hd2|done|].
  - unfold len. by rewrite length_take, Nat.min_l by lia.
  - intros x. by rewrite Hperm, fmap_take, Hids.
Qed.
End generator.

(** ** Small tables *)

Module SmallPsi.
Import SmallPostcard SmallGuest SmallCsv.

Definition person_parts (p : Person) : option (bytes * bytes * (Byte.byte * Byte.byte)) :=
  if decide (0 ≤ age p < 256 ∧ 0 ≤ grade p < 256)
  then Some (as_bytes (name p), as_bytes (employee_id p), (byte_of (age p), byte_of (grade p))) else None.
Definition of_parts (x : bytes * bytes * (Byte.byte * Byte.byte)) : Person :=
  let '(n, e, (a, g)) := x in
  mkPerson (String.string_of_list_byte n) (String.string_of_list_byte e) (byte_val a) (byte_val g).
Lemma of_person_parts p x : person_parts p = Some x → of_parts x = p.
Proof.
  unfold person_parts. case_decide as Hr; [|done]. intros [= <-]. destruct p as [n e a g]; simpl in *.
  unfold as_bytes. rewrite !String.string_of_list_byte_of_string, !byte_val_of, !Z.mod_small by lia. done.
Qed.

Lemma of_parts_list ps l : mapM person_parts ps = Some l → of_parts <$> l = ps.
Proof.
  intros Hl%mapM_Some. induction Hl as [|p x ps xs Hp _ IH]; [done|].
  rewrite fmap_cons, IH. f_equal. by apply of_person_parts.
Qed.

Definition parts_postcard : Postcard (list (bytes * bytes * (Byte.byte * Byte.byte))) := small_postcard.
Lemma parts_postcard_laws : PostcardLaws parts_postcard.
Proof. apply small_postcard_laws. Qed.
#[export] Instance people_postcard : Postcard (gset Person) := {|
  to_allocvec s := l ← mapM person_parts (elements s); to_allocvec (Postcard:=parts_postcard) l;
  from_postcard b := l ← from_postcard (Postcard:=parts_postcard) b; Some (list_to_set (of_parts <$> l));
|}.
#[export] Instance people_postcard_laws : PostcardLaws people_postcard.
Proof.
  split. intros s b. unfold to_allocvec at 1, from_postcard at 1, people_postcard at 1 2.
  destruct (mapM person_parts (elements s)) as [l|] eqn:Hl; [|done].
  intros Hb. apply (postcard_roundtrip (PostcardLaws:=parts_postcard_laws)) in Hb. rewrite Hb.
  cbn [mbind option_bind]. f_equal.
  by rewrite (of_parts_list _ _ Hl), list_to_set_elements_L.
Qed.

Definition one_table (l : list string) : Disk := mkDisk {["t.csv" := lines l]} ∅ [] [].
Definition table1 := one_table ["ann,e1,30,2"; "bob,e2,41,3"].
Definition table2 := one_table ["eve,e3,25,1"; "bob,e2,41,3"; "ann,e1,31,2"].
Definition input (name : string) : option string := Some "t.csv".
Definition encoded (d : Disk) : bytes := default [] (fs_read "t.dat" (psi_generator_main input d).2).
Definition inputs : gmap string bytes :=
  <["/input/private-set-1.dat" := encoded table1]> {["/input/private-set-2.dat" := encoded table2]}.

Lemma psi_people_shared_witness :
  ∃ rows1 rows2 ps1 ps2 shared,
    psi_read_csv "t.csv" table1 = Some rows1 ∧ mapM person_of rows1 = Some ps1 ∧
    psi_read_csv "t.csv" table2 = Some rows2 ∧ mapM person_of rows2 = Some ps2 ∧
    (∀ p, p ∈ shared ↔ p ∈ ps1 ∧ p ∈ ps2) ∧
    psi_main inputs = write_postcard "/output/private-set.dat" shared inputs.
Proof.
  apply (psi_people_shared input input "t.csv" "t.csv" table1 (psi_generator_main input table1).2
    table2 (psi_generator_main input table2).2 inputs); [done|done|by vm_compute|by vm_compute|..].
  - intros b Hb. assert (b = encoded table1) as -> by (unfold encoded; change (output_file "t.csv") with "t.dat" in Hb; by rewrite Hb).
    by vm_compute.
  - intros b Hb. assert (b = encoded table2) as -> by (unfold encoded; change (output_file "t.csv") with "t.dat" in Hb; by rewrite Hb).
    by vm_compute.
Defined.

Example bob_is_shared :
  (psi_main inputs).2 !! "/output/private-set.dat" = to_allocvec ({[mkPerson "bob" "e2" 41 3]} : gset Person).
Proof. by vm_compute. Qed.

(** A name with a directory before it: the file is not named as its table. *)
Example dotted_names :
  output_file "people.csv" = "people.dat" ∧ output_file "./people.csv" = ".dat" ∧ output_file "../a/b.csv" = ".dat".
Proof. by vm_compute. Qed.

(** ** A small input *)

#[export] Instance counting : StdRng Z := {|
  gen_u128 r := (r mod 2 ^ 128, r + 1);
  gen_u32 r := (r mod u32_bound, r + 1);
  gen_below n r := (r mod n, r + 1);
  shuffle A l r := (reverse l, r);
|}.
#[export] Instance counting_laws : StdRngLaws counting.
Proof.
  split; simpl; intros; [apply Z.mod_pos_bound; lia..|]. apply reverse_Permutation.
Qed.

Definition small_input : Data * Sample :=
  match (generate (E:=unit) 3 5 20).1 with Ok x => x | _ => ([], []) end.

Lemma psi_sum_generated_witness :
  ∃ k, (k < 5)%nat ∧ length small_input.1 = 5%nat ∧ NoDup small_input.1.*1 ∧
    set_intersection_sum (BP:=Demo.Demo.profile) small_input.1 small_input.2 tt =
      (Ok (Z.of_nat k, values_sum (take k small_input.1)), tt).
Proof.
  apply (psi_sum_generated (E:=unit) 3 5 20 small_input.1 small_input.2 (generate (E:=unit) 3 5 20).2 tt);
    [lia|]. by vm_compute.
Defined.

(** A disk that takes four bytes at a time: the run succeeds, and the file
    holds the first four bytes of the data. *)
#[export] Instance four_bytes : WriteSome Disk := {|
  host_write_some p b d := (Some (Z.min 4 (len b)), (host_write p (take 4 b) d).2);
|}.
#[export] Instance seeded : SeedableRng Z := {| seed_from_u64 z := z |}.
Definition u64_packed : Packed Z := packed_Z 8.
Definition u32_packed : Packed Z := packed_Z 4.
#[export] Instance data_postcard : Postcard Data :=
  small_postcard (H:=packed_list (PA:=packed_prod (H:=packed_prod (H:=u64_packed) (H0:=u64_packed)) (H0:=u32_packed))).
#[export] Instance sample_postcard : Postcard Sample :=
  small_postcard (H:=packed_list (PA:=packed_prod (H:=u64_packed) (H0:=u64_packed))).
Definition sum_options (name : string) : option string :=
  if decide (name = "directory") then Some "out" else if decide (name = "size") then Some "2"
  else if decide (name = "number_of_sample") then Some "1" else Some "0".
Definition sum_run :=
  sum_generator_main (BP:=Demo.Demo.profile) 3 sum_options (mkDisk ∅ ∅ [] [], 0).

Example short_write_unnoticed :
  is_ok sum_run.1 = true ∧ length <$> (files sum_run.2.1 !! "out/data-2-0/data.dat") = Some 4%nat.
Proof. split; by vm_compute. Qed.
End SmallPsi.
