(* ===== verification/Gf256.v ===== *)
(** * Arithmetic in GF(256)

    The field of 256 elements of the secret-sharing program and of the
    generator of its inputs, by tables of logarithms and exponentials, with
    evaluation and interpolation of polynomials.  An access to a table out of
    its bounds would panic.

    Sources: [sdk/rust-examples/shamir-secret-sharing/src/main.rs],
    [sdk/data-generators/shamir-secret-sharing/src/main.rs], which has the
    same tables and functions. *)

From Stdlib Require Import Strings.Byte.
From Stdlib Require Import Field.
From S2P Require Import Prelude Policy Client Host Programs.

(** ** The tables *)

Definition GF256_LOG : list byte :=
  [xff; x00; x19; x01; x32; x02; x1a; xc6; x4b; xc7; x1b; x68; x33; xee; xdf; x03;
   x64; x04; xe0; x0e; x34; x8d; x81; xef; x4c; x71; x08; xc8; xf8; x69; x1c; xc1;
   x7d; xc2; x1d; xb5; xf9; xb9; x27; x6a; x4d; xe4; xa6; x72; x9a; xc9; x09; x78;
   x65; x2f; x8a; x05; x21; x0f; xe1; x24; x12; xf0; x82; x45; x35; x93; xda; x8e;
   x96; x8f; xdb; xbd; x36; xd0; xce; x94; x13; x5c; xd2; xf1; x40; x46; x83; x38;
   x66; xdd; xfd; x30; xbf; x06; x8b; x62; xb3; x25; xe2; x98; x22; x88; x91; x10;
   x7e; x6e; x48; xc3; xa3; xb6; x1e; x42; x3a; x6b; x28; x54; xfa; x85; x3d; xba;
   x2b; x79; x0a; x15; x9b; x9f; x5e; xca; x4e; xd4; xac; xe5; xf3; x73; xa7; x57;
   xaf; x58; xa8; x50; xf4; xea; xd6; x74; x4f; xae; xe9; xd5; xe7; xe6; xad; xe8;
   x2c; xd7; x75; x7a; xeb; x16; x0b; xf5; x59; xcb; x5f; xb0; x9c; xa9; x51; xa0;
   x7f; x0c; xf6; x6f; x17; xc4; x49; xec; xd8; x43; x1f; x2d; xa4; x76; x7b; xb7;
   xcc; xbb; x3e; x5a; xfb; x60; xb1; x86; x3b; x52; xa1; x6c; xaa; x55; x29; x9d;
   x97; xb2; x87; x90; x61; xbe; xdc; xfc; xbc; x95; xcf; xcd; x37; x3f; x5b; xd1;
   x53; x39; x84; x3c; x41; xa2; x6d; x47; x14; x2a; x9e; x5d; x56; xf2; xd3; xab;
   x44; x11; x92; xd9; x23; x20; x2e; x89; xb4; x7c; xb8; x26; x77; x99; xe3; xa5;
   x67; x4a; xed; xde; xc5; x31; xfe; x18; x0d; x63; x8c; x80; xc0; xf7; x70; x07].

Definition GF256_EXP : list byte :=
  [x01; x03; x05; x0f; x11; x33; x55; xff; x1a; x2e; x72; x96; xa1; xf8; x13; x35;
   x5f; xe1; x38; x48; xd8; x73; x95; xa4; xf7; x02; x06; x0a; x1e; x22; x66; xaa;
   xe5; x34; x5c; xe4; x37; x59; xeb; x26; x6a; xbe; xd9; x70; x90; xab; xe6; x31;
   x53; xf5; x04; x0c; x14; x3c; x44; xcc; x4f; xd1; x68; xb8; xd3; x6e; xb2; xcd;
   x4c; xd4; x67; xa9; xe0; x3b; x4d; xd7; x62; xa6; xf1; x08; x18; x28; x78; x88;
   x83; x9e; xb9; xd0; x6b; xbd; xdc; x7f; x81; x98; xb3; xce; x49; xdb; x76; x9a;
   xb5; xc4; x57; xf9; x10; x30; x50; xf0; x0b; x1d; x27; x69; xbb; xd6; x61; xa3;
   xfe; x19; x2b; x7d; x87; x92; xad; xec; x2f; x71; x93; xae; xe9; x20; x60; xa0;
   xfb; x16; x3a; x4e; xd2; x6d; xb7; xc2; x5d; xe7; x32; x56; xfa; x15; x3f; x41;
   xc3; x5e; xe2; x3d; x47; xc9; x40; xc0; x5b; xed; x2c; x74; x9c; xbf; xda; x75;
   x9f; xba; xd5; x64; xac; xef; x2a; x7e; x82; x9d; xbc; xdf; x7a; x8e; x89; x80;
   x9b; xb6; xc1; x58; xe8; x23; x65; xaf; xea; x25; x6f; xb1; xc8; x43; xc5; x54;
   xfc; x1f; x21; x63; xa5; xf4; x07; x09; x1b; x2d; x77; x99; xb0; xcb; x46; xca;
   x45; xcf; x4a; xde; x79; x8b; x86; x91; xa8; xe3; x3e; x42; xc6; x51; xf3; x0e;
   x12; x36; x5a; xee; x29; x7b; x8d; x8c; x8f; x8a; x85; x94; xa7; xf2; x0d; x17;
   x39; x4b; xdd; x7c; x84; x97; xa2; xfd; x1c; x24; x6c; xb4; xc7; x52; xf6; x01;
   x03; x05; x0f; x11; x33; x55; xff; x1a; x2e; x72; x96; xa1; xf8; x13; x35; x5f;
   xe1; x38; x48; xd8; x73; x95; xa4; xf7; x02; x06; x0a; x1e; x22; x66; xaa; xe5;
   x34; x5c; xe4; x37; x59; xeb; x26; x6a; xbe; xd9; x70; x90; xab; xe6; x31; x53;
   xf5; x04; x0c; x14; x3c; x44; xcc; x4f; xd1; x68; xb8; xd3; x6e; xb2; xcd; x4c;
   xd4; x67; xa9; xe0; x3b; x4d; xd7; x62; xa6; xf1; x08; x18; x28; x78; x88; x83;
   x9e; xb9; xd0; x6b; xbd; xdc; x7f; x81; x98; xb3; xce; x49; xdb; x76; x9a; xb5;
   xc4; x57; xf9; x10; x30; x50; xf0; x0b; x1d; x27; x69; xbb; xd6; x61; xa3; xfe;
   x19; x2b; x7d; x87; x92; xad; xec; x2f; x71; x93; xae; xe9; x20; x60; xa0; xfb;
   x16; x3a; x4e; xd2; x6d; xb7; xc2; x5d; xe7; x32; x56; xfa; x15; x3f; x41; xc3;
   x5e; xe2; x3d; x47; xc9; x40; xc0; x5b; xed; x2c; x74; x9c; xbf; xda; x75; x9f;
   xba; xd5; x64; xac; xef; x2a; x7e; x82; x9d; xbc; xdf; x7a; x8e; x89; x80; x9b;
   xb6; xc1; x58; xe8; x23; x65; xaf; xea; x25; x6f; xb1; xc8; x43; xc5; x54; xfc;
   x1f; x21; x63; xa5; xf4; x07; x09; x1b; x2d; x77; x99; xb0; xcb; x46; xca; x45;
   xcf; x4a; xde; x79; x8b; x86; x91; xa8; xe3; x3e; x42; xc6; x51; xf3; x0e; x12;
   x36; x5a; xee; x29; x7b; x8d; x8c; x8f; x8a; x85; x94; xa7; xf2; x0d; x17; x39;
   x4b; xdd; x7c; x84; x97; xa2; xfd; x1c; x24; x6c; xb4; xc7; x52; xf6].

(** ** Operations *)

(** [a ^ b] on bytes *)
Definition byte_xor (a b : byte) : byte := byte_of (Z.lxor (byte_val a) (byte_val b)).

Section gf256.
Context {S E : Type}.

Definition gf256_mul (a b : byte) : ST S E byte :=
  if bool_decide (a = x00) || bool_decide (b = x00) then ret x00
  else
    let! la := index GF256_LOG (byte_val a) in
    let! lb := index GF256_LOG (byte_val b) in
    index GF256_EXP (byte_val la + byte_val lb)%Z.

Definition gf256_div (a b : byte) : ST S E byte :=
  let! lb := index GF256_LOG (byte_val b) in
  let! inv := index GF256_EXP (255 - byte_val lb)%Z in
  gf256_mul a inv.

(** Horner's method, from the last coefficient *)
Definition gf256_eval (f : list byte) (x : byte) : ST S E byte :=
  fold_st (λ acc c, let! m := gf256_mul acc x in ret (byte_xor m c)) (reverse f) x00.

(** The factor of one point: the loop over the other points. *)
Definition lagrange_factor (points : list (nat * (byte * byte))) (i : nat) (x0 : byte) :
  ST S E byte :=
  fold_st (λ li '(j, (x1, _)),
    if decide (i ≠ j) then
      let! q := gf256_div x1 (byte_xor x0 x1) in gf256_mul li q
    else ret li) points x01.

Definition gf256_interpolate (xs ys : list byte) : ST S E byte :=
  if decide (length xs = length ys) then
    let points := enumerate (zip xs ys) in
    fold_st (λ y '(i, (x0, y0)),
      let! li := lagrange_factor points i x0 in
      let! t := gf256_mul li y0 in
      ret (byte_xor y t)) points x00
  else panic AssertionFailed.
End gf256.

(** ** The field *)

Module Gf.

Definition all_bytes : list byte := byte_of ∘ Z.of_nat <$> seq 0 256.

Lemma elem_all_bytes b : b ∈ all_bytes.
Proof.
  apply list_elem_of_fmap. exists (Z.to_nat (byte_val b)). pose proof (byte_val_range b) as Hb.
  split; [simpl; by rewrite Z2Nat.id, byte_of_val by lia|]. apply elem_of_seq. lia.
Qed.

Lemma byte_forall (P : byte → bool) : forallb P all_bytes = true → ∀ b, P b = true.
Proof. rewrite forallb_forall. intros H b. apply H, list_elem_of_In, elem_all_bytes. Qed.

(** Logarithms and exponentials as functions; the exponent is taken modulo
    the order of the group. *)
Definition log (a : byte) : nat := Z.to_nat (byte_val (nth (Z.to_nat (byte_val a)) GF256_LOG x00)).
Definition expn (i : nat) : byte := nth (i mod 255) GF256_EXP x00.

Definition mul (a b : byte) : byte :=
  if bool_decide (a = x00) || bool_decide (b = x00) then x00 else expn (log a + log b).
Definition inv (a : byte) : byte := expn (255 - log a).
Definition div (a b : byte) : byte := mul a (inv b).

(** Multiplication by the generator [X + 1], modulo [X^8 + X^4 + X^3 + X + 1]. *)
Definition times3 (z : Z) : Z :=
  Z.lxor (Z.lxor z (Z.shiftl z 1)) (if Z.testbit z 7 then 283 else 0).

Lemma log_table : forallb (λ a, bool_decide (a = x00) ||
  (Nat.ltb (log a) 255 && bool_decide (expn (log a) = a))) all_bytes = true.
Proof. by vm_compute. Qed.

Lemma exp_table : forallb (λ i, bool_decide (nth i GF256_EXP x00 = expn i) &&
  bool_decide (expn i ≠ x00) && Nat.eqb (log (expn i)) (i mod 255) &&
  Z.eqb (byte_val (expn (S i))) (times3 (byte_val (expn i)))) (seq 0 510) = true.
Proof. by vm_compute. Qed.

(** ** Exponentials *)

Lemma log_ok a : a ≠ x00 → log a < 255 ∧ expn (log a) = a.
Proof.
  intros Ha. pose proof (byte_forall _ log_table a) as H. simpl in H.
  rewrite bool_decide_false in H by done. simpl in H.
  apply andb_true_iff in H as [H1 H2]. apply Nat.ltb_lt in H1. by apply bool_decide_eq_true in H2.
Qed.

Lemma exp_facts i : i < 510 →
  nth i GF256_EXP x00 = expn i ∧ expn i ≠ x00 ∧ log (expn i) = i mod 255 ∧
  byte_val (expn (S i)) = times3 (byte_val (expn i)).
Proof.
  intros Hi. pose proof exp_table as H. rewrite forallb_forall in H.
  specialize (H i (proj2 (in_seq 510 0 i) ltac:(lia))).
  apply andb_true_iff in H as [[[H1 H2]%andb_true_iff H3]%andb_true_iff H4].
  apply bool_decide_eq_true in H1, H2. apply Nat.eqb_eq in H3. by apply Z.eqb_eq in H4.
Qed.

Lemma expn_mod i : expn (i mod 255) = expn i.
Proof. unfold expn. by rewrite Nat.Div0.mod_mod. Qed.

Lemma mod_small_255 i : i mod 255 < 510.
Proof. pose proof (Nat.mod_upper_bound i 255). lia. Qed.

Lemma expn_nonzero i : expn i ≠ x00.
Proof. rewrite <- expn_mod. apply (exp_facts _ (mod_small_255 i)). Qed.

Lemma log_expn i : log (expn i) = i mod 255.
Proof.
  rewrite <- expn_mod. destruct (exp_facts _ (mod_small_255 i)) as (_ & _ & -> & _).
  apply Nat.Div0.mod_mod.
Qed.

Lemma mul_expn i j : mul (expn i) (expn j) = expn (i + j).
Proof.
  unfold mul. rewrite !bool_decide_false by apply expn_nonzero. simpl. rewrite !log_expn.
  unfold expn. by rewrite <- Nat.Div0.add_mod.
Qed.

Lemma expn_S i : byte_val (expn (S i)) = times3 (byte_val (expn i)).
Proof.
  rewrite <- (expn_mod i). destruct (exp_facts _ (mod_small_255 i)) as (_ & _ & _ & <-).
  f_equal. unfold expn. rewrite <- (Nat.add_1_r (i mod 255)), <- (Nat.add_1_r i).
  by rewrite Nat.Div0.add_mod_idemp_l.
Qed.

(** Every byte but 0 is a power of the generator. *)
Lemma byte_cases a : a = x00 ∨ ∃ i, i < 255 ∧ a = expn i.
Proof.
  destruct (decide (a = x00)) as [|Ha]; [by left|right]. destruct (log_ok a Ha). eauto.
Qed.

Lemma mul_0_l a : mul x00 a = x00.
Proof. done. Qed.
Lemma mul_0_r a : mul a x00 = x00.
Proof. unfold mul. by rewrite (bool_decide_true (x00 = x00)), orb_true_r by done. Qed.

Lemma mul_comm a b : mul a b = mul b a.
Proof. unfold mul. rewrite orb_comm, Nat.add_comm. done. Qed.

Lemma mul_assoc a b c : mul a (mul b c) = mul (mul a b) c.
Proof.
  destruct (byte_cases a) as [->|(i & _ & ->)]; [done|].
  destruct (byte_cases b) as [->|(j & _ & ->)]; [change (mul x00 c) with x00; by rewrite !mul_0_r|].
  destruct (byte_cases c) as [->|(k & _ & ->)]; [by rewrite !mul_0_r|].
  by rewrite !mul_expn, Nat.add_assoc.
Qed.

Lemma mul_1_l a : mul x01 a = a.
Proof.
  change x01 with (expn 0). destruct (byte_cases a) as [->|(i & _ & ->)]; [by rewrite mul_0_r|].
  by rewrite mul_expn.
Qed.

Lemma mul_nonzero a b : a ≠ x00 → b ≠ x00 → mul a b ≠ x00.
Proof. intros Ha Hb. unfold mul. rewrite !bool_decide_false by done. apply expn_nonzero. Qed.

Lemma inv_l a : a ≠ x00 → mul (inv a) a = x01.
Proof.
  intros Ha. unfold inv. destruct (log_ok a Ha) as [Hlt Ha']. rewrite <- Ha' at 2.
  rewrite mul_expn. by replace (255 - log a + log a) with 255 by lia.
Qed.

(** ** Addition *)

Lemma lxor_range x y : (0 ≤ x < 256 → 0 ≤ y < 256 → 0 ≤ Z.lxor x y < 256)%Z.
Proof.
  intros Hx Hy. assert (0 ≤ Z.lxor x y)%Z as H0 by (apply Z.lxor_nonneg; lia). split; [done|].
  destruct (Z.eq_dec (Z.lxor x y) 0%Z) as [->|Hne]; [lia|].
  change 256%Z with (2 ^ 8)%Z. apply Z.log2_lt_pow2; [lia|].
  pose proof (Z.log2_lxor x y ltac:(lia) ltac:(lia)) as Hlog.
  assert (∀ z, (0 ≤ z < 256)%Z → (Z.log2 z < 8)%Z) as Hb.
  { intros z Hz. destruct (Z.eq_dec z 0%Z) as [->|]; [done|]. apply Z.log2_lt_pow2; lia. }
  specialize (Hb x Hx) as Hbx. specialize (Hb y Hy). lia.
Qed.

Lemma byte_val_xor a b : byte_val (byte_xor a b) = Z.lxor (byte_val a) (byte_val b).
Proof.
  unfold byte_xor. rewrite byte_val_of. apply Z.mod_small, lxor_range; apply byte_val_range.
Qed.

Lemma byte_val_inj a b : byte_val a = byte_val b → a = b.
Proof. intros H. rewrite <- (byte_of_val a), <- (byte_of_val b). by f_equal. Qed.

Lemma xor_comm a b : byte_xor a b = byte_xor b a.
Proof. unfold byte_xor. by rewrite Z.lxor_comm. Qed.
Lemma xor_assoc a b c : byte_xor a (byte_xor b c) = byte_xor (byte_xor a b) c.
Proof. apply byte_val_inj. by rewrite !byte_val_xor, Z.lxor_assoc. Qed.
Lemma xor_0_l a : byte_xor x00 a = a.
Proof. apply byte_val_inj. by rewrite byte_val_xor, Z.lxor_0_l. Qed.
Lemma xor_nilpotent a : byte_xor a a = x00.
Proof. apply byte_val_inj. by rewrite byte_val_xor, Z.lxor_nilpotent. Qed.

Lemma times3_lxor x y : times3 (Z.lxor x y) = Z.lxor (times3 x) (times3 y).
Proof.
  unfold times3. rewrite Z.shiftl_lxor, Z.lxor_spec.
  apply Z.bits_inj'. intros n _. rewrite !Z.lxor_spec.
  destruct (Z.testbit x 7), (Z.testbit y 7); simpl xorb; cbv iota;
    rewrite ?Z.bits_0; destruct (Z.testbit x n), (Z.testbit y n),
    (Z.testbit (Z.shiftl x 1) n), (Z.testbit (Z.shiftl y 1) n), (Z.testbit 283 n); done.
Qed.

(** Multiplying by a power of the generator is multiplying by it repeatedly. *)
Lemma byte_val_mul_expn i b : byte_val (mul (expn i) b) = Nat.iter i times3 (byte_val b).
Proof.
  destruct (byte_cases b) as [->|(j & _ & ->)].
  - rewrite mul_0_r. induction i as [|i IH]; [done|]. simpl. by rewrite <- IH.
  - rewrite mul_expn. induction i as [|i IH]; [done|]. simpl. by rewrite expn_S, IH.
Qed.

Lemma iter_times3_lxor i x y :
  Nat.iter i times3 (Z.lxor x y) = Z.lxor (Nat.iter i times3 x) (Nat.iter i times3 y).
Proof. induction i as [|i IH]; [done|]. simpl. by rewrite IH, times3_lxor. Qed.

Lemma mul_xor_r a b c : mul a (byte_xor b c) = byte_xor (mul a b) (mul a c).
Proof.
  destruct (byte_cases a) as [->|(i & _ & ->)]; [by rewrite !mul_0_l|].
  apply byte_val_inj. by rewrite byte_val_xor, !byte_val_mul_expn, byte_val_xor, iter_times3_lxor.
Qed.

Lemma mul_xor_l a b c : mul (byte_xor a b) c = byte_xor (mul a c) (mul b c).
Proof. by rewrite mul_comm, mul_xor_r, !(mul_comm c). Qed.

Lemma gf_field : field_theory x00 x01 byte_xor mul byte_xor id div inv eq.
Proof.
  split; [split|..].
  - apply xor_0_l.
  - apply xor_comm.
  - apply xor_assoc.
  - apply mul_1_l.
  - apply mul_comm.
  - apply mul_assoc.
  - apply mul_xor_l.
  - done.
  - apply xor_nilpotent.
  - done.
  - done.
  - apply inv_l.
Qed.
Add Field gf : gf_field.

#[local] Arguments mul : simpl never.
#[local] Arguments div : simpl never.
#[local] Arguments byte_xor : simpl never.

(** ** Polynomials *)

Fixpoint eval (f : list byte) (x : byte) : byte :=
  match f with [] => x00 | c :: f' => byte_xor c (mul x (eval f' x)) end.

(** The quotient of [f - f(a)] by [X - a]. *)
Fixpoint quotient (a : byte) (f : list byte) : list byte :=
  match f with
  | [] | [_] => []
  | _ :: f' => eval f' a :: quotient a f'
  end.

(** The weight of the point [x] among the others, at 0. *)
Definition weight (x : byte) (l : list byte) : byte :=
  foldr (λ y acc, mul (div y (byte_xor x y)) acc) x01 l.

(** The value at 0 of the polynomial through the points [(x, h x)]. *)
Fixpoint interp (h : byte → byte) (xs : list byte) : byte :=
  match xs with
  | [] => x00
  | a :: xs' =>
      byte_xor (mul (h a) (weight a xs')) (interp (λ y, mul (h y) (div a (byte_xor y a))) xs')
  end.

Lemma length_quotient a f : length (quotient a f) = length f - 1.
Proof.
  induction f as [|c [|c' f] IH]; [done|done|]. change (S (length (quotient a (c' :: f))) = S (length (c' :: f)) - 1).
  rewrite IH. simpl. lia.
Qed.

Lemma xor_cancel a b : byte_xor a (byte_xor a b) = b.
Proof. by rewrite xor_assoc, xor_nilpotent, xor_0_l. Qed.
Lemma xor_0_r a : byte_xor a x00 = a.
Proof. by rewrite xor_comm, xor_0_l. Qed.
Lemma xor_eq_0 a b : byte_xor a b = x00 → a = b.
Proof. intros H. by rewrite <- (xor_cancel b a), (xor_comm b a), H, xor_0_r. Qed.

Lemma eval_0 c f : eval (c :: f) x00 = c.
Proof. simpl. by rewrite xor_0_r. Qed.

(** [f(x) = f(a) + (x - a) q(x)] *)
Lemma eval_quotient a f x :
  eval f x = byte_xor (eval f a) (mul (byte_xor x a) (eval (quotient a f) x)).
Proof.
  induction f as [|c f IH]; [simpl; by rewrite mul_0_r, xor_0_l|].
  destruct f as [|c' f].
  { simpl. by rewrite !mul_0_r, !xor_0_r. }
  change (quotient a (c :: c' :: f)) with (eval (c' :: f) a :: quotient a (c' :: f)).
  set (g := c' :: f) in *. cbn [eval]. rewrite IH at 1.
  set (u := eval g a). set (v := eval (quotient a g) x).
  replace (mul (byte_xor x a) (byte_xor u (mul x v))) with
    (byte_xor (mul a u) (mul x (byte_xor u (mul (byte_xor x a) v)))) by ring.
  by rewrite <- xor_assoc, xor_cancel.
Qed.

(** *** Interpolation *)

Lemma interp_ext g h xs : (∀ y, y ∈ xs → g y = h y) → interp g xs = interp h xs.
Proof.
  revert g h. induction xs as [|a xs IH]; intros g h Heq; [done|]. simpl.
  rewrite Heq by apply list_elem_of_here. f_equal. apply IH. intros y Hy.
  by rewrite Heq by by apply list_elem_of_further.
Qed.

Lemma interp_add g h xs : interp (λ y, byte_xor (g y) (h y)) xs = byte_xor (interp g xs) (interp h xs).
Proof.
  revert g h. induction xs as [|a xs IH]; intros g h; [done|]. simpl.
  rewrite (interp_ext _ (λ y, byte_xor (mul (g y) (div a (byte_xor y a))) (mul (h y) (div a (byte_xor y a))))).
  - rewrite IH. ring.
  - intros y _. ring.
Qed.

Lemma interp_scale c h xs : interp (λ y, mul c (h y)) xs = mul c (interp h xs).
Proof.
  revert h. induction xs as [|a xs IH]; intros h; simpl; [by rewrite mul_0_r|].
  rewrite (interp_ext _ (λ y, mul c (mul (h y) (div a (byte_xor y a))))).
  - rewrite IH. ring.
  - intros y _. ring.
Qed.

Lemma div_cancel a y : y ≠ a → mul (byte_xor y a) (div a (byte_xor y a)) = a.
Proof.
  intros Hne. unfold div. rewrite mul_comm, <- mul_assoc, inv_l; [by rewrite mul_comm, mul_1_l|].
  intros H. by apply Hne, xor_eq_0.
Qed.

(** A polynomial that vanishes at the first point. *)
Lemma interp_vanish a h xs :
  a ∉ xs → interp (λ y, mul (byte_xor y a) (h y)) (a :: xs) = mul a (interp h xs).
Proof.
  intros Ha. simpl. rewrite xor_nilpotent, !mul_0_l, xor_0_l, <- interp_scale. apply interp_ext.
  intros y Hy. rewrite (mul_comm (byte_xor y a)), <- mul_assoc, div_cancel by (by intros ->).
  apply mul_comm.
Qed.

Lemma interp_swap h a b xs : interp h (a :: b :: xs) = interp h (b :: a :: xs).
Proof.
  simpl. rewrite (interp_ext (λ y, mul (mul (h y) (div a (byte_xor y a))) (div b (byte_xor y b)))
    (λ y, mul (mul (h y) (div b (byte_xor y b))) (div a (byte_xor y a)))) by (intros; ring).
  generalize (interp (λ y, mul (mul (h y) (div b (byte_xor y b))) (div a (byte_xor y a))) xs).
  intros r. ring.
Qed.

(** The weights add up to 1. *)
Lemma interp_one xs : NoDup xs → xs ≠ [] → interp (λ _, x01) xs = x01.
Proof.
  destruct xs as [|a xs]; [done|]. intros Hnd _. revert a Hnd.
  induction xs as [|b xs IH]; intros a Hnd; [done|].
  apply NoDup_cons in Hnd as [Ha Hnd]. pose proof Hnd as [Hb Hnd']%NoDup_cons.
  apply not_elem_of_cons in Ha as [Hab Ha].
  assert (∀ c l, c ∉ l → interp (λ _, x01) l = x01 →
    byte_xor (interp id (c :: l)) (mul c (interp (λ _, x01) (c :: l))) = c) as Hsum.
  { intros c l Hc Hl. pose proof (interp_vanish c (λ _, x01) l Hc) as H.
    rewrite Hl, (mul_comm c x01), mul_1_l in H. rewrite <- H at 4.
    rewrite <- interp_scale, <- interp_add. apply interp_ext. intros y _. unfold id. ring. }
  pose proof (Hsum a (b :: xs) ltac:(by apply not_elem_of_cons) (IH b Hnd)) as H1.
  pose proof (Hsum b (a :: xs) ltac:(apply not_elem_of_cons; by split)
    (IH a ltac:(by apply NoDup_cons))) as H2.
  rewrite (interp_swap id b a), (interp_swap (λ _, x01) b a) in H2.
  set (u := interp id _) in *. set (v := interp (λ _, x01) _) in *.
  assert (mul (byte_xor a b) v = byte_xor a b) as Hv.
  { rewrite <- H1 at 2. rewrite <- H2 at 2.
    replace (byte_xor (byte_xor u (mul a v)) (byte_xor u (mul b v))) with
      (byte_xor u (byte_xor u (mul (byte_xor a b) v))) by ring. by rewrite xor_cancel. }
  assert (byte_xor a b ≠ x00) as Hne by by intros ?%xor_eq_0.
  rewrite <- (mul_1_l v), <- (inv_l _ Hne), <- mul_assoc, Hv. done.
Qed.

(** One division step of an interpolation. *)
Lemma interp_step f a xs :
  NoDup (a :: xs) →
  interp (eval f) (a :: xs) = byte_xor (eval f a) (mul a (interp (eval (quotient a f)) xs)).
Proof.
  intros Hnd. rewrite <- interp_vanish by by apply NoDup_cons in Hnd as [? _].
  rewrite (interp_ext (eval f) (λ y, byte_xor (mul (eval f a) x01)
    (mul (byte_xor y a) (eval (quotient a f) y)))).
  - by rewrite interp_add, interp_scale, interp_one, (mul_comm _ x01), mul_1_l.
  - intros y _. rewrite (mul_comm _ x01), mul_1_l. apply eval_quotient.
Qed.

(** Through as many points as it has coefficients, a polynomial is recovered. *)
Lemma interp_exact f xs : NoDup xs → length f ≤ length xs → interp (eval f) xs = eval f x00.
Proof.
  revert f. induction xs as [|a xs IH]; intros f Hnd Hlen.
  { simpl in Hlen. by destruct f; [|simpl in Hlen; lia]. }
  rewrite interp_step by done. rewrite IH.
  - rewrite (eval_quotient a f x00), xor_0_l. done.
  - by apply NoDup_cons in Hnd as [_ ?].
  - rewrite length_quotient. simpl in Hlen. lia.
Qed.

Lemma last_quotient a f : 2 ≤ length f → last (quotient a f) = last f.
Proof.
  induction f as [|c [|c' f] IH]; simpl length; [lia|lia|]. intros _.
  change (last (eval (c' :: f) a :: quotient a (c' :: f)) = last (c' :: f)).
  destruct f as [|c'' f].
  - simpl. by rewrite mul_0_r, xor_0_r.
  - rewrite <- IH by (simpl; lia). by destruct f.
Qed.

Definition product (l : list byte) : byte := foldr mul x01 l.

Lemma product_nonzero l : x00 ∉ l → product l ≠ x00.
Proof.
  induction l as [|a l IH]; [done|]. intros [Ha Hl]%not_elem_of_cons. simpl.
  apply mul_nonzero; [done|by apply IH].
Qed.

(** Through one point less, the value is off by the last coefficient times
    the points. *)
Lemma interp_short f xs c :
  NoDup xs → length f = S (length xs) → last f = Some c →
  interp (eval f) xs = byte_xor (eval f x00) (mul c (product xs)).
Proof.
  revert f. induction xs as [|a xs IH]; intros f Hnd Hlen Hlast.
  { destruct f as [|c' [|]]; simplify_eq/=. rewrite mul_0_l, xor_0_r, (mul_comm c), mul_1_l.
    by rewrite xor_nilpotent. }
  simpl in Hlen. rewrite interp_step by done. rewrite IH.
  - rewrite (eval_quotient a f x00), xor_0_l. simpl. ring.
  - by apply NoDup_cons in Hnd as [_ ?].
  - rewrite length_quotient. lia.
  - rewrite last_quotient; [done|lia].
Qed.

(** ** The operations compute the field *)

Section runs.
Context {T E : Type}.
Implicit Types s : T.

Lemma index_log a s :
  index (E:=E) GF256_LOG (byte_val a) s = (Ok (nth (Z.to_nat (byte_val a)) GF256_LOG x00), s).
Proof. apply index_run. apply byte_val_range. Qed.

Lemma byte_val_log a : byte_val (nth (Z.to_nat (byte_val a)) GF256_LOG x00) = Z.of_nat (log a).
Proof. unfold log. pose proof (byte_val_range (nth (Z.to_nat (byte_val a)) GF256_LOG x00)). lia. Qed.

Lemma index_exp i s : i < 510 → index (E:=E) GF256_EXP (Z.of_nat i) s = (Ok (expn i), s).
Proof.
  intros Hi. rewrite (index_run _ _ x00) by (simpl length; lia). rewrite Nat2Z.id.
  by destruct (exp_facts i Hi) as [-> _].
Qed.

Lemma gf256_mul_run a b s : gf256_mul (E:=E) a b s = (Ok (mul a b), s).
Proof.
  unfold gf256_mul, mul. destruct (bool_decide (a = x00)) eqn:Ha; [done|].
  destruct (bool_decide (b = x00)) eqn:Hb; [done|]. simpl.
  apply bool_decide_eq_false in Ha, Hb.
  destruct (log_ok a Ha) as [Hla _]. destruct (log_ok b Hb) as [Hlb _].
  unfold bind. rewrite !index_log, !byte_val_log, <- Nat2Z.inj_add. apply index_exp. lia.
Qed.

Lemma gf256_div_run a b s : gf256_div (E:=E) a b s = (Ok (div a b), s).
Proof.
  unfold gf256_div, bind. rewrite index_log, byte_val_log.
  assert (log b ≤ 255) as Hb.
  { destruct (decide (b = x00)) as [->|Hb]; [done|]. destruct (log_ok b Hb). lia. }
  replace (255 - Z.of_nat (log b))%Z with (Z.of_nat (255 - log b)) by lia.
  rewrite index_exp by lia. apply gf256_mul_run.
Qed.


Lemma gf256_eval_run f x s : gf256_eval (E:=E) f x s = (Ok (eval f x), s).
Proof.
  unfold gf256_eval. rewrite (fold_st_pure _ (λ acc c, byte_xor (mul acc x) c)).
  - do 2 f_equal. induction f as [|c f IH]; [done|]. rewrite reverse_cons, foldl_app, IH. simpl.
    by rewrite xor_comm, mul_comm.
  - intros a c s'. unfold bind. by rewrite gf256_mul_run.
Qed.

(** *** The loops of the interpolation *)

Lemma enumerate_app {A} (l l' : list A) :
  enumerate (l ++ l') = enumerate l ++ imap (λ i x, (length l + i, x)) l'.
Proof. unfold enumerate. by rewrite imap_app. Qed.

(** The factor of a point [x0] over points of other indices. *)
Definition factor_step (i : nat) (x0 li : byte) (p : nat * (byte * byte)) : byte :=
  if decide (i ≠ p.1) then mul li (div p.2.1 (byte_xor x0 p.2.1)) else li.

Lemma factor_others i x0 li (pts : list (nat * (byte * byte))) :
  (∀ p, p ∈ pts → i ≠ p.1) →
  foldl (factor_step i x0) li pts = mul li (weight x0 ((λ p, p.2.1) <$> pts)).
Proof.
  revert li. induction pts as [|p pts IH]; intros li Hi; simpl.
  { by rewrite mul_comm, mul_1_l. }
  rewrite IH by (intros q Hq; apply Hi; by apply list_elem_of_further).
  unfold factor_step. rewrite decide_True by (apply Hi, list_elem_of_here). apply eq_sym, mul_assoc.
Qed.

Lemma lagrange_factor_run pre pt post s :
  lagrange_factor (E:=E) (enumerate (pre ++ pt :: post)) (length pre) pt.1 s =
    (Ok (mul (weight pt.1 pre.*1) (weight pt.1 post.*1)), s).
Proof.
  unfold lagrange_factor. rewrite (fold_st_pure _ (factor_step (length pre) pt.1)).
  - rewrite enumerate_app, foldl_app, (factor_others _ _ _ (enumerate pre)).
    + simpl.
      assert (∀ v, factor_step (length pre) pt.1 v (length pre + 0, pt) = v) as ->
        by (intros v; unfold factor_step; rewrite decide_False by (simpl; lia); done).
      rewrite factor_others.
      * rewrite mul_1_l. do 4 f_equal.
        -- unfold enumerate. rewrite fmap_imap. exact (imap_const fst pre).
        -- rewrite fmap_imap. exact (imap_const fst post).
      * intros p (i & x & -> & _)%elem_of_lookup_imap. simpl. lia.
    + intros p (i & x & -> & Hx)%elem_of_lookup_imap. simpl. apply lookup_lt_Some in Hx. lia.
  - intros li [j [x1 y1]] s'. unfold factor_step. simpl. destruct (decide (length pre ≠ j)); [|done].
    unfold bind. by rewrite gf256_div_run, gf256_mul_run.
Qed.

Lemma weight_snoc y l x : weight y (l ++ [x]) = mul (weight y l) (div x (byte_xor y x)).
Proof.
  induction l as [|z l IH]; simpl; [by rewrite mul_comm|]. by rewrite IH, mul_assoc.
Qed.

(** The points of a function, numbered from [k]. *)
Definition graph (h : byte → byte) (xs : list byte) : list (byte * byte) := (λ x, (x, h x)) <$> xs.
Definition numbered (k : nat) (pts : list (byte * byte)) : list (nat * (byte * byte)) :=
  imap (λ i p, (k + i, p)) pts.

Lemma graph_fst h xs : (graph h xs).*1 = xs.
Proof. unfold graph. rewrite <- list_fmap_compose. apply list_fmap_id. Qed.

Lemma numbered_cons k p pts : numbered k (p :: pts) = (k, p) :: numbered (S k) pts.
Proof.
  unfold numbered. simpl. rewrite Nat.add_0_r. f_equal. apply imap_ext. intros i q _. simpl.
  f_equal. lia.
Qed.

Lemma interpolate_loop h (step : byte → nat * (byte * byte) → ST T E byte) pre suf acc s :
  (∀ y i x y0 s, step y (i, (x, y0)) s =
     (let! li := lagrange_factor (enumerate (graph h (pre ++ suf))) i x in
      let! t := gf256_mul li y0 in ret (byte_xor y t)) s) →
  fold_st step (numbered (length pre) (graph h suf)) acc s =
    (Ok (byte_xor acc (interp (λ y, mul (h y) (weight y pre)) suf)), s).
Proof.
  revert pre acc. induction suf as [|x suf IH]; intros pre acc Hstep.
  { simpl. unfold ret. by rewrite xor_0_r. }
  change (graph h (x :: suf)) with ((x, h x) :: graph h suf). cbn [interp].
  rewrite numbered_cons. simpl. unfold bind at 1. rewrite Hstep.
  replace (graph h (pre ++ x :: suf)) with (graph h pre ++ (x, h x) :: graph h suf)
    by (unfold graph; by rewrite fmap_app).
  rewrite <- (length_fmap (λ x, (x, h x)) pre) at 1. fold (graph h pre).
  unfold bind at 1. rewrite (lagrange_factor_run (graph h pre) (x, h x) (graph h suf)).
  rewrite !graph_fst. unfold bind at 1. rewrite gf256_mul_run. unfold ret at 1. simpl.
  replace (S (length pre)) with (length (pre ++ [x])) by (rewrite length_app; simpl; lia).
  rewrite IH by (intros; rewrite <- app_assoc; simpl; apply Hstep).
  do 2 f_equal. rewrite <- xor_assoc. f_equal. f_equal; [ring|].
  apply interp_ext. intros y _. rewrite weight_snoc. ring.
Qed.

Lemma gf256_interpolate_run h xs s :
  gf256_interpolate (E:=E) xs (h <$> xs) s = (Ok (interp h xs), s).
Proof.
  unfold gf256_interpolate. rewrite decide_True by by rewrite length_fmap.
  assert (zip xs (h <$> xs) = graph h xs) as ->.
  { unfold graph. induction xs as [|x xs IH]; [done|]. simpl. f_equal. apply IH. }
  etrans; [apply (interpolate_loop h _ [] xs)|].
  - intros y i x y0 s'. done.
  - rewrite xor_0_l. do 2 f_equal. apply interp_ext. intros y _. simpl. by rewrite mul_comm, mul_1_l.
Qed.
End runs.

(** ** The product by shifts

    The field by its definition: bytes are polynomials over two elements,
    multiplied bit by bit modulo [X^8 + X^4 + X^3 + X + 1]. *)

(** Multiplication by [X] *)
Definition times2 (z : Z) : Z := Z.lxor (Z.shiftl z 1) (if Z.testbit z 7 then 283 else 0).

(** The sum of [X^i b] over the coefficients [i] of [a]. *)
Definition shift_product (a b : byte) : Z :=
  foldr (λ i acc, if Z.testbit (byte_val a) (Z.of_nat i)
    then Z.lxor (Nat.iter i times2 (byte_val b)) acc else acc) 0%Z (seq 0 8).

Lemma times2_table :
  forallb (λ b, Z.eqb (byte_val (mul x02 b)) (times2 (byte_val b))) all_bytes = true.
Proof. by vm_compute. Qed.

Definition power2 (i : nat) : byte := Nat.iter i (mul x02) x01.

Lemma bits_table : forallb (λ a, bool_decide (foldr (λ i acc,
    if Z.testbit (byte_val a) (Z.of_nat i) then byte_xor (power2 i) acc else acc) x00 (seq 0 8) = a))
  all_bytes = true.
Proof. by vm_compute. Qed.

Lemma byte_val_mul_power2 i b : byte_val (mul (power2 i) b) = Nat.iter i times2 (byte_val b).
Proof.
  induction i as [|i IH]; [by change (power2 0) with x01; rewrite mul_1_l|].
  change (power2 (S i)) with (mul x02 (power2 i)). rewrite <- mul_assoc. simpl. rewrite <- IH.
  pose proof (byte_forall _ times2_table (mul (power2 i) b)) as H. simpl in H. by apply Z.eqb_eq in H.
Qed.

Lemma mul_shift_product a b : byte_val (mul a b) = shift_product a b.
Proof.
  pose proof (byte_forall _ bits_table a) as Ha. cbv beta in Ha. apply bool_decide_eq_true in Ha.
  rewrite <- Ha at 1. unfold shift_product. generalize (seq 0 8). intros l.
  induction l as [|i l IH]; [done|]. cbn [foldr].
  destruct (Z.testbit (byte_val a) (Z.of_nat i)); [|done].
  by rewrite mul_xor_l, byte_val_xor, IH, byte_val_mul_power2.
Qed.
End Gf.
