(* ===== verification/Shamir.v ===== *)
(** * Secret sharing

    The generator that splits a secret into shares, and the program that
    reconstructs it inside the enclave from the shares its participants
    provision.

    Sources: [sdk/data-generators/shamir-secret-sharing/src/main.rs],
    [sdk/rust-examples/shamir-secret-sharing/src/main.rs]. *)

From Stdlib Require Import Strings.Byte.
From S2P Require Import Prelude RustFmt Policy Client Host Programs Gf256.

(** ** Splitting a secret *)

Section generate.
Context {BP : BuildProfile} {R : Type} {RG : ThreadRng R} {E : Type}.

(** [iter::repeat_with(|| rng.gen_range(1..=255)).take(n)] *)
Fixpoint random_coefficients (n : nat) : ST R E (list byte) :=
  match n with
  | O => ret []
  | S n' =>
      let! c := (λ r, let '(c, r') := gen_range 1 255 r in (Ok c, r')) in
      let! cs := random_coefficients n' in
      ret (byte_of c :: cs)
  end.

(** The vector of the coefficients has a capacity of at most [isize::MAX]. *)
Definition gf256_generate (secret : byte) (degree : Z) : ST R E (list byte) :=
  if (i64_bound <=? degree + 1)%Z then panic CapacityOverflow
  else let! cs := random_coefficients (Z.to_nat degree) in ret (secret :: cs).

(** [u8::try_from(i + 1).expect(..)] *)
Definition share_id (i : nat) : ST R E byte :=
  if (Z.of_nat i + 1 <? 256)%Z then ret (byte_of (Z.of_nat i + 1)) else panic UnwrapOnErr.

(** One byte of the secret: a new polynomial, and a point of it for each share. *)
Definition share_byte (k : Z) (shares : list bytes) (x : byte) : ST R E (list bytes) :=
  let! degree := lift (usize_sub k 1) in
  let! f := gf256_generate x degree in
  map_st (λ '(i, share), let! id := share_id i in
                         let! y := gf256_eval f id in
                         ret (share ++ [y])) (enumerate shares).

(** The vector of [n] empty vectors has 24 bytes for each. *)
Definition shares_generate (secret : bytes) (n k : Z) : ST R E (list bytes) :=
  if (i64_bound <=? 24 * n)%Z then panic CapacityOverflow
  else
    let! shares := map_st (λ i, let! id := share_id i in ret [id]) (seq 0 (Z.to_nat n)) in
    fold_st (share_byte k) secret shares.
End generate.

(** ** Putting it together again *)

Section reconstruct.
Context {T E : Type}.

(** [shares.iter().map(|s| s.len()).min().unwrap_or(0)] *)
Definition min_length (shares : list bytes) : nat :=
  match shares with
  | [] => 0
  | s :: shares' => foldl (λ m s, Nat.min m (length s)) (length s) shares'
  end.

Definition shares_reconstruct (shares : list bytes) : ST T E bytes :=
  let len := min_length shares in
  if Nat.eqb len 0 then ret []
  else
    let! xs := map_st (λ v, index v 0) shares in
    map_st (λ i, let! ys := map_st (λ v, index v (Z.of_nat i)) shares in
                 gf256_interpolate xs ys) (seq 1 (len - 1)).
End reconstruct.

(** ** The generator *)

Record Opt := mkOpt { opt_secret : string; opt_n : Z; opt_k : option Z }.

Section generator.
Context {BP : BuildProfile} {PL : PolicyLibs} {R : Type} {RG : ThreadRng R}
  {D : Type} {HS : HostSystem D} {E : Type}.

(** [println!] panics when the stream fails. *)
Definition println (line : string) : ST (D * R) E unit := λ s,
  match stdout_write_all (as_bytes (line +:+ newline)) s.1 with
  | (true, d) => (Ok tt, (d, s.2))
  | (false, d) => (Abort UnwrapOnErr, (d, s.2))
  end.

Definition generator_main (opt : Opt) : ST (D * R) E unit :=
  let secret := as_bytes (opt_secret opt) in
  let! shares := zoom snd (λ r s, (s.1, r))
    (shares_generate secret (opt_n opt) (default (opt_n opt) (opt_k opt))) in
  let! again := shares_reconstruct shares in
  do! (if decide (again = secret) then ret tt else panic AssertionFailed) in
  fold_st (λ _ share, println (hex_encode share)) shares tt.
End generator.

(** ** The program *)

Inductive ProgramError := IoError (k : ErrorKind).

Section program.
Context {G : Type} {GF : GuestFiles G}.

Definition input_name (i : nat) : string := "/input/shamir-" +:+ fmt_dec (Z.of_nat i) +:+ ".dat".

(** The loop over [0..], from [i]; [fuel] bounds the number of files. *)
Fixpoint shares_read_from (fuel i : nat) (shares : list bytes) : ST G ProgramError (list bytes) :=
  match fuel with
  | O => panic OutOfFuel
  | S fuel' =>
      let! g := get in
      match guest_read (input_name i) g with
      | ReadBytes share => shares_read_from fuel' (S i) (shares ++ [share])
      | ReadFails NotFound | ReadFails PermissionDenied => ret shares
      | ReadFails k => throw (IoError k)
      end
  end.
Definition shares_read_all (fuel : nat) : ST G ProgramError (list bytes) := shares_read_from fuel 0 [].

Definition shamir_main (fuel : nat) : ST G ProgramError unit :=
  let! shares := shares_read_all fuel in
  let! secret := shares_reconstruct shares in
  λ g, match guest_write "/output/shamir.dat" secret g with
       | (true, g') => (Ok tt, g')
       | (false, g') => (Err (IoError OtherKind), g')
       end.
End program.

(** * Properties of secret sharing

    Enough shares give the secret back, through the generator and the
    program; one share less never gives a byte of it, which is more than
    chance; and the tables compute the product of the field.

    Sources: [sdk/data-generators/shamir-secret-sharing/src/main.rs],
    [sdk/rust-examples/shamir-secret-sharing/src/main.rs]. *)

(** ** Shares *)

(** The identifier of a share, and the share of the polynomials [fs]. *)
Definition id_of (i : nat) : byte := byte_of (Z.of_nat i + 1).
Definition share_of (fs : list (list byte)) (x : byte) : bytes := x :: ((λ f, Gf.eval f x) <$> fs).

Lemma id_of_val i : i < 255 → byte_val (id_of i) = (Z.of_nat i + 1)%Z.
Proof. intros Hi. unfold id_of. rewrite byte_val_of. apply Z.mod_small. lia. Qed.

Lemma ids_NoDup n : n ≤ 255 → NoDup (id_of <$> seq 0 n).
Proof.
  intros Hn. apply NoDup_fmap_2_strong; [|apply NoDup_seq].
  intros i j Hi%elem_of_seq Hj%elem_of_seq Heq. apply (f_equal byte_val) in Heq.
  rewrite !id_of_val in Heq by lia. lia.
Qed.

Lemma ids_nonzero n : n ≤ 255 → x00 ∉ id_of <$> seq 0 n.
Proof.
  intros Hn (i & Heq & Hi%elem_of_seq)%list_elem_of_fmap. apply (f_equal byte_val) in Heq.
  rewrite id_of_val in Heq by lia. change (byte_val x00) with 0%Z in Heq. lia.
Qed.

(** [f] hides the byte [x]: its other coefficients, [k - 1] of them, are not
    0. *)
Definition hides (k : Z) (x : byte) (f : list byte) : Prop :=
  ∃ cs, f = x :: cs ∧ Z.of_nat (length cs) = (k - 1)%Z ∧ x00 ∉ cs.

Section generate.
Context {BP : BuildProfile} {R : Type} {RG : ThreadRng R} {RL : ThreadRngLaws RG} {E : Type}.

Lemma random_coefficients_run m r :
  ∃ cs r', random_coefficients (E:=E) m r = (Ok cs, r') ∧ length cs = m ∧ x00 ∉ cs.
Proof.
  revert r. induction m as [|m IH]; intros r; simpl.
  { exists [], r. split_and!; [done|done|apply not_elem_of_nil]. }
  pose proof (gen_range_within 1 255 r ltac:(lia)) as Hc. destruct (gen_range 1 255 r) as [c r1] eqn:Hr.
  destruct (IH r1) as (cs & r' & Hrun & Hlen & Hnz).
  exists (byte_of c :: cs), r'. unfold bind at 1. rewrite Hr. unfold bind. rewrite Hrun.
  split_and!; [done|simpl; by rewrite Hlen|]. apply not_elem_of_cons. split; [|done].
  intros Heq. apply (f_equal byte_val) in Heq. rewrite byte_val_of, Z.mod_small in Heq by (simpl in Hc; lia).
  change (byte_val x00) with 0%Z in Heq. simpl in Hc. lia.
Qed.

Lemma share_byte_run k fs ids x r :
  (1 ≤ k < i64_bound)%Z → length ids ≤ 255 → ids = id_of <$> seq 0 (length ids) →
  ∃ f r', share_byte (E:=E) k (share_of fs <$> ids) x r = (Ok (share_of (fs ++ [f]) <$> ids), r') ∧
    hides k x f.
Proof.
  intros Hk Hlen Hids. destruct (random_coefficients_run (Z.to_nat (k - 1)) r)
    as (cs & r' & Hrun & Hcs & Hnz).
  exists (x :: cs), r'. split; [|exists cs; split_and!; [done|lia|done]].
  unfold share_byte, bind at 1, lift, usize_sub.
  replace (1 <=? k)%Z with true by (symmetry; apply Z.leb_le; lia).
  unfold bind at 1, gf256_generate.
  replace (9223372036854775808 <=? k - 1 + 1)%Z with false by (symmetry; apply Z.leb_gt; lia).
  unfold bind at 1. rewrite Hrun. unfold ret at 1.
  rewrite (map_st_pure _ (λ p, p.2 ++ [Gf.eval (x :: cs) (id_of p.1)])).
  - f_equal. f_equal. unfold enumerate. rewrite fmap_imap.
    rewrite Hids at 1. rewrite Hids at 2. rewrite <- !list_fmap_compose, imap_fmap.
    apply list_eq. intros i. rewrite list_lookup_imap, !list_lookup_fmap.
    destruct (seq 0 (length ids) !! i) as [j|] eqn:Hj; [|done]. simpl.
    apply lookup_seq in Hj as [-> _]. simpl. unfold share_of. simpl. by rewrite fmap_app.
  - intros [i sh] s (i' & sh' & Heq & Hi)%elem_of_lookup_imap. simplify_eq/=.
    apply lookup_lt_Some in Hi. rewrite length_fmap in Hi.
    unfold share_id. replace (Z.of_nat i' + 1 <? 256)%Z with true by (symmetry; apply Z.ltb_lt; lia).
    unfold bind at 1, ret at 1. unfold bind. by rewrite Gf.gf256_eval_run.
Qed.

(** The generator makes the shares of one polynomial for each byte. *)
Lemma shares_generate_run secret n k r :
  (0 ≤ n ≤ 255)%Z → (1 ≤ k < i64_bound)%Z →
  ∃ fs r', shares_generate (E:=E) secret n k r =
      (Ok (share_of fs <$> (id_of <$> seq 0 (Z.to_nat n))), r') ∧ Forall2 (hides k) secret fs.
Proof.
  intros Hn Hk. unfold shares_generate.
  replace (9223372036854775808 <=? 24 * n)%Z with false by (symmetry; apply Z.leb_gt; lia).
  set (ids := id_of <$> seq 0 (Z.to_nat n)).
  assert (length ids = Z.to_nat n) as Hlen by (unfold ids; by rewrite length_fmap, length_seq).
  cbv iota. unfold bind at 1. rewrite (map_st_pure _ (λ i, [id_of i])).
  - replace ((λ i, [id_of i]) <$> seq 0 (Z.to_nat n)) with (share_of [] <$> ids)
      by (unfold ids; by rewrite <- list_fmap_compose).
    assert (∀ l r, ∃ fs' r', fold_st (share_byte (E:=E) k) secret (share_of l <$> ids) r =
      (Ok (share_of (l ++ fs') <$> ids), r') ∧ Forall2 (hides k) secret fs') as Hfold.
    { clear r. induction secret as [|x secret IH]; intros l r; simpl.
      - exists [], r. rewrite app_nil_r. by split.
      - destruct (share_byte_run k l ids x r Hk) as (f & r1 & Hrun & Hf);
          [lia|by rewrite Hlen|].
        destruct (IH (l ++ [f]) r1) as (fs' & r' & Hrest & Hfs).
        exists (f :: fs'), r'. unfold bind. rewrite Hrun, Hrest, <- app_assoc. split; [done|].
        by constructor. }
    apply (Hfold [] r).
  - intros i s Hi%elem_of_seq. unfold share_id.
    replace (Z.of_nat i + 1 <? 256)%Z with true by (symmetry; apply Z.ltb_lt; lia). done.
Qed.
End generate.

(** ** Reconstruction *)

Lemma min_length_const (m : nat) (shares : list bytes) :
  shares ≠ [] → Forall (λ s, length s = m) shares → min_length shares = m.
Proof.
  destruct shares as [|s shares]; [done|]. intros _ [Hs Hall]%Forall_cons. simpl. rewrite Hs.
  clear s Hs. induction Hall as [|s shares Hs _ IH]; simpl; [done|]. by rewrite Hs, Nat.min_id.
Qed.

Section reconstruct.
Context {T E : Type}.

(** What the program computes from the shares of the points [xs]. *)
Lemma shares_reconstruct_run fs xs (s : T) :
  xs ≠ [] →
  shares_reconstruct (E:=E) (share_of fs <$> xs) s = (Ok ((λ f, Gf.interp (Gf.eval f) xs) <$> fs), s).
Proof.
  intros Hxs. unfold shares_reconstruct. cbv zeta.
  rewrite (min_length_const (S (length fs))).
  - change (S (length fs) =? 0) with false. rewrite Nat.sub_1_r. cbn [Nat.pred]. cbv iota.
    unfold bind at 1. rewrite (map_st_pure _ (λ v, nth 0 v x00)).
    + rewrite <- list_fmap_compose. change (((λ v, nth 0 v x00) ∘ share_of fs) <$> xs) with (id <$> xs).
      rewrite list_fmap_id.
      rewrite (map_st_pure _ (λ i, Gf.interp (Gf.eval (nth (i - 1) fs [])) xs)).
      * f_equal. f_equal. apply list_eq. intros i. rewrite !list_lookup_fmap.
        destruct (decide (i < length fs)) as [Hi|Hi].
        -- rewrite lookup_seq_lt by done. simpl.
           destruct (lookup_lt_is_Some_2 fs i Hi) as [f Hf]. rewrite Hf. simpl.
           by rewrite Nat.sub_0_r, (nth_lookup_Some _ _ _ _ Hf).
        -- rewrite lookup_seq_ge, lookup_ge_None_2 by lia. done.
      * intros i s' Hi%elem_of_seq. unfold bind at 1.
        rewrite (map_st_pure _ (λ v, nth i v x00)).
        -- rewrite <- list_fmap_compose.
           rewrite <- (Gf.gf256_interpolate_run (Gf.eval (nth (i - 1) fs [])) xs s').
           f_equal. apply list_fmap_ext. intros j x _. simpl.
           destruct i as [|i]; [lia|]. simpl. rewrite Nat.sub_0_r.
           destruct (lookup_lt_is_Some_2 fs i ltac:(lia)) as [f Hf].
           rewrite (nth_lookup_Some fs i [] f Hf).
           apply nth_lookup_Some. rewrite list_lookup_fmap, Hf. done.
        -- intros v s'' (x & -> & _)%list_elem_of_fmap.
           rewrite (index_run _ _ x00); [by rewrite Nat2Z.id|].
           simpl length. rewrite length_fmap. lia.
    + intros v s' (x & -> & _)%list_elem_of_fmap. apply (index_run _ 0%Z x00). simpl length. lia.
  - by destruct xs.
  - apply Forall_fmap, Forall_forall. intros x _. simpl. by rewrite length_fmap.
Qed.
End reconstruct.

(** ** Recovering the secret *)

(** Distinct shares are those of distinct points. *)
Lemma selected fs ids sel :
  NoDup sel → sel ⊆ share_of fs <$> ids → ∃ xs, sel = share_of fs <$> xs ∧ NoDup xs ∧ xs ⊆ ids.
Proof.
  intros Hnd Hsub. exists ((λ s, nth 0 s x00) <$> sel).
  assert (share_of fs <$> ((λ s, nth 0 s x00) <$> sel) = sel) as Heq.
  { rewrite <- list_fmap_compose. transitivity (id <$> sel); [|apply list_fmap_id].
    apply list_fmap_ext. intros i v Hv. apply list_elem_of_lookup_2, Hsub in Hv.
    apply list_elem_of_fmap in Hv as (x & -> & _). done. }
  split_and!; [done| |].
  - apply (NoDup_fmap_1 (share_of fs)). by rewrite Heq.
  - intros x (v & -> & Hv)%list_elem_of_fmap. apply Hsub, list_elem_of_fmap in Hv as (y & -> & Hy).
    done.
Qed.

Lemma hides_value k x f : hides k x f → Gf.eval f x00 = x.
Proof. intros (cs & -> & _). apply Gf.eval_0. Qed.

Section recover.
Context {BP : BuildProfile} {R : Type} {RG : ThreadRng R} {RL : ThreadRngLaws RG}.

Lemma reconstruct_secret {T E : Type} k secret fs xs (s : T) :
  Forall2 (hides k) secret fs → NoDup xs → (1 ≤ k ≤ Z.of_nat (length xs))%Z →
  shares_reconstruct (E:=E) (share_of fs <$> xs) s = (Ok secret, s).
Proof.
  intros Hfs Hnd Hk. rewrite shares_reconstruct_run by (intros ->; simpl in Hk; lia).
  do 2 f_equal. induction Hfs as [|x f secret fs Hf _ IH]; [done|]. simpl. f_equal; [|done].
  rewrite Gf.interp_exact, (hides_value k x f); [done|done|done|].
  destruct Hf as (cs & -> & Hlen & _). simpl. lia.
Qed.

(** The input files of the program are exactly [shares], in order. *)
Definition inputs {G} {GF : GuestFiles G} (g : G) (shares : list bytes) : Prop :=
  (∀ i s, shares !! i = Some s → guest_read (input_name i) g = ReadBytes s) ∧
  (guest_read (input_name (length shares)) g = ReadFails NotFound ∨
   guest_read (input_name (length shares)) g = ReadFails PermissionDenied).

Lemma shares_read_run {G} {GF : GuestFiles G} g fuel pre post :
  inputs g (pre ++ post) → length post < fuel →
  shares_read_from fuel (length pre) pre g = (Ok (pre ++ post), g).
Proof.
  intros [Hin Hend]. revert fuel pre Hin Hend. induction post as [|s post IH]; intros fuel pre Hin Hend Hf;
    (destruct fuel as [|fuel]; [simpl in Hf; lia|]); simpl; unfold bind, get.
  - rewrite app_nil_r in *. by destruct Hend as [-> | ->].
  - rewrite (Hin (length pre) s) by by rewrite list_lookup_middle.
    replace (S (length pre)) with (length (pre ++ [s])) by (rewrite length_app; simpl; lia).
    rewrite (cons_middle s pre post), app_assoc in *. apply IH; [done|done|simpl in Hf; lia].
Qed.

(** C36: the generator splits every secret into up to 255 shares; whatever the
    random numbers, the program that finds at least [k] different ones among
    its input files, in any order and any number, ends and writes exactly the
    secret. *)
Theorem shamir_secret_recovered {E G : Type} {GF : GuestFiles G} secret n k r :
  (0 ≤ n ≤ 255)%Z → (1 ≤ k < i64_bound)%Z →
  ∃ shares r', shares_generate (E:=E) secret n k r = (Ok shares, r') ∧ len shares = n ∧
    ∀ sel fuel (g g' : G), NoDup sel → sel ⊆ shares → (k ≤ len sel)%Z →
      inputs g sel → length sel < fuel → guest_write "/output/shamir.dat" secret g = (true, g') →
      shamir_main fuel g = (Ok tt, g').
Proof.
  intros Hn Hk. destruct (shares_generate_run (E:=E) secret n k r Hn Hk) as (fs & r' & Hrun & Hfs).
  eexists _, r'. split; [done|]. split.
  { unfold len. rewrite !length_fmap, length_seq. lia. }
  intros sel fuel g g' Hnd Hsub Hlen Hin Hfuel Hw.
  destruct (selected _ _ _ Hnd Hsub) as (xs & -> & Hxs & _).
  unfold len in Hlen. rewrite length_fmap in Hlen.
  pose proof (shares_read_run g fuel [] _ Hin Hfuel) as Hread. simpl in Hread.
  unfold shamir_main, bind at 1, shares_read_all. rewrite Hread.
  unfold bind. rewrite (reconstruct_secret k secret) by (done || lia). by rewrite Hw.
Qed.

(** C37: with one share less than needed, the reconstruction is wrong in every
    byte of the secret.  The coefficients of the polynomials are drawn from
    the numbers other than 0, so that [k - 1] participants together can
    exclude one value for each byte of the secret, where a scheme with
    uniform coefficients would tell them nothing. *)
Theorem shamir_short_excludes {E F T : Type} secret n k r shares r' sel (s : T) :
  (0 ≤ n ≤ 255)%Z → (2 ≤ k < i64_bound)%Z →
  shares_generate (E:=E) secret n k r = (Ok shares, r') →
  NoDup sel → sel ⊆ shares → len sel = (k - 1)%Z →
  ∃ wrong, shares_reconstruct (E:=F) sel s = (Ok wrong, s) ∧ Forall2 (λ x y, x ≠ y) wrong secret.
Proof.
  intros Hn Hk Hrun Hnd Hsub Hlen.
  destruct (shares_generate_run (E:=E) secret n k r Hn ltac:(lia)) as (fs & r1 & Hrun' & Hfs).
  rewrite Hrun in Hrun'. simplify_eq. destruct (selected _ _ _ Hnd Hsub) as (xs & -> & Hxs & Hids).
  unfold len in Hlen. rewrite length_fmap in Hlen. eexists. split.
  { apply shares_reconstruct_run. intros ->. simpl in Hlen. lia. }
  assert (x00 ∉ xs) as Hnz by (intros H%Hids; apply ids_nonzero in H; [done|lia]).
  clear -Hfs Hxs Hlen Hnz Hk. induction Hfs as [|x f secret fs Hf _ IH]; simpl; constructor; [|done].
  pose proof (hides_value _ _ _ Hf) as Hx. destruct Hf as (cs & -> & Hcs & Hcz).
  destruct (last (x :: cs)) as [c|] eqn:Hlast; [|by apply last_None in Hlast].
  rewrite (Gf.interp_short _ _ c) by (done || (simpl; lia)). rewrite Hx. intros Heq.
  assert (Gf.mul c (Gf.product xs) = x00) as H0.
  { rewrite <- (Gf.xor_cancel x (Gf.mul c _)), Heq. apply Gf.xor_nilpotent. }
  revert H0. apply Gf.mul_nonzero; [|by apply Gf.product_nonzero].
  intros ->. destruct cs as [|c' cs]; [simpl in Hcs; lia|].
  apply Hcz. apply last_Some_elem_of. exact Hlast.
Qed.
End recover.

(** The multiplication by tables never reads outside them and is the
    product of the field: of two polynomials over two elements, coefficient
    by coefficient, modulo [X^8 + X^4 + X^3 + X + 1]. *)
Theorem gf256_mul_product {S E : Type} a b (s : S) :
  gf256_mul (E:=E) a b s = (Ok (byte_of (Gf.shift_product a b)), s).
Proof. by rewrite Gf.gf256_mul_run, <- Gf.mul_shift_product, byte_of_val. Qed.

(** The generator's own check passes, and it prints the shares in
    hexadecimal. *)
Theorem generator_self_check {BP : BuildProfile} {PL : PolicyLibs} {R D E : Type} {RG : ThreadRng R}
    {RL : ThreadRngLaws RG} {HS : HostSystem D} opt (d : D) (r : R) :
  let k := default (opt_n opt) (opt_k opt) in
  (1 ≤ k ≤ opt_n opt)%Z → (opt_n opt ≤ 255)%Z →
  ∃ shares r', shares_generate (E:=E) (as_bytes (opt_secret opt)) (opt_n opt) k r = (Ok shares, r') ∧
    generator_main (E:=E) opt (d, r) = fold_st (λ _ share, println (hex_encode share)) shares tt (d, r').
Proof.
  intros k Hk Hn.
  destruct (shares_generate_run (E:=E) (as_bytes (opt_secret opt)) (opt_n opt) k r ltac:(lia) ltac:(lia))
    as (fs & r' & Hrun & Hfs).
  eexists _, r'. split; [done|]. unfold generator_main, bind at 1, zoom. cbn [snd fst]. fold k.
  rewrite Hrun. unfold bind at 1. rewrite (reconstruct_secret k (as_bytes (opt_secret opt))).
  - unfold bind at 1. by rewrite decide_True.
  - done.
  - apply ids_NoDup. lia.
  - rewrite length_fmap, length_seq. lia.
Qed.

(** ** A small run *)
Module SmallShamir.
Import SmallGuest.
Local Open Scope Z_scope.

#[local] Instance profile : BuildProfile := {| overflow_checks := true; debug_assertions := true |}.

(** A generator that counts. *)
#[export] Instance counter : ThreadRng Z := {| gen_range lo hi r := (lo + r mod (hi - lo + 1), r + 1) |}.
#[export] Instance counter_laws : ThreadRngLaws counter.
Proof.
  split. intros lo hi r Hle. simpl. pose proof (Z.mod_pos_bound r (hi - lo + 1) ltac:(lia)). lia.
Qed.

Definition secret : bytes := as_bytes "hi".
Definition shares : list bytes :=
  match (shares_generate (E:=unit) secret 3 2 7).1 with Ok l => l | _ => [] end.
Definition share (i : nat) : bytes := nth i shares [].
Definition files : gmap string bytes :=
  <["/input/shamir-0.dat" := share 2]> {["/input/shamir-1.dat" := share 0]}.

Lemma small_shares : shares_generate (E:=unit) secret 3 2 7 = (Ok shares, 9).
Proof. by vm_compute. Qed.

Lemma small_selected : NoDup [share 2; share 0] ∧ [share 2; share 0] ⊆ shares.
Proof.
  split; [apply (bool_decide_unpack (NoDup _)); by vm_compute|].
  intros x. rewrite !elem_of_cons. intros [->|[->|[]%elem_of_nil]];
    apply (bool_decide_unpack (_ ∈ _)); by vm_compute.
Qed.

Lemma shamir_secret_recovered_witness :
  shamir_main 3 files = (Ok tt, <["/output/shamir.dat" := secret]> files).
Proof.
  destruct (shamir_secret_recovered (E:=unit) (G:=gmap string bytes) secret 3 2 7)
    as (l & r & Hrun & _ & Hrec); [lia..|].
  rewrite small_shares in Hrun. injection Hrun as <- _.
  apply (Hrec [share 2; share 0]); [apply small_selected..|done| |simpl; lia|done].
  split; [|left; by vm_compute]. intros [|[|i]] s Hs; simplify_eq/=; by vm_compute.
Defined.

Lemma shamir_short_excludes_witness :
  ∃ wrong, shares_reconstruct (E:=unit) [share 1] tt = (Ok wrong, tt) ∧ Forall2 (λ x y, x ≠ y) wrong secret.
Proof.
  apply (shamir_short_excludes (E:=unit) secret 3 2 7 shares 9); [lia|lia|exact small_shares| | |done].
  - apply NoDup_singleton.
  - intros x ->%list_elem_of_singleton. apply (bool_decide_unpack (_ ∈ _)). by vm_compute.
Defined.
End SmallShamir.
