(* ===== verification/PolicyGen.v ===== *)
(** * The policy generator ([generate-policy])

    The tool that writes a policy: from its command line, the certificates,
    the programs, the files with a digest and the measurements of the enclave,
    to the JSON text that the server, the clients and the enclave load.

    Source: [test-collateral/generate-policy/src/main.rs].

    [clap] gives the values of the options, [Matches].  [chrono],
    [data_encoding], [regex] and [serde_json] are classes, and so is the
    address of a socket, whose syntax depends on the version of the compiler.
    The host's files are those of [Host]. *)

From S2P Require Import Prelude RustFmt RustStr RustPath WasiTypes Policy Client Host.
Local Open Scope Z_scope.

(** ** Libraries *)

Class NetAddr := {
  SocketAddr : Type;
  SocketAddr_from_str : string → option SocketAddr;
  SocketAddr_fmt : SocketAddr → string;
}.

(** The components of a point in time; the year is an [i32]. *)
Class Chrono := {
  DateTime : Type;
  parse_from_rfc2822 : string → option DateTime;
  dt_year : DateTime → Z;
  dt_month : DateTime → Z;
  dt_day : DateTime → Z;
  dt_hour : DateTime → Z;
  dt_minute : DateTime → Z;
}.

Class DataEncoding := { HEXLOWER_encode : bytes → string }.

Class Regex := { regex_is_match : string → string → bool }.

Class SerdeJson := {
  Value : Type;
  to_value : Policy → option Value;
  to_string_pretty : Value → option string;
}.

(** What the tool relies on: lowercase hexadecimal digits are decoded, a
    pattern of one class matches where one of its characters occurs, and the
    derived reader reads what the derived writer writes, without the field
    that is skipped. *)
Class PolicyGenLaws {PL : PolicyLibs} (DE : DataEncoding) (RX : Regex) (SJ : SerdeJson) : Prop := {
  hex_decode_HEXLOWER b : hex_decode (HEXLOWER_encode b) = Some b;
  regex_rwx s : regex_is_match "[rwx]+" s = contains_char "r" s || contains_char "w" s || contains_char "x" s;
  policy_text_read p v t :
    to_value p = Some v → to_string_pretty v = Some t → policy_from_str t = Some (set_policy_hash None p);
}.

(** ** The command line *)

(** The options that were given *)
Record Matches := mkMatches {
  m_certificate : option (list string);
  m_capability : option (list string);
  m_veracruz_server_ip : option string;
  m_proxy_attestation_server_ip : option string;
  m_proxy_attestation_server_cert : option string;
  m_css_file : option string;
  m_pcr_file : option string;
  m_output_policy_file : option string;
  m_certificate_expiry : option string;
  m_binary : option (list string);
  m_debug : bool;
  m_execution_strategy : option string;
  m_enable_clock : bool;
  m_max_memory_mib : option string;
  m_hash : option (list string);
}.

Section generator.
Context {PL : PolicyLibs} {WR : WasiRights} {NA : NetAddr} {CH : Chrono} {DE : DataEncoding}
  {RX : Regex} {SJ : SerdeJson} {D : Type} {HS : HostSystem D}.
Abbreviation G A := (ST D Exit A).

Record Arguments := mkArguments {
  certificates : list Path;
  certificate_capabilities : list (list string);
  binary_capabilities : list (list string);
  veracruz_server_ip : option SocketAddr;
  proxy_attestation_server_ip : option SocketAddr;
  ar_proxy_service_cert : Path;
  css_file : option Path;
  pcr0_file : option Path;
  output_policy_file : Path;
  certificate_expiry : option DateTime;
  program_binaries : list (string * Path);
  hashes : list (string * Path);
  enclave_debug_mode : bool;
  ar_execution_strategy : string;
  ar_enable_clock : bool;
  ar_max_memory_mib : Z;
}.

Definition POLICY_CIPHERSUITE : string := "TLS_ECDHE_ECDSA_WITH_CHACHA20_POLY1305_SHA256".
Definition DEFAULT_OUTPUT_FILENAME : string := "output.json".
Definition DEFAULT_EXECUTION_STRATEGY : string := "JIT".
Definition DEFAULT_MAX_MEMORY_MIB : Z := 256.

Definition pretty_digest (buf : bytes) : string := HEXLOWER_encode (sha256 buf).

Definition check_execution_strategy (strategy : string) : G unit :=
  if bool_decide (strategy = "Interpretation") || bool_decide (strategy = "JIT") then ret tt
  else abort_with "Could not parse execution strategy argument.".

(** The first field is the name; the second, if there is one, a number; a
    third is looked at only when the second is not a number. *)
Definition capability_ok (s : string) : bool :=
  let split := split_char ":" s in
  let cap_check := match split !! 1%nat with None => false | Some cap => bool_decide (is_Some (parse_u64 cap)) end in
  cap_check || bool_decide (split !! 2%nat = None).

Definition check_capability (capabilities : list (list string)) : G unit :=
  if forallb (forallb capability_ok) capabilities then ret tt
  else abort_with "Could not parse the capability command line arguments.".

(** Files with the names they have in the enclave *)
Definition renamable_list (l : list string) : G (list (string * Path)) :=
  let! paths := map_st (λ b, match parse_renamable_paths b with
                             | Ok paths => ret paths
                             | Err err => abort_with err
                             | Abort p => panic p
                             end) l in
  ret (concat paths).

(** An option that must be given *)
Definition required {A} (o : option A) (msg : string) : G A :=
  match o with Some a => ret a | None => abort_with msg end.

Definition parse_command_line (m : Matches) : G Arguments :=
  let! certificates := required (m_certificate m) "No certificates were passed as command line parameters." in
  let certificates := path <$> certificates in
  let! binaries := required (m_binary m) "No program binary filename passed as an argument." in
  let! program_binaries := renamable_list binaries in
  let! hashes_list := match m_hash m with Some hashes => renamable_list hashes | None => ret [] end in
  let hashes := program_binaries ++ hashes_list in
  let! capabilities := required (m_capability m) "No capabilities were passed as command line parameters." in
  let capabilities := split_char "," <$> capabilities in
  do! check_capability capabilities in
  do! (if negb (len certificates + len program_binaries =? len capabilities)
       then abort_with "The number of capabilities attributes differ from the total number of certificate and binary attributes."
       else ret tt) in
  let certificate_capabilities := take (length certificates) capabilities in
  let binary_capabilities := drop (length certificates) capabilities in
  let! url := required (m_veracruz_server_ip m)
    "No Veracruz server IP address was passed as a command line parameter." in
  let! veracruz_server_ip := required (SocketAddr_from_str url)
    "Could not parse the Veracruz server IP address argument." in
  let! url := required (m_proxy_attestation_server_ip m)
    "No Veracruz proxy attestation server IP address was passed as a command line parameter." in
  let! proxy_attestation_server_ip := required (SocketAddr_from_str url)
    "Could not parse Veracruz proxy attestation server IP address argument." in
  let! cert_file := required (m_proxy_attestation_server_cert m)
    "No Proxy Attestation Server certificate filename was passed as a command line parameter." in
  let output_policy_file := path (default DEFAULT_OUTPUT_FILENAME (m_output_policy_file m)) in
  let css_file := path <$> m_css_file m in
  let pcr0_file := path <$> m_pcr_file m in
  let! expiry := required (m_certificate_expiry m) "No certificate lifetime passed as an argument." in
  let! expiry := required (parse_from_rfc2822 expiry)
    "The certificate expiry timepoint argument could not be parsed." in
  let! execution_strategy :=
    match m_execution_strategy m with
    | Some strategy => do! check_execution_strategy strategy in ret strategy
    | None => ret DEFAULT_EXECUTION_STRATEGY
    end in
  do! (if negb (bool_decide (is_Some pcr0_file)) && negb (bool_decide (is_Some css_file))
       then abort_with "Either the CSS.bin or the PCR0 file must be provided as a command-line parameter."
       else ret tt) in
  let! max_memory_mib :=
    match m_max_memory_mib m with
    | Some s => required (parse_u32 s) "Failed to parse max memory."
    | None => ret DEFAULT_MAX_MEMORY_MIB
    end in
  ret {| certificates := certificates; certificate_capabilities := certificate_capabilities;
         binary_capabilities := binary_capabilities; veracruz_server_ip := Some veracruz_server_ip;
         proxy_attestation_server_ip := Some proxy_attestation_server_ip;
         ar_proxy_service_cert := path cert_file; css_file := css_file; pcr0_file := pcr0_file;
         output_policy_file := output_policy_file; certificate_expiry := Some expiry;
         program_binaries := program_binaries; hashes := hashes; enclave_debug_mode := m_debug m;
         ar_execution_strategy := execution_strategy; ar_enable_clock := m_enable_clock m;
         ar_max_memory_mib := max_memory_mib |}.

(** ** The parts of the policy *)

Definition compute_file_hash (argument : Path) : G string :=
  let! d := get in
  match host_read (p_raw argument) d with
  | Some (buffer, ReadDone) => ret (pretty_digest buffer)
  | Some _ => abort_with "Failed to read file"
  | None => abort_with "Failed to open WASM program binary"
  end.

Definition compute_linux_enclave_hash (arguments : Arguments) : G (option string) :=
  match css_file arguments with
  | None => ret None
  | Some css_file => let! hash := compute_file_hash css_file in ret (Some hash)
  end.

(** An opened file whose text is read to the end *)
Definition read_text (b : bytes * read_end) : G string :=
  match b with (b, ReadDone) => expect (text_of b) | _ => panic UnwrapOnErr end.

Definition compute_nitro_enclave_hash (arguments : Arguments) : G (option string) :=
  match pcr0_file arguments with
  | None => ret None
  | Some pcr0_file =>
      let! d := get in
      match host_read (p_raw pcr0_file) d with
      | Some file =>
          let! content := read_text file in
          let content := replace newline "" content in
          let! content := expect_ok (slice_to 64 content) in
          ret (Some content)
      | None => ret None
      end
  end.

Definition compute_icecap_enclave_hash : option string :=
  Some "deadbeefdeadbeefdeadbeefdeadbeeff00dcafef00dcafef00dcafef00dcafe".

Definition READ_RIGHTS : Rights :=
  rights_union (rights_union (rights_union (right_of PATH_OPEN) (right_of FD_READ)) (right_of FD_SEEK))
    (right_of FD_READDIR).
Definition WRITE_RIGHTS : Rights :=
  rights_union (rights_union (rights_union (rights_union (rights_union (right_of FD_WRITE)
    (right_of PATH_CREATE_FILE)) (right_of PATH_FILESTAT_SET_SIZE)) (right_of FD_SEEK))
    (right_of PATH_OPEN)) (right_of PATH_CREATE_DIRECTORY).
Definition EXECUTE_RIGHTS : Rights := rights_union (right_of PATH_OPEN) (right_of FD_EXECUTE).

(** The rights that letters stand for *)
Definition letter_rights (s : string) : Rights :=
  let rights := rights_empty in
  let rights := if contains_char "r" s then rights_union rights READ_RIGHTS else rights in
  let rights := if contains_char "w" s then rights_union rights WRITE_RIGHTS else rights in
  if contains_char "x" s then rights_union rights EXECUTE_RIGHTS else rights.

Definition serialize_capability_entry (cap_string : string) : G FileRights :=
  let split := split_char ":" cap_string in
  let! file_name := expect (split !! 0%nat) in
  let file_name := enforce_leading_backslash (trim file_name) in
  let! string_number := expect (split !! 1%nat) in
  let string_number := trim string_number in
  let! rights :=
    (if regex_is_match "[rwx]+" string_number then ret (letter_rights string_number)
     else
       let! number := expect (parse_u32 string_number) in
       expect (rights_from_bits number)) in
  let bits := rights_bits rights in
  if (0 <=? bits) && (bits <? u32_bound) then ret (mkFileRights file_name bits) else panic UnwrapOnErr.

Definition serialize_capability (cap_string : list string) : G (list FileRights) :=
  map_st serialize_capability_entry cap_string.

(** [x as u32], [x as u8] *)
Definition cast_u32 (n : Z) : Z := n mod u32_bound.
Definition cast_u8 (n : Z) : Z := n mod 256.

(** The lines of a certificate are joined, its head and its end are kept. *)
Definition one_line_certificate (content : string) : string :=
  replace "-----END CERTIFICATE-----" (newline ++ "-----END CERTIFICATE-----")
    (replace "-----BEGIN CERTIFICATE-----" ("-----BEGIN CERTIFICATE-----" ++ newline)
       (replace newline "" content)).

Definition serialize_identity (e : nat * (Path * list string)) : G (Identity string) :=
  let '(id, (cert, capability)) := e in
  let! d := get in
  match host_read (p_raw cert) d with
  | Some file =>
      let! content := read_text file in
      let certificates := one_line_certificate content in
      let! file_permissions := serialize_capability capability in
      ret (mkIdentity certificates (cast_u32 (Z.of_nat id)) file_permissions)
  | None => abort_with "Could not open certificate file"
  end.

(** [iter().enumerate()] *)
Definition enumerate {A} (l : list A) : list (nat * A) := zip (seq 0 (length l)) l.

(** [assert_eq!] on two lengths *)
Definition assert_lengths {A B} (l : list A) (k : list B) : G unit :=
  if (length l =? length k)%nat then ret tt else panic AssertionFailed.

Definition serialize_identities (arguments : Arguments) : G (list (Identity string)) :=
  do! assert_lengths (certificates arguments) (certificate_capabilities arguments) in
  map_st serialize_identity (enumerate (zip (certificates arguments) (certificate_capabilities arguments))).

Definition serialize_certificate (path : Path) : G string :=
  if utf8_valid (p_raw path) then let! d := get in expect (fs_read_to_string (p_raw path) d)
  else panic UnwrapOnErr.

Definition serialize_binary (e : nat * ((string * Path) * list string)) : G Program :=
  let '(id, ((program_file_name, _), capability)) := e in
  let! file_permissions := serialize_capability capability in
  ret (mkProgram (enforce_leading_backslash program_file_name) (cast_u32 (Z.of_nat id)) file_permissions).

Definition serialize_binaries (arguments : Arguments) : G (list Program) :=
  do! assert_lengths (program_binaries arguments) (binary_capabilities arguments) in
  map_st serialize_binary (enumerate (zip (program_binaries arguments) (binary_capabilities arguments))).

Definition serialize_enclave_certificate_timepoint (arguments : Arguments) : G Timepoint :=
  let! timepoint := expect (certificate_expiry arguments) in
  expect_ok (Timepoint_new (cast_u32 (dt_year timepoint)) (cast_u8 (dt_month timepoint))
    (cast_u8 (dt_day timepoint)) (cast_u8 (dt_hour timepoint)) (cast_u8 (dt_minute timepoint))).

Definition serialize_execution_strategy (strategy : string) : G ExecutionStrategy :=
  if decide (strategy = "Interpretation") then ret Interpretation
  else if decide (strategy = "JIT") then ret JIT
  else abort_with "Could not parse execution strategy argument.".

Definition serialize_hash (e : string * Path) : G FileHash :=
  let! hash := compute_file_hash e.2 in
  ret (mkFileHash (enforce_leading_backslash e.1) hash).

Definition serialize_file_hash (arguments : Arguments) : G (list FileHash) :=
  map_st serialize_hash (hashes arguments).

(** The policy that is serialized *)
Definition build_policy (arguments : Arguments) : G Policy :=
  let! identities := serialize_identities arguments in
  let! programs := serialize_binaries arguments in
  let! server_ip := expect (veracruz_server_ip arguments) in
  let! timepoint := serialize_enclave_certificate_timepoint arguments in
  let! hash_linux := compute_linux_enclave_hash arguments in
  let! hash_nitro := compute_nitro_enclave_hash arguments in
  let! proxy_ip := expect (proxy_attestation_server_ip arguments) in
  let! proxy_service_cert := serialize_certificate (ar_proxy_service_cert arguments) in
  let! strategy := serialize_execution_strategy (ar_execution_strategy arguments) in
  let! file_hashes := serialize_file_hash arguments in
  expect_ok (Policy_new identities programs (SocketAddr_fmt server_ip) timepoint POLICY_CIPHERSUITE
    hash_linux hash_nitro compute_icecap_enclave_hash (SocketAddr_fmt proxy_ip) proxy_service_cert
    (enclave_debug_mode arguments) strategy file_hashes (ar_enable_clock arguments)
    (ar_max_memory_mib arguments)).

Definition serialize_json (arguments : Arguments) : G Value :=
  let! policy := build_policy arguments in
  expect (to_value policy).

(** ** The tool *)

(** It ends by exiting, with [0] when the policy is written. *)
Definition generate_policy (m : Matches) : G unit :=
  let! arguments := parse_command_line m in
  let out := p_raw (output_policy_file arguments) in
  let! d := get in
  match host_create out d with
  | None => abort_with "Could not open file"
  | Some d1 =>
      do! put d1 in
      let! value := serialize_json arguments in
      match to_string_pretty value with
      | None => abort_with "Failed to prettify serialized JSON."
      | Some json =>
          let! d2 := get in
          let '(written, d3) := host_write out (as_bytes json) d2 in
          do! put d3 in
          if written : bool then throw (ExitCode 0) else panic UnwrapOnErr
      end
  end.
End generator.
