(* ===== verification/Launch.v ===== *)
(** * Starting and stopping the enclave

    The processes of the server's machine: how each platform starts the
    process of the enclave, connects to it, gives up when something fails, and
    stops it at the end.

    Sources: [veracruz-server/src/veracruz_server_linux.rs],
    [veracruz_server_icecap.rs], [veracruz_server_nitro.rs];
    [io-utils/src/nitro.rs], [vsocket.rs].

    The machine is a class: temporary directories, files and their
    permissions, environment variables, commands, sockets.  Waiting, logging
    and the threads that copy the output of the enclave are left out. *)

From S2P Require Import Prelude RustFmt RustStr RustPath WasiTypes Policy Transport Framing Enclave.
From S2P Require Import Server PolicyGen.
From S2P Require Import Demo TransportProps FramingProps Session Runtime Proxy SessionProps RuntimeProps EnclaveProps Network.
From S2P Require Import ProxyProps Attest EnclaveDemo SystemDemo.
Local Open Scope Z_scope.

(** [env::var] *)
Inductive env_var := EnvPresent (s : string) | EnvNotPresent | EnvNotUnicode.

(** [UnixStream::connect], with the kinds of errors the code tells apart *)
Inductive connection (T E : Type) := Connected (t : T) | NotThereYet | ConnectFails (e : E).
Arguments Connected {_ _} _.
Arguments NotThereYet {_ _}.
Arguments ConnectFails {_ _} _.

(** [Command::output]: the command could not be run, or its success, standard
    output and standard error *)
Inductive command_output := NotRun | Ran (success : bool) (stdout stderr : bytes).

(** The operations of the machine [M]; [C] are child processes,
    [T] sockets, [E] errors. *)
Class Machine (M C T E : Type) := {
  tempdir : M → (string + E) * M;
  write_image : string → bytes → M → (unit + E) * M;
  (** [metadata(path)?.permissions()], [set_mode] and [set_permissions] *)
  set_mode : string → Z → M → (unit + E) * M;
  read_image : string → M → (bytes + E) * M;
  gen_port : Z → Z → M → Z * M;
  sigaction_ignore_sigchld : M → bool * M;
  env : string → M → env_var;
  command_spawn : string → list string → M → (C + E) * M;
  child_kill : C → M → (unit + E) * M;
  tcp_connect : string → M → (T + E) * M;
  tcp_shutdown : T → M → (unit + E) * M;
  signals_new : M → (unit + E) * M;
  unix_connect : string → M → connection T E * M;
  (** [Command::new(program).args(args).output()] *)
  command_run : string → list string → M → command_output * M;
  (** [socket] with its options, and [connect], for a VSOCK *)
  vsock_socket : M → option T * M;
  vsock_connect_to : T → Z → Z → M → bool * M;
  (** the child processes that run, and the Nitro enclaves by their
      identifiers *)
  running : M → list C;
  enclaves : M → list string;
}.

(** The answer of [nitro-cli run-enclave]: [serde_json::from_str], the field
    [EnclaveCID], and [EnclaveID] as text without its quotes *)
Inductive cid_field := NotANumber | CidU32 (cid : Z) | OtherNumber.
Class NitroJson := {
  NitroAnswer : Type;
  nitro_from_str : string → option NitroAnswer;
  enclave_cid : NitroAnswer → cid_field;
  enclave_id_text : NitroAnswer → string;
}.

Section launch.
Context {BP : BuildProfile} {PL : PolicyLibs} {DE : DataEncoding}
  {P3 : ProtobufMessage ProxyAttestationServerRequest}
  {P4 : ProtobufMessage ProxyAttestationServerResponse}
  {B64 : Base64} {N : Type} {CU : Curl N}
  {B1 : Bincode Message.RuntimeManagerRequest} {B2 : Bincode Message.RuntimeManagerResponse}
  {NJ : NitroJson} {M C T E : Type} {MA : Machine M C T E} {LK : EnclaveLink (T:=T) (E:=E) (N:=N)}.

Record Launching := mkLaunching { la_machine : M; la_net : Net (N:=N) }.
Definition set_machine (m : M) (s : Launching) : Launching := mkLaunching m (la_net s).
Definition set_la_net (n : Net) (s : Launching) : Launching := mkLaunching (la_machine s) n.

Abbreviation Error := (VeracruzServerError (E:=E) (N:=N)).
Abbreviation L A := (ST Launching Error A).

(** [op?] on the machine *)
Definition os {A} (f : E → Error) (op : M → (A + E) * M) : L A := λ s,
  match op (la_machine s) with
  | (inl a, m) => (Ok a, set_machine m s)
  | (inr e, m) => (Err (f e), set_machine m s)
  end.

(** An operation whose result is not looked at, or cannot fail *)
Definition os_run {A} (op : M → A * M) : L A := λ s,
  let '(a, m) := op (la_machine s) in (Ok a, set_machine m s).

(** Run [op] with the connection [socket], which it leaves changed. *)
Definition with_socket {A} (socket : T) (op : ST (Start (N:=N) (T:=T)) Error A) : L (A * T) := λ s,
  match op (mkStart (la_net s) socket) with
  | (Ok a, st) => (Ok (a, st_socket st), set_la_net (st_net st) s)
  | (Err e, st) => (Err e, set_la_net (st_net st) s)
  | (Abort p, st) => (Abort p, set_la_net (st_net st) s)
  end.

(** ** Linux *)

(** The enclave's binary, in the server's own *)
Context (RUNTIME_ENCLAVE_BINARY_IMAGE : bytes).

Record LinuxServer := mkLinuxServer {
  runtime_manager_process : C;
  runtime_manager_socket : T;
  runtime_enclave_binary_dir : string;
}.

(** Writing the binary, and measuring what was written *)
Definition linux_image : L (string * string * string) :=
  let! dir := os ServerIOError tempdir in
  let path := (dir ++ "/runtime_enclave_binary")%string in
  do! os ServerIOError (write_image path RUNTIME_ENCLAVE_BINARY_IMAGE) in
  do! os ServerIOError (set_mode path 320) in
  let! buffer := os ServerIOError (read_image path) in
  ret (dir, path, HEXLOWER_encode (sha256 buffer)).

(** The closure: connecting, and attestation *)
Definition linux_connect (fuel : nat) (port : Z) (url policy : string) :
  L (Message.RuntimeManagerResponse * T) :=
  let! socket := os ServerIOError (tcp_connect ("127.0.0.1:" ++ fmt_dec port)%string) in
  with_socket socket (linux_start fuel url policy).

(** [r.map_err(|e| { cleanup; e })] *)
Definition on_error {A} (m : L A) (cleanup : L unit) : L A := λ s,
  match m s with
  | (Err e, s') => (Err e, (cleanup s').2)
  | r => r
  end.

Definition linux_launch (fuel : nat) (policy : string) : L LinuxServer :=
  let! policy_json := map_err ServerUtilError (lift (Policy_from_json policy)) in
  let! image := linux_image in
  let '(dir, path, measurement) := image in
  let! port := os_run (gen_port 6000 7000) in
  let! ok := os_run sigaction_ignore_sigchld in
  do! (if ok : bool then ret tt else panic UnwrapOnErr) in
  let! child := os ServerIOError (command_spawn path
    ["--port"; fmt_dec port; "--measurement"; measurement]) in
  let! r := on_error (linux_connect fuel port (proxy_attestation_server_url policy_json) policy)
              (do! os_run (child_kill child) in ret tt) in
  do! lift (linux_received r.1) in
  ret (mkLinuxServer child r.2 dir).

(** [shutdown_isolate], and [drop], which ignores its result *)
Definition linux_shutdown_isolate (v : LinuxServer) : L unit :=
  do! os ServerIOError (tcp_shutdown (runtime_manager_socket v)) in
  os ServerIOError (child_kill (runtime_manager_process v)).

Definition linux_drop (v : LinuxServer) : L unit := λ s, (Ok tt, (linux_shutdown_isolate v s).2).

(** ** IceCap *)

Context (VERACRUZ_ICECAP_QEMU_IMAGE : bytes).

Record IceCapRealm := mkRealm { child : C; channel : T; realm_dir : string }.

Definition QEMU_BIN_DEFAULT : list string := ["qemu-system-aarch64"].
Definition QEMU_FLAGS_DEFAULT : list string :=
  ["-machine"; "virt,virtualization=on,gic-version=2"; "-cpu"; "cortex-a57"; "-smp"; "4"; "-m"; "3072";
   "-semihosting-config"; "enable=on,target=native"; "-netdev"; "user,id=netdev0";
   "-serial"; "mon:stdio"; "-nographic"].
Definition QEMU_CONSOLE_FLAGS_DEFAULT : list string :=
  ["-chardev"; "socket,path={console0_path},server=on,wait=off,id=charconsole0";
   "-device"; "virtio-serial-device"; "-device"; "virtconsole,chardev=charconsole0,id=console0"].
Definition QEMU_IMAGE_FLAGS_DEFAULT : list string := ["-kernel"; "{image_path}"].

Definition env_flags (var : string) (default : list string) : L (list string) := λ s,
  match env var (la_machine s) with
  | EnvPresent v => (Ok (split_whitespace v), s)
  | EnvNotPresent => (Ok default, s)
  | EnvNotUnicode => (Err (InvalidEnvironmentVariableValue var), s)
  end.

(** The loop until the socket is there; the fuel bounds the attempts. *)
Fixpoint realm_connect (fuel : nat) (path : string) : L T :=
  match fuel with
  | O => panic OutOfFuel
  | S fuel' =>
      let! c := os_run (unix_connect path) in
      match c with
      | Connected channel => ret channel
      | NotThereYet => realm_connect fuel' path
      | ConnectFails err => throw (IceCapChannelError err)
      end
  end.

Definition realm_spawn (fuel : nat) : L IceCapRealm :=
  let! qemu_bin := env_flags "VERACRUZ_ICECAP_QEMU_BIN" QEMU_BIN_DEFAULT in
  let! qemu_flags := env_flags "VERACRUZ_ICECAP_QEMU_FLAGS" QEMU_FLAGS_DEFAULT in
  let! console_flags := env_flags "VERACRUZ_ICECAP_QEMU_CONSOLE_FLAGS" QEMU_CONSOLE_FLAGS_DEFAULT in
  let! image_flags := env_flags "VERACRUZ_ICECAP_QEMU_IMAGE_FLAGS" QEMU_IMAGE_FLAGS_DEFAULT in
  let! dir := os ServerIOError tempdir in
  let image_path := (dir ++ "/image")%string in
  do! os ServerIOError (write_image image_path VERACRUZ_ICECAP_QEMU_IMAGE) in
  let channel_path := (dir ++ "/console0")%string in
  match qemu_bin with
  | [] => panic SliceOutOfRange
  | program :: args =>
      let! child := os QemuSpawnError (command_spawn program
        (args ++ qemu_flags ++ (replace "{console0_path}" channel_path <$> console_flags) ++
         (replace "{image_path}" image_path <$> image_flags))) in
      do! os ServerIOError signals_new in
      let! channel := realm_connect fuel channel_path in
      ret (mkRealm child channel dir)
  end.

Definition realm_shutdown (r : IceCapRealm) : L unit := os ServerIOError (child_kill (child r)).

(** [drop] of the server: a realm that cannot be stopped panics. *)
Definition icecap_drop (realm : option IceCapRealm) : L unit := λ s,
  match realm with
  | None => (Ok tt, s)
  | Some r =>
      match realm_shutdown r s with
      | (Ok _, s') => (Ok tt, s')
      | (_, s') => (Abort UnwrapOnErr, s')
      end
  end.

(** [new]: when it fails after the realm was spawned, the realm is dropped. *)
Definition icecap_launch (fuel : nat) (policy_json : string) : L IceCapRealm :=
  let! policy := map_err ServerUtilError (lift (Policy_from_json policy_json)) in
  let! realm := realm_spawn fuel in
  λ s,
    match with_socket (channel realm)
            (icecap_start fuel (proxy_attestation_server_url policy) policy_json) s with
    | (Ok r, s') => (Ok (mkRealm (child realm) r.2 (realm_dir realm)), s')
    | (Err e, s') =>
        match icecap_drop (Some realm) s' with
        | (Ok _, s'') => (Err e, s'')
        | (_, s'') => (Abort UnwrapOnErr, s'')
        end
    | (Abort p, s') => (Abort p, s')
    end.

(** ** Nitro *)

Definition RUNTIME_MANAGER_EIF_PATH : string := "../runtime-manager/runtime_manager.eif".

Record NitroEnclave := mkNitroEnclave {
  enclave_id : string;
  vsocksocket : T;
  nitro_cli_path : string;
}.

(** [VsockSocket::connect]: five attempts, each with a socket of its own *)
Fixpoint vsock_connect (attempts : nat) (cid port : Z) : L T :=
  match attempts with
  | O => throw (ServerNitroError NixError)
  | S attempts' =>
      let! socket := os_run vsock_socket in
      match socket with
      | None => throw (ServerNitroError NixError)
      | Some t =>
          let! ok := os_run (vsock_connect_to t cid port) in
          if ok : bool then ret t else vsock_connect attempts' cid port
      end
  end.

(** The loop that runs the command until it succeeds; the fuel bounds its
    turns. *)
Fixpoint run_enclave (fuel : nat) (cli : string) (args : list string) : L bytes :=
  match fuel with
  | O => panic OutOfFuel
  | S fuel' =>
      let! result := os_run (command_run cli args) in
      match result with
      | NotRun => run_enclave fuel' cli args
      | Ran true stdout _ => ret stdout
      | Ran false _ stderr =>
          if utf8_valid (String.string_of_list_byte stderr) then run_enclave fuel' cli args
          else throw (ServerNitroError NitroUtf8Error)
      end
  end.

Definition nitro_enclave_new (fuel : nat) (nitro_sbin : bool) (eif_path : string) (debug : bool)
    (max_memory_mib : Z) : L NitroEnclave :=
  let args := ["run-enclave"; "--eif-path"; eif_path; "--cpu-count"; "2"; "--memory"; fmt_dec max_memory_mib]
    ++ (if debug then ["--debug-mode=true"] else []) in
  let cli := (if nitro_sbin then "/usr/sbin/nitro-cli" else "/usr/bin/nitro-cli")%string in
  let! stdout := run_enclave fuel cli args in
  let text := String.string_of_list_byte stdout in
  do! fail_if (negb (utf8_valid text)) (ServerNitroError NitroUtf8Error) in
  let! enclave_data := ok_or (nitro_from_str text) (ServerNitroError SerdeJsonError) in
  let! cid := match enclave_cid enclave_data with
              | NotANumber => throw (ServerNitroError SerdeError)
              | CidU32 cid => ret cid
              | OtherNumber => panic UnwrapOnErr
              end in
  let! socket := vsock_connect 5 cid 5005 in
  ret (mkNitroEnclave (enclave_id_text enclave_data) socket cli).

(** [drop]: the loop ends when the command could be run. *)
Fixpoint nitro_enclave_drop (fuel : nat) (e : NitroEnclave) : L unit :=
  match fuel with
  | O => panic OutOfFuel
  | S fuel' =>
      let! result := os_run (command_run (nitro_cli_path e)
        ["terminate-enclave"; "--enclave-id"; enclave_id e]) in
      match result with
      | NotRun => nitro_enclave_drop fuel' e
      | Ran true _ _ => ret tt
      | Ran false _ stderr =>
          if utf8_valid (String.string_of_list_byte stderr) then ret tt else panic UnwrapOnErr
      end
  end.

(** [new]: the challenge comes first, then the enclave; when a later step
    fails, the enclave is dropped. *)
Definition nitro_launch (fuel : nat) (debug_feature : bool) (policy_json : string) : L NitroEnclave :=
  let! policy := map_err ServerUtilError (lift (Policy_from_json policy_json)) in
  let url := proxy_attestation_server_url policy in
  let! start := map_err ServerHttpError (zoom la_net set_la_net
                  (send_proxy_attestation_server_start url "nitro" "0.0")) in
  let! eif_path := (λ s, (Ok (match env "RUNTIME_MANAGER_EIF_PATH" (la_machine s) with
                              | EnvPresent v => v | _ => RUNTIME_MANAGER_EIF_PATH end), s)) in
  let! enclave := nitro_enclave_new fuel false eif_path debug_feature (max_memory_mib policy) in
  λ s,
    match with_socket (vsocksocket enclave) (Server.nitro_start fuel url policy_json start) s with
    | (Ok r, s') => (Ok (mkNitroEnclave (enclave_id enclave) r.2 (nitro_cli_path enclave)), s')
    | (Err e, s') =>
        match nitro_enclave_drop fuel enclave s' with
        | (Ok _, s'') => (Err e, s'')
        | (Err _, s'') => (Err e, s'')
        | (Abort p, s'') => (Abort p, s'')
        end
    | (Abort p, s') => (Abort p, s')
    end.
End launch.

(** * Processes of the enclave

    What runs after the server has tried to start an enclave, and after it has
    dropped one: no process is left behind, but in the cases that the
    theorems name.

    Sources: [veracruz-server/src/veracruz_server_linux.rs],
    [veracruz_server_icecap.rs]. *)

Local Open Scope Z_scope.

(** What the code relies on: a process runs from its start until it is killed,
    processes are told apart, and a running child can be killed. *)
Class MachineLaws {M C T E : Type} `{!EqDecision C} (MA : Machine M C T E) : Prop := {
  spawn_runs p args m c m' : command_spawn p args m = (inl c, m') →
    c ∉ running m ∧ running m' = c :: running m;
  spawn_fails p args m e m' : command_spawn p args m = (inr e, m') → running m' = running m;
  kill_stops c m : c ∈ running m → ∃ m', child_kill c m = (inl tt, m') ∧
    running m' = filter (λ x, x ≠ c) (running m);
  tempdir_keeps m : running (tempdir m).2 = running m;
  write_image_keeps p b m : running (write_image p b m).2 = running m;
  set_mode_keeps p z m : running (set_mode p z m).2 = running m;
  read_image_keeps p m : running (read_image p m).2 = running m;
  gen_port_keeps lo hi m : running (gen_port lo hi m).2 = running m;
  sigaction_keeps m : running (sigaction_ignore_sigchld m).2 = running m;
  tcp_connect_keeps a m : running (tcp_connect a m).2 = running m;
  tcp_shutdown_keeps t m : running (tcp_shutdown t m).2 = running m;
  signals_keeps m : running (signals_new m).2 = running m;
  unix_connect_keeps p m : running (unix_connect p m).2 = running m;
}.

#[export] Hint Resolve tempdir_keeps write_image_keeps set_mode_keeps read_image_keeps gen_port_keeps
  sigaction_keeps tcp_connect_keeps tcp_shutdown_keeps signals_keeps unix_connect_keeps : veracruz.

Section processes.
Context {BP : BuildProfile} {PL : PolicyLibs} {DE : DataEncoding}
  {P3 : ProtobufMessage ProxyAttestationServerRequest}
  {P4 : ProtobufMessage ProxyAttestationServerResponse}
  {B64 : Base64} {N : Type} {CU : Curl N}
  {B1 : Bincode Message.RuntimeManagerRequest} {B2 : Bincode Message.RuntimeManagerResponse}
  {NJ : NitroJson} {M C T E : Type} `{!EqDecision C} {MA : Machine M C T E} {ML : MachineLaws MA}
  {LK : EnclaveLink (T:=T) (E:=E) (N:=N)}.

Abbreviation La := (Launching (N:=N) (M:=M)).
Abbreviation procs s := (running (la_machine s)).

(** The state before and after has the same processes. *)
Definition same_procs (R : list C) (s : La) : Prop := procs s = R.

Lemma os_same R {A} f (op : M → (A + E) * M) :
  (∀ m, running (op m).2 = running m) → preserves (same_procs R) (os (N:=N) f op).
Proof.
  intros Hop s Hs. unfold os. specialize (Hop (la_machine s)).
  destruct (op (la_machine s)) as [[a|e] m]; simpl in *; unfold same_procs in *; simpl; congruence.
Qed.

Lemma os_run_same R {A} (op : M → A * M) :
  (∀ m, running (op m).2 = running m) → preserves (same_procs R) (os_run (N:=N) (E:=E) op).
Proof.
  intros Hop s Hs. unfold os_run. specialize (Hop (la_machine s)).
  destruct (op (la_machine s)) as [a m]; simpl in *; unfold same_procs in *; simpl; congruence.
Qed.

Lemma with_socket_same R {A} (t : T) (op : ST (Start (N:=N) (T:=T)) (VeracruzServerError (E:=E) (N:=N)) A) :
  preserves (same_procs R) (with_socket t op).
Proof. intros s Hs. unfold with_socket. by destruct (op _) as [[] ?]. Qed.

Hint Resolve os_same os_run_same with_socket_same : veracruz.

Lemma linux_image_same R image : preserves (same_procs R) (linux_image (N:=N) image).
Proof. unfold linux_image. preserve. Qed.

Lemma linux_connect_same R fuel port url policy :
  preserves (same_procs R) (linux_connect (N:=N) fuel port url policy).
Proof. unfold linux_connect. preserve. Qed.

(** ** Starting on Linux *)

(** A run that keeps the processes, whatever it returns *)
Lemma same_after {A} (m : ST La (VeracruzServerError (E:=E) (N:=N)) A) s o s' :
  preserves (same_procs (procs s)) m → m s = (o, s') → procs s' = procs s.
Proof. intros Hm Hrun. specialize (Hm s eq_refl). rewrite Hrun in Hm. by destruct o. Qed.

(** Everything up to the start of the process *)
Definition linux_prepare (image : bytes) (policy : string) :
  ST La (VeracruzServerError (E:=E) (N:=N)) (Policy * (string * string * string) * Z) :=
  let! policy_json := map_err ServerUtilError (lift (Policy_from_json policy)) in
  let! i := linux_image image in
  let! port := os_run (gen_port 6000 7000) in
  let! ok := os_run sigaction_ignore_sigchld in
  do! (if ok : bool then ret tt else panic UnwrapOnErr) in
  ret (policy_json, i, port).

Lemma linux_prepare_same R image policy : preserves (same_procs R) (linux_prepare image policy).
Proof.
  unfold linux_prepare. apply preserves_bind; [intros s Hs; unfold map_err, lift; by destruct (Policy_from_json _)|].
  intros pj. apply preserves_bind; [apply linux_image_same|]. intros i. preserve.
Qed.

Definition linux_args (i : string * string * string) (port : Z) : list string :=
  ["--port"; fmt_dec port; "--measurement"; i.2].

(** And what follows *)
Definition linux_started (fuel : nat) (policy : string) (r : Policy * (string * string * string) * Z)
    (child : C) : ST La (VeracruzServerError (E:=E) (N:=N)) LinuxServer :=
  let! x := on_error (linux_connect fuel r.2 (proxy_attestation_server_url r.1.1) policy)
              (do! os_run (child_kill child) in ret tt) in
  do! lift (linux_received x.1) in
  ret (mkLinuxServer child x.2 r.1.2.1.1).

Lemma linux_launch_split image fuel policy s :
  linux_launch image fuel policy s =
    (let! r := linux_prepare image policy in
     let! child := os ServerIOError (command_spawn r.1.2.1.2 (linux_args r.1.2 r.2)) in
     linux_started fuel policy r child) s.
Proof.
  unfold linux_launch, linux_prepare, linux_started, linux_args, bind.
  destruct (map_err _ _ s) as [[pj| |] s1]; [|done..].
  destruct (linux_image image s1) as [[[[dir path] ms]| |] s2]; [|done..].
  destruct (os_run (gen_port 6000 7000) s2) as [[port| |] s3]; [|done..].
  destruct (os_run _ s3) as [[[]| |] s4]; done.
Qed.

Lemma filter_killed (c : C) R : c ∉ R → filter (λ x, x ≠ c) (c :: R) = R.
Proof.
  intros Hc. rewrite filter_cons_False by naive_solver.
  induction R as [|x R IH]; [done|]. apply not_elem_of_cons in Hc as [Hx Hc].
  rewrite filter_cons_True by congruence. by rewrite IH.
Qed.

(** The process after the closure: killed when it failed. *)
Lemma on_error_kill {A} (m : ST La (VeracruzServerError (E:=E) (N:=N)) A) c R s o s' :
  (∀ R, preserves (same_procs R) m) → c ∉ R → procs s = c :: R →
  on_error m (do! os_run (child_kill c) in ret tt) s = (o, s') →
  match o with Err _ => procs s' = R | _ => procs s' = c :: R ∧ m s = (o, s') end.
Proof.
  intros Hm Hc Hs. unfold on_error. destruct (m s) as [o1 s1] eqn:Hrun.
  pose proof (same_after m s o1 s1 (Hm _) Hrun) as H1. rewrite Hs in H1.
  destruct o1 as [a|e|p]; [by intros [= <- <-]| |by intros [= <- <-]].
  intros [= <- <-]. unfold os_run, bind. simpl.
  destruct (kill_stops c (la_machine s1)) as (m' & Hk & Hrm); [rewrite H1; apply list_elem_of_here|].
  rewrite Hk. simpl. by rewrite Hrm, H1, filter_killed.
Qed.

Lemma linux_image_inv image (s : La) i s' :
  linux_image (E:=E) image s = (Ok i, s') →
  ∃ buffer m0 m1, read_image i.1.2 m0 = (inl buffer, m1) ∧ i.2 = HEXLOWER_encode (sha256 buffer).
Proof.
  unfold linux_image. intros (dir & s1 & _ & Hrun)%bind_ok. cbv zeta in Hrun.
  apply bind_ok in Hrun as ([] & s2 & _ & Hrun). apply bind_ok in Hrun as ([] & s3 & _ & Hrun).
  apply bind_ok in Hrun as (buffer & s4 & Hread & Hret). unfold ret in Hret. simplify_eq. simpl.
  unfold os in Hread. destruct (read_image _ _) as [[b|e] m] eqn:Hr; simplify_eq. eauto.
Qed.

Lemma linux_prepare_image image policy (s : La) r s' :
  linux_prepare image policy s = (Ok r, s') →
  ∃ buffer m0 m1, read_image r.1.2.1.2 m0 = (inl buffer, m1) ∧ r.1.2.2 = HEXLOWER_encode (sha256 buffer).
Proof.
  unfold linux_prepare. intros (pj & s1 & _ & Hrun)%bind_ok.
  apply bind_ok in Hrun as (i & s2 & Hi & Hrun). apply bind_ok in Hrun as (port & s3 & _ & Hrun).
  apply bind_ok in Hrun as (ok & s4 & _ & Hrun). apply bind_ok in Hrun as ([] & s5 & _ & Hret).
  unfold ret in Hret. simplify_eq. by eapply linux_image_inv.
Qed.

Lemma linux_drop_procs v R (s : La) :
  runtime_manager_process v ∉ R → procs s = runtime_manager_process v :: R →
  procs (linux_drop (N:=N) v s).2 =
    match tcp_shutdown (runtime_manager_socket v) (la_machine s) with
    | (inl _, _) => R
    | (inr _, _) => runtime_manager_process v :: R
    end.
Proof.
  intros Hc Hs. unfold linux_drop, linux_shutdown_isolate, bind, os at 1. simpl.
  pose proof (tcp_shutdown_keeps (runtime_manager_socket v) (la_machine s)) as Hk.
  destruct (tcp_shutdown _ _) as [[[]|e] m]; simpl in *; [|congruence].
  rewrite Hs in Hk. unfold os. simpl.
  destruct (kill_stops (runtime_manager_process v) m) as (m' & -> & Hrm); [rewrite Hk; apply list_elem_of_here|].
  simpl. by rewrite Hrm, Hk, filter_killed.
Qed.


(** ** Starting on IceCap *)

Lemma env_flags_same R var d : preserves (same_procs R) (env_flags (N:=N) (E:=E) var d).
Proof. intros s Hs. unfold env_flags. by destruct (env var (la_machine s)). Qed.

Lemma realm_connect_same R fuel path : preserves (same_procs R) (realm_connect (N:=N) fuel path).
Proof. induction fuel as [|fuel IH]; simpl; preserve. Qed.

(** Everything up to the start of the emulator *)
Definition realm_prepare (image : bytes) :
  ST La (VeracruzServerError (E:=E) (N:=N)) (list string * list string * string) :=
  let! qemu_bin := env_flags "VERACRUZ_ICECAP_QEMU_BIN" QEMU_BIN_DEFAULT in
  let! qemu_flags := env_flags "VERACRUZ_ICECAP_QEMU_FLAGS" QEMU_FLAGS_DEFAULT in
  let! console_flags := env_flags "VERACRUZ_ICECAP_QEMU_CONSOLE_FLAGS" QEMU_CONSOLE_FLAGS_DEFAULT in
  let! image_flags := env_flags "VERACRUZ_ICECAP_QEMU_IMAGE_FLAGS" QEMU_IMAGE_FLAGS_DEFAULT in
  let! dir := os ServerIOError tempdir in
  do! os ServerIOError (write_image (dir ++ "/image")%string image) in
  ret (qemu_bin, qemu_flags ++ (replace "{console0_path}" (dir ++ "/console0")%string <$> console_flags) ++
         (replace "{image_path}" (dir ++ "/image")%string <$> image_flags), dir).

Lemma realm_prepare_same R image : preserves (same_procs R) (realm_prepare image).
Proof.
  unfold realm_prepare. repeat (apply preserves_bind; [apply env_flags_same|intros ?]). preserve.
Qed.

Lemma realm_spawn_split image fuel s :
  realm_spawn image fuel s =
    (let! r := realm_prepare image in
     match r.1.1 with
     | [] => panic SliceOutOfRange
     | program :: args =>
         let! c := os QemuSpawnError (command_spawn program (args ++ r.1.2)) in
         do! os ServerIOError signals_new in
         let! t := realm_connect fuel (r.2 ++ "/console0")%string in
         ret (mkRealm c t r.2)
     end) s.
Proof.
  unfold realm_spawn, realm_prepare, bind.
  destruct (env_flags _ _ s) as [[bin| |] s1]; [|done..].
  destruct (env_flags _ _ s1) as [[fl| |] s2]; [|done..].
  destruct (env_flags _ _ s2) as [[cf| |] s3]; [|done..].
  destruct (env_flags _ _ s3) as [[fi| |] s4]; [|done..].
  destruct (os _ _ s4) as [[dir| |] s5]; [|done..].
  destruct (os _ _ s5) as [[[]| |] s6]; [|done..]. simpl. by destruct bin.
Qed.

Lemma realm_spawn_procs image fuel (s : La) o s' :
  realm_spawn image fuel s = (o, s') →
  match o with
  | Ok r => child r ∉ procs s ∧ procs s' = child r :: procs s
  | _ => procs s' = procs s ∨ ∃ c, procs s' = c :: procs s
  end.
Proof.
  rewrite realm_spawn_split. unfold bind at 1.
  destruct (realm_prepare image s) as [o1 s1] eqn:Hprep.
  pose proof (same_after _ _ _ _ (realm_prepare_same _ image) Hprep) as H1.
  destruct o1 as [r|e|p]; [|intros [= <- <-]; by left..].
  destruct (r.1.1) as [|program args]; [intros [= <- <-]; by left|].
  unfold bind at 1, os at 1.
  destruct (command_spawn _ _ (la_machine s1)) as [[c|e] m] eqn:Hsp.
  2:{ intros [= <- <-]. left. simpl. by rewrite (spawn_fails _ _ _ _ _ Hsp). }
  pose proof (spawn_runs _ _ _ _ _ Hsp) as [Hc Hrun]. rewrite H1 in Hc, Hrun.
  match goal with |- ?rest _ = _ → _ => set (k := rest) end.
  assert (preserves (same_procs (c :: procs s)) k) as Hk.
  { unfold k. apply preserves_bind; [preserve|]. intros [].
    apply preserves_bind; [apply realm_connect_same|]. intros t. apply preserves_ret. }
  intros Hrest. specialize (Hk (set_machine m s1) Hrun). rewrite Hrest in Hk.
  destruct o as [v|e|p]; [|right; by exists c..].
  unfold k in Hrest. apply bind_ok in Hrest as ([] & s2 & _ & Hrest).
  apply bind_ok in Hrest as (t & s3 & _ & Hret). unfold ret in Hret. simplify_eq. done.
Qed.

(** On IceCap, a server that was started runs exactly one emulator more.
    When the start fails after the emulator was running and connected, it is
    killed; but when the emulator was started and the server cannot install
    its signal handler or connect, the emulator keeps running. *)
Theorem icecap_processes image fuel policy (s : La) o s' :
  icecap_launch image fuel policy s = (o, s') →
  match o with
  | Ok v => procs s' = child v :: procs s
  | Err e =>
      procs s' = procs s ∨
      ∃ c s1, realm_spawn image fuel s1 = (Err e, s') ∧ procs s1 = procs s ∧ procs s' = c :: procs s
  | Abort _ => True
  end.
Proof.
  unfold icecap_launch, bind at 1, map_err, lift.
  destruct (Policy_from_json policy) as [pj|e|p]; [|intros [= <- <-]; by left|by intros [= <- <-]].
  unfold bind at 1. destruct (realm_spawn image fuel s) as [o1 s1] eqn:Hsp.
  pose proof (realm_spawn_procs image fuel s o1 s1 Hsp) as H1.
  destruct o1 as [r|e|p]; [| |by intros [= <- <-]].
  2:{ intros [= <- <-]. destruct H1 as [H1|[c H1]]; [by left|right]. by exists c, s. }
  destruct H1 as [Hc H1].
  destruct (with_socket _ _ s1) as [o2 s2] eqn:Hstart.
  pose proof (same_after _ _ _ _ (with_socket_same _ _ _) Hstart) as H2. rewrite H1 in H2.
  destruct o2 as [x|e|p]; [by intros [= <- <-]| |by intros [= <- <-]].
  simpl. unfold realm_shutdown, os.
  destruct (kill_stops (child r) (la_machine s2)) as (m & -> & Hm); [rewrite H2; apply list_elem_of_here|].
  intros [= <- <-]. left. simpl. by rewrite Hm, H2, filter_killed.
Qed.
End processes.

(** ** A small machine *)

Module SmallLaunch.
Import Demo SmallCodec SmallTls SmallRuntime SmallEnclave SmallSystem.

(** Processes are numbered; the enclave of the small system listens, or
    nothing does. *)
Record Box := mkBox { kids : list nat; disk : list (string * bytes); listens : bool }.
Definition next_pid (m : Box) : nat := S (foldr Nat.max 0%nat (kids m)).
Definition with_kids (l : list nat) (m : Box) : Box := mkBox l (disk m) (listens m).
Definition small_enclave : Enclave (A:=unit) := mkEnclave Runtime_initial tt.

#[export] Instance hex : DataEncoding := {| HEXLOWER_encode := to_hex |}.

#[export] Instance box : Machine Box nat (Enclave (A:=unit)) IoError := {|
  tempdir m := (inl "/tmp/x", m);
  write_image p b m := (inl tt, mkBox (kids m) ((p, b) :: disk m) (listens m));
  set_mode _ _ m := (inl tt, m);
  read_image p m :=
    match list_find (λ x, x.1 = p) (disk m) with Some (_, (_, b)) => (inl b, m) | None => (inr (false : IoError), m) end;
  gen_port lo _ m := (lo, m);
  sigaction_ignore_sigchld m := (true, m);
  env _ _ := EnvNotPresent;
  command_spawn _ _ m := (inl (next_pid m), with_kids (next_pid m :: kids m) m);
  child_kill c m := (inl tt, with_kids (filter (λ x, x ≠ c) (kids m)) m);
  tcp_connect _ m := (if listens m then inl small_enclave else inr (false : IoError), m);
  tcp_shutdown _ m := (inl tt, m);
  signals_new m := (inl tt, m);
  unix_connect _ m := (if listens m then Connected small_enclave else ConnectFails (false : IoError), m);
  command_run _ _ m := (NotRun, m);
  vsock_socket m := (None, m);
  vsock_connect_to _ _ _ m := (false, m);
  running := kids;
  enclaves _ := [];
|}.

Lemma next_pid_fresh m : next_pid m ∉ kids m.
Proof.
  assert (∀ x l, x ∈ l → (x ≤ foldr Nat.max 0 l)%nat) as Hmax.
  { intros x l. induction l as [|y l IH]; [by intros ?%not_elem_of_nil|].
    intros [->|Hx]%elem_of_cons; simpl; [lia|]. specialize (IH Hx). lia. }
  intros Hin%Hmax. unfold next_pid in Hin. lia.
Qed.

#[export] Instance box_laws : MachineLaws box.
Proof.
  split; simpl; try done.
  - intros p args m c m' [= <- <-]. split; [apply next_pid_fresh|done].
  - intros c m _. by eexists.
  - intros p m. by destruct (list_find _ _) as [[? []]|].
Qed.

Abbreviation N0 := (Proxy (R:=nat) (C:=unit)).
Definition launch0 (l : bool) : Launching (N:=N0) (M:=Box) := mkLaunching (mkBox [4%nat] [] l) (mkNet proxy0 ∅).
Definition small_link : EnclaveLink (T:=Enclave (A:=unit)) (E:=IoError) (N:=N0) :=
  direct_link (CU:=proxy_curl proxy_url) [] hash32.
Definition small_linux (LK : EnclaveLink (T:=Enclave (A:=unit)) (E:=IoError) (N:=N0)) (l : bool) :=
  linux_launch (C:=nat) (CU:=proxy_curl proxy_url) (LK:=LK) hello 0 "{policy}" (launch0 l).


(** An enclave that attests but refuses the policy *)
Definition refusing : EnclaveLink (T:=Enclave (A:=unit)) (E:=IoError) (N:=N0) := {|
  call_enclave fuel req :=
    match req with
    | Message.Initialize _ _ => ret (Message.StatusMsg Message.Fail)
    | _ => call_enclave (EnclaveLink:=small_link) fuel req
    end;
|}.

Example refused_enclave_runs :
  is_ok (small_linux refusing true).1 = false ∧
  running (C:=nat) (la_machine (small_linux refusing true).2) = [5%nat; 4%nat] ∧
  running (C:=nat) (la_machine (small_linux small_link false).2) = [4%nat].
Proof. split_and!; by vm_compute. Qed.

(** Nothing listens on the console: the emulator keeps running. *)
Definition small_icecap (l : bool) :=
  icecap_launch (C:=nat) (CU:=proxy_curl proxy_url) (LK:=small_link) hello 1 "{policy}" (launch0 l).

Lemma icecap_processes_witness :
  ∃ e c, (small_icecap false).1 = Err e ∧
    (running (C:=nat) (la_machine (small_icecap false).2) = [4%nat] ∨
     running (C:=nat) (la_machine (small_icecap false).2) = [c; 4%nat]).
Proof.
  pose proof (icecap_processes (C:=nat) (CU:=proxy_curl proxy_url) (LK:=small_link) hello 1 "{policy}" (launch0 false)
    _ _ (surjective_pairing (small_icecap false))) as H.
  assert (match (small_icecap false).1 with Err _ => true | _ => false end = true) as Herr by by vm_compute.
  destruct (small_icecap false).1 as [v|e|p]; [discriminate| |discriminate].
  destruct H as [H|(c & s1 & _ & _ & H)]; [exists e, 0%nat|exists e, c]; split; [reflexivity|by left|reflexivity|by right].
Defined.

Example unreachable_emulator_runs :
  running (C:=nat) (la_machine (small_icecap false).2) = [5%nat; 4%nat] ∧
  is_ok (small_icecap true).1 = false ∧ running (C:=nat) (la_machine (small_icecap true).2) = [4%nat].
Proof. split_and!; by vm_compute. Qed.
End SmallLaunch.
