(* ===== verification/PolicyGenProps.v ===== *)
(** * Properties of the policy generator

    A policy that the tool has written is accepted by those who load it, with
    the digests of the files and the measurement of the enclave that the tool
    saw, and gives each certificate and program the rights of its own
    capabilities.

    Sources: [test-collateral/generate-policy/src/main.rs];
    [policy-utils/src/policy.rs], [veracruz-client/src/veracruz_client.rs]. *)

From S2P Require Import Prelude RustFmt RustStr RustPath WasiTypes Policy PolicyProps Client.
From S2P Require Import ClientProps InodeTable FileSystem FsOps Services Transport Framing Session Csr Runtime.
From S2P Require Import FsBoot Host PolicyGen.
Local Open Scope Z_scope.

(** ** Code that only reads *)

Section consults.
Context {S : Type}.
Abbreviation T A := (ST S Exit A).

(** The state is as it was, and an exit is one with the code of a failure. *)
Definition consults {A} (m : T A) : Prop := ∀ s,
  (m s).2 = s ∧ match (m s).1 with Err (ExitCode c) => c = 1 | _ => True end.

Lemma consults_run {A} (m : T A) s o s' : consults m → m s = (o, s') → s' = s.
Proof. intros Hm H. destruct (Hm s) as [Hs _]. by rewrite H in Hs. Qed.

Lemma consults_ret {A} (a : A) : consults (ret a).
Proof. by intros s. Qed.
Lemma consults_exit {A} : consults (throw (A:=A) (ExitCode 1)).
Proof. by intros s. Qed.
Lemma consults_panic {A} p : consults (panic (A:=A) p).
Proof. by intros s. Qed.
Lemma consults_get : consults get.
Proof. by intros s. Qed.
Lemma consults_bind {A B} (m : T A) (k : A → T B) : consults m → (∀ a, consults (k a)) → consults (bind m k).
Proof.
  intros Hm Hk s. unfold bind. specialize (Hm s). destruct (m s) as [[a|e|p] s1]; [|done..].
  destruct Hm as [<- _]. apply Hk.
Qed.
Lemma consults_map {A B} (f : A → T B) l : (∀ a, consults (f a)) → consults (map_st f l).
Proof.
  intros Hf. induction l as [|a l IH]; simpl; [apply consults_ret|].
  apply consults_bind; [done|]. intros b. apply consults_bind; [done|]. intros bs. apply consults_ret.
Qed.
Lemma consults_expect {A} (o : option A) : consults (expect o).
Proof. destruct o; [apply consults_ret|apply consults_panic]. Qed.
Lemma consults_expect_ok {F A} (o : outcome F A) : consults (expect_ok o).
Proof. destruct o; [apply consults_ret|apply consults_panic..]. Qed.

Lemma expect_inv {A} (o : option A) a (s s' : S) : expect (E:=Exit) o s = (Ok a, s') → o = Some a ∧ s = s'.
Proof. destruct o; [|done]. by intros [= -> ->]. Qed.
Lemma expect_ok_inv {F A} (o : outcome F A) a (s s' : S) :
  expect_ok (E:=Exit) o s = (Ok a, s') → o = Ok a ∧ s = s'.
Proof. destruct o; [|done..]. by intros [= -> ->]. Qed.

(** Where a run that exits with [0] continues *)
Lemma consults_exit_0 {A B} (m : T A) (k : A → T B) s s' :
  consults m → bind m k s = (Err (ExitCode 0), s') → ∃ a, m s = (Ok a, s) ∧ k a s = (Err (ExitCode 0), s').
Proof.
  intros Hm. unfold bind. specialize (Hm s). destruct (m s) as [[a|[c]|p] s1]; destruct Hm as [Hs Hc].
  - simpl in Hs. subst s1. eauto.
  - simpl in Hc. subst c. done.
  - done.
Qed.
End consults.

#[export] Hint Resolve consults_ret consults_exit consults_panic consults_get consults_expect consults_expect_ok : veracruz.

Ltac consulting :=
  repeat first
    [ solve [eauto with veracruz]
    | match goal with
      | |- consults (bind _ _) => apply consults_bind; [|intros ?]
      | |- consults (map_st _ _) => apply consults_map; intros ?
      | |- consults (match ?x with _ => _ end) => destruct x
      | |- consults (let '_ := ?x in _) => destruct x
      end ].

Section generator.
Context {PL : PolicyLibs} {WR : WasiRights} {NA : NetAddr} {CH : Chrono} {DE : DataEncoding}
  {RX : Regex} {SJ : SerdeJson} {GL : PolicyGenLaws DE RX SJ} {MT : MbedtlsTypes}
  {D : Type} {HS : HostSystem D} {HL : HostSystemLaws HS}.
Abbreviation G A := (ST D Exit A).

Lemma abort_consults {A} msg : consults (abort_with (D:=D) (A:=A) msg).
Proof. apply consults_exit. Qed.
Lemma required_consults {A} (o : option A) msg : consults (required (D:=D) o msg).
Proof. unfold required. destruct o; eauto using abort_consults with veracruz. Qed.
#[local] Hint Resolve abort_consults required_consults : veracruz.

Lemma compute_file_hash_consults p : consults (compute_file_hash p).
Proof. unfold compute_file_hash. consulting. Qed.
Lemma serialize_capability_entry_consults s : consults (serialize_capability_entry (D:=D) s).
Proof. unfold serialize_capability_entry. consulting. Qed.
Lemma serialize_capability_consults l : consults (serialize_capability (D:=D) l).
Proof. unfold serialize_capability. apply consults_map, serialize_capability_entry_consults. Qed.
Lemma read_text_consults b : consults (read_text (D:=D) b).
Proof. unfold read_text. consulting. Qed.
#[local] Hint Resolve compute_file_hash_consults serialize_capability_consults read_text_consults : veracruz.

Lemma serialize_identity_consults e : consults (serialize_identity e).
Proof. unfold serialize_identity. consulting. Qed.
Lemma serialize_binary_consults e : consults (serialize_binary (D:=D) e).
Proof. unfold serialize_binary. consulting. Qed.
Lemma serialize_hash_consults e : consults (serialize_hash e).
Proof. unfold serialize_hash. consulting. Qed.
#[local] Hint Resolve serialize_identity_consults serialize_binary_consults serialize_hash_consults : veracruz.

Lemma assert_lengths_consults {A B} (l : list A) (k : list B) : consults (assert_lengths (D:=D) l k).
Proof. unfold assert_lengths. consulting. Qed.
#[local] Hint Resolve assert_lengths_consults : veracruz.

Lemma check_consults l : consults (check_capability (D:=D) l).
Proof. unfold check_capability. consulting. Qed.
Lemma strategy_consults s : consults (check_execution_strategy (D:=D) s).
Proof. unfold check_execution_strategy. consulting. Qed.
Lemma renamable_consults l : consults (renamable_list (D:=D) l).
Proof. unfold renamable_list. consulting. Qed.
#[local] Hint Resolve check_consults strategy_consults renamable_consults : veracruz.

Lemma parse_command_line_consults m : consults (parse_command_line (D:=D) m).
Proof. unfold parse_command_line. cbv zeta. consulting. Qed.

(** ** What the parts are *)

Lemma fs_read_done p (d : D) b : host_read p d = Some (b, ReadDone) → fs_read p d = Some b.
Proof. unfold fs_read. by intros ->. Qed.

Lemma compute_file_hash_inv p h (d d' : D) :
  compute_file_hash p d = (Ok h, d') →
  ∃ b, fs_read (p_raw p) d = Some b ∧ h = pretty_digest b.
Proof.
  unfold compute_file_hash. intros H. inv_run.
  destruct (host_read _ _) as [[b []]|] eqn:Hr; [|done..]. inv_run. exists b.
  split; [by apply fs_read_done|done].
Qed.

Lemma hex_decode_pretty b : hex_decode (pretty_digest b) = Some (sha256 b).
Proof. apply hex_decode_HEXLOWER. Qed.

(** An entry of the list of digests is that of the local file. *)
Definition digest_of (d : D) (e : string * Path) (fh : FileHash) : Prop :=
  ∃ content, fs_read (p_raw e.2) d = Some content ∧
    fh = mkFileHash (enforce_leading_backslash e.1) (pretty_digest content).

Lemma serialize_file_hash_inv a fhs (d d' : D) :
  serialize_file_hash a d = (Ok fhs, d') → d' = d ∧ Forall2 (digest_of d) (hashes a) fhs.
Proof.
  intros H. apply map_st_inv in H as [-> HF]; [|intros ????; apply consults_run, serialize_hash_consults].
  split; [done|]. eapply Forall2_impl; [exact HF|]. intros e fh H. unfold serialize_hash in H. inv_run.
  match goal with H : compute_file_hash _ _ = _ |- _ => apply compute_file_hash_inv in H as (b & Hb & ->) end.
  by exists b.
Qed.

(** What a capability gives: a name and rights, which are letters or a number. *)
Definition granted (c : string) (fr : FileRights) : Prop :=
  ∃ name rights, split_char ":" c !! 0%nat = Some name ∧ split_char ":" c !! 1%nat = Some rights ∧
    fr_file_name fr = enforce_leading_backslash (trim name) ∧
    if contains_char "r" (trim rights) || contains_char "w" (trim rights) || contains_char "x" (trim rights)
    then rights_from_bits_truncate (fr_rights fr) = letter_rights (trim rights)
    else ∃ n, parse_u32 (trim rights) = Some n ∧
      rights_from_bits n = Some (rights_from_bits_truncate (fr_rights fr)).

Lemma serialize_capability_entry_inv {WL : WasiRightsLaws WR} c fr (d d' : D) :
  serialize_capability_entry c d = (Ok fr, d') → granted c fr ∧ 0 ≤ fr_rights fr < u32_bound.
Proof.
  unfold serialize_capability_entry. intros H. cbv zeta in H.
  apply bind_inv in H as (name & d1 & Hn & H). apply bind_inv in H as (rs & d2 & Hs & H).
  apply bind_inv in H as (r & d3 & Hr & H). apply expect_inv in Hn as [Hn _], Hs as [Hs _].
  destruct (_ && _) eqn:Hb; [|done]. apply ret_inv in H as [<- _].
  apply andb_true_iff in Hb as [H0%Z.leb_le H1%Z.ltb_lt]. split; [|done].
  exists name, rs. split_and!; [done..|]. rewrite regex_rwx in Hr. simpl.
  rewrite from_bits_truncate_bits. case_match.
  - by apply ret_inv in Hr as [<- _].
  - apply bind_inv in Hr as (n & d4 & Hp & Hr). apply expect_inv in Hp as [Hp _], Hr as [Hr _]. eauto.
Qed.

Lemma serialize_capability_inv {WL : WasiRightsLaws WR} l frs (d d' : D) :
  serialize_capability l d = (Ok frs, d') → Forall2 granted l frs.
Proof.
  intros H. apply map_st_inv in H as [-> HF]; [|intros ????; apply consults_run, serialize_capability_entry_consults].
  eapply Forall2_impl; [exact HF|]. intros c fr [Hg _]%serialize_capability_entry_inv. exact Hg.
Qed.

(** ** Numbered entries *)

Lemma enumerate_lookup {A} (l : list A) i x : enumerate l !! i = Some x ↔ ∃ a, x = (i, a) ∧ l !! i = Some a.
Proof.
  unfold enumerate. rewrite lookup_zip_with_Some. split.
  - intros (j & a & -> & Hj & Ha). apply lookup_seq in Hj as [-> _]. by exists a.
  - intros (a & -> & Ha). exists i, a. split_and!; [done| |done]. apply lookup_seq.
    split; [lia|]. by apply lookup_lt_Some in Ha.
Qed.

Lemma enumerate_length {A} (l : list A) : length (enumerate l) = length l.
Proof. unfold enumerate. rewrite length_zip_with, length_seq. lia. Qed.

Lemma serialize_identities_inv {WL : WasiRightsLaws WR} a identities (d d' : D) :
  serialize_identities a d = (Ok identities, d') →
  d' = d ∧ length identities = length (certificates a) ∧
  ∀ i caps, certificate_capabilities a !! i = Some caps → ∃ identity,
    identities !! i = Some identity ∧ identity_id identity = cast_u32 (Z.of_nat i) ∧
    Forall2 granted caps (file_rights identity).
Proof.
  intros H. pose proof (map_st_inv (E:=Exit) serialize_identity) as Hmap.
  apply bind_inv in H as (u & d1 & Hl & H). apply (consults_run _ _ _ _ (assert_lengths_consults _ _)) in Hl as Hd; subst d1.
  unfold assert_lengths in Hl. destruct (Nat.eqb_spec (length (certificates a))
    (length (certificate_capabilities a))) as [Hlen|]; [|done].
  apply Hmap in H as [-> HF]; [|intros ????; apply consults_run, serialize_identity_consults].
  split; [done|]. pose proof (Forall2_length _ _ _ HF) as Hn.
  rewrite enumerate_length, length_zip_with in Hn. split; [lia|]. intros i caps Hc.
  destruct (lookup_lt_is_Some_2 (certificates a) i) as [cert Hcert].
  { rewrite Hlen. by apply lookup_lt_Some in Hc. }
  destruct (Forall2_lookup_l _ _ _ i (i, (cert, caps)) HF) as (identity & Hi & Hrun).
  { apply enumerate_lookup. exists (cert, caps). split; [done|]. apply lookup_zip_with_Some. by exists cert, caps. }
  exists identity. split; [done|]. unfold serialize_identity in Hrun. cbv beta iota in Hrun.
  apply bind_inv in Hrun as (d0 & d1 & _ & Hrun). destruct (host_read _ _) as [file|]; [|done].
  apply bind_inv in Hrun as (content & d2 & _ & Hrun). cbv zeta in Hrun.
  apply bind_inv in Hrun as (frs & d3 & Hf & Hrun). apply ret_inv in Hrun as [<- _].
  split; [done|]. by eapply serialize_capability_inv.
Qed.

Lemma serialize_binaries_inv {WL : WasiRightsLaws WR} a ps (d d' : D) :
  serialize_binaries a d = (Ok ps, d') →
  d' = d ∧ ∀ i name local caps,
    program_binaries a !! i = Some (name, local) → binary_capabilities a !! i = Some caps → ∃ program,
    ps !! i = Some program ∧ program_file_name program = enforce_leading_backslash name ∧
    Forall2 granted caps (program_file_rights program).
Proof.
  intros H. pose proof (map_st_inv (E:=Exit) (S:=D) serialize_binary) as Hmap.
  apply bind_inv in H as (u & d1 & Hl & H). apply (consults_run _ _ _ _ (assert_lengths_consults _ _)) in Hl as Hd; subst d1.
  apply Hmap in H as [-> HF]; [|intros ????; apply consults_run, serialize_binary_consults].
  split; [done|]. intros i name local caps Hp Hc.
  destruct (Forall2_lookup_l _ _ _ i (i, ((name, local), caps)) HF) as (program & Hi & Hrun).
  { apply enumerate_lookup. eexists. split; [done|]. apply lookup_zip_with_Some. by eexists _, _. }
  exists program. split; [done|]. unfold serialize_binary in Hrun. cbv beta iota in Hrun.
  apply bind_inv in Hrun as (frs & d1 & Hf & Hrun). apply ret_inv in Hrun as [<- _].
  split; [done|]. by eapply serialize_capability_inv.
Qed.

Lemma serialize_binaries_only {WL : WasiRightsLaws WR} a ps (d d' : D) j program :
  serialize_binaries a d = (Ok ps, d') → ps !! j = Some program → ∃ name local,
    program_binaries a !! j = Some (name, local) ∧ program_file_name program = enforce_leading_backslash name.
Proof.
  intros H Hj. apply bind_inv in H as (u & d1 & Hl & H).
  apply map_st_inv in H as [-> HF]; [|intros ????; apply consults_run, serialize_binary_consults].
  destruct (Forall2_lookup_r _ _ _ j _ HF Hj) as (x & Hx & Hrun).
  apply enumerate_lookup in Hx as ([[name local] caps] & -> & Hx).
  apply lookup_zip_with_Some in Hx as ([n l] & c & Heq & Hp & _). simplify_eq. exists n, l.
  split; [done|]. unfold serialize_binary in Hrun. cbv beta iota in Hrun.
  apply bind_inv in Hrun as (frs & d2 & _ & Hrun). by apply ret_inv in Hrun as [<- _].
Qed.

(** ** The policy *)

(** What the policy records of the command line and of the files in [d]. *)
Record generated (d : D) (a : Arguments) (p : Policy) : Prop := {
  ge_valid : policy_valid p;
  ge_ciphersuite : ciphersuite p = POLICY_CIPHERSUITE;
  ge_identities : length (identities p) = length (certificates a) ∧
    ∀ i caps, certificate_capabilities a !! i = Some caps → ∃ identity,
      identities p !! i = Some identity ∧ identity_id identity = cast_u32 (Z.of_nat i) ∧
      Forall2 granted caps (file_rights identity);
  ge_programs i name local caps :
    program_binaries a !! i = Some (name, local) → binary_capabilities a !! i = Some caps → ∃ program,
      programs p !! i = Some program ∧ program_file_name program = enforce_leading_backslash name ∧
      Forall2 granted caps (program_file_rights program);
  ge_only_programs j program : programs p !! j = Some program → ∃ name local,
    program_binaries a !! j = Some (name, local) ∧ program_file_name program = enforce_leading_backslash name;
  ge_hashes : Forall2 (digest_of d) (hashes a) (file_hashes p);
  ge_linux css : css_file a = Some css → ∃ content,
    fs_read (p_raw css) d = Some content ∧ runtime_manager_hash_linux p = Some (pretty_digest content);
}.

Lemma compute_linux_inv a h (d d' : D) :
  compute_linux_enclave_hash a d = (Ok h, d') →
  d' = d ∧ ∀ css, css_file a = Some css → ∃ content,
    fs_read (p_raw css) d = Some content ∧ h = Some (pretty_digest content).
Proof.
  unfold compute_linux_enclave_hash. destruct (css_file a) as [css|]; intros H.
  - apply bind_inv in H as (x & d1 & Hx & H). apply ret_inv in H as [<- <-].
    pose proof (consults_run _ _ _ _ (compute_file_hash_consults _) Hx) as ->. split; [done|].
    apply compute_file_hash_inv in Hx as (b & Hb & ->). intros css' [= <-]. by exists b.
  - by apply ret_inv in H as [<- <-].
Qed.

Lemma timepoint_consults a : consults (serialize_enclave_certificate_timepoint (D:=D) a).
Proof. unfold serialize_enclave_certificate_timepoint. consulting. Qed.
Lemma nitro_consults a : consults (compute_nitro_enclave_hash a).
Proof. unfold compute_nitro_enclave_hash. cbv zeta. consulting. Qed.
Lemma certificate_consults p : consults (serialize_certificate p).
Proof. unfold serialize_certificate. consulting. Qed.
Lemma execution_strategy_consults s : consults (serialize_execution_strategy (D:=D) s).
Proof. unfold serialize_execution_strategy. consulting. Qed.

Lemma serialize_json_consults a : consults (serialize_json a).
Proof.
  unfold serialize_json, build_policy, serialize_identities, serialize_binaries, compute_linux_enclave_hash,
    serialize_file_hash. consulting; eauto using timepoint_consults, nitro_consults, certificate_consults,
    execution_strategy_consults with veracruz.
Qed.

Lemma Policy_new_inv ids_ ps url expiry cs hl hn hi purl pcert dbg strat fhs clk mem p :
  Policy_new ids_ ps url expiry cs hl hn hi purl pcert dbg strat fhs clk mem = Ok p →
  policy_valid p ∧ p = mkPolicy ids_ ps fhs url expiry cs hl hn hi purl pcert dbg strat clk mem None.
Proof.
  unfold Policy_new. intros H. destruct (Policy_assert_valid _) as [[]|e|x] eqn:Hv; [|done..].
  injection H as <-. split; [by apply assert_valid_ok|done].
Qed.

Lemma build_policy_inv {WL : WasiRightsLaws WR} a p (d d' : D) :
  build_policy a d = (Ok p, d') → d' = d ∧ policy_hash p = None ∧ generated d a p.
Proof.
  intros H. apply bind_inv in H as (is_ & d1 & Hi & H).
  apply bind_inv in H as (ps & d2 & Hps & H). apply bind_inv in H as (sip & d3 & Hsip & H).
  apply bind_inv in H as (tp & d4 & Htp & H). apply bind_inv in H as (hl & d5 & Hhl & H).
  apply bind_inv in H as (hn & d6 & Hhn & H). apply bind_inv in H as (pip & d7 & Hpip & H).
  apply bind_inv in H as (cert & d8 & Hcert & H). apply bind_inv in H as (st & d9 & Hst & H).
  apply bind_inv in H as (fhs & d10 & Hfhs & H). apply expect_ok_inv in H as [H <-].
  apply serialize_identities_inv in Hi as (-> & Hlen & Hi). pose proof Hps as Hps'.
  apply serialize_binaries_inv in Hps' as (-> & Hps').
  apply expect_inv in Hsip as [_ <-]. apply (consults_run _ _ _ _ (timepoint_consults _)) in Htp as ->.
  apply compute_linux_inv in Hhl as (-> & Hhl). apply (consults_run _ _ _ _ (nitro_consults _)) in Hhn as ->.
  apply expect_inv in Hpip as [_ <-]. apply (consults_run _ _ _ _ (certificate_consults _)) in Hcert as ->.
  apply (consults_run _ _ _ _ (execution_strategy_consults _)) in Hst as ->. apply serialize_file_hash_inv in Hfhs as [-> Hfhs].
  apply Policy_new_inv in H as [Hv ->]. split_and!; [done..|]. split; simpl; try done.
  intros j program Hj. by eapply serialize_binaries_only.
Qed.

(** The identities are numbered from zero: there are not so many that the
    numbers wrap around, since the policy is valid. *)
Lemma identity_number d a p i caps :
  generated d a p → length (certificates a) = length (certificate_capabilities a) →
  certificate_capabilities a !! i = Some caps → cast_u32 (Z.of_nat i) = Z.of_nat i.
Proof.
  intros Hg Hlen Hi. destruct (ge_identities _ _ _ Hg) as [_ Hids].
  set (j := Z.to_nat (Z.of_nat i mod u32_bound)).
  assert (0 ≤ Z.of_nat i mod u32_bound < u32_bound) as Hm by (apply Z.mod_pos_bound; done).
  assert (Z.of_nat i mod u32_bound ≤ Z.of_nat i) as Hle by (apply Z.mod_le; [lia|done]).
  destruct (lookup_lt_is_Some_2 (certificate_capabilities a) j) as [caps' Hj].
  { apply lookup_lt_Some in Hi. lia. }
  destruct (Hids _ _ Hi) as (x & Hx & Hxi & _), (Hids _ _ Hj) as (y & Hy & Hyi & _).
  assert (i = j) as Hij.
  { apply (NoDup_lookup (ids (identities p)) i j (identity_id x)); [apply (pv_ids _ (ge_valid _ _ _ Hg))|..].
    - unfold ids. by rewrite list_lookup_fmap, Hx.
    - unfold ids. rewrite list_lookup_fmap, Hy. simpl. rewrite Hxi, Hyi. f_equal. unfold cast_u32, j.
      rewrite Z2Nat.id by lia. by rewrite Z.mod_mod. }
  unfold cast_u32. lia.
Qed.

Lemma last_filter_lookup {A} (P : A → Prop) `{∀ x, Decision (P x)} (l : list A) i x :
  l !! i = Some x → P x → (∀ j y, (i < j)%nat → l !! j = Some y → ¬ P y) → last (filter P l) = Some x.
Proof.
  intros Hi Hx Hlater. rewrite <- (take_drop_middle _ _ _ Hi), filter_app, filter_cons_True by done.
  assert (filter P (drop (S i) l) = []) as ->; [|by rewrite last_snoc].
  apply elem_of_nil_inv. intros y [Hy (k & Hk)%list_elem_of_lookup]%list_elem_of_filter.
  rewrite lookup_drop in Hk. eapply Hlater; [|exact Hk|exact Hy]. lia.
Qed.

(** The rights that the enclave derives from the policy are those of the
    capabilities: the [i]-th list is that of the participant [i], and the
    lists after those of the certificates are those of the programs, where
    the last one counts for a name. *)
Definition rights_recorded (a : Arguments) (p : Policy) : Prop :=
  (∀ i caps, certificate_capabilities a !! i = Some caps → ∃ frs, Forall2 granted caps frs ∧
     get_rights_table p !! Participant (Z.of_nat i) = Some (compute_right_map frs)) ∧
  (∀ i name local caps,
     program_binaries a !! i = Some (name, local) → binary_capabilities a !! i = Some caps →
     (∀ j name' local', (i < j)%nat → program_binaries a !! j = Some (name', local') →
        enforce_leading_backslash name' ≠ enforce_leading_backslash name) →
     ∃ frs, Forall2 granted caps frs ∧
       get_rights_table p !! ProgramP (enforce_leading_backslash name) = Some (compute_right_map frs)).

Lemma generated_rights d a p :
  generated d a p → length (certificates a) = length (certificate_capabilities a) → rights_recorded a p.
Proof.
  intros Hg Hlen. split.
  - intros i caps Hi. destruct (proj2 (ge_identities _ _ _ Hg) _ _ Hi) as (identity & Hp & Hid & Hf).
    exists (file_rights identity). split; [done|]. rewrite get_rights_table_lookup.
    rewrite <- (identity_number _ _ _ _ _ Hg Hlen Hi), <- Hid.
    rewrite filter_unique; [done|apply (pv_ids _ (ge_valid _ _ _ Hg))|by eapply list_elem_of_lookup_2].
  - intros i name local caps Hi Hc Hlater.
    destruct (ge_programs _ _ _ Hg _ _ _ _ Hi Hc) as (program & Hp & Hn & Hf).
    exists (program_file_rights program). split; [done|]. rewrite get_rights_table_lookup.
    rewrite (last_filter_lookup _ _ _ _ Hp Hn); [done|]. intros j q Hj Hq.
    destruct (ge_only_programs _ _ _ Hg _ _ Hq) as (name' & local' & Hb & ->). by eapply Hlater.
Qed.

(** Every file that was to have a digest has the digest of the contents of a
    local file given for it in the table that the enclave derives. *)
Definition digests_recorded (d : D) (a : Arguments) (p : Policy) : Prop :=
  ∃ t, get_file_hash_table p = Ok t ∧ ∀ name local, (name, local) ∈ hashes a →
    ∃ name' local' content, (name', local') ∈ hashes a ∧
      components (enforce_leading_backslash name') = components (enforce_leading_backslash name) ∧
      fs_read (p_raw local') d = Some content ∧
      pm_get (path (enforce_leading_backslash name)) t = Some (sha256 content).

Lemma generated_digests d a p : generated d a p → digests_recorded d a p.
Proof.
  intros Hg. pose proof (ge_hashes _ _ _ Hg) as HF. unfold digests_recorded, get_file_hash_table.
  pose proof (file_hash_loop_spec ∅ (file_hashes p)) as Hspec.
  assert (∀ fh, fh ∈ file_hashes p → ∃ e content, e ∈ hashes a ∧ fs_read (p_raw e.2) d = Some content ∧
    fh = mkFileHash (enforce_leading_backslash e.1) (pretty_digest content)) as Hfrom.
  { intros fh Hfh. apply list_elem_of_lookup in Hfh as (i & Hi).
    destruct (Forall2_lookup_r _ _ _ _ _ HF Hi) as (e & He & content & Hc & Hfh).
    exists e, content. split_and!; [by eapply list_elem_of_lookup_2|done..]. }
  destruct (file_hash_loop ∅ _) as [t|e|x]; [|exfalso|done].
  - destruct Hspec as [_ Hget]. exists t. split; [done|]. intros name local Hin.
    rewrite Hget. unfold last_hash. destruct (last _) as [fh|] eqn:Hlast; simpl.
    + apply last_Some_elem_of, list_elem_of_filter in Hlast as [Hcomps Hfh].
      destruct (Hfrom _ Hfh) as ([name' local'] & content & He & Hc & ->). simpl in *.
      exists name', local', content. split_and!; [done..|]. apply hex_decode_pretty.
    + exfalso. apply last_None in Hlast. apply list_elem_of_lookup in Hin as (i & Hi).
      destruct (Forall2_lookup_l _ _ _ _ _ HF Hi) as (fh & Hfh & content & _ & ->).
      apply list_elem_of_lookup_2 in Hfh. simpl in *.
      assert (mkFileHash (enforce_leading_backslash name) (pretty_digest content) ∈ ([] : list FileHash)) as Hn.
      { rewrite <- Hlast. by apply list_elem_of_filter. }
      by apply elem_of_nil in Hn.
  - destruct Hspec as [_ (fh & Hfh & Hnone)%Exists_exists].
    destruct (Hfrom _ Hfh) as (x & content & _ & _ & ->). simpl in Hnone. by rewrite hex_decode_pretty in Hnone.
Qed.

(** A client accepts an enclave whose measurement is the digest of the file
    that was given for Linux. *)
Definition measurement_recorded (d : D) (a : Arguments) (p : Policy) : Prop :=
  ∀ css, css_file a = Some css → ∃ content, fs_read (p_raw css) d = Some content ∧
    compare_runtime_hash p (sha256 content) = Ok tt.

Lemma generated_measurement d a p : generated d a p → measurement_recorded d a p.
Proof.
  intros Hg css Hcss. destruct (ge_linux _ _ _ Hg _ Hcss) as (content & Hc & Hp). exists content.
  split; [done|]. unfold compare_runtime_hash. cbn [compare_platforms runtime_manager_hash].
  by rewrite Hp, hex_decode_pretty, bool_decide_true.
Qed.

(** ** The run *)

Lemma parse_command_line_lengths m a (d d' : D) :
  parse_command_line m d = (Ok a, d') → length (certificates a) = length (certificate_capabilities a).
Proof.
  unfold parse_command_line. intros H. cbv zeta in H. inv_run.
  match goal with H : (if negb (len ?c + len ?b =? ?n) then _ else _) _ = _ |- _ =>
    destruct (Z.eqb_spec (len c + len b) n) as [Heq|]; [|done] end.
  simpl. rewrite length_take. unfold len in Heq. lia.
Qed.

Lemma generate_policy_inv {WL : WasiRightsLaws WR} m (d d' : D) :
  generate_policy m d = (Err (ExitCode 0), d') →
  ∃ a d1 policy value json, parse_command_line m d = (Ok a, d) ∧
    host_create (p_raw (output_policy_file a)) d = Some d1 ∧
    build_policy a d1 = (Ok policy, d1) ∧ to_value policy = Some value ∧ to_string_pretty value = Some json ∧
    host_write (p_raw (output_policy_file a)) (as_bytes json) d1 = (true, d').
Proof.
  intros H. apply consults_exit_0 in H as (a & Ha & H); [|apply parse_command_line_consults]. cbv zeta in H.
  unfold bind at 1, get in H. destruct (host_create _ d) as [d1|] eqn:Hc; [|done].
  unfold bind at 1, put in H. apply consults_exit_0 in H as (v & Hv & H); [|apply serialize_json_consults].
  destruct (to_string_pretty v) as [json|] eqn:Hj; [|done]. unfold bind at 1, get in H.
  destruct (host_write _ _ d1) as [[] d2] eqn:Hw; [|done]. unfold bind, throw in H. injection H as <-.
  apply bind_inv in Hv as (policy & d3 & Hb & Hv). apply expect_inv in Hv as [Hv ->].
  exists a, d1, policy, v, json. split_and!; done.
Qed.

Lemma written_policy_loads policy value json :
  policy_valid policy → policy_hash policy = None →
  to_value policy = Some value → to_string_pretty value = Some json →
  Policy_from_json json = Ok (set_policy_hash (Some (hex_encode (sha256 (as_bytes json)))) policy).
Proof.
  intros Hv Hh H1 H2. unfold Policy_from_json. rewrite (policy_text_read _ _ _ H1 H2).
  assert (Policy_assert_valid (set_policy_hash None policy) = Ok tt) as ->; [|by destruct policy].
  by apply assert_valid_ok in Hv.
Qed.

(** C26: when the policy generator ends with success, its output file holds a
    text that loads as a policy, for which the enclave can make its protocol
    state: it derives from it, for every file
    that was to have a digest, the SHA-256 digest of the contents of a local
    file given for it, and for every certificate and program exactly the
    rights of its own capabilities; and a client accepts an enclave measured
    from the binary that was given. *)
Theorem generated_policy_loads {WL : WasiRightsLaws WR} {BP : BuildProfile} {HO : HashOrder}
    {HOL : HashOrderLaws HO} {NL : NativeLibs} {WE : WasmEngines} {TL : TlsLibs} m (d d' : D) :
  generate_policy m d = (Err (ExitCode 0), d') →
  ∃ a d1 json policy, parse_command_line m d = (Ok a, d) ∧
    host_create (p_raw (output_policy_file a)) d = Some d1 ∧
    host_read (p_raw (output_policy_file a)) d' = Some (as_bytes json, ReadDone) ∧
    Policy_from_json json = Ok policy ∧
    (∃ state, ProtocolState_new policy (hex_encode (sha256 (as_bytes json))) = Ok state) ∧
    digests_recorded d1 a policy ∧ measurement_recorded d1 a policy ∧ rights_recorded a policy.
Proof.
  intros (a & d1 & policy & value & json & Ha & Hc & Hb & Hv & Ht & Hw)%generate_policy_inv.
  apply build_policy_inv in Hb as (_ & Hh & Hg). pose proof (parse_command_line_lengths _ _ _ _ Ha) as Hlen.
  exists a, d1, json. eexists. split_and!; [done|done|by eapply host_write_read| |..].
  - apply (written_policy_loads policy value); [apply Hg|done..].
  - destruct (generated_digests _ _ _ Hg) as (t & Htable & _).
    destruct (ProtocolState_new_succeeds (set_policy_hash (Some (hex_encode (sha256 (as_bytes json)))) policy) (hex_encode (sha256 (as_bytes json))) t Htable)
      as (state & Hstate & _). by exists state.
  - exact (generated_digests _ _ _ Hg).
  - exact (generated_measurement _ _ _ Hg).
  - exact (generated_rights _ _ _ Hg Hlen).
Qed.

(** A capability without rights passes the check of the command line, and
    makes the tool panic once the output file has been emptied. *)
Lemma missing_rights_panic c :
  length (split_char ":" c) = 1%nat →
  capability_ok c = true ∧ ∀ d : D, serialize_capability_entry c d = (Abort UnwrapOnErr, d).
Proof.
  intros Hlen. unfold capability_ok, serialize_capability_entry. cbv zeta.
  destruct (split_char ":" c) as [|x [|y l]]; [done| |done]. split; [done|]. by intros d.
Qed.
End generator.
