(* ===== verification/ClientCli.v ===== *)
(** * The command line of the client ([veracruz-client])

    The program a participant runs: it loads the policy, opens a session with
    the enclave, and then uploads programs, uploads data, requests
    computations, fetches results and requests the shutdown, in this order,
    and stops at the first failure.

    Source: [veracruz-client/src/cli.rs].

    [structopt] gives the options, [Opt].  The client library is that of
    [Client]; the host's files and streams are those of [Host]. *)

From S2P Require Import Prelude RustFmt RustPath WasiTypes Policy Transport Framing Enclave Server Proxy.
From S2P Require Import Client Host.
Local Open Scope Z_scope.

(** The options; files come with their names in the enclave. *)
Record Opt := mkOpt {
  policy_path : Path;
  quiet : bool;
  identity : Path;
  key : Path;
  program : list (list (string * Path));
  data : list (list (string * Path));
  compute : list string;
  output : list (list (string * Path));
  no_shutdown : bool;
  shutdown : bool;
}.

Section cli.
Context {PL : PolicyLibs} {MT : MbedtlsTypes} {MB : Mbedtls} {WP : Webpki} {XP : X509Parser}
  {N : Type} {RQ : Reqwest N} {B64 : Base64}
  {P1 : ProtobufMessage Transport.RuntimeManagerRequest}
  {P2 : ProtobufMessage Transport.RuntimeManagerResponse}
  {D : Type} {HS : HostSystem D}.
Abbreviation Cl := (VeracruzClient (N:=N)).

(** The host and the client, once there is one *)
Record Running := mkRunning { rn_host : D; rn_client : Cl }.
Definition set_rn_host (d : D) (r : Running) : Running := mkRunning d (rn_client r).
Definition set_rn_client (c : Cl) (r : Running) : Running := mkRunning (rn_host r) c.
Abbreviation R A := (ST Running Exit A).

(** [match r { Ok(a) => a, Err(err) => { eprintln!(..); process::exit(1) } }] *)
Definition or_exit {S E A} (m : ST S E A) : ST S Exit A := map_err (λ _, ExitCode 1) m.
Definition on_client {A} (m : ST Cl ClientError.VeracruzClientError A) : R A :=
  or_exit (zoom rn_client set_rn_client m).

Definition load_policy_file (p : Path) (d : D) : outcome Exit Policy :=
  match fs_read_to_string (p_raw p) d with
  | Some policy_json =>
      match Policy_from_json policy_json with
      | Ok policy => Ok policy
      | Err _ => Err (ExitCode 1)
      | Abort a => Abort a
      end
  | None => Err (ExitCode 1)
  end.

(** The path [-] stands for a standard stream. *)
Definition is_stream (p : Path) : bool := path_eqb p (path "-").

Definition read_source (p : Path) : R bytes := λ r,
  if is_stream p then
    match stdin_read_to_end (rn_host r) with
    | (Some b, d) => (Ok b, set_rn_host d r)
    | (None, d) => (Err (ExitCode 1), set_rn_host d r)
    end
  else match fs_read (p_raw p) (rn_host r) with
       | Some b => (Ok b, r)
       | None => (Err (ExitCode 1), r)
       end.

Definition write_result (p : Path) (results : bytes) : R unit := λ r,
  let '(written, d) :=
    if is_stream p then stdout_write_all results (rn_host r) else fs_write (p_raw p) results (rn_host r) in
  (if written : bool then Ok tt else Err (ExitCode 1), set_rn_host d r).

Definition submit_program (e : string * Path) : R unit :=
  let! program_data := read_source e.2 in
  on_client (send_program (Some e.1) program_data).

Definition submit_data (e : string * Path) : R unit :=
  let! data_data := read_source e.2 in
  on_client (send_data (Some e.1) data_data).

Definition submit_compute (name : string) : R unit :=
  let! _result := on_client (request_compute (Some name)) in ret tt.

Definition fetch_result (e : string * Path) : R unit :=
  let! results := on_client (get_results (Some e.1)) in
  write_result e.2 results.

(** [for x in l { body(x) }] *)
Fixpoint for_each {A} (body : A → R unit) (l : list A) : R unit :=
  match l with [] => ret tt | x :: l' => do! body x in for_each body l' end.

Definition wants_shutdown (opt : Opt) : bool :=
  (negb (bool_decide (output opt = [])) && negb (no_shutdown opt)) || shutdown opt.

Definition did_something (opt : Opt) : bool :=
  negb (bool_decide (concat (program opt) = [])) || negb (bool_decide (concat (data opt) = [])) ||
  negb (bool_decide (compute opt = [])) || negb (bool_decide (concat (output opt) = [])) ||
  wants_shutdown opt.

(** With a client *)
Definition cli_session (opt : Opt) : R unit :=
  do! for_each submit_program (concat (program opt)) in
  do! for_each submit_data (concat (data opt)) in
  do! for_each submit_compute (compute opt) in
  do! for_each fetch_result (concat (output opt)) in
  do! (if wants_shutdown opt then on_client request_shutdown else ret tt) in
  if did_something opt then ret tt else throw (ExitCode 2).

(** The client library reads the certificate and the key from the host. *)
Definition connect (opt : Opt) (policy : Policy) (d : D) : ST N Exit Cl :=
  match policy_hash policy with
  | None => panic UnwrapOnErr
  | Some hash =>
      or_exit (with_policy_and_hash (CF:=client_files d) (p_raw (identity opt)) (p_raw (key opt)) policy hash)
  end.

(** The outcome, and the host and the network afterwards *)
Definition client_main (opt : Opt) (d : D) (n : N) : outcome Exit unit * D * N :=
  match load_policy_file (policy_path opt) d with
  | Err e => (Err e, d, n)
  | Abort a => (Abort a, d, n)
  | Ok policy =>
      match connect opt policy d n with
      | (Ok client, _) =>
          let '(o, r) := cli_session opt (mkRunning d client) in
          (o, rn_host r, cn_net (connection (rn_client r)))
      | (Err e, n') => (Err e, d, n')
      | (Abort p, n') => (Abort p, d, n')
      end
  end.
End cli.
