(* ===== verification/ClientCliProps.v ===== *)
(** * Properties of the command line of the client

    A run that ends with success has done everything that was asked, in
    order, each time with an enclave that passed the checks against the policy
    that was loaded; a run with nothing to do says so.

    Sources: [veracruz-client/src/cli.rs], [veracruz_client.rs]. *)

From S2P Require Import Prelude RustFmt RustPath WasiTypes Policy Transport TransportProps Framing.
From S2P Require Import Enclave Server Proxy Client ClientProps Host ClientCli.
Import ClientError.
Local Open Scope Z_scope.

Lemma preserves_map_err {S E F A} (P : S → Prop) (f : E → F) (m : ST S E A) :
  preserves P m → preserves P (map_err f m).
Proof. intros Hm s Hs. specialize (Hm s Hs). unfold map_err. by destruct (m s) as [[] ?]. Qed.

Lemma preserves_zoom {S T E A} (P : S → Prop) get set (m : ST T E A) :
  (∀ s t, P s → P (set t s)) → preserves P (zoom get set m).
Proof. intros Hset s Hs. unfold zoom. destruct (m (get s)) as [[] ?]; by apply Hset. Qed.

Section cli.
Context {PL : PolicyLibs} {MT : MbedtlsTypes} {MB : Mbedtls} {WP : Webpki} {XP : X509Parser}
  {N : Type} {RQ : Reqwest N} {B64 : Base64}
  {P1 : ProtobufMessage Transport.RuntimeManagerRequest}
  {P2 : ProtobufMessage Transport.RuntimeManagerResponse}
  {D : Type} {HS : HostSystem D} {HL : HostSystemLaws HS}.
Abbreviation Cl := (VeracruzClient (N:=N)).
Abbreviation Rn := (Running (N:=N) (D:=D)).

(** ** The policy of a client never changes *)

Definition under (p : Policy) (h : string) (c : Cl) : Prop := cl_policy c = p ∧ cl_policy_hash c = h.

Lemma send_under p h b : preserves (under p h) (send b).
Proof.
  unfold send. apply preserves_bind; [|intros _];
    (apply preserves_map_err, preserves_zoom; intros c x; exact (λ H, H)).
Qed.
Lemma exchange_under p h m : preserves (under p h) (exchange m).
Proof.
  unfold exchange, parse_response. apply preserves_bind; [apply preserves_map_err; eauto with veracruz|].
  intros b. apply preserves_bind; [apply send_under|]. intros r.
  apply preserves_bind; [eauto with veracruz|]. intros c0.
  apply preserves_map_err, preserves_zoom. intros c x. exact (λ H, H).
Qed.
#[local] Hint Resolve exchange_under send_under : veracruz.
Lemma check_policy_hash_under p h : preserves (under p h) check_policy_hash.
Proof. unfold check_policy_hash. cbv zeta. preserve. Qed.
Lemma check_runtime_hash_under p h : preserves (under p h) (check_runtime_hash (N:=N)).
Proof. unfold check_runtime_hash. preserve. Qed.
Lemma path_of_under p h path : preserves (under p h) (path_of (N:=N) path).
Proof. unfold path_of. preserve. Qed.
Lemma expect_success_under p h name r : preserves (under p h) (expect_success (N:=N) name r).
Proof. unfold expect_success. preserve. Qed.
Lemma expect_result_under p h r : preserves (under p h) (expect_result (N:=N) r).
Proof. unfold expect_result. preserve. Qed.
#[local] Hint Resolve check_policy_hash_under check_runtime_hash_under path_of_under expect_success_under
  expect_result_under : veracruz.

Lemma send_program_under p h path b : preserves (under p h) (send_program path b).
Proof. unfold send_program. preserve. Qed.
Lemma send_data_under p h path b : preserves (under p h) (send_data path b).
Proof. unfold send_data. preserve. Qed.
Lemma request_compute_under p h path : preserves (under p h) (request_compute path).
Proof. unfold request_compute. preserve. Qed.
Lemma get_results_under p h path : preserves (under p h) (get_results path).
Proof. unfold get_results. preserve. Qed.
Lemma request_shutdown_under p h : preserves (under p h) request_shutdown.
Proof.
  unfold request_shutdown. apply preserves_bind; [apply preserves_map_err; eauto with veracruz|]. intros b.
  preserve.
Qed.

Lemma with_policy_under {CF : ClientFiles} cert key p h (n : N) c n' :
  with_policy_and_hash cert key p h n = (Ok c, n') → under p h c ∧ n' = cn_net (connection c).
Proof.
  unfold with_policy_and_hash, mbed_step. intros H.
  repeat (apply bind_inv in H as (? & ? & _ & H)). cbv zeta in H.
  destruct (establish _ _ _) as [[ctx|e|a] conn]; [|done..]. by injection H as <- <-.
Qed.

Lemma connect_inv opt policy (d : D) (n : N) :
  match connect opt policy d n with
  | (Ok client, n') => ∃ hash, policy_hash policy = Some hash ∧ under policy hash client ∧
      n' = cn_net (connection client)
  | (Err e, _) => e = ExitCode 1
  | (Abort _, _) => True
  end.
Proof.
  unfold connect. destruct (policy_hash policy) as [hash|]; [|done]. unfold or_exit, map_err.
  destruct (with_policy_and_hash _ _ _ _ n) as [[client|e|a] n1] eqn:Hc; [|done..].
  apply with_policy_under in Hc as [Hu ->]. eauto.
Qed.

(** ** What was asked, and what a step does *)

Inductive task :=
  | UploadProgram (name : string) (local : Path)
  | UploadData (name : string) (local : Path)
  | Compute (name : string)
  | Fetch (name : string) (local : Path)
  | Shutdown.

Definition requested (opt : Opt) : list task :=
  ((λ e, UploadProgram e.1 e.2) <$> concat (program opt)) ++
  ((λ e, UploadData e.1 e.2) <$> concat (data opt)) ++
  (Compute <$> compute opt) ++
  ((λ e, Fetch e.1 e.2) <$> concat (output opt)) ++
  (if wants_shutdown opt then [Shutdown] else []).

(** Each task but the last kind: the enclave passed the checks, and then
    answered with success; what is uploaded is what was read, and what is
    stored is what the enclave answered. *)
Inductive cli_step (r : Rn) : task → Rn → Prop :=
  | StepProgram name local b r1 response r' :
      read_source local r = (Ok b, r1) → rn_client r1 = rn_client r →
      answered (rn_client r) (Some name) (serialize_program b) response (rn_client r') →
      rn_host r' = rn_host r1 → cli_step r (UploadProgram name local) r'
  | StepData name local b r1 response r' :
      read_source local r = (Ok b, r1) → rn_client r1 = rn_client r →
      answered (rn_client r) (Some name) (serialize_program_data b) response (rn_client r') →
      rn_host r' = rn_host r1 → cli_step r (UploadData name local) r'
  | StepCompute name x response r' :
      answered (rn_client r) (Some name) serialize_request_result response (rn_client r') →
      rs_message_oneof response = Some (Rs_result x) →
      rn_host r' = rn_host r → cli_step r (Compute name) r'
  | StepFetch name local x response r' :
      answered (rn_client r) (Some name) serialize_read_file response (rn_client r') →
      rs_message_oneof response = Some (Rs_result x) →
      (if is_stream local then stdout_write_all x (rn_host r) = (true, rn_host r')
       else fs_read (p_raw local) (rn_host r') = Some x) →
      cli_step r (Fetch name local) r'
  | StepShutdown r' :
      request_shutdown (rn_client r) = (Ok tt, rn_client r') → rn_host r' = rn_host r → cli_step r Shutdown r'.

Inductive cli_steps (p : Policy) (h : string) : Rn → list task → Rn → Prop :=
  | StepsDone r : under p h (rn_client r) → cli_steps p h r [] r
  | StepsMore r t r1 ts r' :
      under p h (rn_client r) → cli_step r t r1 → cli_steps p h r1 ts r' → cli_steps p h r (t :: ts) r'.

Lemma cli_steps_app p h r ts r1 us r' :
  cli_steps p h r ts r1 → cli_steps p h r1 us r' → cli_steps p h r (ts ++ us) r'.
Proof. induction 1; [done|]. simpl. intros Hus. econstructor; eauto. Qed.

(** ** A session *)

Lemma on_client_inv {A} (m : ST Cl VeracruzClientError A) x (r r' : Rn) :
  on_client m r = (Ok x, r') → m (rn_client r) = (Ok x, rn_client r') ∧ rn_host r' = rn_host r.
Proof.
  intros H. apply map_err_inv, zoom_ok in H as (c & Hm & ->). by destruct r.
Qed.

Lemma read_source_client local b (r r1 : Rn) :
  read_source local r = (Ok b, r1) → rn_client r1 = rn_client r.
Proof.
  unfold read_source. destruct (is_stream local).
  - destruct (stdin_read_to_end _) as [[x|] d]; [|done]. by intros [= _ <-].
  - destruct (fs_read _ _); [|done]. by intros [= _ <-].
Qed.

Lemma write_result_inv local b u (r r1 : Rn) :
  write_result local b r = (Ok u, r1) → rn_client r1 = rn_client r ∧
    if is_stream local then stdout_write_all b (rn_host r) = (true, rn_host r1)
    else fs_read (p_raw local) (rn_host r1) = Some b.
Proof.
  unfold write_result. destruct (is_stream local).
  - destruct (stdout_write_all _ _) as [[] d]; [|done]. by intros [= _ <-].
  - destruct (fs_write _ _ _) as [[] d] eqn:Hw; [|done]. intros [= _ <-]. split; [done|].
    by eapply fs_write_read.
Qed.

Lemma submit_program_step e (r r' : Rn) :
  submit_program e r = (Ok tt, r') → cli_step r (UploadProgram e.1 e.2) r'.
Proof.
  intros H. apply bind_inv in H as (b & r1 & Hr & H). apply on_client_inv in H as [H Hh].
  pose proof (read_source_client _ _ _ _ Hr) as Hc. rewrite Hc in H.
  apply operation_success in H as (response & H). by econstructor.
Qed.

Lemma submit_data_step e (r r' : Rn) :
  submit_data e r = (Ok tt, r') → cli_step r (UploadData e.1 e.2) r'.
Proof.
  intros H. apply bind_inv in H as (b & r1 & Hr & H). apply on_client_inv in H as [H Hh].
  pose proof (read_source_client _ _ _ _ Hr) as Hc. rewrite Hc in H.
  apply operation_success in H as (response & H). by econstructor.
Qed.

Lemma submit_compute_step name (r r' : Rn) :
  submit_compute name r = (Ok tt, r') → cli_step r (Compute name) r'.
Proof.
  intros H. apply bind_inv in H as (x & r1 & H & Hr). apply ret_inv in Hr as [_ <-].
  apply on_client_inv in H as [H Hh]. apply operation_result in H as (response & H & Hx). by econstructor.
Qed.

Lemma fetch_result_step e (r r' : Rn) :
  fetch_result e r = (Ok tt, r') → cli_step r (Fetch e.1 e.2) r'.
Proof.
  intros H. apply bind_inv in H as (x & r1 & H & Hw). apply on_client_inv in H as [H Hh].
  apply operation_result in H as (response & H & Hx).
  apply write_result_inv in Hw as [Hc Hw]. rewrite Hh in Hw. rewrite <- Hc in H. by econstructor.
Qed.

Definition running_under (p : Policy) (h : string) (r : Rn) : Prop := under p h (rn_client r).

Lemma on_client_under {A} p h (m : ST Cl VeracruzClientError A) :
  preserves (under p h) m → preserves (running_under p h) (on_client (D:=D) m).
Proof.
  intros Hm. apply preserves_map_err. intros r Hr. specialize (Hm _ Hr). unfold zoom.
  by destruct (m (rn_client r)) as [[] ?].
Qed.
Lemma read_source_under p h local : preserves (running_under p h) (read_source (N:=N) local).
Proof.
  intros r Hr. unfold read_source. destruct (is_stream local).
  - by destruct (stdin_read_to_end _) as [[] ?].
  - by destruct (fs_read _ _).
Qed.
Lemma write_result_under p h local b : preserves (running_under p h) (write_result (N:=N) local b).
Proof. intros r Hr. unfold write_result. by destruct (if is_stream local then _ else _) as [[] ?]. Qed.
#[local] Hint Resolve read_source_under write_result_under on_client_under send_program_under send_data_under
  request_compute_under get_results_under request_shutdown_under : veracruz.

Lemma for_each_steps {A} p h (body : A → ST Rn Exit unit) (task_of : A → task) l (r r' : Rn) :
  (∀ a r r', body a r = (Ok tt, r') → cli_step r (task_of a) r') →
  (∀ a, preserves (running_under p h) (body a)) → running_under p h r →
  for_each body l r = (Ok tt, r') → cli_steps p h r (task_of <$> l) r' ∧ running_under p h r'.
Proof.
  intros Hstep Hunder. revert r. induction l as [|a l IH]; intros r Hr H; simpl in H.
  - apply ret_inv in H as [_ <-]. split; [by constructor|done].
  - apply bind_inv in H as ([] & r1 & Ha & H).
    pose proof (preserves_run _ _ _ (Hunder a) Hr) as Hr1. rewrite Ha in Hr1.
    destruct (IH _ Hr1 H) as [Hl Hr']. split; [|done]. econstructor; eauto.
Qed.

Lemma did_something_requested opt : did_something opt = true ↔ requested opt ≠ [].
Proof.
  unfold did_something, requested. split.
  - intros H Hnil. apply app_nil in Hnil as [Hp%fmap_nil_inv Hnil]. apply app_nil in Hnil as [Hd%fmap_nil_inv Hnil].
    apply app_nil in Hnil as [Hc%fmap_nil_inv Hnil]. apply app_nil in Hnil as [Ho%fmap_nil_inv Hs].
    rewrite Hp, Hd, Hc, Ho in H. simpl in H. by destruct (wants_shutdown opt).
  - intros H. destruct (concat (program opt)); [|done]. destruct (concat (data opt)); [|done].
    destruct (compute opt); [|done]. destruct (concat (output opt)); [|done].
    by destruct (wants_shutdown opt).
Qed.

(** A session that ends with success did what was asked, in order. *)
Lemma session_steps opt p h (r r' : Rn) :
  running_under p h r → cli_session opt r = (Ok tt, r') →
  requested opt ≠ [] ∧ cli_steps p h r (requested opt) r'.
Proof.
  intros Hr H. apply bind_inv in H as ([] & r1 & H1 & H). apply bind_inv in H as ([] & r2 & H2 & H).
  apply bind_inv in H as ([] & r3 & H3 & H). apply bind_inv in H as ([] & r4 & H4 & H).
  apply bind_inv in H as ([] & r5 & H5 & H).
  destruct (did_something opt) eqn:Hdid; [|done]. apply ret_inv in H as [_ <-].
  split; [by apply did_something_requested|].
  apply (for_each_steps p h _ (λ e, UploadProgram e.1 e.2)) in H1 as [S1 R1];
    [|intros; by apply submit_program_step|intros; unfold submit_program; preserve|done].
  apply (for_each_steps p h _ (λ e, UploadData e.1 e.2)) in H2 as [S2 R2];
    [|intros; by apply submit_data_step|intros; unfold submit_data; preserve|done].
  apply (for_each_steps p h _ Compute) in H3 as [S3 R3];
    [|intros; by apply submit_compute_step|intros; unfold submit_compute; preserve|done].
  apply (for_each_steps p h _ (λ e, Fetch e.1 e.2)) in H4 as [S4 R4];
    [|intros; by apply fetch_result_step|intros; unfold fetch_result; preserve|done].
  unfold requested. eapply cli_steps_app; [exact S1|]. eapply cli_steps_app; [exact S2|].
  eapply cli_steps_app; [exact S3|]. eapply cli_steps_app; [exact S4|].
  destruct (wants_shutdown opt).
  - pose proof (preserves_run _ _ _ (on_client_under p h _ (request_shutdown_under p h)) R4) as R5.
    rewrite H5 in R5. apply on_client_inv in H5 as [H5 Hh]. econstructor; [done|by constructor|by constructor].
  - apply ret_inv in H5 as [_ <-]. by constructor.
Qed.

(** ** Exit codes *)

(** Every exit but that of a run with nothing to do has the code [1]. *)
Definition exits_1 {S A} (m : ST S Exit A) : Prop := ∀ s c s', m s = (Err (ExitCode c), s') → c = 1.

Lemma exits_bind {S A B} (m : ST S Exit A) (k : A → ST S Exit B) :
  exits_1 m → (∀ a, exits_1 (k a)) → exits_1 (bind m k).
Proof.
  intros Hm Hk s c s'. unfold bind. destruct (m s) as [[a|[c']|p] s1] eqn:Hs; [apply Hk| |done].
  intros [= -> <-]. by eapply Hm.
Qed.
Lemma exits_ret {S A} (a : A) : exits_1 (S:=S) (ret a).
Proof. by intros s c s'. Qed.
Lemma exits_on_client {A} (m : ST Cl VeracruzClientError A) : exits_1 (on_client (D:=D) m).
Proof.
  intros r c r'. unfold on_client, or_exit, map_err. destruct (zoom _ _ m r) as [[] ?]; [done| |done].
  by intros [= <- _].
Qed.
Lemma exits_read local : exits_1 (read_source (N:=N) (D:=D) local).
Proof.
  intros r c r'. unfold read_source. destruct (is_stream local).
  - destruct (stdin_read_to_end _) as [[] ?]; [done|]. by intros [= <- _].
  - destruct (fs_read _ _); [done|]. by intros [= <- _].
Qed.
Lemma exits_write local b : exits_1 (write_result (N:=N) (D:=D) local b).
Proof.
  intros r c r'. unfold write_result. destruct (if is_stream local then _ else _) as [[] ?]; [done|].
  by intros [= <- _].
Qed.
#[local] Hint Resolve exits_ret exits_on_client exits_read exits_write exits_bind : veracruz.
Lemma exits_for_each {A} (body : A → ST Rn Exit unit) l : (∀ a, exits_1 (body a)) → exits_1 (for_each body l).
Proof. intros Hb. induction l as [|a l IH]; simpl; eauto with veracruz. Qed.

Lemma session_exit_2 opt (r r' : Rn) : cli_session opt r = (Err (ExitCode 2), r') → requested opt = [].
Proof.
  intros H. destruct (decide (requested opt = [])) as [|Hne]; [done|]. exfalso.
  apply did_something_requested in Hne. revert H. unfold cli_session. rewrite Hne.
  assert (∀ e, exits_1 (submit_program (N:=N) (D:=D) e)) by (intros; unfold submit_program; eauto with veracruz).
  assert (∀ e, exits_1 (submit_data (N:=N) (D:=D) e)) by (intros; unfold submit_data; eauto with veracruz).
  assert (∀ e, exits_1 (submit_compute (N:=N) (D:=D) e)) by (intros; unfold submit_compute; eauto with veracruz).
  assert (∀ e, exits_1 (fetch_result (N:=N) (D:=D) e)) by (intros; unfold fetch_result; eauto with veracruz).
  match goal with |- ?m r = _ → _ => assert (exits_1 m) as Hm end; [|intros Hx%Hm; done].
  repeat (apply exits_bind; [first [by apply exits_for_each|destruct (wants_shutdown opt); eauto with veracruz]|intros _]).
  apply exits_ret.
Qed.

End cli.
