(* ===== verification/Platform.v ===== *)
(** * Platform services ([platform-services])

    The thin layer between the WASI calls and the clocks and entropy source
    of the platform.  The module [imp] that the build selects is an instance
    of the class [PlatformImp]: over [nix] and [getrandom] on Linux, over
    [nix] and the Nitro secure module on Nitro, and self-contained on IceCap.

    Sources: [platform-services/src/lib.rs], [result.rs],
    [std_platform_services.rs], [nitro_platform_services.rs],
    [icecap_platform_services.rs]. *)

From S2P Require Import Prelude.
Local Open Scope Z_scope.

(** [result::Result] *)
Inductive platform_result (A : Type) :=
  | PSuccess (a : A)
  | PUnavailable
  | PUnknownError.
Arguments PSuccess {_} _.
Arguments PUnavailable {_}.
Arguments PUnknownError {_}.

Definition is_success {A} (r : platform_result A) : bool :=
  match r with PSuccess _ => true | _ => false end.

(** The module [imp].  [P] is what the services read and advance (the time,
    the entropy source); [platform_getrandom] is given the length of the
    buffer to fill and returns its content. *)
Class PlatformImp (P : Type) := {
  platform_getrandom : Z → P → platform_result bytes * P;
  platform_getclockres : Z → P → platform_result Z * P;
  platform_getclocktime : Z → P → platform_result Z * P;
}.

(** A buffer that is filled is filled to its end. *)
Class PlatformLaws {P} (PI : PlatformImp P) : Prop := {
  getrandom_fills n p b p' : 0 ≤ n → platform_getrandom n p = (PSuccess b, p') → len b = n;
}.

Section services.
Context {P : Type} {PI : PlatformImp P}.

Definition getrandom (n : Z) (p : P) : platform_result bytes * P :=
  if n =? 0 then (PSuccess [], p) else platform_getrandom n p.

Definition getclockres (clock_id : Z) (p : P) : platform_result Z * P :=
  platform_getclockres clock_id p.

Definition getclocktime (clock_id : Z) (p : P) : platform_result Z * P :=
  platform_getclocktime clock_id p.

Lemma getrandom_len {PL : PlatformLaws PI} n p b p' :
  0 ≤ n → getrandom n p = (PSuccess b, p') → len b = n.
Proof.
  intros Hn. unfold getrandom. destruct (Z.eqb_spec n 0) as [->|_]; [by intros [= <- _]|].
  by apply getrandom_fills.
Qed.
End services.

(** ** Clocks over [nix], on Linux and Nitro *)

(** [nix::Error], as the sources tell it apart. *)
Inductive nix_error := SysEINVAL | NixOther.

(** [num_nanoseconds() as u64]: the nanoseconds are an [i64]. *)
Definition clock_result {P} (r : (Z + nix_error) * P) : platform_result Z * P :=
  match r with
  | (inl nanoseconds, p) => (PSuccess (nanoseconds mod u64_bound), p)
  | (inr SysEINVAL, p) => (PUnavailable, p)
  | (inr NixOther, p) => (PUnknownError, p)
  end.

(** The clocks of [nix], the [getrandom] crate, and the secure module's
    random number generator with its initialisation; a generator that
    succeeds returns the whole buffer. *)
Class OsLibs (P : Type) := {
  clock_getres : Z → P → (Z + nix_error) * P;
  clock_gettime : Z → P → (Z + nix_error) * P;
  os_random : Z → P → option bytes * P;
  nsm_lib_init : P → Z * P;
  nsm_get_random : Z → Z → P → option bytes * P;
}.

Section os.
Context {P : Type} {OS : OsLibs P}.

Definition std_getclockres (clock_id : Z) (p : P) : platform_result Z * P :=
  clock_result (clock_getres clock_id p).

Definition std_getclocktime (clock_id : Z) (p : P) : platform_result Z * P :=
  clock_result (clock_gettime clock_id p).

Definition std_getrandom (n : Z) (p : P) : platform_result bytes * P :=
  match os_random n p with
  | (Some b, p') => (PSuccess b, p')
  | (None, p') => (PUnknownError, p')
  end.

Definition nitro_getrandom (n : Z) (p : P) : platform_result bytes * P :=
  let '(nsm_fd, p1) := nsm_lib_init p in
  if nsm_fd <? 0 then (PUnknownError, p1)
  else match nsm_get_random nsm_fd n p1 with
       | (Some b, p2) => (PSuccess b, p2)
       | (None, p2) => (PUnknownError, p2)
       end.

Definition nitro_getclockres (clock_id : Z) (p : P) : platform_result Z * P :=
  clock_result (clock_getres clock_id p).

Definition nitro_getclocktime (clock_id : Z) (p : P) : platform_result Z * P :=
  clock_result (clock_gettime clock_id p).

Definition std_imp : PlatformImp P := {|
  platform_getrandom := std_getrandom;
  platform_getclockres := std_getclockres;
  platform_getclocktime := std_getclocktime;
|}.

Definition nitro_imp : PlatformImp P := {|
  platform_getrandom := nitro_getrandom;
  platform_getclockres := nitro_getclockres;
  platform_getclocktime := nitro_getclocktime;
|}.
End os.

(** ** IceCap: a counter in place of entropy, and no clocks *)

(** [RNG_STATE.fetch_add(1)], and the byte of the counter that its low three
    bits select. *)
Definition icecap_random_byte (state : Z) : Byte.byte :=
  default Byte.x00 (to_le_bytes 8 state !! Z.to_nat (Z.land state 7)).

Fixpoint icecap_fill (n : nat) (state : Z) : bytes * Z :=
  match n with
  | O => ([], state)
  | S n' =>
      let '(b, state') := icecap_fill n' ((state + 1) mod u64_bound) in
      (icecap_random_byte state :: b, state')
  end.

Definition icecap_getrandom (n : Z) (state : Z) : platform_result bytes * Z :=
  let '(b, state') := icecap_fill (Z.to_nat n) state in (PSuccess b, state').

Definition icecap_getclockres (clock_id : Z) (state : Z) : platform_result Z * Z :=
  (PUnavailable, state).

Definition icecap_getclocktime (clock_id : Z) (state : Z) : platform_result Z * Z :=
  (PUnavailable, state).

Definition icecap_imp : PlatformImp Z := {|
  platform_getrandom := icecap_getrandom;
  platform_getclockres := icecap_getclockres;
  platform_getclocktime := icecap_getclocktime;
|}.

Lemma length_icecap_fill n state : length (icecap_fill n state).1 = n.
Proof.
  revert state. induction n as [|n IH]; intros state; [done|]. simpl.
  specialize (IH ((state + 1) mod u64_bound)). by destruct (icecap_fill n _); simpl in *; f_equal.
Qed.

Lemma icecap_laws : PlatformLaws icecap_imp.
Proof.
  split. intros n p b p' Hn. simpl. unfold icecap_getrandom.
  pose proof (length_icecap_fill (Z.to_nat n) p) as Hl.
  destruct (icecap_fill (Z.to_nat n) p) as [b' s']. simpl in Hl. intros [= <- _].
  unfold len. lia.
Qed.
