(* ===== verification/WasiMemory.v ===== *)
(** * The linear memory of a WebAssembly program

    How the host reads and writes the memory of the program it runs: the
    trait [MemoryHandler] with its default methods, the trait [Unpack] for
    the structures passed in memory, and the two implementations of the
    handler, for the interpreter and for the compiler.

    Sources: [execution-engine/src/wasi/common.rs] ([Unpack],
    [MemoryHandler]); [wasmi.rs] and [wasmtime.rs], the implementations of
    [MemoryHandler].

    Addresses and lengths are [u32], and [usize] has 64 bits, so that the sum
    of an address and a length does not overflow [usize]. *)

From S2P Require Import Prelude RustPath WasiTypes Policy InodeTable.
Local Open Scope Z_scope.

(** ** The trait [MemoryHandler] *)

(** [get_slice], the write of a whole slice through [get_slice_mut], and
    [get_size]. *)
Class MemoryHandler (T : Type) := {
  get_slice : Z → Z → T → outcome ErrNo.t bytes;
  put_slice : Z → bytes → T → outcome ErrNo.t T;
  get_size : T → outcome ErrNo.t Z;
}.

(** What the host relies on: a slice has the length asked for, what is
    written is read back, a write leaves the bytes outside its range and the
    size alone, and both succeed exactly on the ranges within the size. *)
Class MemoryHandlerLaws {T} (MH : MemoryHandler T) : Prop := {
  get_slice_len a n m b : 0 ≤ a → 0 ≤ n → get_slice a n m = Ok b → len b = n;
  put_get_slice a b m m' : 0 ≤ a → put_slice a b m = Ok m' → get_slice a (len b) m' = Ok b;
  put_get_other a b m m' c n :
    0 ≤ a → 0 ≤ c → 0 ≤ n → c + n ≤ a ∨ a + len b ≤ c →
    put_slice a b m = Ok m' → get_slice c n m' = get_slice c n m;
  put_get_size a b m m' : 0 ≤ a → put_slice a b m = Ok m' → get_size m' = get_size m;
  put_like_get a b m :
    0 ≤ a → is_ok (put_slice a b m) = is_ok (get_slice a (len b) m);
  get_slice_sub a n m b c k :
    0 ≤ a → a ≤ c → 0 ≤ k → c + k ≤ a + n → get_slice a n m = Ok b →
    get_slice c k m = Ok (take (Z.to_nat k) (drop (Z.to_nat (c - a)) b));
  get_slice_size a n m size :
    0 ≤ a → 0 ≤ n → get_size m = Ok size → is_ok (get_slice a n m) = (a + n <=? size);
}.

(** ** The trait [Unpack] *)

Class Unpack (A : Type) := {
  unpack_SIZE : Z;
  unpack_from : bytes → outcome ErrNo.t A;
}.

Section machine.
Context {T : Type} {MH : MemoryHandler T} {BP : BuildProfile}.

Abbreviation MEM A := (ST T ErrNo.t A).

(** A read of the memory, and a write through a mutable slice. *)
Definition mem_read {A} (f : T → outcome ErrNo.t A) : MEM A := λ m, (f m, m).

Definition mem_write (address : Z) (buffer : bytes) : MEM unit := λ m,
  match put_slice address buffer m with
  | Ok m' => (Ok tt, m')
  | Err e => (Err e, m)
  | Abort p => (Abort p, m)
  end.

Definition write_buffer (address : Z) (buffer : bytes) : MEM unit :=
  do! lift (try_from_or_errno u32_bound (len buffer)) in
  mem_write address buffer.

(** The buffer is given by its length. *)
Definition read_buffer (address length : Z) : MEM bytes :=
  let! length := lift (try_from_or_errno u32_bound length) in
  mem_read (get_slice address length).

Definition read_cstring (address length : Z) : MEM string :=
  let! length := lift (try_from_or_errno u64_bound length) in
  let! bs := read_buffer address length in
  let s := String.string_of_list_byte bs in
  do! fail_if (negb (utf8_valid s)) ErrNo.IlSeq in
  ret s.

Definition read_u16 (address : Z) : MEM Z :=
  let! bs := read_buffer address 2 in ret (from_le_bytes bs).
Definition read_u32 (address : Z) : MEM Z :=
  let! bs := read_buffer address 4 in ret (from_le_bytes bs).
Definition read_u64 (address : Z) : MEM Z :=
  let! bs := read_buffer address 8 in ret (from_le_bytes bs).

Definition write_u32 (address number : Z) : MEM unit := write_buffer address (to_le_bytes 4 number).
Definition write_u64 (address number : Z) : MEM unit := write_buffer address (to_le_bytes 8 number).

(** A structure is written as the bytes of its representation. *)
Definition write_struct {A} (repr : A → bytes) (address : Z) (element : A) : MEM unit :=
  write_buffer address (repr element).

Definition unpack {A} `{Unpack A} (address : Z) : MEM A :=
  let! bs := mem_read (get_slice address unpack_SIZE) in
  lift (unpack_from bs).

(** [iter.map(f).collect::<Result<Vec<_>, _>>()] *)
Definition collect_st {S A B} (f : A → ST S ErrNo.t B) (l : list A) : ST S ErrNo.t (list B) :=
  fold_st (λ acc x, let! y := f x in ret (acc ++ [y])) l [].

Definition unpack_array {A} `{Unpack A} (address count : Z) : MEM (list A) :=
  collect_st (λ i,
    let! off := lift (u32_mul i unpack_SIZE) in
    let! a := lift (u32_add address off) in
    unpack a) (seqZ 0 count).

(** [write_string_list]: one iteration, with the two running addresses. *)
Definition write_string_step (acc : Z * Z) (to_write : bytes) : MEM (Z * Z) :=
  let '(buf_address, buf_pointers) := acc in
  do! write_buffer buf_address to_write in
  do! write_u32 buf_pointers buf_address in
  let! buf_address := lift (u32_add buf_address (len to_write mod u32_bound)) in
  let! buf_pointers := lift (u32_add buf_pointers 4) in
  ret (buf_address, buf_pointers).

Definition write_string_list (content : list bytes) (buf_address buf_pointers : Z) : MEM unit :=
  do! fold_st write_string_step content (buf_address, buf_pointers) in ret tt.
End machine.

(** ** Structures in memory *)

Record IoVec := mkIoVec { iov_buf : Z; iov_len : Z }.

Record SubscriptionClock := mkSubscriptionClock
  { sub_clock_id : Z; sub_timeout : Z; sub_precision : Z; sub_flags : Z }.
Inductive SubscriptionUnion :=
  | SubClock (c : SubscriptionClock)
  | SubFdRead (fd : Fd)
  | SubFdWrite (fd : Fd).
Record Subscription := mkSubscription { sub_userdata : Z; sub_u : SubscriptionUnion }.

(** [error], [ty] and the flags are kept as their codes. *)
Record EventFdState := mkEventFdState { ev_file_size : Z; ev_rw_flags : Z }.
Record Event := mkEvent
  { ev_user_data : Z; ev_error : Z; ev_ty : Z; ev_fd_state : option EventFdState }.

(** The sizes of the structures of [wasi_types] and which codes its
    enumerations and flag sets have, with the error code an I/O error at the
    end of the input becomes. *)
Class StructLayout := {
  sizeof_IoVec : Z;
  sizeof_Subscription : Z;
  sizeof_Event : Z;
  unexpected_eof : ErrNo.t;
  ClockId_valid : Z → bool;
  ErrNo_valid : Z → bool;
  EventType_valid : Z → bool;
  EventType_FdRead : Z;
  EventType_FdWrite : Z;
  EventRwFlags_valid : Z → bool;
}.

(** An [IoVec] is two [u32]. *)
Class StructLayoutLaws (SL : StructLayout) : Prop := {
  sizeof_IoVec_8 : sizeof_IoVec = 8;
}.

Section unpack.
Context {SL : StructLayout}.

(** [rdr.read_uN::<LittleEndian>()] on [n] bytes of a [Cursor]. *)
Definition read_le (n : nat) : ST bytes ErrNo.t Z := λ rdr,
  if decide (n ≤ length rdr)%nat then (Ok (from_le_bytes (take n rdr)), drop n rdr)
  else (Err unexpected_eof, rdr).

(** [T::try_from(v).map_err(|_| ErrNo::Inval)] for a type with codes [valid] *)
Definition try_code {S} (valid : Z → bool) (v : Z) : ST S ErrNo.t Z :=
  do! fail_if (negb (valid v)) ErrNo.Inval in ret v.

Definition from_cursor {A} (size : Z) (m : ST bytes ErrNo.t A) (bs : bytes) : outcome ErrNo.t A :=
  if len bs =? size then (m bs).1 else Err ErrNo.Inval.

Definition IoVec_unpack : bytes → outcome ErrNo.t IoVec :=
  from_cursor sizeof_IoVec (
    let! buf := read_le 4 in
    let! len := read_le 4 in
    ret (mkIoVec buf len)).

Definition Subscription_unpack : bytes → outcome ErrNo.t Subscription :=
  from_cursor sizeof_Subscription (
    let! userdata := read_le 8 in
    let! tag := read_le 8 in
    let! u :=
      (if tag =? 0 then
         let! clock_id := read_le 8 in
         let! clock_id := lift (try_from_or_errno u32_bound clock_id) in
         let! clock_id := try_code ClockId_valid clock_id in
         let! timeout := read_le 8 in
         let! precision := read_le 8 in
         let! flags := read_le 8 in
         let! flags := lift (try_from_or_errno u16_bound flags) in
         ret (SubClock (mkSubscriptionClock clock_id timeout precision flags))
       else if (tag =? 1) || (tag =? 2) then
         let! fd := read_le 8 in
         let! fd := lift (try_from_or_errno u32_bound fd) in
         do! read_le 8 in
         do! read_le 8 in
         do! read_le 8 in
         ret (if tag =? 1 then SubFdRead fd else SubFdWrite fd)
       else throw ErrNo.Inval) in
    ret (mkSubscription userdata u)).

Definition Event_unpack : bytes → outcome ErrNo.t Event :=
  from_cursor sizeof_Event (
    let! user_data := read_le 8 in
    let! error := read_le 2 in
    let! error := try_code ErrNo_valid error in
    let! ty := read_le 6 in
    let! ty := lift (try_from_or_errno u8_bound ty) in
    let! ty := try_code EventType_valid ty in
    let! fd_state :=
      (if (ty =? EventType_FdRead) || (ty =? EventType_FdWrite) then
         let! file_size := read_le 8 in
         let! flags := read_le 8 in
         let! flags := lift (try_from_or_errno u16_bound flags) in
         let! flags := try_code EventRwFlags_valid flags in
         ret (Some (mkEventFdState file_size flags))
       else ret None) in
    ret (mkEvent user_data error ty fd_state)).

#[export] Instance Unpack_IoVec : Unpack IoVec :=
  {| unpack_SIZE := sizeof_IoVec; unpack_from := IoVec_unpack |}.
#[export] Instance Unpack_Subscription : Unpack Subscription :=
  {| unpack_SIZE := sizeof_Subscription; unpack_from := Subscription_unpack |}.
#[export] Instance Unpack_Event : Unpack Event :=
  {| unpack_SIZE := sizeof_Event; unpack_from := Event_unpack |}.
End unpack.

(** ** Arrays of buffers *)

Section iovec.
Context {T : Type} {MH : MemoryHandler T} {BP : BuildProfile} {SL : StructLayout}.

(** The buffer the [i]-th descriptor of the array stands for, as its address
    and its bytes: [memory] is the whole memory. *)
Definition iovec_slice (memory : bytes) (address i : Z) : ST T ErrNo.t (Z * bytes) :=
  let! off := lift (u32_mul i sizeof_IoVec) in
  let! lo := lift (u32_add address off) in
  let! lo := lift (try_from_or_errno u64_bound lo) in
  let! off' := lift (u32_mul (i + 1) sizeof_IoVec) in
  let! hi := lift (u32_add address off') in
  let! hi := lift (try_from_or_errno u64_bound hi) in
  let! bs := lift (index_slice memory lo hi) in
  let! iovec := lift (IoVec_unpack bs) in
  let! buf := lift (try_from_or_errno u64_bound (iov_buf iovec)) in
  let! buf_end := lift (u32_add (iov_buf iovec) (iov_len iovec)) in
  let! buf_end := lift (try_from_or_errno u64_bound buf_end) in
  let! slice := lift (index_slice memory buf buf_end) in
  ret (buf, slice).

(** All the memory, and the slices in it.  One or two slices are kept in
    place and more in a vector; either way they are computed in order up to
    the first error. *)
Definition unpack_iovec_mut (address count : Z) : ST T ErrNo.t (list (Z * bytes)) :=
  let! size := mem_read get_size in
  let! memory := mem_read (get_slice 0 size) in
  collect_st (iovec_slice memory address) (seqZ 0 count).

Definition unpack_iovec (address count : Z) : ST T ErrNo.t (list bytes) :=
  let! size := mem_read get_size in
  let! memory := mem_read (get_slice 0 size) in
  let! slices := collect_st (iovec_slice memory address) (seqZ 0 count) in
  ret slices.*2.

(** What a read of [n] bytes stores through the slices: each in turn takes
    the bytes it has room for.  The slices may overlap, so that the bytes
    past the end of a read are those the memory holds, not those the slice
    held at first. *)
Fixpoint fill_slices (slices : list (Z * bytes)) (bufs : list bytes) (n : Z) : ST T ErrNo.t unit :=
  match slices, bufs with
  | (address, old) :: slices', buf :: bufs' =>
      let k := Z.min (len old) n in
      do! mem_write address (take (Z.to_nat k) buf) in
      fill_slices slices' bufs' (n - k)
  | _, _ => ret tt
  end.
End iovec.

(** ** The two handlers *)

(** [impl MemoryHandler for MemoryRef] of the interpreter. *)
#[export] Instance wasmi_memory : MemoryHandler bytes := {|
  get_slice address length memory := index_slice memory address (address + length);
  put_slice address buffer memory := copy_into memory address (address + len buffer) buffer;
  get_size memory := if len memory <? u32_bound then Ok (len memory) else Abort UnwrapOnErr;
|}.

(** [impl MemoryHandler for Caller] of the compiler: the export named
    [memory] of the caller, which it may not have. *)
#[export] Instance wasmtime_memory : MemoryHandler (option bytes) := {|
  get_slice address length export :=
    match export with
    | Some memory => index_slice memory address (address + length)
    | None => Err ErrNo.NoMem
    end;
  put_slice address buffer export :=
    match export with
    | Some memory =>
        match copy_into memory address (address + len buffer) buffer with
        | Ok memory' => Ok (Some memory')
        | Err e => Err e
        | Abort p => Abort p
        end
    | None => Err ErrNo.NoMem
    end;
  get_size export :=
    match export with
    | Some memory => if len memory <? u32_bound then Ok (len memory) else Abort UnwrapOnErr
    | None => Err ErrNo.NoMem
    end;
|}.
