(* ===== verification/WasiHost.v ===== *)
(** * The host side of a running program

    The state a WASI call acts on: the wrapper ([WasiWrapper]) with its
    handler of the virtual filesystem, the state shared with the other
    handlers, the linear memory of the program, the platform, and the log.

    Sources: [execution-engine/src/wasi/common.rs] ([WasiWrapper]),
    [execution-engine/src/lib.rs] ([Options]). *)

From S2P Require Import Prelude RustPath WasiTypes Policy InodeTable FileSystem FsOps.
From S2P Require Import Platform WasiMemory.

Section host.
Context {WR : WasiRights}.

Record WasiWrapper := mkWasiWrapper {
  filesystem : FileSystem;
  environment_variables : list (string * string);
  program_arguments : list string;
  exit_code : option Z;
  enable_clock : bool;
  enable_strace : bool;
}.

Definition WasiWrapper_new (fs : FileSystem) (clock : bool) : WasiWrapper :=
  mkWasiWrapper fs [] [] None clock false.

(** [Options] of [lib.rs] *)
Record Options := mkOptions {
  opt_environment_variables : list (string * string);
  opt_program_arguments : list string;
  opt_enable_clock : bool;
  opt_enable_strace : bool;
}.

Definition Options_default : Options := mkOptions [] [] false false.

Record Host (T P : Type) := mkHost {
  wrapper : WasiWrapper;
  host_world : World;
  linear_memory : T;
  platform : P;
  log : list string;
}.
Arguments mkHost {T P} _ _ _ _ _.
Arguments wrapper {T P} _.
Arguments host_world {T P} _.
Arguments linear_memory {T P} _.
Arguments platform {T P} _.
Arguments log {T P} _.

Section state.
Context {T P : Type}.
Implicit Types s : Host T P.

Definition set_filesystem (fs : FileSystem) (w : WasiWrapper) : WasiWrapper :=
  mkWasiWrapper fs (environment_variables w) (program_arguments w) (exit_code w)
    (enable_clock w) (enable_strace w).
Definition set_exit_code (c : option Z) (w : WasiWrapper) : WasiWrapper :=
  mkWasiWrapper (filesystem w) (environment_variables w) (program_arguments w) c
    (enable_clock w) (enable_strace w).
Definition set_enables (clock strace : bool) (w : WasiWrapper) : WasiWrapper :=
  mkWasiWrapper (filesystem w) (environment_variables w) (program_arguments w) (exit_code w)
    clock strace.
Definition set_environment (vars : list (string * string)) (args : list string)
    (w : WasiWrapper) : WasiWrapper :=
  mkWasiWrapper (filesystem w) vars args (exit_code w) (enable_clock w) (enable_strace w).

Definition set_wrapper (w : WasiWrapper) s : Host T P :=
  mkHost w (host_world s) (linear_memory s) (platform s) (log s).
Definition set_memory (m : T) s : Host T P :=
  mkHost (wrapper s) (host_world s) m (platform s) (log s).
Definition set_platform (p : P) s : Host T P :=
  mkHost (wrapper s) (host_world s) (linear_memory s) p (log s).
Definition set_log (l : list string) s : Host T P :=
  mkHost (wrapper s) (host_world s) (linear_memory s) (platform s) l.

(** The filesystem as the handler sees it. *)
Definition fs_of s : fs_state := mkState (filesystem (wrapper s)) (host_world s).
Definition set_fs (f : fs_state) s : Host T P :=
  mkHost (set_filesystem (handle f) (wrapper s)) (world f) (linear_memory s) (platform s) (log s).

Definition on_fs {A} (op : M A) : ST (Host T P) ErrNo.t A := zoom fs_of set_fs op.
Definition on_memory {A} (op : ST T ErrNo.t A) : ST (Host T P) ErrNo.t A :=
  zoom linear_memory set_memory op.

(** [m] with its [Result] as a value: [let result = (|| m)();] *)
Definition attempt {A} (m : ST (Host T P) ErrNo.t A) : ST (Host T P) ErrNo.t (A + ErrNo.t) :=
  try_match m (λ a, ret (inl a)) (λ e, ret (inr e)).

(** A service of the platform. *)
Definition on_platform {A} (op : P → A * P) : ST (Host T P) ErrNo.t A :=
  λ s, let '(a, p) := op (platform s) in (Ok a, set_platform p s).

(** [info!] *)
Definition info (msg : string) : ST (Host T P) ErrNo.t unit :=
  modify (λ s, set_log (log s ++ [msg]) s).
End state.
End host.
#[global] Arguments mkHost {WR T P} _ _ _ _ _.
#[global] Arguments wrapper {WR T P} _.
#[global] Arguments host_world {WR T P} _.
#[global] Arguments linear_memory {WR T P} _.
#[global] Arguments platform {WR T P} _.
#[global] Arguments log {WR T P} _.
Abbreviation HostM T P A := (ST (Host T P) ErrNo.t A).
