(* ===== verification/Strace.v ===== *)
(** * Tracing of the WASI calls

    The tracing structure the wrapper creates for each call, which logs the
    name of the call, its arguments as they are in memory afterwards, and its
    result.

    Source: [execution-engine/src/wasi/strace.rs]. *)

From S2P Require Import Prelude RustFmt RustPath WasiTypes Policy InodeTable FileSystem FsOps.
From S2P Require Import Platform WasiMemory WasiHost.
Local Open Scope Z_scope.

(** ** [strace_string] *)

Definition BUFFER_DISPLAY_LEN : nat := 32.

(** The text of a byte, given the byte after it. *)
Definition strace_char (b : Z) (next : option Z) : string :=
  if (0x20 <=? b) && (b <? 0x7f) then
    if (b =? 92) || (b =? 34) then (char 92 ++ char (Z.to_nat b))%string else char (Z.to_nat b)
  else if b =? 9 then (char 92 ++ "t")%string
  else if b =? 10 then (char 92 ++ "n")%string
  else if match next with Some c => (48 <=? c) && (c <=? 57) | None => false end
  then (char 92 ++ fmt_oct3 b)%string
  else (char 92 ++ fmt_oct b)%string.

Fixpoint strace_chars (bs : bytes) : string :=
  match bs with
  | [] => EmptyString
  | b :: bs' => (strace_char (byte_val b) (byte_val <$> head bs') ++ strace_chars bs')%string
  end.

Definition strace_string (bs : bytes) (max : nat) : string :=
  (dquote ++ strace_chars (take max bs) ++ dquote
   ++ (if decide (max < length bs)%nat then "..." else EmptyString))%string.

(** ** The tracing structure *)

Inductive TraceState := Func | Args | Done.
Record Strace := mkStrace { enabled : bool; state : TraceState }.

(** The text of an error code, [{:?}]. *)
Class ErrNoDebug := { errno_debug : ErrNo.t → string }.

Section strace.
Context {BP : BuildProfile} {WR : WasiRights} {T P : Type} {MH : MemoryHandler T}
  {SL : StructLayout} {ED : ErrNoDebug}.

Definition Strace_func (on : bool) (name : string) : HostM T P Strace :=
  do! (if on then info (name ++ "(") else ret tt) in
  ret (mkStrace on Func).

Definition arg_print_comma (st : Strace) : HostM T P Strace :=
  match state st with
  | Func => ret (mkStrace (enabled st) Args)
  | Args => do! info ", " in ret st
  | Done => do! info (newline ++ "Unexpected strace arg: ") in ret st
  end.

(** The shape of every argument: nothing when tracing is off, a comma where
    one is due, then the argument. *)
Definition strace_arg (print : HostM T P unit) (st : Strace) : HostM T P Strace :=
  if enabled st then
    let! st := arg_print_comma st in
    do! print in
    ret st
  else ret st.

(** [match mem.op(..) { Ok(x) => .., Err(_) => info!(msg) }] *)
Definition print_read {A} (op : ST T ErrNo.t A) (print : A → HostM T P unit) (msg : string) :
  HostM T P unit := try_match (on_memory op) print (λ _, info msg).

Definition arg_buffer (adr len : Z) : Strace → HostM T P Strace :=
  strace_arg (print_read (read_buffer adr len)
    (λ bs, info (strace_string bs BUFFER_DISPLAY_LEN)) "BAD_MEM_REF").

Definition arg_dec (n : Z) : Strace → HostM T P Strace := strace_arg (info (fmt_dec n)).
Definition arg_dots : Strace → HostM T P Strace := strace_arg (info "...").
Definition arg_dirents : Strace → HostM T P Strace := strace_arg (info "DIRENTS").
Definition arg_events : Strace → HostM T P Strace := strace_arg (info "EVENTS").
Definition arg_fdstat : Strace → HostM T P Strace := strace_arg (info "FDSTAT").
Definition arg_filestat : Strace → HostM T P Strace := strace_arg (info "FILESTAT").
Definition arg_hex (n : Z) : Strace → HostM T P Strace := strace_arg (info ("0x" ++ fmt_hex n)).

Definition arg_iovec (res : unit + ErrNo.t) (base count address : Z) : Strace → HostM T P Strace :=
  strace_arg
    match res with
    | inr _ => info "_"
    | inl _ =>
        print_read (read_u32 address)
          (λ len, print_read (unpack_iovec base count)
            (λ bufs, info (strace_string (take (Z.to_nat len) (concat bufs)) BUFFER_DISPLAY_LEN))
            "BAD_IOVEC")
          "BAD_IOVEC_LEN"
    end.

Definition arg_p_u16_hex (adr : Z) : Strace → HostM T P Strace :=
  strace_arg (print_read (read_u16 adr) (λ x, info ("0x" ++ fmt_hex x)) "BAD_MEM_REF").
Definition arg_p_u32 (adr : Z) : Strace → HostM T P Strace :=
  strace_arg (print_read (read_u32 adr) (λ x, info (fmt_dec x)) "BAD_MEM_REF").
Definition arg_p_u64 (adr : Z) : Strace → HostM T P Strace :=
  strace_arg (print_read (read_u64 adr) (λ x, info (fmt_dec x)) "BAD_MEM_REF").

Definition arg_path (adr len : Z) : Strace → HostM T P Strace :=
  strace_arg (print_read (read_buffer adr len) (λ bs, info (strace_string bs 1024)) "BAD_MEM_REF").

Definition arg_prestat_out (res : unit + ErrNo.t) (adr : Z) : Strace → HostM T P Strace :=
  strace_arg
    match res with
    | inl _ =>
        print_read (read_u64 adr)
          (λ x, if Z.land x 0xffffffff =? 0
                then info ("{len=" ++ fmt_dec (Z.shiftr x 32) ++ "}")
                else info "BAD_PRESTAT")
          "BAD_MEM_REF"
    | inr _ => info "_"
    end.

Definition arg_rights (rights : Z) : Strace → HostM T P Strace :=
  strace_arg (info ("0x" ++ fmt_hex rights)).
Definition arg_subscriptions : Strace → HostM T P Strace := strace_arg (info "SUBSCRIPTIONS").

(** What [result] prints. *)
Definition print_result (st : Strace) (result : unit + ErrNo.t) : HostM T P unit :=
  if enabled st then
    do! match state st with
        | Done => info (newline ++ "Unexpected strace result: ")
        | _ => ret tt
        end in
    match result with
    | inl _ => info ") = Success"
    | inr x => info (") = " ++ errno_debug x)
    end
  else ret tt.

Definition Strace_result (st : Strace) (result : unit + ErrNo.t) : HostM T P unit :=
  do! print_result st result in
  match result with inl _ => ret tt | inr e => throw e end.

(** How the wrapper traces a call: the structure is created, the call is
    made, its arguments are shown one after the other, and its result is
    shown and returned. *)
Definition traced (name : string) (call : HostM T P unit)
    (args : unit + ErrNo.t → list (Strace → HostM T P Strace)) : HostM T P unit :=
  let! s := get in
  let! st := Strace_func (enable_strace (wrapper s)) name in
  let! result := attempt call in
  let! st := fold_st (λ st arg, arg st) (args result) st in
  Strace_result st result.
End strace.
