(* ===== verification/Wasi.v ===== *)
(** * The WASI wrapper

    The common implementation of the WASI calls, and of the call Veracruz
    adds, shared by the execution engines: the numbers and addresses a
    program passes are decoded, the handler of the filesystem is called, and
    the results are stored in the memory of the program.

    Source: [execution-engine/src/wasi/common.rs] ([impl WasiWrapper]). *)

From S2P Require Import Prelude RustPath WasiTypes Policy InodeTable FileSystem FsOps Services.
From S2P Require Import Platform WasiMemory WasiHost Strace.
Local Open Scope Z_scope.

(** The codes of the enumerations and flag sets of [wasi_types] ([TryFrom]),
    and the representations of its structures in memory.  The flags that the
    filesystem does not look at are kept as their codes. *)
Class WasiCodes {WR : WasiRights} := {
  Advice_try_from : Z → option Advice;
  FdFlags_try_from : Z → option FdFlags;
  Rights_try_from : Z → option Rights;
  SetTimeFlags_try_from : Z → option SetTimeFlags;
  Whence_try_from : Z → option Whence;
  LookupFlags_try_from : Z → option Z;
  OpenFlags_try_from : Z → option OpenFlags;
  Signal_try_from : Z → option Z;
  RiFlags_try_from : Z → option Z;
  SiFlags_try_from : Z → option Z;
  SdFlags_try_from : Z → option Z;
  ClockId_RealTime : Z;
  sizeof_DirEnt : Z;
  FdStat_repr : FdStat → bytes;
  FileStat_repr : FileStat → bytes;
  FileStatResult_repr : FileStat + ErrNo.t → bytes;
  Prestat_repr : Prestat → bytes;
  DirEnt_repr : DirEnt → bytes;
}.

(** A structure takes [size_of] bytes, which for [DirEnt] is a small
    positive number. *)
Class WasiCodesLaws {WR : WasiRights} (WC : WasiCodes) : Prop := {
  len_DirEnt_repr d : len (DirEnt_repr d) = sizeof_DirEnt;
  sizeof_DirEnt_range : 0 < sizeof_DirEnt < u16_bound;
}.

Section wrapper.
Context {BP : BuildProfile} {WR : WasiRights} {HO : HashOrder} {NL : NativeLibs}
  {T P : Type} {MH : MemoryHandler T} {PI : PlatformImp P}
  {SL : StructLayout} {ED : ErrNoDebug} {WC : WasiCodes}.

Abbreviation W A := (HostM T P A).

Definition decode_wasi_arg {A} (try_from : Z → option A) (arg : Z) : W A :=
  ok_or (try_from arg) ErrNo.Inval.

Definition filestat_time : W Timestamp :=
  let! s := get in
  if enable_clock (wrapper s) then
    let! r := on_platform (getclocktime (ClockId_RealTime mod u8_bound)) in
    match r with PSuccess timespec => ret timespec | _ => ret 0 end
  else ret 0.

(** ** Arguments and environment *)

(** [format!("{}\0", arg).into_bytes()] *)
Definition nul_terminated (arg : string) : bytes :=
  String.list_byte_of_string arg ++ [Byte.x00].
Definition environ_entry (kv : string * string) : bytes :=
  nul_terminated (kv.1 ++ "=" ++ kv.2).

(** The sum of the lengths, as [u32]. *)
Definition buf_size (buffers : list bytes) : Z := len (concat buffers) mod u32_bound.

Definition WasiWrapper_args_get (address_for_string_ptrs buf_address : Z) : W unit :=
  traced "args_get"
    (let! s := get in
     let buffer := nul_terminated <$> program_arguments (wrapper s) in
     on_memory (write_string_list buffer buf_address address_for_string_ptrs))
    (λ _, [arg_dots]).

Definition WasiWrapper_args_sizes_get (address_for_counts address_for_buffer_size : Z) : W unit :=
  traced "args_sizes_get"
    (let! s := get in
     let arguments := program_arguments (wrapper s) in
     do! on_memory (write_u32 address_for_counts (len arguments mod u32_bound)) in
     on_memory (write_u32 address_for_buffer_size (buf_size (nul_terminated <$> arguments))))
    (λ _, [arg_dots]).

Definition WasiWrapper_environ_get (address_for_string_ptrs buf_address : Z) : W unit :=
  traced "environ_get"
    (let! s := get in
     let buffer := environ_entry <$> environment_variables (wrapper s) in
     on_memory (write_string_list buffer buf_address address_for_string_ptrs))
    (λ _, [arg_dots]).

Definition WasiWrapper_environ_sizes_get (address_for_counts address_for_buffer_size : Z) :
  W unit :=
  traced "environ_sizes_get"
    (let! s := get in
     let variables := environment_variables (wrapper s) in
     do! on_memory (write_u32 address_for_counts (len variables mod u32_bound)) in
     on_memory (write_u32 address_for_buffer_size (buf_size (environ_entry <$> variables))))
    (λ _, [arg_dots]).

(** ** Clocks *)

(** What the two clock calls have in common. *)
Definition clock_value (read : Z → P → platform_result Z * P) (clock_id : Z) : W Z :=
  let! s := get in
  if enable_clock (wrapper s) then
    let! r := on_platform (read (clock_id mod u8_bound)) in
    match r with
    | PSuccess value => ret value
    | PUnavailable => throw ErrNo.NoSys
    | PUnknownError => throw ErrNo.Inval
    end
  else throw ErrNo.Access.

Definition WasiWrapper_clock_res_get (clock_id address : Z) : W unit :=
  traced "clock_res_get"
    (let! result := clock_value getclockres clock_id in
     on_memory (write_u64 address result))
    (λ _, [arg_dec clock_id; arg_p_u64 address]).

Definition WasiWrapper_clock_time_get (clock_id precision address : Z) : W unit :=
  traced "clock_time_get"
    (let! result := clock_value getclocktime clock_id in
     on_memory (write_u64 address result))
    (λ _, [arg_dec clock_id; arg_dec precision; arg_p_u64 address]).

(** ** Descriptors *)

Definition WasiWrapper_fd_advise (fd offset len advice : Z) : W unit :=
  traced "fd_advise"
    (let! adv := decode_wasi_arg Advice_try_from advice in
     on_fs (fd_advise fd offset len adv))
    (λ _, [arg_dec fd; arg_dec offset; arg_dec len; arg_dec advice]).

Definition WasiWrapper_fd_allocate (fd offset len : Z) : W unit :=
  traced "fd_allocate" (on_fs (fd_allocate fd offset len))
    (λ _, [arg_dec fd; arg_dec offset; arg_dec len]).

Definition WasiWrapper_fd_close (fd : Z) : W unit :=
  traced "fd_close" (on_fs (fd_close fd)) (λ _, [arg_dec fd]).

Definition WasiWrapper_fd_datasync (fd : Z) : W unit :=
  traced "fd_datasync" (on_fs (fd_datasync fd)) (λ _, [arg_dec fd]).

Definition WasiWrapper_fd_fdstat_get (fd address : Z) : W unit :=
  traced "fd_fdstat_get"
    (let! stat := on_fs (fd_fdstat_get fd) in
     on_memory (write_struct FdStat_repr address stat))
    (λ _, [arg_dec fd; arg_fdstat]).

Definition WasiWrapper_fd_fdstat_set_flags (fd flags : Z) : W unit :=
  traced "fd_fdstat_set_flags"
    (let! fl := decode_wasi_arg FdFlags_try_from flags in
     on_fs (fd_fdstat_set_flags fd fl))
    (λ _, [arg_dec fd; arg_hex flags]).

Definition WasiWrapper_fd_fdstat_set_rights (fd rights_base rights_inheriting : Z) : W unit :=
  traced "fd_fdstat_set_rights"
    (let! base := decode_wasi_arg Rights_try_from rights_base in
     let! inheriting := decode_wasi_arg Rights_try_from rights_inheriting in
     on_fs (fd_fdstat_set_rights fd base inheriting))
    (λ _, [arg_dec fd; arg_hex rights_base; arg_hex rights_inheriting]).

(** The result of the filesystem is stored as it is, an error included. *)
Definition WasiWrapper_fd_filestat_get (fd address : Z) : W unit :=
  traced "fd_filestat_get"
    (let! stat := attempt (on_fs (fd_filestat_get fd)) in
     on_memory (write_struct FileStatResult_repr address stat))
    (λ _, [arg_dec fd; arg_filestat]).

Definition WasiWrapper_fd_filestat_set_size (fd size : Z) : W unit :=
  traced "fd_filestat_set_size" (on_fs (fd_filestat_set_size fd size))
    (λ _, [arg_dec fd; arg_dec size]).

Definition WasiWrapper_fd_filestat_set_times (fd atime mtime fst_flag : Z) : W unit :=
  traced "fd_filestat_set_times"
    (let! fl := decode_wasi_arg SetTimeFlags_try_from fst_flag in
     let! now := filestat_time in
     on_fs (fd_filestat_set_times fd atime mtime fl now))
    (λ _, [arg_dec fd; arg_dec atime; arg_dec mtime; arg_hex fst_flag]).

(** ** Reading and writing *)

Definition WasiWrapper_fd_pread (fd iovec_base iovec_count offset address : Z) : W unit :=
  traced "fd_pread"
    (let! iovecs := on_memory (unpack_iovec_mut iovec_base iovec_count) in
     let! r := on_fs (fd_pread fd iovecs.*2 offset) in
     do! on_memory (fill_slices iovecs r.2 r.1) in
     on_memory (write_u32 address (r.1 mod u32_bound)))
    (λ result, [arg_dec fd; arg_iovec result iovec_base iovec_count address;
                arg_dec offset; arg_p_u32 address]).

Definition WasiWrapper_fd_prestat_get (fd address : Z) : W unit :=
  traced "fd_prestat_get"
    (let! pre := on_fs (fd_prestat_get fd) in
     on_memory (write_struct Prestat_repr address pre))
    (λ result, [arg_dec fd; arg_prestat_out result address]).

Definition WasiWrapper_fd_prestat_dir_name (fd address size : Z) : W unit :=
  traced "fd_prestat_dir_name"
    (let! p := on_fs (fd_prestat_dir_name fd) in
     let result := String.list_byte_of_string (p_raw p) in
     do! fail_if (size <? len result) ErrNo.NameTooLong in
     do! fail_if (negb (utf8_valid (p_raw p))) ErrNo.Inval in
     on_memory (write_buffer address result))
    (λ _, [arg_dec fd; arg_path address size; arg_dec size]).

Definition WasiWrapper_fd_pwrite (fd iovec_base iovec_count offset address : Z) : W unit :=
  traced "fd_pwrite"
    (let! iovecs := on_memory (unpack_iovec iovec_base iovec_count) in
     let! size_written := on_fs (fd_pwrite fd iovecs offset) in
     on_memory (write_u32 address (size_written mod u32_bound)))
    (λ result, [arg_dec fd; arg_iovec result iovec_base iovec_count address;
                arg_dec offset; arg_p_u32 address]).

(** The buffers that [fd_read] of the filesystem fills: it reads at the
    offset of the descriptor, and then advances the offset, which may fail
    when the buffers have been filled. *)
Definition read_fills (fd : Fd) (bufs : list bytes) (s : fs_state) : Z * list bytes :=
  match (let! e := fd_get fd in fd_pread fd bufs (offset e)) s with
  | (Ok r, _) => r
  | _ => (0, bufs)
  end.

Definition WasiWrapper_fd_read (fd iovec_base iovec_count address : Z) : W unit :=
  traced "fd_read"
    (let! iovecs := on_memory (unpack_iovec_mut iovec_base iovec_count) in
     let! s := get in
     let filled := read_fills fd iovecs.*2 (fs_of s) in
     let! r := attempt (on_fs (fd_read fd iovecs.*2)) in
     do! on_memory (fill_slices iovecs filled.2 filled.1) in
     match r with
     | inl r => on_memory (write_u32 address (r.1 mod u32_bound))
     | inr e => throw e
     end)
    (λ result, [arg_dec fd; arg_iovec result iovec_base iovec_count address; arg_p_u32 address]).

(** The loop of [fd_readdir]: the entries still to write, the address to
    write at, and the bytes accounted for. *)
Fixpoint write_dirents (entries : list (DirEnt * bytes)) (buf_ptr written buf_len : Z) :
  ST T ErrNo.t Z :=
  match entries with
  | [] => ret written
  | (dir, path) :: entries' =>
      let! written := lift (u32_add written sizeof_DirEnt) in
      if buf_len <? written then ret buf_len else
      do! write_struct DirEnt_repr buf_ptr dir in
      let! buf_ptr := lift (u32_add buf_ptr sizeof_DirEnt) in
      let! written := lift (u32_add written (len path mod u32_bound)) in
      if buf_len <? written then ret buf_len else
      do! write_buffer buf_ptr path in
      let! buf_ptr := lift (u32_add buf_ptr (len path mod u32_bound)) in
      write_dirents entries' buf_ptr written buf_len
  end.

Definition WasiWrapper_fd_readdir (fd buf_ptr buf_len cookie result_ptr : Z) : W unit :=
  traced "fd_readdir"
    (let! dir_entries := on_fs (fd_readdir fd cookie) in
     let! written := on_memory (write_dirents dir_entries buf_ptr 0 buf_len) in
     on_memory (write_u32 result_ptr written))
    (λ _, [arg_dec fd; arg_dirents; arg_dec cookie; arg_p_u32 result_ptr]).

Definition WasiWrapper_fd_renumber (old_fd new_fd : Z) : W unit :=
  traced "fd_renumber" (on_fs (fd_renumber old_fd new_fd)) (λ _, [arg_dec old_fd; arg_dec new_fd]).

Definition WasiWrapper_fd_seek (fd offset whence address : Z) : W unit :=
  traced "fd_seek"
    (let! wh := decode_wasi_arg Whence_try_from whence in
     let! new_offset := on_fs (fd_seek fd offset wh) in
     on_memory (write_u64 address new_offset))
    (λ _, [arg_dec fd; arg_dec offset; arg_dec whence; arg_p_u64 address]).

Definition WasiWrapper_fd_sync (fd : Z) : W unit :=
  traced "fd_sync" (on_fs (fd_sync fd)) (λ _, [arg_dec fd]).

Definition WasiWrapper_fd_tell (fd address : Z) : W unit :=
  traced "fd_tell"
    (let! offset := on_fs (fd_tell fd) in
     on_memory (write_u64 address offset))
    (λ _, [arg_dec fd; arg_p_u64 address]).

Definition WasiWrapper_fd_write (fd iovec_base iovec_count address : Z) : W unit :=
  traced "fd_write"
    (let! iovecs := on_memory (unpack_iovec iovec_base iovec_count) in
     let! size_written := on_fs (fd_write fd iovecs) in
     on_memory (write_u32 address (size_written mod u32_bound)))
    (λ result, [arg_dec fd; arg_iovec result iovec_base iovec_count address; arg_p_u32 address]).

(** ** Paths *)

(** [memory_ref.read_cstring(..)?], as the path it names. *)
Definition read_path (address length : Z) : W Path :=
  let! s := on_memory (read_cstring address length) in ret (path s).

Definition WasiWrapper_path_create_directory (fd path_address path_length : Z) : W unit :=
  traced "path_create_directory"
    (let! p := read_path path_address path_length in
     on_fs (path_create_directory fd p))
    (λ _, [arg_dec fd; arg_path path_address path_length]).

Definition WasiWrapper_path_filestat_get (fd flags path_address path_length address : Z) : W unit :=
  traced "path_filestat_get"
    (let! p := read_path path_address path_length in
     let! _flags := decode_wasi_arg LookupFlags_try_from flags in
     let! stat := on_fs (path_filestat_get fd p) in
     on_memory (write_struct FileStat_repr address stat))
    (λ _, [arg_dec fd; arg_hex flags; arg_path path_address path_length; arg_filestat]).

Definition WasiWrapper_path_filestat_set_times
    (fd flags path_address path_length atime mtime fst_flag : Z) : W unit :=
  traced "path_filestat_set_times"
    (let! p := read_path path_address path_length in
     let! _flags := decode_wasi_arg LookupFlags_try_from flags in
     let! fl := decode_wasi_arg SetTimeFlags_try_from fst_flag in
     let! now := filestat_time in
     on_fs (path_filestat_set_times fd p atime mtime fl now))
    (λ _, [arg_dec fd; arg_hex flags; arg_path path_address path_length; arg_dec atime;
           arg_dec mtime; arg_hex fst_flag]).

Definition WasiWrapper_path_link
    (old_fd old_flags old_address old_path_len new_fd new_address new_path_len : Z) : W unit :=
  traced "path_link"
    (let! _old_flags := decode_wasi_arg LookupFlags_try_from old_flags in
     let! old_path := read_path old_address old_path_len in
     let! new_path := read_path new_address new_path_len in
     on_fs (path_link old_fd old_path new_fd new_path))
    (λ _, [arg_dec old_fd; arg_hex old_flags; arg_path old_address old_path_len;
           arg_dec new_fd; arg_path new_address new_path_len]).

Definition WasiWrapper_path_open (fd dir_flags path_address path_length oflags fs_rights_base
    fs_rights_inheriting fd_flags address : Z) : W unit :=
  traced "path_open"
    (let! p := read_path path_address path_length in
     let! _dir_flags := decode_wasi_arg LookupFlags_try_from dir_flags in
     let! ofl := decode_wasi_arg OpenFlags_try_from oflags in
     let! base := decode_wasi_arg Rights_try_from fs_rights_base in
     let! inheriting := decode_wasi_arg Rights_try_from fs_rights_inheriting in
     let! fl := decode_wasi_arg FdFlags_try_from fd_flags in
     let! new_fd := on_fs (path_open fd p ofl base inheriting fl) in
     on_memory (write_u32 address new_fd))
    (λ _, [arg_dec fd; arg_hex dir_flags; arg_path path_address path_length; arg_hex oflags;
           arg_rights fs_rights_base; arg_rights fs_rights_inheriting; arg_hex fd_flags;
           arg_p_u32 address]).

Definition WasiWrapper_path_readlink (fd path_address path_length buf buf_len address : Z) :
  W unit :=
  traced "path_readlink"
    (let! p := read_path path_address path_length in
     let! rst := on_fs (path_readlink fd p) in
     let to_write := if buf_len <? len rst then buf_len else len rst in
     let! rst := lift (vec_resize rst to_write Byte.x00) in
     do! on_memory (write_buffer buf rst) in
     on_memory (write_u32 address (to_write mod u32_bound)))
    (λ _, [arg_dec fd; arg_path path_address path_length; arg_path buf buf_len;
           arg_p_u32 address]).

Definition WasiWrapper_path_remove_directory (fd path_address path_length : Z) : W unit :=
  traced "path_remove_directory"
    (let! p := read_path path_address path_length in
     on_fs (path_remove_directory fd p))
    (λ _, [arg_dec fd; arg_path path_address path_length]).

(** The trace shows the new path with the length of the old one. *)
Definition WasiWrapper_path_rename
    (old_fd old_address old_path_len new_fd new_address new_path_len : Z) : W unit :=
  traced "path_rename"
    (let! old_path := read_path old_address old_path_len in
     let! new_path := read_path new_address new_path_len in
     on_fs (path_rename old_fd old_path new_fd new_path))
    (λ _, [arg_dec old_fd; arg_path old_address old_path_len; arg_dec new_fd;
           arg_path new_address old_path_len]).

Definition WasiWrapper_path_symlink (old_address old_path_len fd new_address new_path_len : Z) :
  W unit :=
  traced "path_symlink"
    (let! old_path := read_path old_address old_path_len in
     let! new_path := read_path new_address new_path_len in
     on_fs (path_symlink old_path fd new_path))
    (λ _, [arg_path old_address old_path_len; arg_dec fd; arg_path new_address old_path_len]).

Definition WasiWrapper_path_unlink_file (fd path_address path_len : Z) : W unit :=
  traced "path_unlink_file"
    (let! p := read_path path_address path_len in
     on_fs (path_unlink_file fd p))
    (λ _, [arg_dec fd; arg_path path_address path_len]).

(** ** Polling, processes, random numbers and sockets *)

Definition WasiWrapper_poll_oneoff (subscriptions events size address : Z) : W unit :=
  traced "poll_oneoff"
    (let! _subscriptions := on_memory (unpack_array (A:=Subscription) subscriptions size) in
     let! _events := on_memory (unpack_array (A:=Event) events size) in
     let! rst := on_fs poll_oneoff in
     on_memory (write_u32 address rst))
    (λ _, [arg_subscriptions; arg_events; arg_p_u32 address]).

Definition WasiWrapper_proc_exit (code : Z) : W unit :=
  let! s := get in
  do! Strace_func (enable_strace (wrapper s)) "proc_exit" in
  modify (λ s, set_wrapper (set_exit_code (Some code) (wrapper s)) s).

Definition WasiWrapper_proc_raise (signal : Z) : W unit :=
  traced "proc_raise"
    (let! _signal := decode_wasi_arg Signal_try_from signal in throw ErrNo.NoSys)
    (λ _, [arg_dec signal]).

Definition WasiWrapper_sched_yield : W unit := traced "sched_yield" (throw ErrNo.NoSys) (λ _, []).

Definition WasiWrapper_random_get (buf_ptr length : Z) : W unit :=
  traced "random_get"
    (let! r := on_platform (getrandom length) in
     match r with
     | PSuccess bs => on_memory (write_buffer buf_ptr bs)
     | _ => throw ErrNo.NoSys
     end)
    (λ _, [arg_buffer buf_ptr length]).

Definition WasiWrapper_sock_recv (socket ri_address ri_len ri_flag ro_data_len ro_flag : Z) :
  W unit :=
  traced "sock_recv"
    (let! _iovecs := on_memory (unpack_iovec_mut ri_address ri_len) in
     let! _ri_flags := decode_wasi_arg RiFlags_try_from ri_flag in
     let! r := on_fs (sock_recv socket) in
     do! on_memory (write_u32 ro_data_len (r.1 mod u32_bound)) in
     on_memory (write_buffer ro_flag (to_le_bytes 2 r.2)))
    (λ result, [arg_dec socket; arg_iovec result ri_address ri_len ro_data_len; arg_hex ri_flag;
                arg_p_u32 ro_data_len; arg_p_u16_hex ro_flag]).

Definition WasiWrapper_sock_send (socket si_address si_len si_flag address : Z) : W unit :=
  traced "sock_send"
    (let! _iovecs := on_memory (unpack_iovec si_address si_len) in
     let! _si_flags := decode_wasi_arg SiFlags_try_from si_flag in
     let! size_written := on_fs (sock_send socket) in
     on_memory (write_u32 address (size_written mod u32_bound)))
    (λ result, [arg_iovec result si_address si_len address; arg_hex si_flag; arg_p_u32 address]).

Definition WasiWrapper_sock_shutdown (socket sd_flag : Z) : W unit :=
  traced "sock_shutdown"
    (let! _sd_flag := decode_wasi_arg SdFlags_try_from sd_flag in
     on_fs (sock_shutdown socket))
    (λ _, [arg_dec socket; arg_hex sd_flag]).

(** The call Veracruz adds; it is not traced. *)
Definition WasiWrapper_fd_create (address : Z) : W unit :=
  let! new_fd := on_fs fd_create in
  on_memory (write_u32 address new_fd).
End wrapper.
