(* ===== verification/WasmApi.v ===== *)
(** * The interface between a WebAssembly program and its host

    The host calls by name and number, the values they are passed, the types
    the interpreter checks, and the fatal errors of the engines.

    Sources: [execution-engine/src/wasi/common.rs] ([WasiAPIName],
    [VeracruzAPIName], [FatalEngineError], [EntrySignature]); [wasmi.rs]
    ([APIName], [TypeCheck], [check_main_signature]). *)

From S2P Require Import Prelude RustPath WasiTypes.
Local Open Scope Z_scope.

(** ** Names of the calls *)

(** The derived conversions: [FromPrimitive] finds the variant with a
    discriminant, [EnumString] the variant with a lower-case name, from which
    [_LAST] is excluded. *)
Module WasiAPIName.
Inductive t :=
  | ARGS_GET | ARGS_SIZES_GET | ENVIRON_GET | ENVIRON_SIZES_GET | CLOCK_RES_GET
  | CLOCK_TIME_GET | FD_ADVISE | FD_ALLOCATE | FD_CLOSE | FD_DATASYNC | FD_FDSTAT_GET
  | FD_FDSTAT_SET_FLAGS | FD_FDSTAT_SET_RIGHTS | FD_FILESTAT_GET | FD_FILESTAT_SET_SIZE
  | FD_FILESTAT_SET_TIMES | FD_PREAD | FD_PRESTAT_GET | FD_PRESTAT_DIR_NAME | FD_PWRITE
  | FD_READ | FD_READDIR | FD_RENUMBER | FD_SEEK | FD_SYNC | FD_TELL | FD_WRITE
  | PATH_CREATE_DIRECTORY | PATH_FILESTAT_GET | PATH_FILESTAT_SET_TIMES | PATH_LINK | PATH_OPEN
  | PATH_READLINK | PATH_REMOVE_DIRECTORY | PATH_RENAME | PATH_SYMLINK | PATH_UNLINK_FILE
  | POLL_ONEOFF | PROC_EXIT | PROC_RAISE | SCHED_YIELD | RANDOM_GET | SOCK_RECV | SOCK_SEND
  | SOCK_SHUTDOWN | _LAST.

Definition variants : list t :=
  [ARGS_GET; ARGS_SIZES_GET; ENVIRON_GET; ENVIRON_SIZES_GET; CLOCK_RES_GET; CLOCK_TIME_GET;
  FD_ADVISE; FD_ALLOCATE; FD_CLOSE; FD_DATASYNC; FD_FDSTAT_GET; FD_FDSTAT_SET_FLAGS;
  FD_FDSTAT_SET_RIGHTS; FD_FILESTAT_GET; FD_FILESTAT_SET_SIZE; FD_FILESTAT_SET_TIMES; FD_PREAD;
  FD_PRESTAT_GET; FD_PRESTAT_DIR_NAME; FD_PWRITE; FD_READ; FD_READDIR; FD_RENUMBER; FD_SEEK;
  FD_SYNC; FD_TELL; FD_WRITE; PATH_CREATE_DIRECTORY; PATH_FILESTAT_GET;
  PATH_FILESTAT_SET_TIMES; PATH_LINK; PATH_OPEN; PATH_READLINK; PATH_REMOVE_DIRECTORY;
  PATH_RENAME; PATH_SYMLINK; PATH_UNLINK_FILE; POLL_ONEOFF; PROC_EXIT; PROC_RAISE; SCHED_YIELD;
  RANDOM_GET; SOCK_RECV; SOCK_SEND; SOCK_SHUTDOWN].

Definition to_u64 (x : t) : Z :=
  match x with
  | ARGS_GET => 1 | ARGS_SIZES_GET => 2 | ENVIRON_GET => 3 | ENVIRON_SIZES_GET => 4
  | CLOCK_RES_GET => 5 | CLOCK_TIME_GET => 6 | FD_ADVISE => 7 | FD_ALLOCATE => 8
  | FD_CLOSE => 9 | FD_DATASYNC => 10 | FD_FDSTAT_GET => 11 | FD_FDSTAT_SET_FLAGS => 12
  | FD_FDSTAT_SET_RIGHTS => 13 | FD_FILESTAT_GET => 14 | FD_FILESTAT_SET_SIZE => 15
  | FD_FILESTAT_SET_TIMES => 16 | FD_PREAD => 17 | FD_PRESTAT_GET => 18
  | FD_PRESTAT_DIR_NAME => 19 | FD_PWRITE => 20 | FD_READ => 21 | FD_READDIR => 22
  | FD_RENUMBER => 23 | FD_SEEK => 24 | FD_SYNC => 25 | FD_TELL => 26 | FD_WRITE => 27
  | PATH_CREATE_DIRECTORY => 28 | PATH_FILESTAT_GET => 29 | PATH_FILESTAT_SET_TIMES => 30
  | PATH_LINK => 31 | PATH_OPEN => 32 | PATH_READLINK => 33 | PATH_REMOVE_DIRECTORY => 34
  | PATH_RENAME => 35 | PATH_SYMLINK => 36 | PATH_UNLINK_FILE => 37 | POLL_ONEOFF => 38
  | PROC_EXIT => 39 | PROC_RAISE => 40 | SCHED_YIELD => 41 | RANDOM_GET => 42 | SOCK_RECV => 43
  | SOCK_SEND => 44 | SOCK_SHUTDOWN => 45 | _LAST => 46
  end.

Definition into_str (x : t) : string :=
  match x with
  | ARGS_GET => "args_get"
  | ARGS_SIZES_GET => "args_sizes_get"
  | ENVIRON_GET => "environ_get"
  | ENVIRON_SIZES_GET => "environ_sizes_get"
  | CLOCK_RES_GET => "clock_res_get"
  | CLOCK_TIME_GET => "clock_time_get"
  | FD_ADVISE => "fd_advise"
  | FD_ALLOCATE => "fd_allocate"
  | FD_CLOSE => "fd_close"
  | FD_DATASYNC => "fd_datasync"
  | FD_FDSTAT_GET => "fd_fdstat_get"
  | FD_FDSTAT_SET_FLAGS => "fd_fdstat_set_flags"
  | FD_FDSTAT_SET_RIGHTS => "fd_fdstat_set_rights"
  | FD_FILESTAT_GET => "fd_filestat_get"
  | FD_FILESTAT_SET_SIZE => "fd_filestat_set_size"
  | FD_FILESTAT_SET_TIMES => "fd_filestat_set_times"
  | FD_PREAD => "fd_pread"
  | FD_PRESTAT_GET => "fd_prestat_get"
  | FD_PRESTAT_DIR_NAME => "fd_prestat_dir_name"
  | FD_PWRITE => "fd_pwrite"
  | FD_READ => "fd_read"
  | FD_READDIR => "fd_readdir"
  | FD_RENUMBER => "fd_renumber"
  | FD_SEEK => "fd_seek"
  | FD_SYNC => "fd_sync"
  | FD_TELL => "fd_tell"
  | FD_WRITE => "fd_write"
  | PATH_CREATE_DIRECTORY => "path_create_directory"
  | PATH_FILESTAT_GET => "path_filestat_get"
  | PATH_FILESTAT_SET_TIMES => "path_filestat_set_times"
  | PATH_LINK => "path_link"
  | PATH_OPEN => "path_open"
  | PATH_READLINK => "path_readlink"
  | PATH_REMOVE_DIRECTORY => "path_remove_directory"
  | PATH_RENAME => "path_rename"
  | PATH_SYMLINK => "path_symlink"
  | PATH_UNLINK_FILE => "path_unlink_file"
  | POLL_ONEOFF => "poll_oneoff"
  | PROC_EXIT => "proc_exit"
  | PROC_RAISE => "proc_raise"
  | SCHED_YIELD => "sched_yield"
  | RANDOM_GET => "random_get"
  | SOCK_RECV => "sock_recv"
  | SOCK_SEND => "sock_send"
  | SOCK_SHUTDOWN => "sock_shutdown"
  | _LAST => ""
  end.

#[export] Instance t_eq_dec : EqDecision t.
Proof. solve_decision. Defined.

Definition from_u64 (n : Z) : option t :=
  (λ r : nat * t, r.2) <$> list_find (λ x, to_u64 x = n) (variants ++ [_LAST]).

Definition from_str (s : string) : option t :=
  (λ r : nat * t, r.2) <$> list_find (λ x, into_str x = s) variants.
End WasiAPIName.

Module VeracruzAPIName.
Inductive t := FD_CREATE.

#[export] Instance t_eq_dec : EqDecision t.
Proof. solve_decision. Defined.

Definition to_u64 (x : t) : Z := match x with FD_CREATE => 0 end.
Definition into_str (x : t) : string := match x with FD_CREATE => "fd_create" end.
Definition from_u64 (n : Z) : option t := if n =? 0 then Some FD_CREATE else None.
Definition from_str (s : string) : option t :=
  if decide (s = "fd_create") then Some FD_CREATE else None.
End VeracruzAPIName.
Export (hints) WasiAPIName VeracruzAPIName.

Inductive APIName :=
  | WasiAPIName (x : WasiAPIName.t)
  | VeracruzAPIName (x : VeracruzAPIName.t).

#[export] Instance APIName_eq_dec : EqDecision APIName.
Proof. solve_decision. Defined.

(** [unwrap] and [unreachable!] are panics. *)
Definition APIName_from_u64 {E} (n : Z) : outcome E (option APIName) :=
  if n =? 0 then Ok None
  else if n <? WasiAPIName.to_u64 WasiAPIName._LAST then
    match WasiAPIName.from_u64 n with
    | Some x => Ok (Some (WasiAPIName x))
    | None => Abort UnwrapOnErr
    end
  else match VeracruzAPIName.from_u64 (n - WasiAPIName.to_u64 WasiAPIName._LAST) with
       | Some x => Ok (Some (VeracruzAPIName x))
       | None => Ok None
       end.

Definition APIName_to_u64 {E} (x : APIName) : outcome E Z :=
  match x with
  | WasiAPIName WasiAPIName._LAST => Abort Unreachable
  | WasiAPIName x => Ok (WasiAPIName.to_u64 x)
  | VeracruzAPIName x => Ok (WasiAPIName.to_u64 WasiAPIName._LAST + VeracruzAPIName.to_u64 x)
  end.

(** ** Values, types and signatures *)

Inductive ValueType := I32 | I64 | F32 | F64.
#[export] Instance ValueType_eq_dec : EqDecision ValueType.
Proof. solve_decision. Defined.

(** Integers are signed; floating-point numbers are their bits. *)
Inductive RuntimeValue := VI32 (v : Z) | VI64 (v : Z) | VF32 (bits : Z) | VF64 (bits : Z).
#[export] Instance RuntimeValue_eq_dec : EqDecision RuntimeValue.
Proof. solve_decision. Defined.

Definition value_type (v : RuntimeValue) : ValueType :=
  match v with VI32 _ => I32 | VI64 _ => I64 | VF32 _ => F32 | VF64 _ => F64 end.

Record Signature := mkSignature { params : list ValueType; return_type : option ValueType }.

(** ** [TypeCheck] *)

Module TypeCheck.
Definition ADVICE : ValueType := I32.
Definition CIOVEC_ARRAY_BASE : ValueType := I32.
Definition CIOVEC_ARRAY_LENGTH : ValueType := I32.
Definition CLOCKID : ValueType := I32.
Definition DIRCOOKIE : ValueType := I64.
Definition ERRNO : ValueType := I32.
Definition EXITCODE : ValueType := I32.
Definition FD : ValueType := I32.
Definition FDFLAGS : ValueType := I32.
Definition FILEDELTA : ValueType := I64.
Definition FILESIZE : ValueType := I64.
Definition FSTFLAGS : ValueType := I32.
Definition IOVEC_ARRAY_BASE : ValueType := I32.
Definition IOVEC_ARRAY_LENGTH : ValueType := I32.
Definition LOOKUP_FLAGS : ValueType := I32.
Definition OFLAGS : ValueType := I32.
Definition RIGHTS : ValueType := I64.
Definition SDFLAGS : ValueType := I32.
Definition SIFLAGS : ValueType := I32.
Definition RIFLAGS : ValueType := I32.
Definition SIGNAL : ValueType := I32.
Definition SIZE : ValueType := I32.
Definition TIMESTAMP : ValueType := I64.
Definition WHENCE : ValueType := I32.
Definition CONST_POINTER : ValueType := I32.
Definition POINTER : ValueType := I32.
Definition SIZE_T : ValueType := I32.

Definition get_params {E} (index : APIName) : outcome E (list ValueType) :=
  match index with
  | WasiAPIName WasiAPIName.ARGS_GET => Ok [POINTER; POINTER]
  | WasiAPIName WasiAPIName.ARGS_SIZES_GET => Ok [POINTER; POINTER]
  | WasiAPIName WasiAPIName.ENVIRON_GET => Ok [POINTER; POINTER]
  | WasiAPIName WasiAPIName.ENVIRON_SIZES_GET => Ok [POINTER; POINTER]
  | WasiAPIName WasiAPIName.CLOCK_RES_GET => Ok [CLOCKID; POINTER]
  | WasiAPIName WasiAPIName.CLOCK_TIME_GET => Ok [CLOCKID; TIMESTAMP; POINTER]
  | WasiAPIName WasiAPIName.FD_ADVISE => Ok [FD; FILESIZE; FILESIZE; ADVICE]
  | WasiAPIName WasiAPIName.FD_ALLOCATE => Ok [FD; FILESIZE; FILESIZE]
  | WasiAPIName WasiAPIName.FD_CLOSE => Ok [FD]
  | WasiAPIName WasiAPIName.FD_DATASYNC => Ok [FD]
  | WasiAPIName WasiAPIName.FD_FDSTAT_GET => Ok [FD; POINTER]
  | WasiAPIName WasiAPIName.FD_FDSTAT_SET_FLAGS => Ok [FD; FDFLAGS]
  | WasiAPIName WasiAPIName.FD_FDSTAT_SET_RIGHTS => Ok [FD; RIGHTS; RIGHTS]
  | WasiAPIName WasiAPIName.FD_FILESTAT_GET => Ok [FD; POINTER]
  | WasiAPIName WasiAPIName.FD_FILESTAT_SET_SIZE => Ok [FD; FILESIZE]
  | WasiAPIName WasiAPIName.FD_FILESTAT_SET_TIMES => Ok [FD; TIMESTAMP; TIMESTAMP; FSTFLAGS]
  | WasiAPIName WasiAPIName.FD_PREAD =>
      Ok [FD; CIOVEC_ARRAY_BASE; CIOVEC_ARRAY_LENGTH; FILESIZE; POINTER]
  | WasiAPIName WasiAPIName.FD_PRESTAT_GET => Ok [FD; POINTER]
  | WasiAPIName WasiAPIName.FD_PRESTAT_DIR_NAME => Ok [FD; POINTER; SIZE]
  | WasiAPIName WasiAPIName.FD_PWRITE =>
      Ok [FD; CIOVEC_ARRAY_BASE; CIOVEC_ARRAY_LENGTH; FILESIZE; POINTER]
  | WasiAPIName WasiAPIName.FD_READ => Ok [FD; IOVEC_ARRAY_BASE; IOVEC_ARRAY_LENGTH; POINTER]
  | WasiAPIName WasiAPIName.FD_READDIR => Ok [FD; POINTER; SIZE; DIRCOOKIE; POINTER]
  | WasiAPIName WasiAPIName.FD_RENUMBER => Ok [FD; FD]
  | WasiAPIName WasiAPIName.FD_SEEK => Ok [FD; FILEDELTA; WHENCE; POINTER]
  | WasiAPIName WasiAPIName.FD_SYNC => Ok [FD]
  | WasiAPIName WasiAPIName.FD_TELL => Ok [FD; POINTER]
  | WasiAPIName WasiAPIName.FD_WRITE => Ok [FD; CIOVEC_ARRAY_BASE; CIOVEC_ARRAY_LENGTH; POINTER]
  | WasiAPIName WasiAPIName.PATH_CREATE_DIRECTORY => Ok [FD; POINTER; SIZE_T]
  | WasiAPIName WasiAPIName.PATH_FILESTAT_GET => Ok [FD; LOOKUP_FLAGS; POINTER; SIZE_T; POINTER]
  | WasiAPIName WasiAPIName.PATH_FILESTAT_SET_TIMES =>
      Ok [FD; LOOKUP_FLAGS; POINTER; SIZE_T; TIMESTAMP; TIMESTAMP; FSTFLAGS]
  | WasiAPIName WasiAPIName.PATH_LINK =>
      Ok [FD; LOOKUP_FLAGS; POINTER; SIZE_T; FD; POINTER; SIZE_T]
  | WasiAPIName WasiAPIName.PATH_OPEN =>
      Ok [FD; LOOKUP_FLAGS; POINTER; SIZE_T; OFLAGS; RIGHTS; RIGHTS; FDFLAGS; POINTER]
  | WasiAPIName WasiAPIName.PATH_READLINK => Ok [FD; POINTER; SIZE_T; POINTER; SIZE_T; POINTER]
  | WasiAPIName WasiAPIName.PATH_REMOVE_DIRECTORY => Ok [FD; POINTER; SIZE_T]
  | WasiAPIName WasiAPIName.PATH_RENAME => Ok [FD; POINTER; SIZE_T; FD; POINTER; SIZE_T]
  | WasiAPIName WasiAPIName.PATH_SYMLINK => Ok [POINTER; SIZE_T; FD; POINTER; SIZE_T]
  | WasiAPIName WasiAPIName.PATH_UNLINK_FILE => Ok [FD; POINTER; SIZE_T]
  | WasiAPIName WasiAPIName.POLL_ONEOFF => Ok [CONST_POINTER; POINTER; SIZE; POINTER]
  | WasiAPIName WasiAPIName.PROC_EXIT => Ok [EXITCODE]
  | WasiAPIName WasiAPIName.PROC_RAISE => Ok [SIGNAL]
  | WasiAPIName WasiAPIName.SCHED_YIELD => Ok []
  | WasiAPIName WasiAPIName.RANDOM_GET => Ok [POINTER; SIZE]
  | WasiAPIName WasiAPIName.SOCK_RECV =>
      Ok [FD; IOVEC_ARRAY_BASE; IOVEC_ARRAY_LENGTH; RIFLAGS; POINTER; POINTER]
  | WasiAPIName WasiAPIName.SOCK_SEND =>
      Ok [FD; CIOVEC_ARRAY_BASE; CIOVEC_ARRAY_LENGTH; SIFLAGS; POINTER]
  | WasiAPIName WasiAPIName.SOCK_SHUTDOWN => Ok [FD; SDFLAGS]
  | WasiAPIName WasiAPIName._LAST => Abort Unreachable
  | VeracruzAPIName VeracruzAPIName.FD_CREATE => Ok [POINTER]
  end.

Definition check_signature {E} (index : APIName) (signature : Signature) : outcome E bool :=
  match get_params index with
  | Ok expected_params =>
      if decide (params signature = expected_params) then
        if decide (index = WasiAPIName WasiAPIName.PROC_EXIT)
        then Ok (bool_decide (return_type signature = None))
        else Ok (bool_decide (return_type signature = Some ERRNO))
      else Ok false
  | Err e => Err e
  | Abort p => Abort p
  end.
End TypeCheck.

(** ** The entry point *)

Inductive EntrySignature := NoEntryFound | NoParameters | ArgvAndArgc.

Definition check_main_signature (signature : Signature) : EntrySignature :=
  if decide (params signature = [] ∧ return_type signature = None) then NoParameters
  else if decide (params signature = [I32; I32] ∧ return_type signature = None) then ArgvAndArgc
  else NoEntryFound.

Definition ENTRY_POINT_NAME : string := "_start".
Definition LINEAR_MEMORY_NAME : string := "memory".
Definition WASI_SNAPSHOT_MODULE_NAME : string := "wasi_snapshot_preview1".
Definition VERACRUZ_SI_MODULE_NAME : string := "veracruz_si".

(** ** Errors *)

Inductive HostFunctionIndexOrName := Index (i : Z) | Name (s : string).

(** [wasmi::Trap] and [wasmi::Error] carry the errors of the host; of their
    own errors the sources tell only traps and failed instantiations apart.
    The errors of [anyhow] and [wasmtime] are kept as their text. *)
Inductive FatalEngineError :=
  | InvalidWASMModule
  | BadArgumentsToHostFunction (function_name : WasiAPIName.t)
  | UnknownHostFunction (f : HostFunctionIndexOrName)
  | NoMemoryRegistered
  | NoProgramModuleRegistered
  | NoProgramEntryPoint
  | EngineIsNotReady
  | ReturnedCodeError
  | FailedToObtainLock (s : string)
  | WASMITrapError (t : Trap)
  | WASMIError (e : Error)
  | WASIError (e : ErrNo.t)
  | AnyhowError (s : string)
  | WasmtimeTrapError (s : string)
with Trap :=
  | UnexpectedSignature
  | TrapHost (e : FatalEngineError)
  | TrapOther (code : Z)
with Error :=
  | Instantiation (s : string)
  | ErrorTrap (t : Trap)
  | ErrorHost (e : FatalEngineError)
  | ErrorOther (s : string).

(** ** Programs *)

(** An import of a module. *)
Inductive import_kind := ImportFunc (sig : Signature) | ImportGlobal | ImportMemory | ImportTable.
Record import := mkImport { im_module : string; im_field : string; im_kind : import_kind }.

(** What a running instance does next, given the content of its memory: [F]
    identifies the host functions. *)
Inductive guest_event (F G : Type) :=
  | GuestReturn (v : option RuntimeValue)
  | GuestTrap (t : Trap)
  | GuestCompute (memory : bytes) (g : G)
  | GuestCall (f : F) (args : list RuntimeValue) (resume : option RuntimeValue → G).
Arguments GuestReturn {_ _} _.
Arguments GuestTrap {_ _} _.
Arguments GuestCompute {_ _} _ _.
Arguments GuestCall {_ _} _ _ _.

(** The discriminants of [ErrNo], a [u16]. *)
Class ErrNoCodes := { errno_code : ErrNo.t → Z }.
Class ErrNoCodesLaws (EC : ErrNoCodes) : Prop := {
  errno_code_Success : errno_code ErrNo.Success = 0;
  errno_code_range e : 0 ≤ errno_code e < 32768;
}.
