(* ===== verification/Wasmi.v ===== *)
(** * The interpreter

    The execution engine over the [wasmi] interpreter: the resolution of the
    imports of a program against the host calls, the host calls themselves,
    which decode the arguments the interpreter passes and call the WASI
    wrapper, and the run of a program from its entry point.

    Source: [execution-engine/src/wasi/wasmi.rs].

    [wasmi] is a git submodule: it is the class [WasmiLib], a machine that
    runs the instance of a module and stops at each host call. *)

From S2P Require Import Prelude RustPath WasiTypes Policy InodeTable FileSystem FsOps Services.
From S2P Require Import Platform WasiMemory WasiHost Strace Wasi WasmApi.
Local Open Scope Z_scope.

(** ** The library *)

(** [FromRuntimeValue] for the types the host calls read. *)
Class RuntimeValues := {
  value_u8 : RuntimeValue → option Z;
  value_u16 : RuntimeValue → option Z;
  value_u32 : RuntimeValue → option Z;
  value_u64 : RuntimeValue → option Z;
  value_i64 : RuntimeValue → option Z;
}.

(** An integer of the width of the value is reinterpreted; a narrower one is
    read if it is in range. *)
Class RuntimeValuesLaws (RV : RuntimeValues) : Prop := {
  value_u32_I32 v : value_u32 (VI32 v) = Some (v mod u32_bound);
  value_u64_I64 v : value_u64 (VI64 v) = Some (v mod u64_bound);
  value_i64_I64 v : value_i64 (VI64 v) = Some v;
  value_u8_I32 v : 0 ≤ v < u8_bound → value_u8 (VI32 v) = Some v;
  value_u16_I32 v : 0 ≤ v < u16_bound → value_u16 (VI32 v) = Some v;
}.

(** A function given for an import: a host function has a number. *)
Record FuncRef := mkFuncRef { fr_signature : Signature; fr_index : Z }.

(** An export of an instance; a memory is given by its initial content. *)
Inductive ExternVal := ExFunc (sig : Signature) | ExMemory (memory : bytes) | ExGlobal | ExTable.

Class WasmiLib := {
  Module_t : Type;
  ModuleRef : Type;
  guest : Type;
  Module_from_buffer : bytes → outcome Error Module_t;
  module_imports : Module_t → list import;
  ModuleInstance_new : Module_t → list FuncRef → outcome Error ModuleRef;
  has_start : ModuleRef → bool;
  export_by_name : ModuleRef → string → option ExternVal;
  guest_start : ModuleRef → string → list RuntimeValue → outcome Error guest;
  guest_step : guest → bytes → guest_event Z guest;
}.

(** ** State *)

Section wasmi.
Context {BP : BuildProfile} {WR : WasiRights} {HO : HashOrder} {NL : NativeLibs}
  {P : Type} {PI : PlatformImp P} {SL : StructLayout} {ED : ErrNoDebug} {WC : WasiCodes}
  {RV : RuntimeValues} {EC : ErrNoCodes} {WL : WasmiLib}.

(** [vfs] and [memory] are the wrapper and the memory of [host]; the memory
    of the instance is the same object. *)
Record WASMIRuntimeState := mkWASMI {
  host : Host (option bytes) P;
  program_module : option ModuleRef;
}.

Abbreviation I A := (ST WASMIRuntimeState FatalEngineError A).
Abbreviation WasiResult := (ST WASMIRuntimeState FatalEngineError ErrNo.t).

Definition set_host (h : Host (option bytes) P) (s : WASMIRuntimeState) : WASMIRuntimeState :=
  mkWASMI h (program_module s).

Definition WASMIRuntimeState_new (fs : FileSystem) (clock : bool) (w : World) (p : P) :
  WASMIRuntimeState :=
  mkWASMI (mkHost (WasiWrapper_new fs clock) w None p []) None.

(** ** The host calls *)

Definition check_args_number (args : list RuntimeValue) (index : WasiAPIName.t) : I unit :=
  let! params := lift (TypeCheck.get_params (WasiAPIName index)) in
  if decide (length args = length params) then ret tt
  else throw (BadArgumentsToHostFunction index).

(** [args.nth_checked(i)?] and [args.nth(i)] *)
Definition nth_checked (conv : RuntimeValue → option Z) (args : list RuntimeValue) (i : nat) :
  I Z := ok_or (args !! i ≫= conv) (WASMITrapError UnexpectedSignature).
Definition nth (conv : RuntimeValue → option Z) (args : list RuntimeValue) (i : nat) : I Z :=
  match args !! i ≫= conv with Some v => ret v | None => panic UnwrapOnErr end.

Definition convert_to_errno (input : unit + ErrNo.t) : WasiResult :=
  ret match input with inl _ => ErrNo.Success | inr e => e end.

(** The state of the host with the memory [m] in place of [Some m]. *)
Definition with_linear_memory {T U} (m : U) (h : Host T P) : Host U P :=
  mkHost (wrapper h) (host_world h) m (platform h) (log h).

(** [self.vfs.op(&mut self.memory()?, ..)], with its result as a value *)
Definition with_memory (op : HostM bytes P unit) : I (unit + ErrNo.t) := λ s,
  match linear_memory (host s) with
  | None => (Err NoMemoryRegistered, s)
  | Some m =>
      let '(r, h) := op (with_linear_memory m (host s)) in
      let s' := set_host (with_linear_memory (Some (linear_memory h)) h) s in
      match r with
      | Ok u => (Ok (inl u), s')
      | Err e => (Ok (inr e), s')
      | Abort p => (Abort p, s')
      end
  end.

Definition on_vfs (op : HostM bytes P unit) : WasiResult :=
  let! r := with_memory op in convert_to_errno r.

Definition wasi_args_get (args : list RuntimeValue) : WasiResult :=
  do! check_args_number args WasiAPIName.ARGS_GET in
  let! string_ptr_address := nth_checked value_u32 args 0 in
  let! buf_address := nth_checked value_u32 args 1 in
  on_vfs (WasiWrapper_args_get string_ptr_address buf_address).

Definition wasi_args_sizes_get (args : list RuntimeValue) : WasiResult :=
  do! check_args_number args WasiAPIName.ARGS_SIZES_GET in
  let! arg_count_address := nth_checked value_u32 args 0 in
  let! arg_buf_size_address := nth_checked value_u32 args 1 in
  on_vfs (WasiWrapper_args_sizes_get arg_count_address arg_buf_size_address).

Definition wasi_environ_get (args : list RuntimeValue) : WasiResult :=
  do! check_args_number args WasiAPIName.ENVIRON_GET in
  let! string_ptr_address := nth value_u32 args 0 in
  let! buf_address := nth value_u32 args 1 in
  on_vfs (WasiWrapper_environ_get string_ptr_address buf_address).

Definition wasi_environ_sizes_get (args : list RuntimeValue) : WasiResult :=
  do! check_args_number args WasiAPIName.ENVIRON_SIZES_GET in
  let! environc_address := nth_checked value_u32 args 0 in
  let! environ_buf_size_address := nth_checked value_u32 args 1 in
  on_vfs (WasiWrapper_environ_sizes_get environc_address environ_buf_size_address).

Definition wasi_clock_res_get (args : list RuntimeValue) : WasiResult :=
  do! check_args_number args WasiAPIName.CLOCK_RES_GET in
  let! clock_id := nth_checked value_u32 args 0 in
  let! address := nth_checked value_u32 args 1 in
  on_vfs (WasiWrapper_clock_res_get clock_id address).

Definition wasi_clock_time_get (args : list RuntimeValue) : WasiResult :=
  do! check_args_number args WasiAPIName.CLOCK_TIME_GET in
  let! clock_id := nth_checked value_u32 args 0 in
  let! precision := nth_checked value_u64 args 1 in
  let! address := nth_checked value_u32 args 2 in
  on_vfs (WasiWrapper_clock_time_get clock_id precision address).

Definition wasi_fd_advise (args : list RuntimeValue) : WasiResult :=
  do! check_args_number args WasiAPIName.FD_ADVISE in
  let! fd := nth_checked value_u32 args 0 in
  let! offset := nth_checked value_u64 args 1 in
  let! len := nth_checked value_u64 args 2 in
  let! advice := nth value_u8 args 3 in
  on_vfs (WasiWrapper_fd_advise fd offset len advice).

Definition wasi_fd_allocate (args : list RuntimeValue) : WasiResult :=
  do! check_args_number args WasiAPIName.FD_ALLOCATE in
  let! fd := nth_checked value_u32 args 0 in
  let! offset := nth_checked value_u64 args 1 in
  let! len := nth_checked value_u64 args 2 in
  on_vfs (WasiWrapper_fd_allocate fd offset len).

Definition wasi_fd_close (args : list RuntimeValue) : WasiResult :=
  do! check_args_number args WasiAPIName.FD_CLOSE in
  let! fd := nth_checked value_u32 args 0 in
  on_vfs (WasiWrapper_fd_close fd).

Definition wasi_fd_datasync (args : list RuntimeValue) : WasiResult :=
  do! check_args_number args WasiAPIName.FD_DATASYNC in
  let! fd := nth_checked value_u32 args 0 in
  on_vfs (WasiWrapper_fd_datasync fd).

Definition wasi_fd_fdstat_get (args : list RuntimeValue) : WasiResult :=
  do! check_args_number args WasiAPIName.FD_FDSTAT_GET in
  let! fd := nth_checked value_u32 args 0 in
  let! address := nth_checked value_u32 args 1 in
  on_vfs (WasiWrapper_fd_fdstat_get fd address).

Definition wasi_fd_fdstat_set_flags (args : list RuntimeValue) : WasiResult :=
  do! check_args_number args WasiAPIName.FD_FDSTAT_SET_FLAGS in
  let! fd := nth_checked value_u32 args 0 in
  let! flags := nth_checked value_u16 args 1 in
  on_vfs (WasiWrapper_fd_fdstat_set_flags fd flags).

Definition wasi_fd_fdstat_set_rights (args : list RuntimeValue) : WasiResult :=
  do! check_args_number args WasiAPIName.FD_FDSTAT_SET_RIGHTS in
  let! fd := nth_checked value_u32 args 0 in
  let! rights_base := nth_checked value_u64 args 1 in
  let! rights_inheriting := nth_checked value_u64 args 2 in
  on_vfs (WasiWrapper_fd_fdstat_set_rights fd rights_base rights_inheriting).

Definition wasi_fd_filestat_get (args : list RuntimeValue) : WasiResult :=
  do! check_args_number args WasiAPIName.FD_FILESTAT_GET in
  let! fd := nth_checked value_u32 args 0 in
  let! address := nth_checked value_u32 args 1 in
  on_vfs (WasiWrapper_fd_filestat_get fd address).

Definition wasi_fd_filestat_set_size (args : list RuntimeValue) : WasiResult :=
  do! check_args_number args WasiAPIName.FD_FILESTAT_SET_SIZE in
  let! fd := nth_checked value_u32 args 0 in
  let! size := nth_checked value_u64 args 1 in
  on_vfs (WasiWrapper_fd_filestat_set_size fd size).

Definition wasi_fd_filestat_set_times (args : list RuntimeValue) : WasiResult :=
  do! check_args_number args WasiAPIName.FD_FILESTAT_SET_TIMES in
  let! fd := nth_checked value_u32 args 0 in
  let! atime := nth_checked value_u64 args 1 in
  let! mtime := nth_checked value_u64 args 2 in
  let! fst_flag := nth_checked value_u16 args 3 in
  on_vfs (WasiWrapper_fd_filestat_set_times fd atime mtime fst_flag).

Definition wasi_fd_pread (args : list RuntimeValue) : WasiResult :=
  do! check_args_number args WasiAPIName.FD_PREAD in
  let! fd := nth_checked value_u32 args 0 in
  let! iovec_base := nth_checked value_u32 args 1 in
  let! iovec_length := nth_checked value_u32 args 2 in
  let! offset := nth_checked value_u64 args 3 in
  let! address := nth_checked value_u32 args 4 in
  on_vfs (WasiWrapper_fd_pread fd iovec_base iovec_length offset address).

Definition wasi_fd_prestat_get (args : list RuntimeValue) : WasiResult :=
  do! check_args_number args WasiAPIName.FD_PRESTAT_GET in
  let! fd := nth_checked value_u32 args 0 in
  let! address := nth_checked value_u32 args 1 in
  on_vfs (WasiWrapper_fd_prestat_get fd address).

Definition wasi_fd_prestat_dir_name (args : list RuntimeValue) : WasiResult :=
  do! check_args_number args WasiAPIName.FD_PRESTAT_DIR_NAME in
  let! fd := nth_checked value_u32 args 0 in
  let! address := nth_checked value_u32 args 1 in
  let! size := nth_checked value_u32 args 2 in
  on_vfs (WasiWrapper_fd_prestat_dir_name fd address size).

Definition wasi_fd_pwrite (args : list RuntimeValue) : WasiResult :=
  do! check_args_number args WasiAPIName.FD_PWRITE in
  let! fd := nth_checked value_u32 args 0 in
  let! iovec_base := nth_checked value_u32 args 1 in
  let! iovec_length := nth_checked value_u32 args 2 in
  let! offset := nth_checked value_u64 args 3 in
  let! address := nth_checked value_u32 args 4 in
  on_vfs (WasiWrapper_fd_pwrite fd iovec_base iovec_length offset address).

Definition wasi_fd_read (args : list RuntimeValue) : WasiResult :=
  do! check_args_number args WasiAPIName.FD_READ in
  let! fd := nth_checked value_u32 args 0 in
  let! iovec_base := nth_checked value_u32 args 1 in
  let! iovec_len := nth_checked value_u32 args 2 in
  let! address := nth_checked value_u32 args 3 in
  on_vfs (WasiWrapper_fd_read fd iovec_base iovec_len address).

Definition wasi_fd_readdir (args : list RuntimeValue) : WasiResult :=
  do! check_args_number args WasiAPIName.FD_READDIR in
  let! fd := nth_checked value_u32 args 0 in
  let! dirent_base := nth_checked value_u32 args 1 in
  let! dirent_length := nth_checked value_u32 args 2 in
  let! cookie := nth_checked value_u64 args 3 in
  let! address := nth_checked value_u32 args 4 in
  on_vfs (WasiWrapper_fd_readdir fd dirent_base dirent_length cookie address).

Definition wasi_fd_renumber (args : list RuntimeValue) : WasiResult :=
  do! check_args_number args WasiAPIName.FD_RENUMBER in
  let! old_fd := nth_checked value_u32 args 0 in
  let! new_fd := nth_checked value_u32 args 1 in
  on_vfs (WasiWrapper_fd_renumber old_fd new_fd).

Definition wasi_fd_seek (args : list RuntimeValue) : WasiResult :=
  do! check_args_number args WasiAPIName.FD_SEEK in
  let! fd := nth_checked value_u32 args 0 in
  let! offset := nth_checked value_i64 args 1 in
  let! whence := nth value_u8 args 2 in
  let! address := nth_checked value_u32 args 3 in
  on_vfs (WasiWrapper_fd_seek fd offset whence address).

Definition wasi_fd_sync (args : list RuntimeValue) : WasiResult :=
  do! check_args_number args WasiAPIName.FD_SYNC in
  let! fd := nth_checked value_u32 args 0 in
  on_vfs (WasiWrapper_fd_sync fd).

Definition wasi_fd_tell (args : list RuntimeValue) : WasiResult :=
  do! check_args_number args WasiAPIName.FD_TELL in
  let! fd := nth_checked value_u32 args 0 in
  let! address := nth_checked value_u32 args 1 in
  on_vfs (WasiWrapper_fd_tell fd address).

Definition wasi_fd_write (args : list RuntimeValue) : WasiResult :=
  do! check_args_number args WasiAPIName.FD_WRITE in
  let! fd := nth_checked value_u32 args 0 in
  let! iovec_base := nth_checked value_u32 args 1 in
  let! iovec_len := nth_checked value_u32 args 2 in
  let! address := nth_checked value_u32 args 3 in
  on_vfs (WasiWrapper_fd_write fd iovec_base iovec_len address).

Definition wasi_path_create_directory (args : list RuntimeValue) : WasiResult :=
  do! check_args_number args WasiAPIName.PATH_CREATE_DIRECTORY in
  let! fd := nth_checked value_u32 args 0 in
  let! path := nth_checked value_u32 args 1 in
  let! path_len := nth_checked value_u32 args 2 in
  on_vfs (WasiWrapper_path_create_directory fd path path_len).

Definition wasi_path_filestat_get (args : list RuntimeValue) : WasiResult :=
  do! check_args_number args WasiAPIName.PATH_FILESTAT_GET in
  let! fd := nth_checked value_u32 args 0 in
  let! flag := nth_checked value_u32 args 1 in
  let! path_address := nth_checked value_u32 args 2 in
  let! path_length := nth_checked value_u32 args 3 in
  let! address := nth_checked value_u32 args 4 in
  on_vfs (WasiWrapper_path_filestat_get fd flag path_address path_length address).

Definition wasi_path_filestat_set_times (args : list RuntimeValue) : WasiResult :=
  do! check_args_number args WasiAPIName.PATH_FILESTAT_SET_TIMES in
  let! fd := nth_checked value_u32 args 0 in
  let! flag := nth_checked value_u32 args 1 in
  let! path_address := nth_checked value_u32 args 2 in
  let! path_length := nth_checked value_u32 args 3 in
  let! atime := nth_checked value_u64 args 4 in
  let! mtime := nth_checked value_u64 args 5 in
  let! fst_flags := nth_checked value_u16 args 6 in
  on_vfs (WasiWrapper_path_filestat_set_times
    fd flag path_address path_length atime mtime fst_flags).

Definition wasi_path_link (args : list RuntimeValue) : WasiResult :=
  do! check_args_number args WasiAPIName.PATH_LINK in
  let! old_fd := nth_checked value_u32 args 0 in
  let! old_flags := nth_checked value_u32 args 1 in
  let! old_address := nth_checked value_u32 args 2 in
  let! old_path_len := nth_checked value_u32 args 3 in
  let! new_fd := nth_checked value_u32 args 4 in
  let! new_address := nth_checked value_u32 args 5 in
  let! new_path_len := nth_checked value_u32 args 6 in
  on_vfs (WasiWrapper_path_link
    old_fd old_flags old_address old_path_len new_fd new_address new_path_len).

Definition wasi_path_open (args : list RuntimeValue) : WasiResult :=
  do! check_args_number args WasiAPIName.PATH_OPEN in
  let! fd := nth_checked value_u32 args 0 in
  let! dirflags := nth_checked value_u32 args 1 in
  let! path_address := nth_checked value_u32 args 2 in
  let! path_length := nth_checked value_u32 args 3 in
  let! oflags := nth_checked value_u16 args 4 in
  let! fs_rights_base := nth_checked value_u64 args 5 in
  let! fs_rights_inheriting := nth_checked value_u64 args 6 in
  let! fd_flags := nth_checked value_u16 args 7 in
  let! address := nth_checked value_u32 args 8 in
  on_vfs (WasiWrapper_path_open
    fd dirflags path_address path_length oflags fs_rights_base fs_rights_inheriting fd_flags
    address).

Definition wasi_path_readlink (args : list RuntimeValue) : WasiResult :=
  do! check_args_number args WasiAPIName.PATH_READLINK in
  let! fd := nth_checked value_u32 args 0 in
  let! path_address := nth_checked value_u32 args 1 in
  let! path_length := nth_checked value_u32 args 2 in
  let! buf_address := nth_checked value_u32 args 3 in
  let! buf_length := nth_checked value_u32 args 4 in
  let! address := nth_checked value_u32 args 5 in
  on_vfs (WasiWrapper_path_readlink fd path_address path_length buf_address buf_length address).

Definition wasi_path_remove_directory (args : list RuntimeValue) : WasiResult :=
  do! check_args_number args WasiAPIName.PATH_REMOVE_DIRECTORY in
  let! fd := nth_checked value_u32 args 0 in
  let! path_address := nth_checked value_u32 args 1 in
  let! path_length := nth_checked value_u32 args 2 in
  on_vfs (WasiWrapper_path_remove_directory fd path_address path_length).

Definition wasi_path_rename (args : list RuntimeValue) : WasiResult :=
  do! check_args_number args WasiAPIName.PATH_RENAME in
  let! old_fd := nth_checked value_u32 args 0 in
  let! old_path_address := nth_checked value_u32 args 1 in
  let! old_path_len := nth_checked value_u32 args 2 in
  let! new_fd := nth_checked value_u32 args 3 in
  let! new_path_address := nth_checked value_u32 args 4 in
  let! new_path_len := nth_checked value_u32 args 5 in
  on_vfs (WasiWrapper_path_rename
    old_fd old_path_address old_path_len new_fd new_path_address new_path_len).

Definition wasi_path_symlink (args : list RuntimeValue) : WasiResult :=
  do! check_args_number args WasiAPIName.PATH_SYMLINK in
  let! old_path_address := nth_checked value_u32 args 0 in
  let! old_path_len := nth_checked value_u32 args 1 in
  let! fd := nth_checked value_u32 args 2 in
  let! new_path_address := nth_checked value_u32 args 3 in
  let! new_path_len := nth_checked value_u32 args 4 in
  on_vfs (WasiWrapper_path_symlink
    old_path_address old_path_len fd new_path_address new_path_len).

Definition wasi_path_unlink_file (args : list RuntimeValue) : WasiResult :=
  do! check_args_number args WasiAPIName.PATH_UNLINK_FILE in
  let! fd := nth_checked value_u32 args 0 in
  let! path_address := nth_checked value_u32 args 1 in
  let! path_len := nth_checked value_u32 args 2 in
  on_vfs (WasiWrapper_path_unlink_file fd path_address path_len).

Definition wasi_poll_oneoff (args : list RuntimeValue) : WasiResult :=
  do! check_args_number args WasiAPIName.POLL_ONEOFF in
  let! subscriptions := nth_checked value_u32 args 0 in
  let! events := nth_checked value_u32 args 1 in
  let! size := nth_checked value_u32 args 2 in
  let! address := nth_checked value_u32 args 3 in
  on_vfs (WasiWrapper_poll_oneoff subscriptions events size address).

Definition wasi_proc_exit (args : list RuntimeValue) : WasiResult :=
  do! check_args_number args WasiAPIName.PROC_EXIT in
  let! exit_code := nth_checked value_u32 args 0 in
  on_vfs (WasiWrapper_proc_exit exit_code).

Definition wasi_proc_raise (args : list RuntimeValue) : WasiResult :=
  do! check_args_number args WasiAPIName.PROC_RAISE in
  let! signal := nth value_u8 args 0 in
  on_vfs (WasiWrapper_proc_raise signal).

Definition wasi_sched_yield (args : list RuntimeValue) : WasiResult :=
  do! check_args_number args WasiAPIName.SCHED_YIELD in
  on_vfs WasiWrapper_sched_yield.

Definition wasi_random_get (args : list RuntimeValue) : WasiResult :=
  do! check_args_number args WasiAPIName.RANDOM_GET in
  let! address := nth_checked value_u32 args 0 in
  let! size := nth_checked value_u32 args 1 in
  on_vfs (WasiWrapper_random_get address size).

Definition wasi_sock_send (args : list RuntimeValue) : WasiResult :=
  do! check_args_number args WasiAPIName.SOCK_SEND in
  let! socket := nth_checked value_u32 args 0 in
  let! buf_address := nth_checked value_u32 args 1 in
  let! buf_len := nth_checked value_u32 args 2 in
  let! si_flag := nth_checked value_u16 args 3 in
  let! ro_data_len := nth_checked value_u32 args 4 in
  on_vfs (WasiWrapper_sock_send socket buf_address buf_len si_flag ro_data_len).

Definition wasi_sock_recv (args : list RuntimeValue) : WasiResult :=
  do! check_args_number args WasiAPIName.SOCK_RECV in
  let! socket := nth_checked value_u32 args 0 in
  let! buf_address := nth_checked value_u32 args 1 in
  let! buf_len := nth_checked value_u32 args 2 in
  let! ri_flag := nth_checked value_u16 args 3 in
  let! ro_data_len := nth_checked value_u32 args 4 in
  let! ro_flag := nth_checked value_u32 args 5 in
  on_vfs (WasiWrapper_sock_recv socket buf_address buf_len ri_flag ro_data_len ro_flag).

Definition wasi_sock_shutdown (args : list RuntimeValue) : WasiResult :=
  do! check_args_number args WasiAPIName.SOCK_SHUTDOWN in
  let! socket := nth_checked value_u32 args 0 in
  let! sd_flag := nth value_u8 args 1 in
  on_vfs (WasiWrapper_sock_shutdown socket sd_flag).

Definition veracruz_fd_create (args : list RuntimeValue) : WasiResult :=
  let! address := nth_checked value_u32 args 0 in
  on_vfs (WasiWrapper_fd_create address).

(** ** Dispatch ([Externals]) *)

Definition host_call (call_index : APIName) (args : list RuntimeValue) : WasiResult :=
  match call_index with
  | WasiAPIName WasiAPIName.ARGS_GET => wasi_args_get args
  | WasiAPIName WasiAPIName.ARGS_SIZES_GET => wasi_args_sizes_get args
  | WasiAPIName WasiAPIName.ENVIRON_GET => wasi_environ_get args
  | WasiAPIName WasiAPIName.ENVIRON_SIZES_GET => wasi_environ_sizes_get args
  | WasiAPIName WasiAPIName.CLOCK_RES_GET => wasi_clock_res_get args
  | WasiAPIName WasiAPIName.CLOCK_TIME_GET => wasi_clock_time_get args
  | WasiAPIName WasiAPIName.FD_ADVISE => wasi_fd_advise args
  | WasiAPIName WasiAPIName.FD_ALLOCATE => wasi_fd_allocate args
  | WasiAPIName WasiAPIName.FD_CLOSE => wasi_fd_close args
  | WasiAPIName WasiAPIName.FD_DATASYNC => wasi_fd_datasync args
  | WasiAPIName WasiAPIName.FD_FDSTAT_GET => wasi_fd_fdstat_get args
  | WasiAPIName WasiAPIName.FD_FDSTAT_SET_FLAGS => wasi_fd_fdstat_set_flags args
  | WasiAPIName WasiAPIName.FD_FDSTAT_SET_RIGHTS => wasi_fd_fdstat_set_rights args
  | WasiAPIName WasiAPIName.FD_FILESTAT_GET => wasi_fd_filestat_get args
  | WasiAPIName WasiAPIName.FD_FILESTAT_SET_SIZE => wasi_fd_filestat_set_size args
  | WasiAPIName WasiAPIName.FD_FILESTAT_SET_TIMES => wasi_fd_filestat_set_times args
  | WasiAPIName WasiAPIName.FD_PREAD => wasi_fd_pread args
  | WasiAPIName WasiAPIName.FD_PRESTAT_GET => wasi_fd_prestat_get args
  | WasiAPIName WasiAPIName.FD_PRESTAT_DIR_NAME => wasi_fd_prestat_dir_name args
  | WasiAPIName WasiAPIName.FD_PWRITE => wasi_fd_pwrite args
  | WasiAPIName WasiAPIName.FD_READ => wasi_fd_read args
  | WasiAPIName WasiAPIName.FD_READDIR => wasi_fd_readdir args
  | WasiAPIName WasiAPIName.FD_RENUMBER => wasi_fd_renumber args
  | WasiAPIName WasiAPIName.FD_SEEK => wasi_fd_seek args
  | WasiAPIName WasiAPIName.FD_SYNC => wasi_fd_sync args
  | WasiAPIName WasiAPIName.FD_TELL => wasi_fd_tell args
  | WasiAPIName WasiAPIName.FD_WRITE => wasi_fd_write args
  | WasiAPIName WasiAPIName.PATH_CREATE_DIRECTORY => wasi_path_create_directory args
  | WasiAPIName WasiAPIName.PATH_FILESTAT_GET => wasi_path_filestat_get args
  | WasiAPIName WasiAPIName.PATH_FILESTAT_SET_TIMES => wasi_path_filestat_set_times args
  | WasiAPIName WasiAPIName.PATH_LINK => wasi_path_link args
  | WasiAPIName WasiAPIName.PATH_OPEN => wasi_path_open args
  | WasiAPIName WasiAPIName.PATH_READLINK => wasi_path_readlink args
  | WasiAPIName WasiAPIName.PATH_REMOVE_DIRECTORY => wasi_path_remove_directory args
  | WasiAPIName WasiAPIName.PATH_RENAME => wasi_path_rename args
  | WasiAPIName WasiAPIName.PATH_SYMLINK => wasi_path_symlink args
  | WasiAPIName WasiAPIName.PATH_UNLINK_FILE => wasi_path_unlink_file args
  | WasiAPIName WasiAPIName.POLL_ONEOFF => wasi_poll_oneoff args
  | WasiAPIName WasiAPIName.PROC_EXIT => wasi_proc_exit args
  | WasiAPIName WasiAPIName.PROC_RAISE => wasi_proc_raise args
  | WasiAPIName WasiAPIName.SCHED_YIELD => wasi_sched_yield args
  | WasiAPIName WasiAPIName.RANDOM_GET => wasi_random_get args
  | WasiAPIName WasiAPIName.SOCK_RECV => wasi_sock_recv args
  | WasiAPIName WasiAPIName.SOCK_SEND => wasi_sock_send args
  | WasiAPIName WasiAPIName.SOCK_SHUTDOWN => wasi_sock_shutdown args
  | WasiAPIName WasiAPIName._LAST => panic Unreachable
  | VeracruzAPIName VeracruzAPIName.FD_CREATE => veracruz_fd_create args
  end.

(** [n as i16] of a [u16] *)
Definition as_i16 (n : Z) : Z := if n <? 32768 then n else n - u16_bound.

Definition invoke_index (index : Z) (args : list RuntimeValue) :
  ST WASMIRuntimeState Trap (option RuntimeValue) :=
  map_err TrapHost (
    let! name := lift (APIName_from_u64 index) in
    let! call_index := ok_or name (UnknownHostFunction (Index index)) in
    let! return_code := host_call call_index args in
    ret (Some (VI32 (as_i16 (errno_code return_code))))).

(** ** Imports ([ModuleImportResolver]) *)

Definition resolve_func (field_name : string) (signature : Signature) : outcome Error FuncRef :=
  let index :=
    match WasiAPIName.from_str field_name with
    | Some x => Some (WasiAPIName x)
    | None => VeracruzAPIName <$> VeracruzAPIName.from_str field_name
    end in
  match index with
  | None => Err (Instantiation ("Unknown function " ++ field_name))
  | Some index =>
      match TypeCheck.check_signature index signature with
      | Ok true =>
          match APIName_to_u64 index with
          | Ok n => Ok (mkFuncRef signature n)
          | Err e => Err e
          | Abort p => Abort p
          end
      | Ok false => Err (Instantiation ("Unexpected type-signature of " ++ field_name))
      | Err e => Err e
      | Abort p => Abort p
      end
  end.

Definition resolve_global (field_name : string) : outcome Error FuncRef :=
  Err (Instantiation field_name).
Definition resolve_memory (field_name : string) : outcome Error FuncRef :=
  Err (Instantiation field_name).
Definition resolve_table (field_name : string) : outcome Error FuncRef :=
  Err (Instantiation field_name).

(** The same resolver is registered under both module names; an import of
    another module is an error of [ImportsBuilder]. *)
Definition resolve_import (i : import) : outcome Error FuncRef :=
  if bool_decide (im_module i = WASI_SNAPSHOT_MODULE_NAME)
     || bool_decide (im_module i = VERACRUZ_SI_MODULE_NAME) then
    match im_kind i with
    | ImportFunc sig => resolve_func (im_field i) sig
    | ImportGlobal => resolve_global (im_field i)
    | ImportMemory => resolve_memory (im_field i)
    | ImportTable => resolve_table (im_field i)
    end
  else Err (Instantiation (im_module i)).

(** ** Loading and running a program *)

Definition wasmi_error {A} (r : outcome Error A) : I A := map_err WASMIError (lift r).

Definition get_module_memory (m : ModuleRef) : I bytes :=
  match export_by_name m LINEAR_MEMORY_NAME with
  | Some (ExMemory memory) => ret memory
  | _ => throw NoMemoryRegistered
  end.

Definition check_main (m : ModuleRef) : EntrySignature :=
  match export_by_name m ENTRY_POINT_NAME with
  | Some (ExFunc sig) => check_main_signature sig
  | _ => NoEntryFound
  end.

Definition load_program (buffer : bytes) : I unit :=
  let! module := wasmi_error (Module_from_buffer buffer) in
  let! funcs := fold_st (λ acc i, let! f := wasmi_error (resolve_import i) in ret (acc ++ [f]))
                  (module_imports module) [] in
  let! module_ref := wasmi_error (ModuleInstance_new module funcs) in
  do! fail_if (has_start module_ref) InvalidWASMModule in
  let! linear_memory := get_module_memory module_ref in
  modify (λ s, mkWASMI (set_memory (Some linear_memory) (host s)) (Some module_ref)).

(** The run of an instance; [fuel] bounds the number of its steps and calls,
    as a program need not terminate. *)
Fixpoint run_guest (fuel : nat) (g : guest) :
  ST WASMIRuntimeState Error (option RuntimeValue) := λ s,
  match fuel with
  | O => (Abort OutOfFuel, s)
  | S fuel' =>
      match guest_step g (default [] (linear_memory (host s))) with
      | GuestReturn v => (Ok v, s)
      | GuestTrap t => (Err (ErrorTrap t), s)
      | GuestCompute memory g' =>
          run_guest fuel' g' (set_host (set_memory (Some memory) (host s)) s)
      | GuestCall index args resume =>
          match invoke_index index args s with
          | (Ok v, s') => run_guest fuel' (resume v) s'
          | (Err t, s') => (Err (ErrorTrap t), s')
          | (Abort p, s') => (Abort p, s')
          end
      end
  end.

Definition invoke_export (fuel : nat) (export_name : string) :
  ST WASMIRuntimeState Error (option RuntimeValue) :=
  let! s := get in
  match program_module s with
  | None => throw (ErrorHost NoProgramModuleRegistered)
  | Some m =>
      let! program_arguments :=
        match check_main m with
        | NoEntryFound => throw (ErrorHost NoProgramEntryPoint)
        | ArgvAndArgc => ret [VI32 0; VI32 0]
        | NoParameters => ret []
        end in
      let! g := lift (guest_start m export_name program_arguments) in
      run_guest fuel g
  end.

(** The exit code of a program from the outcome of its entry point. *)
Definition entry_result (r : outcome Error (option RuntimeValue)) (code : option Z) :
  outcome FatalEngineError Z :=
  match r with
  | Ok None => Ok (default 0 code)
  | Ok (Some (VI32 c)) => Ok (c mod u32_bound)
  | Ok (Some _) => Err ReturnedCodeError
  | Err (ErrorTrap trap) =>
      match code with Some c => Ok c | None => Err (WASMITrapError trap) end
  | Err err => Err (WASMIError err)
  | Abort p => Abort p
  end.

Definition invoke_entry_point (fuel : nat) (program : bytes) (options : Options) : I Z :=
  do! load_program program in
  do! modify (λ s, set_host (set_wrapper (set_enables (opt_enable_clock options)
                                            (opt_enable_strace options) (wrapper (host s)))
                               (host s)) s) in
  λ s, let '(execute_result, s') := invoke_export fuel ENTRY_POINT_NAME s in
       (entry_result execute_result (exit_code (wrapper (host s'))), s').
End wasmi.
