(* ===== verification/Wasmtime.v ===== *)
(** * The compiler

    The execution engine over the [wasmtime] just-in-time compiler: the host
    calls, the functions the linker knows, and the run of a program.

    Source: [execution-engine/src/wasi/wasmtime.rs].

    [wasmtime] is not part of the repository: it is the class [WasmtimeLib],
    a machine that runs an instance and stops at each host call.  The wrapper
    is behind a mutex that one thread takes for the time of a call and that
    no panic poisons before the run ends, so that locking succeeds. *)

From S2P Require Import Prelude RustFmt RustPath WasiTypes Policy InodeTable FileSystem FsOps Services.
From S2P Require Import Platform WasiMemory WasiHost Strace Wasi WasmApi.
Local Open Scope Z_scope.

(** The type of an export: a function with its parameters and results. *)
Inductive ExternType := FuncType (params results : list ValueType) | OtherType.

Class WasmtimeLib := {
  wt_module : Type;
  wt_instance : Type;
  wt_guest : Type;
  wt_module_new : bytes → outcome string wt_module;
  wt_imports : wt_module → list import;
  wt_instantiate : wt_module → list APIName → outcome string wt_instance;
  wt_memory : wt_instance → option bytes;
  wt_start : wt_instance → option wt_guest;
  wt_export : wt_instance → string → option ExternType;
  wt_call : wt_instance → string → list RuntimeValue → wt_guest;
  wt_step : wt_guest → option bytes → guest_event APIName wt_guest;
  wt_trap_debug : Trap → string;
}.

Section wasmtime.
Context {BP : BuildProfile} {WR : WasiRights} {HO : HashOrder} {NL : NativeLibs}
  {P : Type} {PI : PlatformImp P} {SL : StructLayout} {ED : ErrNoDebug} {WC : WasiCodes}
  {EC : ErrNoCodes} {WT : WasmtimeLib}.

(** ** The host calls *)

(** A host function returns a [u32]. *)
Abbreviation J := (HostM (option bytes) P Z).

(** [errno as u32] *)
Definition errno_u32 (e : ErrNo.t) : Z := errno_code e.

Definition Wasmtime_convert_to_errno (input : unit + ErrNo.t) : Z :=
  errno_u32 match input with inl _ => ErrNo.Success | inr e => e end.

(** The macro [convert_wasi_arg!] returns from the function on failure. *)
Definition convert_wasi_arg (var bound : Z) (k : Z → J) : J :=
  if var <? bound then k var else ret (errno_u32 ErrNo.Inval).

Definition vfs_call (op : HostM (option bytes) P unit) : J :=
  let! r := attempt op in ret (Wasmtime_convert_to_errno r).

Definition Wasmtime_wasi_arg_get (string_ptr_address buf_address : Z) : J :=
  vfs_call (WasiWrapper_args_get string_ptr_address buf_address).

Definition Wasmtime_wasi_args_sizes_get (count_address size_address : Z) : J :=
  vfs_call (WasiWrapper_args_sizes_get count_address size_address).

Definition Wasmtime_wasi_environ_get (string_ptr_address buf_address : Z) : J :=
  vfs_call (WasiWrapper_environ_get string_ptr_address buf_address).

Definition Wasmtime_wasi_environ_size_get (environc_address environ_buf_size_address : Z) : J :=
  vfs_call (WasiWrapper_environ_sizes_get environc_address environ_buf_size_address).

Definition Wasmtime_wasi_clock_res_get (clock_id address : Z) : J :=
  vfs_call (WasiWrapper_clock_res_get clock_id address).

Definition Wasmtime_wasi_clock_time_get (clock_id precision address : Z) : J :=
  vfs_call (WasiWrapper_clock_time_get clock_id precision address).

Definition Wasmtime_wasi_fd_advise (fd offset len advice : Z) : J :=
  convert_wasi_arg advice u8_bound (λ advice,
  vfs_call (WasiWrapper_fd_advise fd offset len advice)).

Definition Wasmtime_wasi_fd_allocate (fd offset len : Z) : J :=
  vfs_call (WasiWrapper_fd_allocate fd offset len).

Definition Wasmtime_wasi_fd_close (fd : Z) : J :=
  vfs_call (WasiWrapper_fd_close fd).

Definition Wasmtime_wasi_fd_datasync (fd : Z) : J :=
  vfs_call (WasiWrapper_fd_datasync fd).

Definition Wasmtime_wasi_fd_fdstat_get (fd address : Z) : J :=
  vfs_call (WasiWrapper_fd_fdstat_get fd address).

Definition Wasmtime_wasi_fd_fdstat_set_flags (fd flag : Z) : J :=
  convert_wasi_arg flag u16_bound (λ flag,
  vfs_call (WasiWrapper_fd_fdstat_set_flags fd flag)).

Definition Wasmtime_wasi_fd_fdstat_set_rights (fd rights_base rights_inheriting : Z) : J :=
  vfs_call (WasiWrapper_fd_fdstat_set_rights fd rights_base rights_inheriting).

Definition Wasmtime_wasi_fd_filestat_get (fd address : Z) : J :=
  vfs_call (WasiWrapper_fd_filestat_get fd address).

Definition Wasmtime_wasi_fd_filestat_set_size (fd size : Z) : J :=
  vfs_call (WasiWrapper_fd_filestat_set_size fd size).

Definition Wasmtime_wasi_fd_filestat_set_times (fd atime mtime fst_flags : Z) : J :=
  convert_wasi_arg fst_flags u16_bound (λ fst_flags,
  vfs_call (WasiWrapper_fd_filestat_set_times fd atime mtime fst_flags)).

Definition Wasmtime_wasi_fd_pread (fd iovec_base iovec_count offset address : Z) : J :=
  vfs_call (WasiWrapper_fd_pread fd iovec_base iovec_count offset address).

Definition Wasmtime_wasi_fd_prestat_get (fd address : Z) : J :=
  do! info "prestat_get called" in
  do! info "succ lock" in
  vfs_call (WasiWrapper_fd_prestat_get fd address).

Definition Wasmtime_wasi_fd_prestat_dir_name (fd address size : Z) : J :=
  vfs_call (WasiWrapper_fd_prestat_dir_name fd address size).

Definition Wasmtime_wasi_fd_pwrite (fd iovec_base iovec_number offset address : Z) : J :=
  vfs_call (WasiWrapper_fd_pwrite fd iovec_base iovec_number offset address).

Definition Wasmtime_wasi_fd_read (fd iovec_base iovec_count address : Z) : J :=
  vfs_call (WasiWrapper_fd_read fd iovec_base iovec_count address).

Definition Wasmtime_wasi_fd_readdir (fd dirent_base dirent_length cookie address : Z) : J :=
  vfs_call (WasiWrapper_fd_readdir fd dirent_base dirent_length cookie address).

Definition Wasmtime_wasi_fd_renumber (fd to_fd : Z) : J :=
  vfs_call (WasiWrapper_fd_renumber fd to_fd).

Definition Wasmtime_wasi_fd_seek (fd offset whence address : Z) : J :=
  convert_wasi_arg whence u8_bound (λ whence,
  vfs_call (WasiWrapper_fd_seek fd offset whence address)).

Definition Wasmtime_wasi_fd_sync (fd : Z) : J :=
  vfs_call (WasiWrapper_fd_sync fd).

Definition Wasmtime_wasi_fd_tell (fd address : Z) : J :=
  vfs_call (WasiWrapper_fd_tell fd address).

Definition Wasmtime_wasi_fd_write (fd iovec_base iovec_number address : Z) : J :=
  vfs_call (WasiWrapper_fd_write fd iovec_base iovec_number address).

Definition Wasmtime_wasi_path_create_directory (fd path path_len : Z) : J :=
  vfs_call (WasiWrapper_path_create_directory fd path path_len).

Definition Wasmtime_wasi_path_filestat_get (fd flag path path_len address : Z) : J :=
  vfs_call (WasiWrapper_path_filestat_get fd flag path path_len address).

Definition Wasmtime_wasi_path_filestat_set_times
    (fd flag path path_len atime mtime fst_flags : Z) : J :=
  convert_wasi_arg fst_flags u16_bound (λ fst_flags,
  vfs_call (WasiWrapper_path_filestat_set_times fd flag path path_len atime mtime fst_flags)).

Definition Wasmtime_wasi_path_link
    (old_fd old_flags old_address old_path_len new_fd new_address new_path_len : Z) : J :=
  vfs_call (WasiWrapper_path_link
    old_fd old_flags old_address old_path_len new_fd new_address new_path_len).

Definition Wasmtime_wasi_path_open
    (fd dir_flags path_address path_length oflags fs_rights_base fs_rights_inheriting fd_flags
     address : Z) : J :=
  convert_wasi_arg oflags u16_bound (λ oflags,
  convert_wasi_arg fd_flags u16_bound (λ fd_flags,
  vfs_call (WasiWrapper_path_open
    fd dir_flags path_address path_length oflags fs_rights_base fs_rights_inheriting fd_flags
    address))).

Definition Wasmtime_wasi_path_readlink (fd path path_len buf buf_len address : Z) : J :=
  vfs_call (WasiWrapper_path_readlink fd path path_len buf buf_len address).

Definition Wasmtime_wasi_path_remove_directory (fd path path_len : Z) : J :=
  vfs_call (WasiWrapper_path_remove_directory fd path path_len).

Definition Wasmtime_wasi_path_rename (old_fd old_path old_len new_fd new_path new_len : Z) : J :=
  vfs_call (WasiWrapper_path_rename old_fd old_path old_len new_fd new_path new_len).

Definition Wasmtime_wasi_path_symlink
    (old_address old_path_len fd new_address new_path_len : Z) : J :=
  vfs_call (WasiWrapper_path_symlink old_address old_path_len fd new_address new_path_len).

Definition Wasmtime_wasi_path_unlink_file (fd path path_len : Z) : J :=
  vfs_call (WasiWrapper_path_unlink_file fd path path_len).

Definition Wasmtime_wasi_poll_oneoff (subscriptions events size address : Z) : J :=
  vfs_call (WasiWrapper_poll_oneoff subscriptions events size address).

Definition Wasmtime_wasi_proc_exit (exit_code : Z) : J :=
  vfs_call (WasiWrapper_proc_exit exit_code).

Definition Wasmtime_wasi_proc_raise (signal : Z) : J :=
  convert_wasi_arg signal u8_bound (λ signal,
  vfs_call (WasiWrapper_proc_raise signal)).

Definition Wasmtime_wasi_sched_yield : J :=
  vfs_call WasiWrapper_sched_yield.

Definition Wasmtime_wasi_random_get (address length : Z) : J :=
  vfs_call (WasiWrapper_random_get address length).

Definition Wasmtime_wasi_sock_recv
    (socket buf_address buf_len ri_flag ro_data_len ro_flag : Z) : J :=
  convert_wasi_arg ri_flag u16_bound (λ ri_flag,
  vfs_call (WasiWrapper_sock_recv socket buf_address buf_len ri_flag ro_data_len ro_flag)).

Definition Wasmtime_wasi_sock_send (socket buf_address buf_len si_flag ro_data_len : Z) : J :=
  convert_wasi_arg si_flag u16_bound (λ si_flag,
  vfs_call (WasiWrapper_sock_send socket buf_address buf_len si_flag ro_data_len)).

Definition Wasmtime_wasi_sock_shutdown (socket sd_flag : Z) : J :=
  convert_wasi_arg sd_flag u8_bound (λ sd_flag,
  vfs_call (WasiWrapper_sock_shutdown socket sd_flag)).

Definition Wasmtime_veracruz_si_fd_create (address : Z) : J :=
  vfs_call (WasiWrapper_fd_create address).

(** ** The linker *)

Definition linked_params (f : APIName) : list ValueType :=
  match f with
  | WasiAPIName WasiAPIName.ARGS_GET => [I32; I32]
  | WasiAPIName WasiAPIName.ARGS_SIZES_GET => [I32; I32]
  | WasiAPIName WasiAPIName.ENVIRON_GET => [I32; I32]
  | WasiAPIName WasiAPIName.ENVIRON_SIZES_GET => [I32; I32]
  | WasiAPIName WasiAPIName.CLOCK_RES_GET => [I32; I32]
  | WasiAPIName WasiAPIName.CLOCK_TIME_GET => [I32; I64; I32]
  | WasiAPIName WasiAPIName.FD_ADVISE => [I32; I64; I64; I32]
  | WasiAPIName WasiAPIName.FD_ALLOCATE => [I32; I64; I64]
  | WasiAPIName WasiAPIName.FD_CLOSE => [I32]
  | WasiAPIName WasiAPIName.FD_DATASYNC => [I32]
  | WasiAPIName WasiAPIName.FD_FDSTAT_GET => [I32; I32]
  | WasiAPIName WasiAPIName.FD_FDSTAT_SET_FLAGS => [I32; I32]
  | WasiAPIName WasiAPIName.FD_FDSTAT_SET_RIGHTS => [I32; I64; I64]
  | WasiAPIName WasiAPIName.FD_FILESTAT_GET => [I32; I32]
  | WasiAPIName WasiAPIName.FD_FILESTAT_SET_SIZE => [I32; I64]
  | WasiAPIName WasiAPIName.FD_FILESTAT_SET_TIMES => [I32; I64; I64; I32]
  | WasiAPIName WasiAPIName.FD_PREAD => [I32; I32; I32; I64; I32]
  | WasiAPIName WasiAPIName.FD_PRESTAT_GET => [I32; I32]
  | WasiAPIName WasiAPIName.FD_PRESTAT_DIR_NAME => [I32; I32; I32]
  | WasiAPIName WasiAPIName.FD_PWRITE => [I32; I32; I32; I64; I32]
  | WasiAPIName WasiAPIName.FD_READ => [I32; I32; I32; I32]
  | WasiAPIName WasiAPIName.FD_READDIR => [I32; I32; I32; I64; I32]
  | WasiAPIName WasiAPIName.FD_RENUMBER => [I32; I32]
  | WasiAPIName WasiAPIName.FD_SEEK => [I32; I64; I32; I32]
  | WasiAPIName WasiAPIName.FD_SYNC => [I32]
  | WasiAPIName WasiAPIName.FD_TELL => [I32; I32]
  | WasiAPIName WasiAPIName.FD_WRITE => [I32; I32; I32; I32]
  | WasiAPIName WasiAPIName.PATH_CREATE_DIRECTORY => [I32; I32; I32]
  | WasiAPIName WasiAPIName.PATH_FILESTAT_GET => [I32; I32; I32; I32; I32]
  | WasiAPIName WasiAPIName.PATH_FILESTAT_SET_TIMES => [I32; I32; I32; I32; I64; I64; I32]
  | WasiAPIName WasiAPIName.PATH_LINK => [I32; I32; I32; I32; I32; I32; I32]
  | WasiAPIName WasiAPIName.PATH_OPEN => [I32; I32; I32; I32; I32; I64; I64; I32; I32]
  | WasiAPIName WasiAPIName.PATH_READLINK => [I32; I32; I32; I32; I32; I32]
  | WasiAPIName WasiAPIName.PATH_REMOVE_DIRECTORY => [I32; I32; I32]
  | WasiAPIName WasiAPIName.PATH_RENAME => [I32; I32; I32; I32; I32; I32]
  | WasiAPIName WasiAPIName.PATH_SYMLINK => [I32; I32; I32; I32; I32]
  | WasiAPIName WasiAPIName.PATH_UNLINK_FILE => [I32; I32; I32]
  | WasiAPIName WasiAPIName.POLL_ONEOFF => [I32; I32; I32; I32]
  | WasiAPIName WasiAPIName.PROC_EXIT => [I32]
  | WasiAPIName WasiAPIName.PROC_RAISE => [I32]
  | WasiAPIName WasiAPIName.SCHED_YIELD => []
  | WasiAPIName WasiAPIName.RANDOM_GET => [I32; I32]
  | WasiAPIName WasiAPIName.SOCK_RECV => [I32; I32; I32; I32; I32; I32]
  | WasiAPIName WasiAPIName.SOCK_SEND => [I32; I32; I32; I32; I32]
  | WasiAPIName WasiAPIName.SOCK_SHUTDOWN => [I32; I32]
  | VeracruzAPIName VeracruzAPIName.FD_CREATE => [I32]
  | WasiAPIName WasiAPIName._LAST => []
  end.

Definition linked_results (f : APIName) : list ValueType :=
  match f with WasiAPIName WasiAPIName.PROC_EXIT => [] | _ => [I32] end.

(** The reinterpretation of the signed values as the unsigned parameters, and
    of the result. *)
Definition as_u32 (v : Z) : Z := v mod u32_bound.
Definition as_u64 (v : Z) : Z := v mod u64_bound.
Definition as_i32 (v : Z) : Z := if v <? 2147483648 then v else v - u32_bound.

(** The call of a linked function.  The linker has checked the types, so that
    the last case does not arise. *)
Definition linked_code (f : APIName) (args : list RuntimeValue) : J :=
  match f, args with
  | WasiAPIName WasiAPIName.ARGS_GET, [VI32 a0; VI32 a1] =>
      Wasmtime_wasi_arg_get (as_u32 a0) (as_u32 a1)
  | WasiAPIName WasiAPIName.ARGS_SIZES_GET, [VI32 a0; VI32 a1] =>
      Wasmtime_wasi_args_sizes_get (as_u32 a0) (as_u32 a1)
  | WasiAPIName WasiAPIName.ENVIRON_GET, [VI32 a0; VI32 a1] =>
      Wasmtime_wasi_environ_get (as_u32 a0) (as_u32 a1)
  | WasiAPIName WasiAPIName.ENVIRON_SIZES_GET, [VI32 a0; VI32 a1] =>
      Wasmtime_wasi_environ_size_get (as_u32 a0) (as_u32 a1)
  | WasiAPIName WasiAPIName.CLOCK_RES_GET, [VI32 a0; VI32 a1] =>
      Wasmtime_wasi_clock_res_get (as_u32 a0) (as_u32 a1)
  | WasiAPIName WasiAPIName.CLOCK_TIME_GET, [VI32 a0; VI64 a1; VI32 a2] =>
      Wasmtime_wasi_clock_time_get (as_u32 a0) (as_u64 a1) (as_u32 a2)
  | WasiAPIName WasiAPIName.FD_ADVISE, [VI32 a0; VI64 a1; VI64 a2; VI32 a3] =>
      Wasmtime_wasi_fd_advise (as_u32 a0) (as_u64 a1) (as_u64 a2) (as_u32 a3)
  | WasiAPIName WasiAPIName.FD_ALLOCATE, [VI32 a0; VI64 a1; VI64 a2] =>
      Wasmtime_wasi_fd_allocate (as_u32 a0) (as_u64 a1) (as_u64 a2)
  | WasiAPIName WasiAPIName.FD_CLOSE, [VI32 a0] => Wasmtime_wasi_fd_close (as_u32 a0)
  | WasiAPIName WasiAPIName.FD_DATASYNC, [VI32 a0] => Wasmtime_wasi_fd_datasync (as_u32 a0)
  | WasiAPIName WasiAPIName.FD_FDSTAT_GET, [VI32 a0; VI32 a1] =>
      Wasmtime_wasi_fd_fdstat_get (as_u32 a0) (as_u32 a1)
  | WasiAPIName WasiAPIName.FD_FDSTAT_SET_FLAGS, [VI32 a0; VI32 a1] =>
      Wasmtime_wasi_fd_fdstat_set_flags (as_u32 a0) (as_u32 a1)
  | WasiAPIName WasiAPIName.FD_FDSTAT_SET_RIGHTS, [VI32 a0; VI64 a1; VI64 a2] =>
      Wasmtime_wasi_fd_fdstat_set_rights (as_u32 a0) (as_u64 a1) (as_u64 a2)
  | WasiAPIName WasiAPIName.FD_FILESTAT_GET, [VI32 a0; VI32 a1] =>
      Wasmtime_wasi_fd_filestat_get (as_u32 a0) (as_u32 a1)
  | WasiAPIName WasiAPIName.FD_FILESTAT_SET_SIZE, [VI32 a0; VI64 a1] =>
      Wasmtime_wasi_fd_filestat_set_size (as_u32 a0) (as_u64 a1)
  | WasiAPIName WasiAPIName.FD_FILESTAT_SET_TIMES, [VI32 a0; VI64 a1; VI64 a2; VI32 a3] =>
      Wasmtime_wasi_fd_filestat_set_times (as_u32 a0) (as_u64 a1) (as_u64 a2) (as_u32 a3)
  | WasiAPIName WasiAPIName.FD_PREAD, [VI32 a0; VI32 a1; VI32 a2; VI64 a3; VI32 a4] =>
      Wasmtime_wasi_fd_pread (as_u32 a0) (as_u32 a1) (as_u32 a2) (as_u64 a3) (as_u32 a4)
  | WasiAPIName WasiAPIName.FD_PRESTAT_GET, [VI32 a0; VI32 a1] =>
      Wasmtime_wasi_fd_prestat_get (as_u32 a0) (as_u32 a1)
  | WasiAPIName WasiAPIName.FD_PRESTAT_DIR_NAME, [VI32 a0; VI32 a1; VI32 a2] =>
      Wasmtime_wasi_fd_prestat_dir_name (as_u32 a0) (as_u32 a1) (as_u32 a2)
  | WasiAPIName WasiAPIName.FD_PWRITE, [VI32 a0; VI32 a1; VI32 a2; VI64 a3; VI32 a4] =>
      Wasmtime_wasi_fd_pwrite (as_u32 a0) (as_u32 a1) (as_u32 a2) (as_u64 a3) (as_u32 a4)
  | WasiAPIName WasiAPIName.FD_READ, [VI32 a0; VI32 a1; VI32 a2; VI32 a3] =>
      Wasmtime_wasi_fd_read (as_u32 a0) (as_u32 a1) (as_u32 a2) (as_u32 a3)
  | WasiAPIName WasiAPIName.FD_READDIR, [VI32 a0; VI32 a1; VI32 a2; VI64 a3; VI32 a4] =>
      Wasmtime_wasi_fd_readdir (as_u32 a0) (as_u32 a1) (as_u32 a2) (as_u64 a3) (as_u32 a4)
  | WasiAPIName WasiAPIName.FD_RENUMBER, [VI32 a0; VI32 a1] =>
      Wasmtime_wasi_fd_renumber (as_u32 a0) (as_u32 a1)
  | WasiAPIName WasiAPIName.FD_SEEK, [VI32 a0; VI64 a1; VI32 a2; VI32 a3] =>
      Wasmtime_wasi_fd_seek (as_u32 a0) a1 (as_u32 a2) (as_u32 a3)
  | WasiAPIName WasiAPIName.FD_SYNC, [VI32 a0] => Wasmtime_wasi_fd_sync (as_u32 a0)
  | WasiAPIName WasiAPIName.FD_TELL, [VI32 a0; VI32 a1] =>
      Wasmtime_wasi_fd_tell (as_u32 a0) (as_u32 a1)
  | WasiAPIName WasiAPIName.FD_WRITE, [VI32 a0; VI32 a1; VI32 a2; VI32 a3] =>
      Wasmtime_wasi_fd_write (as_u32 a0) (as_u32 a1) (as_u32 a2) (as_u32 a3)
  | WasiAPIName WasiAPIName.PATH_CREATE_DIRECTORY, [VI32 a0; VI32 a1; VI32 a2] =>
      Wasmtime_wasi_path_create_directory (as_u32 a0) (as_u32 a1) (as_u32 a2)
  | WasiAPIName WasiAPIName.PATH_FILESTAT_GET, [VI32 a0; VI32 a1; VI32 a2; VI32 a3; VI32 a4] =>
      Wasmtime_wasi_path_filestat_get (as_u32 a0) (as_u32 a1) (as_u32 a2) (as_u32 a3) (as_u32 a4)
  | WasiAPIName WasiAPIName.PATH_FILESTAT_SET_TIMES,
      [VI32 a0; VI32 a1; VI32 a2; VI32 a3; VI64 a4; VI64 a5; VI32 a6] =>
      Wasmtime_wasi_path_filestat_set_times (as_u32 a0) (as_u32 a1) (as_u32 a2)
        (as_u32 a3) (as_u64 a4) (as_u64 a5) (as_u32 a6)
  | WasiAPIName WasiAPIName.PATH_LINK,
      [VI32 a0; VI32 a1; VI32 a2; VI32 a3; VI32 a4; VI32 a5; VI32 a6] =>
      Wasmtime_wasi_path_link (as_u32 a0) (as_u32 a1) (as_u32 a2)
        (as_u32 a3) (as_u32 a4) (as_u32 a5) (as_u32 a6)
  | WasiAPIName WasiAPIName.PATH_OPEN,
      [VI32 a0; VI32 a1; VI32 a2; VI32 a3; VI32 a4; VI64 a5; VI64 a6; VI32 a7; VI32 a8] =>
      Wasmtime_wasi_path_open (as_u32 a0) (as_u32 a1) (as_u32 a2)
        (as_u32 a3) (as_u32 a4) (as_u64 a5) (as_u64 a6) (as_u32 a7) (as_u32 a8)
  | WasiAPIName WasiAPIName.PATH_READLINK, [VI32 a0; VI32 a1; VI32 a2; VI32 a3; VI32 a4; VI32 a5] =>
      Wasmtime_wasi_path_readlink (as_u32 a0) (as_u32 a1) (as_u32 a2)
        (as_u32 a3) (as_u32 a4) (as_u32 a5)
  | WasiAPIName WasiAPIName.PATH_REMOVE_DIRECTORY, [VI32 a0; VI32 a1; VI32 a2] =>
      Wasmtime_wasi_path_remove_directory (as_u32 a0) (as_u32 a1) (as_u32 a2)
  | WasiAPIName WasiAPIName.PATH_RENAME, [VI32 a0; VI32 a1; VI32 a2; VI32 a3; VI32 a4; VI32 a5] =>
      Wasmtime_wasi_path_rename (as_u32 a0) (as_u32 a1) (as_u32 a2)
        (as_u32 a3) (as_u32 a4) (as_u32 a5)
  | WasiAPIName WasiAPIName.PATH_SYMLINK, [VI32 a0; VI32 a1; VI32 a2; VI32 a3; VI32 a4] =>
      Wasmtime_wasi_path_symlink (as_u32 a0) (as_u32 a1) (as_u32 a2) (as_u32 a3) (as_u32 a4)
  | WasiAPIName WasiAPIName.PATH_UNLINK_FILE, [VI32 a0; VI32 a1; VI32 a2] =>
      Wasmtime_wasi_path_unlink_file (as_u32 a0) (as_u32 a1) (as_u32 a2)
  | WasiAPIName WasiAPIName.POLL_ONEOFF, [VI32 a0; VI32 a1; VI32 a2; VI32 a3] =>
      Wasmtime_wasi_poll_oneoff (as_u32 a0) (as_u32 a1) (as_u32 a2) (as_u32 a3)
  | WasiAPIName WasiAPIName.PROC_EXIT, [VI32 a0] => Wasmtime_wasi_proc_exit (as_u32 a0)
  | WasiAPIName WasiAPIName.PROC_RAISE, [VI32 a0] => Wasmtime_wasi_proc_raise (as_u32 a0)
  | WasiAPIName WasiAPIName.SCHED_YIELD, [] => Wasmtime_wasi_sched_yield
  | WasiAPIName WasiAPIName.RANDOM_GET, [VI32 a0; VI32 a1] =>
      Wasmtime_wasi_random_get (as_u32 a0) (as_u32 a1)
  | WasiAPIName WasiAPIName.SOCK_RECV, [VI32 a0; VI32 a1; VI32 a2; VI32 a3; VI32 a4; VI32 a5] =>
      Wasmtime_wasi_sock_recv (as_u32 a0) (as_u32 a1) (as_u32 a2)
        (as_u32 a3) (as_u32 a4) (as_u32 a5)
  | WasiAPIName WasiAPIName.SOCK_SEND, [VI32 a0; VI32 a1; VI32 a2; VI32 a3; VI32 a4] =>
      Wasmtime_wasi_sock_send (as_u32 a0) (as_u32 a1) (as_u32 a2) (as_u32 a3) (as_u32 a4)
  | WasiAPIName WasiAPIName.SOCK_SHUTDOWN, [VI32 a0; VI32 a1] =>
      Wasmtime_wasi_sock_shutdown (as_u32 a0) (as_u32 a1)
  | VeracruzAPIName VeracruzAPIName.FD_CREATE, [VI32 a0] =>
      Wasmtime_veracruz_si_fd_create (as_u32 a0)
  | _, _ => panic Unreachable
  end.

Definition linked_call (f : APIName) (args : list RuntimeValue) :
  HostM (option bytes) P (option RuntimeValue) :=
  let! code := linked_code f args in
  ret match linked_results f with [] => None | _ => Some (VI32 (as_i32 code)) end.

(** The functions by module and name, with their types. *)
Definition linker_lookup (i : import) : option APIName :=
  let name :=
    if decide (im_module i = WASI_SNAPSHOT_MODULE_NAME) then
      WasiAPIName <$> WasiAPIName.from_str (im_field i)
    else if decide (im_module i = VERACRUZ_SI_MODULE_NAME) then
      VeracruzAPIName <$> VeracruzAPIName.from_str (im_field i)
    else None in
  match name, im_kind i with
  | Some f, ImportFunc sig =>
      if decide (params sig = linked_params f ∧ option_list (return_type sig) = linked_results f)
      then Some f else None
  | _, _ => None
  end.

Definition link (imports : list import) : option (list APIName) := mapM linker_lookup imports.

(** ** Running a program *)

Abbreviation C A := (ST (Host (option bytes) P) FatalEngineError A).

(** [info!], and [?] on an [anyhow::Error] *)
Definition log_info (msg : string) : C unit := modify (λ s, set_log (log s ++ [msg]) s).
Definition anyhow {A} (r : outcome string A) : C A := map_err AnyhowError (lift r).

Definition Wasmtime_check_main (tau : ExternType) : EntrySignature :=
  match tau with
  | FuncType params _ =>
      if decide (params = [I32; I32]) then ArgvAndArgc
      else if decide (params = []) then NoParameters
      else NoEntryFound
  | OtherType => NoEntryFound
  end.

(** The run of an instance; [fuel] bounds the number of its steps and calls. *)
Fixpoint wt_run (fuel : nat) (g : wt_guest) :
  ST (Host (option bytes) P) Trap (option RuntimeValue) := λ s,
  match fuel with
  | O => (Abort OutOfFuel, s)
  | S fuel' =>
      match wt_step g (linear_memory s) with
      | GuestReturn v => (Ok v, s)
      | GuestTrap t => (Err t, s)
      | GuestCompute memory g' => wt_run fuel' g' (set_memory (Some memory) s)
      | GuestCall f args resume =>
          match linked_call f args s with
          | (Ok v, s') => wt_run fuel' (resume v) s'
          | (Err _, s') => (Abort Unreachable, s')
          | (Abort p, s') => (Abort p, s')
          end
      end
  end.

(** Instantiation runs the start function of the module, if there is one. *)
Definition wt_run_start (fuel : nat) (i : wt_instance) : C unit :=
  match wt_start i with
  | None => ret tt
  | Some g => do! map_err (λ t, AnyhowError (wt_trap_debug t)) (wt_run fuel g) in ret tt
  end.

(** [get_typed_func(..)?.call(..)], with the [Result] of the call as a value *)
Definition wt_invoke (fuel : nat) (i : wt_instance) (results : list ValueType)
    (args : list RuntimeValue) : C (unit + Trap) :=
  do! fail_if (bool_decide (results ≠ [])) (AnyhowError "type mismatch with results") in
  λ s, match wt_run fuel (wt_call i ENTRY_POINT_NAME args) s with
       | (Ok _, s') => (Ok (inl tt), s')
       | (Err t, s') => (Ok (inr t), s')
       | (Abort p, s') => (Abort p, s')
       end.

Definition exit_code_debug (c : option Z) : string :=
  match c with Some n => "Some(" ++ fmt_dec n ++ ")" | None => "None" end.
Definition return_debug (r : unit + Trap) : string :=
  match r with inl _ => "Ok(())" | inr t => "Err(" ++ wt_trap_debug t ++ ")" end.

Definition invoke_engine (fuel : nat) (binary : bytes) : C Z :=
  let! module := anyhow (wt_module_new binary) in
  do! log_info "Initialize a wasmtime engine." in
  do! log_info "Link external functions." in
  let! funcs := ok_or (link (wt_imports module)) (AnyhowError "unknown or incompatible import") in
  let! instance := anyhow (wt_instantiate module funcs) in
  do! modify (set_memory (wt_memory instance)) in
  do! wt_run_start fuel instance in
  do! log_info "Linker instantiates." in
  let! export := ok_or (wt_export instance ENTRY_POINT_NAME) NoProgramEntryPoint in
  do! log_info "Get the main function." in
  let results := match export with FuncType _ results => results | OtherType => [] end in
  let! return_from_main :=
    match Wasmtime_check_main export with
    | ArgvAndArgc => wt_invoke fuel instance results [VI32 0; VI32 0]
    | NoParameters => wt_invoke fuel instance results []
    | NoEntryFound => throw NoProgramEntryPoint
    end in
  do! log_info "Execution returns." in
  let! s := get in
  let code := exit_code (wrapper s) in
  do! log_info ("Exit code " ++ exit_code_debug code) in
  match code with
  | Some e => ret e
  | None =>
      do! log_info ("The return trace: " ++ return_debug return_from_main
                    ++ ", (it should not reach here).") in
      match return_from_main with
      | inl _ => ret 0
      | inr t => throw (WasmtimeTrapError (wt_trap_debug t))
      end
  end.

Definition Wasmtime_invoke_entry_point (fuel : nat) (program : bytes) (options : Options) : C Z :=
  do! modify (λ s, set_wrapper
        (set_enables (opt_enable_clock options) (opt_enable_strace options)
           (set_environment (opt_environment_variables options)
              (opt_program_arguments options) (wrapper s))) s) in
  invoke_engine fuel program.
End wasmtime.
