(* ===== verification/WasiMemoryProps.v ===== *)
(** * Properties of the memory interface

    Both handlers meet the laws of [MemoryHandler], and from the laws alone:
    integers and buffers that are written are read back, and a write is
    confined to its range. *)

From S2P Require Import Prelude RustPath WasiTypes Policy InodeTable WasiMemory.
Local Open Scope Z_scope.

(** ** Slices of a list *)

Section slices.
Context {E A : Type}.
Implicit Types v w src : list A.

Lemma index_slice_Ok v lo hi w :
  index_slice (E:=E) v lo hi = Ok w ↔
  lo ≤ hi ∧ hi ≤ len v ∧ w = take (Z.to_nat (hi - lo)) (drop (Z.to_nat lo) v).
Proof.
  unfold index_slice. destruct (Z.leb_spec lo hi), (Z.leb_spec hi (len v)); simpl; naive_solver lia.
Qed.

Lemma index_slice_len v lo hi w : 0 ≤ lo → index_slice (E:=E) v lo hi = Ok w → len w = hi - lo.
Proof.
  intros Hlo (? & Hhi & ->)%index_slice_Ok. unfold len in *. rewrite length_take, length_drop. lia.
Qed.

Lemma copy_into_lookup v lo hi src w i :
  0 ≤ lo → copy_into (E:=E) v lo hi src = Ok w →
  w !! i = if decide (Z.to_nat lo ≤ i < Z.to_nat hi)%nat then src !! (i - Z.to_nat lo)%nat
           else v !! i.
Proof.
  intros Hlo (? & ? & ? & ->)%copy_into_Ok. unfold len in *.
  assert (length (take (Z.to_nat lo) v) = Z.to_nat lo) as Hl by (rewrite length_take; lia).
  case_decide as Hi.
  - rewrite lookup_app_r by lia. rewrite lookup_app_l by lia. by rewrite Hl.
  - destruct (decide (i < Z.to_nat lo)%nat).
    + rewrite lookup_app_l by lia. by apply lookup_take_lt.
    + rewrite lookup_app_r, lookup_app_r, lookup_drop by lia. f_equal. lia.
Qed.

Lemma copy_into_length v lo hi src w :
  0 ≤ lo → copy_into (E:=E) v lo hi src = Ok w → len w = len v.
Proof.
  intros Hlo (? & ? & ? & ->)%copy_into_Ok. unfold len in *.
  rewrite !length_app, length_take, length_drop. lia.
Qed.

(** Two lists that agree on a range have the same slice there. *)
Lemma index_slice_ext v w lo hi :
  0 ≤ lo → len v = len w →
  (∀ i, (Z.to_nat lo ≤ i < Z.to_nat hi)%nat → v !! i = w !! i) →
  index_slice (E:=E) v lo hi = index_slice w lo hi.
Proof.
  intros Hlo Hlen Hext. unfold index_slice. rewrite Hlen.
  destruct (Z.leb_spec lo hi); [|done]. destruct (hi <=? len w); [|done]. simpl. f_equal.
  apply list_eq. intros i. destruct (decide (i < Z.to_nat (hi - lo))%nat).
  - rewrite !lookup_take_lt, !lookup_drop by lia. apply Hext. lia.
  - by rewrite !lookup_take_ge by lia.
Qed.

Lemma copy_into_index v lo src w :
  0 ≤ lo → copy_into (E:=E) v lo (lo + len src) src = Ok w →
  index_slice (E:=E) w lo (lo + len src) = Ok src.
Proof.
  intros Hlo Hw. pose proof (copy_into_length _ _ _ _ _ Hlo Hw) as Hlen.
  apply index_slice_Ok. apply copy_into_Ok in Hw as Hw'. destruct Hw' as (? & ? & _ & _).
  split; [lia|]. split; [lia|]. apply list_eq. intros i.
  destruct (decide (i < length src)%nat).
  - rewrite lookup_take_lt, lookup_drop by (unfold len; lia).
    rewrite (copy_into_lookup _ _ _ _ _ (Z.to_nat lo + i)%nat Hlo Hw).
    rewrite decide_True by (unfold len; lia).
    f_equal. lia.
  - rewrite lookup_take_ge by (unfold len; lia). apply lookup_ge_None. lia.
Qed.

Lemma copy_into_index_other v lo src w c n :
  0 ≤ lo → 0 ≤ c → 0 ≤ n → c + n ≤ lo ∨ lo + len src ≤ c →
  copy_into (E:=E) v lo (lo + len src) src = Ok w →
  index_slice (E:=E) w c (c + n) = index_slice v c (c + n).
Proof.
  intros Hlo Hc Hn Hdis Hw. apply index_slice_ext; [done|exact (copy_into_length _ _ _ _ _ Hlo Hw)|].
  intros i Hi. rewrite (copy_into_lookup _ _ _ _ _ i Hlo Hw), decide_False; [done|lia].
Qed.

Lemma copy_like_index v lo src :
  0 ≤ lo →
  is_ok (copy_into (E:=E) v lo (lo + len src) src) = is_ok (index_slice (E:=E) v lo (lo + len src)).
Proof.
  intros Hlo. unfold copy_into, index_slice.
  rewrite (proj2 (Z.eqb_eq (len src) (lo + len src - lo))) by lia. rewrite andb_true_r.
  by destruct (_ && _).
Qed.

Lemma index_slice_sub v lo hi w c k :
  0 ≤ lo ≤ c → 0 ≤ k → c + k ≤ hi → index_slice (E:=E) v lo hi = Ok w →
  index_slice (E:=E) v c (c + k) = Ok (take (Z.to_nat k) (drop (Z.to_nat (c - lo)) w)).
Proof.
  intros Hlo Hk Hhi (? & ? & ->)%index_slice_Ok. apply index_slice_Ok.
  split; [lia|]. split; [lia|]. replace (c + k - c) with k by lia.
  rewrite skipn_firstn_comm, take_take, drop_drop. f_equal; [lia|]. f_equal. lia.
Qed.
End slices.

(** ** The handlers of the two engines *)

#[export] Instance wasmi_memory_laws : MemoryHandlerLaws wasmi_memory.
Proof.
  split; simpl.
  - intros a n m b ? ? Hb. apply index_slice_len in Hb; lia.
  - intros a b m m' Ha Hm. exact (copy_into_index m a b m' Ha Hm).
  - intros a b m m' c n Ha Hc Hn Hd Hm. exact (copy_into_index_other m a b m' c n Ha Hc Hn Hd Hm).
  - intros a b m m' Ha Hm. by rewrite (copy_into_length m _ _ _ m' Ha Hm).
  - intros a b m ?. by apply copy_like_index.
  - intros a n m b c k ? ? ? ? Hb.
    by apply (index_slice_sub m a (a + n)).
  - intros a n m size Ha Hn. destruct (Z.ltb_spec (len m) u32_bound); intros [= <-].
    unfold index_slice. rewrite (proj2 (Z.leb_le a (a + n))) by lia. by destruct (a + n <=? len m).
Qed.

#[export] Instance wasmtime_memory_laws : MemoryHandlerLaws wasmtime_memory.
Proof.
  assert (∀ a b (x : bytes) m',
    match copy_into (E:=ErrNo.t) x a (a + len b) b with
    | Ok y => Ok (Some y) | Err e => Err e | Abort p => Abort p end = Ok m' →
    ∃ y, m' = Some y ∧ copy_into (E:=ErrNo.t) x a (a + len b) b = Ok y) as Hput.
  { intros a b x m' Hm. destruct (copy_into _ _ _ _); naive_solver. }
  split; simpl.
  - intros a n [x|] b Ha Hn Hb; [|done].
    exact (get_slice_len (MH:=wasmi_memory) a n x b Ha Hn Hb).
  - intros a b [x|] m' ? Hm; [|done]. apply Hput in Hm as (y & -> & Hy).
    by apply (put_get_slice (MH:=wasmi_memory) a b x y).
  - intros a b [x|] m' c n ? ? ? ? Hm; [|done]. apply Hput in Hm as (y & -> & Hy).
    by apply (put_get_other (MH:=wasmi_memory) a b x y).
  - intros a b [x|] m' ? Hm; [|done]. apply Hput in Hm as (y & -> & Hy).
    by apply (put_get_size (MH:=wasmi_memory) a b x y).
  - intros a b [x|] Ha; [|done].
    etransitivity; [|exact (put_like_get (MH:=wasmi_memory) a b x Ha)].
    simpl. by destruct (copy_into _ _ _ _).
  - intros a n [x|] b c k ? ? ? ? Hb; [|done].
    by apply (get_slice_sub (MH:=wasmi_memory) a n x b c k).
  - intros a n [x|] size Ha Hn Hs; [|done].
    exact (get_slice_size (MH:=wasmi_memory) a n x size Ha Hn Hs).
Qed.

(** ** Buffers and integers *)

Section memory.
Context {T : Type} {MH : MemoryHandler T} {ML : MemoryHandlerLaws MH}.

Lemma mem_write_ok address buffer m m' :
  mem_write address buffer m = (Ok tt, m') ↔ put_slice address buffer m = Ok m'.
Proof.
  unfold mem_write. destruct (put_slice address buffer m); split; intros Hm; by simplify_eq.
Qed.

Lemma write_buffer_ok address buffer m m' :
  write_buffer address buffer m = (Ok tt, m') ↔
  len buffer < u32_bound ∧ put_slice address buffer m = Ok m'.
Proof.
  unfold write_buffer, try_from_or_errno, lift, bind. simpl.
  pose proof (len_nonneg buffer).
  rewrite (proj2 (Z.leb_le 0 (len buffer))) by lia. simpl.
  destruct (Z.ltb_spec (len buffer) u32_bound); simpl.
  - rewrite mem_write_ok. naive_solver.
  - split; [done|lia].
Qed.

Lemma read_buffer_run address n m :
  0 ≤ n < u32_bound → read_buffer address n m = (get_slice address n m, m).
Proof. intros Hn. unfold read_buffer. by rewrite try_from_or_errno_in by lia. Qed.

(** What [write_buffer] has stored is there, and the rest is as it was. *)
Lemma write_buffer_get address buffer m m' :
  0 ≤ address → write_buffer address buffer m = (Ok tt, m') →
  get_slice address (len buffer) m' = Ok buffer.
Proof. intros Ha [_ Hm]%write_buffer_ok. exact (put_get_slice _ _ _ _ Ha Hm). Qed.

Lemma write_buffer_other address buffer m m' c n :
  0 ≤ address → 0 ≤ c → 0 ≤ n → c + n ≤ address ∨ address + len buffer ≤ c →
  write_buffer address buffer m = (Ok tt, m') → get_slice c n m' = get_slice c n m.
Proof. intros Ha Hc Hn Hd [_ Hm]%write_buffer_ok. exact (put_get_other _ _ _ _ _ _ Ha Hc Hn Hd Hm). Qed.

Lemma read_int n address number m m' :
  0 ≤ address → 0 ≤ Z.of_nat n < u32_bound →
  write_buffer address (to_le_bytes n number) m = (Ok tt, m') →
  (let! bs := read_buffer address (Z.of_nat n) in ret (from_le_bytes bs)) m' =
    (Ok (number mod 256 ^ Z.of_nat n), m').
Proof.
  intros Ha Hn Hm. unfold bind, ret. rewrite read_buffer_run by done.
  apply write_buffer_get in Hm; [|done]. unfold len in Hm. rewrite length_to_le_bytes in Hm.
  by rewrite Hm, from_to_le_bytes.
Qed.

Lemma write_u32_get address number m m' :
  0 ≤ address → write_u32 address number m = (Ok tt, m') →
  read_u32 address m' = (Ok (number mod u32_bound), m').
Proof. intros Ha Hm. by apply (read_int 4 address number m m'). Qed.

Lemma write_u64_get address number m m' :
  0 ≤ address → write_u64 address number m = (Ok tt, m') →
  read_u64 address m' = (Ok (number mod u64_bound), m').
Proof. intros Ha Hm. by apply (read_int 8 address number m m'). Qed.

Lemma write_u32_other address number m m' c n :
  0 ≤ address → 0 ≤ c → 0 ≤ n → c + n ≤ address ∨ address + 4 ≤ c →
  write_u32 address number m = (Ok tt, m') → get_slice c n m' = get_slice c n m.
Proof.
  intros Ha Hc Hn Hd. apply write_buffer_other; [done..|].
  unfold len. by rewrite length_to_le_bytes.
Qed.

(** ** Lists of strings *)

(** The memory holds [content] from [address] on, and the starts of its
    strings in the array at [pointers]. *)
Fixpoint strings_at (content : list bytes) (address pointers : Z) (m : T) : Prop :=
  match content with
  | [] => True
  | b :: content' =>
      get_slice address (len b) m = Ok b ∧
      (read_u32 pointers m).1 = Ok address ∧
      strings_at content' (address + len b) (pointers + 4) m
  end.

Lemma read_u32_frame a m m' :
  get_slice a 4 m' = get_slice a 4 m → (read_u32 a m').1 = (read_u32 a m).1.
Proof.
  intros Heq. unfold read_u32, bind. rewrite !read_buffer_run, Heq by lia.
  by destruct (get_slice a 4 m).
Qed.

Lemma write_string_step_ok {BP : BuildProfile} a p b r m m' :
  a + len b < u32_bound → 0 ≤ a → p + 4 < u32_bound →
  write_string_step (a, p) b m = (Ok r, m') →
  r = (a + len b, p + 4) ∧
  ∃ m1, write_buffer a b m = (Ok tt, m1) ∧ write_u32 p a m1 = (Ok tt, m').
Proof.
  intros Hab Ha Hp. pose proof (len_nonneg b). unfold write_string_step.
  intros ([] & m1 & Hb & Hrest)%bind_ok. apply bind_ok in Hrest as ([] & m2 & Hu & Hrest).
  unfold u32_add in Hrest. rewrite Z.mod_small, !unsigned_add_small in Hrest by lia.
  unfold bind, lift, ret in Hrest. simplify_eq. eauto.
Qed.

(** The loop writes only behind the addresses it has reached. *)
Lemma write_strings_frame {BP : BuildProfile} content a p r m m' c n :
  0 ≤ a → 0 ≤ p → 0 ≤ c → 0 ≤ n →
  a + len (concat content) < u32_bound → p + 4 * len content < u32_bound →
  c + n ≤ a ∨ a + len (concat content) ≤ c → c + n ≤ p ∨ p + 4 * len content ≤ c →
  fold_st write_string_step content (a, p) m = (Ok r, m') →
  get_slice c n m' = get_slice c n m.
Proof.
  revert a p m. induction content as [|b content IH]; intros a p m Ha Hp Hc Hn Hab Hpb Hd1 Hd2;
    simpl; [by intros [= _ <-]|].
  assert (len (concat (b :: content)) = len b + len (concat content)) as Hl1
    by (unfold len; simpl; rewrite length_app; lia).
  assert (len (b :: content) = 1 + len content) as Hl2 by (unfold len; simpl; lia).
  rewrite Hl1 in *. rewrite Hl2 in *. pose proof (len_nonneg b).
  pose proof (len_nonneg (concat content)). pose proof (len_nonneg content).
  intros (r1 & m1 & Hstep & Hrest)%bind_ok.
  apply write_string_step_ok in Hstep as (-> & m2 & Hb & Hu); [|lia..].
  rewrite (IH (a + len b) (p + 4) m1 ltac:(lia) ltac:(lia) Hc Hn ltac:(lia) ltac:(lia)
             ltac:(lia) ltac:(lia) Hrest).
  rewrite (write_u32_other p a m2 m1 c n Hp Hc Hn ltac:(lia) Hu).
  exact (write_buffer_other a b m m2 c n Ha Hc Hn ltac:(lia) Hb).
Qed.

Lemma write_strings_at {BP : BuildProfile} content a p r m m' :
  0 ≤ a → 0 ≤ p → a + len (concat content) < u32_bound → p + 4 * len content < u32_bound →
  a + len (concat content) ≤ p ∨ p + 4 * len content ≤ a →
  fold_st write_string_step content (a, p) m = (Ok r, m') →
  strings_at content a p m'.
Proof.
  revert a p m. induction content as [|b content IH]; intros a p m Ha Hp Hab Hpb Hd; simpl; [done|].
  assert (len (concat (b :: content)) = len b + len (concat content)) as Hl1
    by (unfold len; simpl; rewrite length_app; lia).
  assert (len (b :: content) = 1 + len content) as Hl2 by (unfold len; simpl; lia).
  rewrite Hl1 in *. rewrite Hl2 in *. pose proof (len_nonneg b).
  pose proof (len_nonneg (concat content)). pose proof (len_nonneg content).
  intros (r1 & m1 & Hstep & Hrest)%bind_ok.
  apply write_string_step_ok in Hstep as (-> & m2 & Hb & Hu); [|lia..].
  assert (∀ c n, 0 ≤ c → 0 ≤ n → c + n ≤ a + len b ∨ a + len b + len (concat content) ≤ c →
    c + n ≤ p + 4 ∨ p + 4 + 4 * len content ≤ c → get_slice c n m' = get_slice c n m1) as Hframe.
  { intros c n Hc Hn Hd1 Hd2.
    apply (write_strings_frame content (a + len b) (p + 4) r m1 m' c n); [lia..|exact Hrest]. }
  split_and!.
  - rewrite Hframe by lia.
    rewrite (write_u32_other p a m2 m1 a (len b) Hp Ha ltac:(lia) ltac:(lia) Hu).
    exact (write_buffer_get _ _ _ _ Ha Hb).
  - rewrite (read_u32_frame p m1 m') by (apply Hframe; lia).
    rewrite (write_u32_get _ _ _ _ Hp Hu). simpl. by rewrite Z.mod_small by lia.
  - eapply IH; [..|exact Hrest]; lia.
Qed.
End memory.
