(* ===== verification/WasiSim.v ===== *)
(** * A simulation between host states

    The WASI wrapper run on two states of the host, which may differ in the
    implementation of the memory, in the log, and in whether calls are
    traced.  Every call of the wrapper respects the relation; its instances
    compare the two execution engines, and a traced run with an untraced
    one. *)

From S2P Require Import Prelude RustPath WasiTypes Policy InodeTable FileSystem FsOps Services.
From S2P Require Import Platform WasiMemory WasiHost Strace Wasi.
Local Open Scope Z_scope.

(** ** Simulations of monadic code *)

(** From related states, two computations return equal results and related
    states.  In the [strict] form they also panic alike; otherwise one of
    them may panic and nothing is said of that run. *)
Definition sim {S1 S2 E A} (R : S1 → S2 → Prop) (strict : bool) (m1 : ST S1 E A)
    (m2 : ST S2 E A) : Prop := ∀ s1 s2, R s1 s2 →
  match m1 s1, m2 s2 with
  | (Ok a, s1'), (Ok b, s2') => a = b ∧ R s1' s2'
  | (Err e, s1'), (Err e', s2') => e = e' ∧ R s1' s2'
  | (Abort p, s1'), (Abort q, s2') => strict = true → p = q ∧ R s1' s2'
  | (Abort _, _), _ | _, (Abort _, _) => strict = false
  | _, _ => False
  end.

Section rules.
Context {S1 S2 E : Type} (R : S1 → S2 → Prop) (strict : bool).

Lemma sim_ret {A} (a : A) : sim (E:=E) R strict (ret a) (ret a).
Proof. by intros s1 s2 HR. Qed.
Lemma sim_throw {A} (e : E) : sim R strict (throw (A:=A) e) (throw e).
Proof. by intros s1 s2 HR. Qed.
Lemma sim_panic {A} p : sim R strict (panic (E:=E) (A:=A) p) (panic p).
Proof. by intros s1 s2 HR. Qed.
Lemma sim_lift {A} (r : outcome E A) : sim R strict (lift r) (lift r).
Proof. intros s1 s2 HR. unfold lift. by destruct r. Qed.
Lemma sim_ok_or {A} (o : option A) e : sim (E:=E) R strict (ok_or o e) (ok_or o e).
Proof. intros s1 s2 HR. unfold ok_or. by destruct o. Qed.
Lemma sim_fail_if b e : sim (E:=E) R strict (fail_if b e) (fail_if b e).
Proof. intros s1 s2 HR. unfold fail_if. by destruct b. Qed.

Lemma sim_bind {A B} (m1 : ST S1 E A) m2 (k1 : A → ST S1 E B) k2 :
  sim R strict m1 m2 → (∀ a, sim R strict (k1 a) (k2 a)) →
  sim R strict (bind m1 k1) (bind m2 k2).
Proof.
  intros Hm Hk s1 s2 HR. specialize (Hm s1 s2 HR). unfold bind.
  destruct (m1 s1) as [[a|e|p] s1'], (m2 s2) as [[b|e'|q] s2']; try done.
  - destruct Hm as [-> HR']. by apply Hk.
  - destruct (k1 a s1') as [[] ?]; try done. by rewrite Hm.
  - destruct (k2 b s2') as [[] ?]; try done. by rewrite Hm.
Qed.

Lemma sim_get {B} (k1 : S1 → ST S1 E B) k2 :
  (∀ s1 s2, R s1 s2 → sim R strict (k1 s1) (k2 s2)) →
  sim R strict (bind get k1) (bind get k2).
Proof. intros Hk s1 s2 HR. by apply Hk. Qed.

Lemma sim_try_match {A B} (m1 : ST S1 E A) m2 (ok1 : A → ST S1 E B) ok2 err1 err2 :
  sim R strict m1 m2 → (∀ a, sim R strict (ok1 a) (ok2 a)) →
  (∀ e, sim R strict (err1 e) (err2 e)) →
  sim R strict (try_match m1 ok1 err1) (try_match m2 ok2 err2).
Proof.
  intros Hm Hok Herr s1 s2 HR. specialize (Hm s1 s2 HR). unfold try_match.
  destruct (m1 s1) as [[a|e|p] s1'], (m2 s2) as [[b|e'|q] s2']; try done.
  - destruct Hm as [-> HR']. by apply Hok.
  - destruct (ok1 a s1') as [[] ?]; try done. by rewrite Hm.
  - destruct Hm as [-> HR']. by apply Herr.
  - destruct (err1 e s1') as [[] ?]; try done. by rewrite Hm.
  - destruct (ok2 b s2') as [[] ?]; try done. by rewrite Hm.
  - destruct (err2 e' s2') as [[] ?]; try done. by rewrite Hm.
Qed.

Lemma sim_fold {A X} (body1 : A → X → ST S1 E A) body2 l acc :
  (∀ a x, sim R strict (body1 a x) (body2 a x)) →
  sim R strict (fold_st body1 l acc) (fold_st body2 l acc).
Proof.
  intros Hb. revert acc. induction l as [|x l IH]; intros acc; simpl; [apply sim_ret|].
  by apply sim_bind.
Qed.
End rules.

Lemma sim_lenient {S1 S2 E A} (R : S1 → S2 → Prop) strict (m1 : ST S1 E A) (m2 : ST S2 E A) :
  sim R true m1 m2 → sim R strict m1 m2.
Proof.
  intros Hm s1 s2 HR. specialize (Hm s1 s2 HR).
  destruct (m1 s1) as [[]], (m2 s2) as [[]]; try done. by intros _; apply Hm.
Qed.

(** One step of a simulation proof by the shape of the computations. *)
Create HintDb simulation.
Ltac simulate :=
  repeat first
    [ assumption
    | solve [eauto with simulation]
    | apply sim_ret | apply sim_throw | apply sim_panic | apply sim_lift | apply sim_ok_or
    | apply sim_fail_if
    | apply sim_bind; [|intros ?]
    | apply sim_fold; intros ? ?
    | progress case_match ].

(** ** Memories *)

(** Two handlers that answer alike on memories related by [Rm]. *)
Class MemorySim {T1 T2} (M1 : MemoryHandler T1) (M2 : MemoryHandler T2) (Rm : T1 → T2 → Prop) :
    Prop := {
  sim_get_slice a n m1 m2 : Rm m1 m2 → get_slice a n m1 = get_slice a n m2;
  sim_get_size m1 m2 : Rm m1 m2 → get_size m1 = get_size m2;
  sim_put_slice a b m1 m2 :
    Rm m1 m2 →
    match put_slice a b m1, put_slice a b m2 with
    | Ok m1', Ok m2' => Rm m1' m2'
    | Err e, Err e' => e = e'
    | Abort p, Abort q => p = q
    | _, _ => False
    end;
}.

#[export] Instance memory_sim_eq {T} (MH : MemoryHandler T) : MemorySim MH MH eq.
Proof. split; intros; subst; try done. by destruct (put_slice a b m2). Qed.

(** A memory of the interpreter and the same memory exported to the compiled
    program. *)
Definition exported (m : bytes) (export : option bytes) : Prop := export = Some m.

#[export] Instance memory_sim_engines : MemorySim wasmi_memory wasmtime_memory exported.
Proof.
  unfold exported. split; intros; subst; try done. simpl. by destruct (copy_into _ _ _ _).
Qed.

Section memory.
Context {BP : BuildProfile} {SL : StructLayout} {T1 T2 : Type} {M1 : MemoryHandler T1}
  {M2 : MemoryHandler T2} {Rm : T1 → T2 → Prop} {MS : MemorySim M1 M2 Rm}.

Lemma sim_mem_get a n : sim Rm true (mem_read (get_slice a n)) (mem_read (get_slice a n)).
Proof.
  intros m1 m2 HR. unfold mem_read. rewrite (sim_get_slice a n m1 m2 HR).
  by destruct (get_slice a n m2).
Qed.

Lemma sim_mem_size : sim Rm true (mem_read get_size) (mem_read get_size).
Proof.
  intros m1 m2 HR. unfold mem_read. rewrite (sim_get_size m1 m2 HR). by destruct (get_size m2).
Qed.

Lemma sim_mem_write a b : sim Rm true (mem_write a b) (mem_write a b).
Proof.
  intros m1 m2 HR. unfold mem_write. pose proof (sim_put_slice a b m1 m2 HR) as Hp.
  destruct (put_slice a b m1), (put_slice a b m2); naive_solver.
Qed.
#[local] Hint Resolve sim_mem_get sim_mem_size sim_mem_write : simulation.

Lemma sim_write_buffer a b : sim Rm true (write_buffer a b) (write_buffer a b).
Proof. unfold write_buffer. simulate. Qed.
Lemma sim_read_buffer a n : sim Rm true (read_buffer a n) (read_buffer a n).
Proof. unfold read_buffer. simulate. Qed.
#[local] Hint Resolve sim_write_buffer sim_read_buffer : simulation.

Lemma sim_read_cstring a n : sim Rm true (read_cstring a n) (read_cstring a n).
Proof. unfold read_cstring. simulate. Qed.
Lemma sim_read_u16 a : sim Rm true (read_u16 a) (read_u16 a).
Proof. unfold read_u16. simulate. Qed.
Lemma sim_read_u32 a : sim Rm true (read_u32 a) (read_u32 a).
Proof. unfold read_u32. simulate. Qed.
Lemma sim_read_u64 a : sim Rm true (read_u64 a) (read_u64 a).
Proof. unfold read_u64. simulate. Qed.
Lemma sim_write_u32 a n : sim Rm true (write_u32 a n) (write_u32 a n).
Proof. apply sim_write_buffer. Qed.
Lemma sim_write_u64 a n : sim Rm true (write_u64 a n) (write_u64 a n).
Proof. apply sim_write_buffer. Qed.
Lemma sim_write_struct {A} (repr : A → bytes) a x :
  sim Rm true (write_struct repr a x) (write_struct repr a x).
Proof. apply sim_write_buffer. Qed.
#[local] Hint Resolve sim_write_u32 sim_write_struct : simulation.

Lemma sim_unpack_array {A} `{Unpack A} a n :
  sim Rm true (unpack_array (A:=A) a n) (unpack_array a n).
Proof. unfold unpack_array, collect_st, unpack. simulate. Qed.

Lemma sim_iovec_slice m a i : sim Rm true (iovec_slice m a i) (iovec_slice m a i).
Proof. unfold iovec_slice. simulate. Qed.
#[local] Hint Resolve sim_iovec_slice : simulation.

Lemma sim_unpack_iovec a n : sim Rm true (unpack_iovec a n) (unpack_iovec a n).
Proof. unfold unpack_iovec, collect_st. simulate. Qed.
Lemma sim_unpack_iovec_mut a n : sim Rm true (unpack_iovec_mut a n) (unpack_iovec_mut a n).
Proof. unfold unpack_iovec_mut, collect_st. simulate. Qed.

Lemma sim_write_string_list content a p :
  sim Rm true (write_string_list content a p) (write_string_list content a p).
Proof. unfold write_string_list, write_string_step. simulate. Qed.

Lemma sim_fill_slices slices bufs n :
  sim Rm true (fill_slices slices bufs n) (fill_slices slices bufs n).
Proof.
  revert bufs n. induction slices as [|[a old] slices IH]; intros [|buf bufs] n; simpl; simulate.
Qed.

Lemma sim_write_dirents {WR : WasiRights} {WC : WasiCodes} entries a w n :
  sim Rm true (write_dirents entries a w n) (write_dirents entries a w n).
Proof. revert a w. induction entries as [|[d p] entries IH]; intros a w; simpl; simulate. Qed.
End memory.
#[export] Hint Resolve sim_write_buffer sim_read_buffer sim_read_cstring sim_read_u16 sim_read_u32
  sim_read_u64 sim_write_u32 sim_write_u64 sim_write_struct sim_unpack_array sim_unpack_iovec
  sim_unpack_iovec_mut sim_write_string_list sim_fill_slices sim_write_dirents : simulation.

(** ** Host states *)

(** The wrapper without its choice of tracing. *)
Definition untraced {WR : WasiRights} (w : WasiWrapper) : WasiWrapper :=
  set_enables (enable_clock w) false w.

(** Equal up to the memory, which is related, the log, and, unless [strict],
    the choice of tracing. *)
Definition related {WR : WasiRights} {T1 T2 P} (Rm : T1 → T2 → Prop) (strict : bool)
    (h1 : Host T1 P) (h2 : Host T2 P) : Prop :=
  untraced (wrapper h1) = untraced (wrapper h2) ∧
  (strict = true → enable_strace (wrapper h1) = enable_strace (wrapper h2)) ∧
  host_world h1 = host_world h2 ∧ Rm (linear_memory h1) (linear_memory h2) ∧
  platform h1 = platform h2.

Section host.
Context {BP : BuildProfile} {WR : WasiRights} {T1 T2 P : Type} {M1 : MemoryHandler T1}
  {M2 : MemoryHandler T2} {Rm : T1 → T2 → Prop} {MS : MemorySim M1 M2 Rm}.

Lemma related_wrapper strict (h1 : Host T1 P) (h2 : Host T2 P) :
  related Rm strict h1 h2 →
  filesystem (wrapper h1) = filesystem (wrapper h2) ∧
  environment_variables (wrapper h1) = environment_variables (wrapper h2) ∧
  program_arguments (wrapper h1) = program_arguments (wrapper h2) ∧
  exit_code (wrapper h1) = exit_code (wrapper h2) ∧
  enable_clock (wrapper h1) = enable_clock (wrapper h2).
Proof. intros (Hw & _). unfold untraced, set_enables in Hw. by simplify_eq. Qed.

Lemma related_fs strict (h1 : Host T1 P) (h2 : Host T2 P) : related Rm strict h1 h2 → fs_of h1 = fs_of h2.
Proof.
  intros HR. destruct (related_wrapper _ _ _ HR) as (Hf & _). destruct HR as (_ & _ & Hw & _).
  unfold fs_of. by rewrite Hf, Hw.
Qed.

Lemma related_log strict (h1 : Host T1 P) (h2 : Host T2 P) l1 l2 :
  related Rm strict h1 h2 → related Rm strict (set_log l1 h1) (set_log l2 h2).
Proof. done. Qed.

Lemma sim_on_fs strict {A} (op : M A) : sim (related (P:=P) Rm strict) strict (on_fs op) (on_fs op).
Proof.
  intros h1 h2 HR. unfold on_fs, zoom. rewrite (related_fs _ _ _ HR).
  destruct (op (fs_of h2)) as [r f].
  assert (related Rm strict (set_fs f h1) (set_fs f h2)) as HR'.
  { destruct (related_wrapper _ _ _ HR) as (_ & He & Ha & Hc & Hk), HR as (_ & Hs & _ & Hm & Hp).
    split_and!; [|done..]. unfold untraced, set_enables. simpl. by rewrite He, Ha, Hc, Hk. }
  by destruct r.
Qed.

Lemma sim_on_memory strict {A} (op1 : ST T1 ErrNo.t A) op2 :
  sim Rm true op1 op2 → sim (related (P:=P) Rm strict) strict (on_memory op1) (on_memory op2).
Proof.
  intros Hop h1 h2 HR. destruct HR as (Hw & Hs & Hwo & Hm & Hp). specialize (Hop _ _ Hm).
  unfold on_memory, zoom.
  destruct (op1 (linear_memory h1)) as [[] m1], (op2 (linear_memory h2)) as [[] m2];
    try done; [destruct Hop as [-> Hop]..|intros _; destruct (Hop eq_refl) as [-> Hop']];
    (split; [done|by split_and!]).
Qed.

Lemma sim_on_platform strict {A} (op : P → A * P) :
  sim (related Rm strict) strict (on_platform op) (on_platform op).
Proof.
  intros h1 h2 (Hw & Hs & Hwo & Hm & Hp). unfold on_platform. rewrite Hp.
  by destruct (op (platform h2)).
Qed.

Lemma sim_info strict msg : sim (related (P:=P) Rm strict) strict (info msg) (info msg).
Proof. by intros h1 h2 HR. Qed.

Lemma sim_attempt strict {A} (m1 : HostM T1 P A) (m2 : HostM T2 P A) :
  sim (related Rm strict) strict m1 m2 →
  sim (related Rm strict) strict (attempt m1) (attempt m2).
Proof. intros Hm. apply sim_try_match; [done|intros; apply sim_ret..]. Qed.

(** *** Tracing *)

(** A computation that only writes to the log. *)
Definition quiet {T A} (m : HostM T P A) : Prop := ∀ h,
  match m h with
  | (Ok _, h') => ∃ l, h' = set_log l h
  | (Err _, _) => False
  | (Abort _, _) => True
  end.

Lemma quiet_ret {T A} (a : A) : quiet (T:=T) (ret a).
Proof. intros h. exists (log h). by destruct h. Qed.
Lemma quiet_info {T} msg : quiet (T:=T) (info msg).
Proof. intros h. by eexists. Qed.

Lemma quiet_bind {T A B} (m : HostM T P A) (k : A → HostM T P B) :
  quiet m → (∀ a, quiet (k a)) → quiet (bind m k).
Proof.
  intros Hm Hk h. specialize (Hm h). unfold bind. destruct (m h) as [[a| |] h']; try done.
  destruct Hm as [l ->]. specialize (Hk a (set_log l h)).
  by destruct (k a (set_log l h)) as [[] ?].
Qed.

(** A read of the memory leaves it as it is. *)
Definition reads {T A} (op : ST T ErrNo.t A) : Prop := ∀ m, (op m).2 = m.

Lemma quiet_print_read {T A} (op : ST T ErrNo.t A) (print : A → HostM T P unit) msg :
  reads op → (∀ a, quiet (print a)) → quiet (print_read op print msg).
Proof.
  intros Hop Hprint h. unfold print_read, try_match, on_memory, zoom.
  specialize (Hop (linear_memory h)). destruct (op (linear_memory h)) as [[a|e|p] m]; simpl in Hop;
    subst m; [|by eexists|done].
  specialize (Hprint a (set_memory (linear_memory h) h)). by destruct h.
Qed.

Lemma quiet_strace_arg {T} (p : HostM T P unit) st : quiet p → quiet (strace_arg p st).
Proof.
  intros Hp. unfold strace_arg. destruct (enabled st); [|apply quiet_ret].
  apply quiet_bind; [|intros a; apply quiet_bind; [done|intros; apply quiet_ret]].
  unfold arg_print_comma. destruct (state st); [apply quiet_ret|..];
    (apply quiet_bind; [apply quiet_info|intros; apply quiet_ret]).
Qed.
End host.
#[export] Hint Resolve sim_on_fs sim_on_memory sim_on_platform sim_info sim_attempt : simulation.

Section reads.
Context {BP : BuildProfile} {SL : StructLayout} {T : Type} {MH : MemoryHandler T}.

Lemma reads_ret {A} (a : A) : reads (T:=T) (ret a).
Proof. done. Qed.
Lemma reads_lift {A} (r : outcome ErrNo.t A) : reads (T:=T) (lift r).
Proof. done. Qed.
Lemma reads_mem_read {A} (f : T → outcome ErrNo.t A) : reads (mem_read f).
Proof. done. Qed.
Lemma reads_bind {A B} (m : ST T ErrNo.t A) (k : A → ST T ErrNo.t B) :
  reads m → (∀ a, reads (k a)) → reads (bind m k).
Proof.
  intros Hm Hk x. unfold bind. specialize (Hm x). destruct (m x) as [[a| |] x']; simpl in *; subst;
    [apply Hk|done..].
Qed.
Lemma reads_fold {A X} (body : A → X → ST T ErrNo.t A) l acc :
  (∀ a x, reads (body a x)) → reads (fold_st body l acc).
Proof.
  intros Hb. revert acc. induction l as [|x l IH]; intros acc; simpl; [apply reads_ret|].
  by apply reads_bind.
Qed.
#[local] Hint Resolve reads_ret reads_lift reads_mem_read reads_bind reads_fold : simulation.

Lemma reads_buffer a n : reads (T:=T) (read_buffer a n).
Proof. unfold read_buffer. auto with simulation. Qed.
Lemma reads_u16 a : reads (T:=T) (read_u16 a).
Proof. apply reads_bind; [apply reads_buffer|done]. Qed.
Lemma reads_u32 a : reads (T:=T) (read_u32 a).
Proof. apply reads_bind; [apply reads_buffer|done]. Qed.
Lemma reads_u64 a : reads (T:=T) (read_u64 a).
Proof. apply reads_bind; [apply reads_buffer|done]. Qed.
Lemma reads_iovec a n : reads (T:=T) (unpack_iovec a n).
Proof.
  unfold unpack_iovec, collect_st, iovec_slice.
  apply reads_bind; [auto with simulation|intros]. apply reads_bind; [auto with simulation|intros].
  apply reads_bind; [|done]. apply reads_fold. intros acc i.
  apply reads_bind; [|done]. repeat (apply reads_bind; [auto with simulation|intros]). done.
Qed.
End reads.
#[export] Hint Resolve reads_buffer reads_u16 reads_u32 reads_u64 reads_iovec : simulation.

(** ** Traced calls *)

Section traced.
Context {BP : BuildProfile} {WR : WasiRights} {SL : StructLayout} {ED : ErrNoDebug}
  {T1 T2 P : Type} {M1 : MemoryHandler T1} {M2 : MemoryHandler T2} {Rm : T1 → T2 → Prop}
  {MS : MemorySim M1 M2 Rm}.

(** Two arguments of a trace that only log, and read alike. *)
Record arg_sim (f : Strace → HostM T1 P Strace) (g : Strace → HostM T2 P Strace) : Prop := {
  arg_quiet_l st : quiet (f st);
  arg_quiet_r st : quiet (g st);
  arg_sim_run st : sim (related Rm true) true (f st) (g st);
}.

Lemma sim_strace_arg (p1 : HostM T1 P unit) (p2 : HostM T2 P unit) :
  quiet p1 → quiet p2 → sim (related Rm true) true p1 p2 →
  arg_sim (strace_arg p1) (strace_arg p2).
Proof.
  intros H1 H2 Hp. split; intros st; [by apply quiet_strace_arg..|].
  unfold strace_arg, arg_print_comma. simulate.
Qed.

Lemma sim_print_read {A} (op1 : ST T1 ErrNo.t A) (op2 : ST T2 ErrNo.t A)
    (k1 : A → HostM T1 P unit) (k2 : A → HostM T2 P unit) msg :
  sim Rm true op1 op2 → (∀ a, sim (related Rm true) true (k1 a) (k2 a)) →
  sim (related Rm true) true (print_read op1 k1 msg) (print_read op2 k2 msg).
Proof.
  intros Hop Hk. apply sim_try_match; [by apply sim_on_memory|done|].
  intros e. apply sim_info.
Qed.

#[local] Hint Resolve quiet_info quiet_print_read sim_print_read sim_strace_arg : simulation.

Lemma sim_arg_info msg : arg_sim (strace_arg (info msg)) (strace_arg (info msg)).
Proof. auto with simulation. Qed.

Lemma sim_arg_read {A} (op1 : ST T1 ErrNo.t A) (op2 : ST T2 ErrNo.t A) (f : A → string) msg :
  sim Rm true op1 op2 → reads op1 → reads op2 →
  arg_sim (strace_arg (print_read op1 (λ x, info (f x)) msg))
          (strace_arg (print_read op2 (λ x, info (f x)) msg)).
Proof. auto 10 with simulation. Qed.

Lemma sim_arg_iovec res base count address :
  arg_sim (arg_iovec res base count address) (arg_iovec res base count address).
Proof.
  unfold arg_iovec. destruct res; [|auto with simulation].
  apply sim_strace_arg; [apply quiet_print_read; auto with simulation..|].
  apply sim_print_read; [auto with simulation|intros len]. auto with simulation.
Qed.

Lemma sim_arg_prestat_out res adr : arg_sim (arg_prestat_out res adr) (arg_prestat_out res adr).
Proof.
  unfold arg_prestat_out. destruct res; [|auto with simulation].
  apply sim_strace_arg; [apply quiet_print_read; [auto with simulation|];
    intros x; case_match; auto with simulation..|].
  apply sim_print_read; [auto with simulation|intros x]. case_match; auto with simulation.
Qed.

Lemma sim_fold2 {A} (l1 : list (A → HostM T1 P A)) (l2 : list (A → HostM T2 P A)) acc :
  Forall2 (λ f g, ∀ a, sim (related Rm true) true (f a) (g a)) l1 l2 →
  sim (related Rm true) true (fold_st (λ a f, f a) l1 acc) (fold_st (λ a f, f a) l2 acc).
Proof.
  intros Hl. revert acc. induction Hl as [|f g l1 l2 Hf Hl IH]; intros acc; simpl; [apply sim_ret|].
  by apply sim_bind.
Qed.

Lemma quiet_fold {T A} (l : list (A → HostM T P A)) acc :
  Forall (λ f, ∀ a, quiet (f a)) l → quiet (fold_st (λ a f, f a) l acc).
Proof.
  intros Hl. revert acc. induction Hl as [|f l Hf Hl IH]; intros acc; simpl; [apply quiet_ret|].
  by apply quiet_bind.
Qed.

(** A traced call that returns has made the call: tracing adds to the log. *)
Lemma traced_run {T} {MH : MemoryHandler T} name (call : HostM T P unit) args h r h' :
  (∀ res, Forall (λ f, ∀ st, quiet (f st)) (args res)) →
  traced name call args h = (r, h') → (∀ p, r ≠ Abort p) →
  ∃ l l' h'', call (set_log l h) = (r, h'') ∧ h' = set_log l' h''.
Proof.
  intros Hargs Hrun Hr. unfold traced in Hrun.
  assert (∀ b, quiet (Strace_func (T:=T) (P:=P) b name)) as Hfunc.
  { intros b. unfold Strace_func. apply quiet_bind; [|intros; apply quiet_ret].
    case_match; [apply quiet_info|apply quiet_ret]. }
  assert (∀ st res, quiet (T:=T) (P:=P) (print_result st res)) as Hres.
  { intros st res. unfold print_result. case_match; [|apply quiet_ret].
    apply quiet_bind; [case_match; auto using quiet_ret, quiet_info|].
    intros _. case_match; apply quiet_info. }
  unfold bind at 1, get in Hrun. specialize (Hfunc (enable_strace (wrapper h)) h).
  unfold bind at 1 in Hrun. destruct (Strace_func _ name h) as [[st| |p] h1];
    [|done|injection Hrun as <- _; by destruct (Hr p)].
  destruct Hfunc as [l ->]. exists l. unfold bind at 1, attempt, try_match in Hrun.
  destruct (call (set_log l h)) as [res h2].
  assert (∀ (x : unit + ErrNo.t) (fin : outcome ErrNo.t unit),
    (let! st := fold_st (λ st arg, arg st) (args x) st in Strace_result st x) h2 = (r, h') →
    match x with inl _ => Ok tt | inr e => Err e end = fin →
    ∃ l' h'', (fin, h2) = (r, h'') ∧ h' = set_log l' h'') as Hfin.
  { intros x fin Hx Hf. unfold bind at 1 in Hx. 
    pose proof (quiet_fold (args x) st (Hargs x) h2) as Hq.
    destruct (fold_st _ (args x) st h2) as [[st'| |p] h3];
      [|done|injection Hx as <- _; by destruct (Hr p)].
    destruct Hq as [l' ->]. unfold Strace_result, bind at 1 in Hx.
    specialize (Hres st' x (set_log l' h2)).
    destruct (print_result st' x (set_log l' h2)) as [[| |p] h4];
      [|done|injection Hx as <- _; by destruct (Hr p)].
    destruct Hres as [l'' ->]. exists l'', h2. subst fin.
    by destruct x; injection Hx as <- <-. }
  destruct res as [[]|e|p]; [exact (Hfin (inl tt) _ Hrun eq_refl)|exact (Hfin (inr e) _ Hrun eq_refl)|].
  injection Hrun as <- _. by destruct (Hr p).
Qed.

Lemma sim_traced strict name (call1 : HostM T1 P unit) (call2 : HostM T2 P unit) args1 args2 :
  sim (related Rm strict) strict call1 call2 →
  (∀ res, Forall2 arg_sim (args1 res) (args2 res)) →
  sim (related Rm strict) strict (traced name call1 args1) (traced name call2 args2).
Proof.
  intros Hcall Hargs. destruct strict.
  - apply sim_get. intros h1 h2 HR. rewrite (proj1 (proj2 HR) eq_refl).
    apply sim_bind; [unfold Strace_func; simulate|intros st].
    apply sim_bind; [by apply sim_attempt|intros res].
    apply sim_bind; [|intros st'; unfold Strace_result, print_result; simulate].
    apply sim_fold2. eapply Forall2_impl; [apply Hargs|]. by intros f g Hfg a; apply Hfg.
  - assert (∀ res, Forall (λ f, ∀ st, quiet (f st)) (args1 res)) as Hq1.
    { intros res. eapply Forall2_Forall_l, Forall_true; [apply Hargs|].
      by intros f g Hfg st; apply Hfg. }
    assert (∀ res, Forall (λ f, ∀ st, quiet (f st)) (args2 res)) as Hq2.
    { intros res. eapply Forall2_Forall_r, Forall_true; [apply Hargs|].
      by intros g f Hfg st; apply Hfg. }
    intros h1 h2 HR. pose proof (traced_run name call1 args1 h1) as Hr1.
    pose proof (traced_run name call2 args2 h2) as Hr2.
    destruct (traced name call1 args1 h1) as [r1 h1'], (traced name call2 args2 h2) as [r2 h2'].
    destruct r1 as [u1|e1|p1]; [| |by destruct r2].
    all: destruct (Hr1 _ _ Hq1 eq_refl) as (l1 & l1' & h1'' & Hc1 & ->); [done|].
    all: destruct r2 as [u2|e2|p2]; [| |done].
    all: destruct (Hr2 _ _ Hq2 eq_refl) as (l2 & l2' & h2'' & Hc2 & ->); [done|].
    all: pose proof (Hcall _ _ (related_log _ _ _ l1 l2 HR)) as Hc; by rewrite Hc1, Hc2 in Hc.
Qed.
End traced.
