(* ===== verification/WasiCalls.v ===== *)
(** * The calls of the WASI wrapper, uniformly

    The calls as values, so that what holds of all of them is one statement:
    a call acts on the filesystem through at most one operation of the
    handler, it respects the simulation of host states, and tracing does not
    change what it does. *)

From S2P Require Import Prelude RustPath WasiTypes Policy InodeTable FileSystem FsOps Services.
From S2P Require Import FsSystem Transport Session Runtime.
From S2P Require Import Platform WasiMemory WasiHost Strace Wasi WasiSim.
Local Open Scope Z_scope.

Inductive wasi_call :=
  | CallArgsGet (address_for_string_ptrs buf_address : Z)
  | CallArgsSizesGet (address_for_counts address_for_buffer_size : Z)
  | CallEnvironGet (address_for_string_ptrs buf_address : Z)
  | CallEnvironSizesGet (address_for_counts address_for_buffer_size : Z)
  | CallClockResGet (clock_id address : Z)
  | CallClockTimeGet (clock_id precision address : Z)
  | CallFdAdvise (fd offset len advice : Z)
  | CallFdAllocate (fd offset len : Z)
  | CallFdClose (fd : Z)
  | CallFdDatasync (fd : Z)
  | CallFdFdstatGet (fd address : Z)
  | CallFdFdstatSetFlags (fd flags : Z)
  | CallFdFdstatSetRights (fd rights_base rights_inheriting : Z)
  | CallFdFilestatGet (fd address : Z)
  | CallFdFilestatSetSize (fd size : Z)
  | CallFdFilestatSetTimes (fd atime mtime fst_flag : Z)
  | CallFdPread (fd iovec_base iovec_count offset address : Z)
  | CallFdPrestatGet (fd address : Z)
  | CallFdPrestatDirName (fd address size : Z)
  | CallFdPwrite (fd iovec_base iovec_count offset address : Z)
  | CallFdRead (fd iovec_base iovec_count address : Z)
  | CallFdReaddir (fd buf_ptr buf_len cookie result_ptr : Z)
  | CallFdRenumber (old_fd new_fd : Z)
  | CallFdSeek (fd offset whence address : Z)
  | CallFdSync (fd : Z)
  | CallFdTell (fd address : Z)
  | CallFdWrite (fd iovec_base iovec_count address : Z)
  | CallPathCreateDirectory (fd path_address path_length : Z)
  | CallPathFilestatGet (fd flags path_address path_length address : Z)
  | CallPathFilestatSetTimes (fd flags path_address path_length atime mtime fst_flag : Z)
  | CallPathLink (old_fd old_flags old_address old_path_len new_fd new_address new_path_len : Z)
  | CallPathOpen (fd dir_flags path_address path_length oflags fs_rights_base
      fs_rights_inheriting fd_flags address : Z)
  | CallPathReadlink (fd path_address path_length buf buf_len address : Z)
  | CallPathRemoveDirectory (fd path_address path_length : Z)
  | CallPathRename (old_fd old_address old_path_len new_fd new_address new_path_len : Z)
  | CallPathSymlink (old_address old_path_len fd new_address new_path_len : Z)
  | CallPathUnlinkFile (fd path_address path_len : Z)
  | CallPollOneoff (subscriptions events size address : Z)
  | CallProcExit (code : Z)
  | CallProcRaise (signal : Z)
  | CallSchedYield
  | CallRandomGet (buf_ptr length : Z)
  | CallSockRecv (socket ri_address ri_len ri_flag ro_data_len ro_flag : Z)
  | CallSockSend (socket si_address si_len si_flag address : Z)
  | CallSockShutdown (socket sd_flag : Z)
  | CallFdCreate (address : Z).

Section calls.
Context {BP : BuildProfile} {WR : WasiRights} {HO : HashOrder} {NL : NativeLibs}
  {PI0 : Type} {SL : StructLayout} {ED : ErrNoDebug} {WC : WasiCodes}.

Definition run_wasi_call {T P} {MH : MemoryHandler T} {PI : PlatformImp P} (c : wasi_call) :
  HostM T P unit :=
  match c with
  | CallArgsGet address_for_string_ptrs buf_address =>
      WasiWrapper_args_get address_for_string_ptrs buf_address
  | CallArgsSizesGet address_for_counts address_for_buffer_size =>
      WasiWrapper_args_sizes_get address_for_counts address_for_buffer_size
  | CallEnvironGet address_for_string_ptrs buf_address =>
      WasiWrapper_environ_get address_for_string_ptrs buf_address
  | CallEnvironSizesGet address_for_counts address_for_buffer_size =>
      WasiWrapper_environ_sizes_get address_for_counts address_for_buffer_size
  | CallClockResGet clock_id address => WasiWrapper_clock_res_get clock_id address
  | CallClockTimeGet clock_id precision address =>
      WasiWrapper_clock_time_get clock_id precision address
  | CallFdAdvise fd offset len advice => WasiWrapper_fd_advise fd offset len advice
  | CallFdAllocate fd offset len => WasiWrapper_fd_allocate fd offset len
  | CallFdClose fd => WasiWrapper_fd_close fd
  | CallFdDatasync fd => WasiWrapper_fd_datasync fd
  | CallFdFdstatGet fd address => WasiWrapper_fd_fdstat_get fd address
  | CallFdFdstatSetFlags fd flags => WasiWrapper_fd_fdstat_set_flags fd flags
  | CallFdFdstatSetRights fd rights_base rights_inheriting =>
      WasiWrapper_fd_fdstat_set_rights fd rights_base rights_inheriting
  | CallFdFilestatGet fd address => WasiWrapper_fd_filestat_get fd address
  | CallFdFilestatSetSize fd size => WasiWrapper_fd_filestat_set_size fd size
  | CallFdFilestatSetTimes fd atime mtime fst_flag =>
      WasiWrapper_fd_filestat_set_times fd atime mtime fst_flag
  | CallFdPread fd iovec_base iovec_count offset address =>
      WasiWrapper_fd_pread fd iovec_base iovec_count offset address
  | CallFdPrestatGet fd address => WasiWrapper_fd_prestat_get fd address
  | CallFdPrestatDirName fd address size => WasiWrapper_fd_prestat_dir_name fd address size
  | CallFdPwrite fd iovec_base iovec_count offset address =>
      WasiWrapper_fd_pwrite fd iovec_base iovec_count offset address
  | CallFdRead fd iovec_base iovec_count address =>
      WasiWrapper_fd_read fd iovec_base iovec_count address
  | CallFdReaddir fd buf_ptr buf_len cookie result_ptr =>
      WasiWrapper_fd_readdir fd buf_ptr buf_len cookie result_ptr
  | CallFdRenumber old_fd new_fd => WasiWrapper_fd_renumber old_fd new_fd
  | CallFdSeek fd offset whence address => WasiWrapper_fd_seek fd offset whence address
  | CallFdSync fd => WasiWrapper_fd_sync fd
  | CallFdTell fd address => WasiWrapper_fd_tell fd address
  | CallFdWrite fd iovec_base iovec_count address =>
      WasiWrapper_fd_write fd iovec_base iovec_count address
  | CallPathCreateDirectory fd path_address path_length =>
      WasiWrapper_path_create_directory fd path_address path_length
  | CallPathFilestatGet fd flags path_address path_length address =>
      WasiWrapper_path_filestat_get fd flags path_address path_length address
  | CallPathFilestatSetTimes fd flags path_address path_length atime mtime fst_flag =>
      WasiWrapper_path_filestat_set_times fd flags path_address path_length atime mtime fst_flag
  | CallPathLink a0 a1 a2 a3 a4 a5 a6 => WasiWrapper_path_link a0 a1 a2 a3 a4 a5 a6
  | CallPathOpen a0 a1 a2 a3 a4 a5 a6 a7 a8 => WasiWrapper_path_open a0 a1 a2 a3 a4 a5 a6 a7 a8
  | CallPathReadlink fd path_address path_length buf buf_len address =>
      WasiWrapper_path_readlink fd path_address path_length buf buf_len address
  | CallPathRemoveDirectory fd path_address path_length =>
      WasiWrapper_path_remove_directory fd path_address path_length
  | CallPathRename old_fd old_address old_path_len new_fd new_address new_path_len =>
      WasiWrapper_path_rename old_fd old_address old_path_len new_fd new_address new_path_len
  | CallPathSymlink old_address old_path_len fd new_address new_path_len =>
      WasiWrapper_path_symlink old_address old_path_len fd new_address new_path_len
  | CallPathUnlinkFile fd path_address path_len =>
      WasiWrapper_path_unlink_file fd path_address path_len
  | CallPollOneoff subscriptions events size address =>
      WasiWrapper_poll_oneoff subscriptions events size address
  | CallProcExit code => WasiWrapper_proc_exit code
  | CallProcRaise signal => WasiWrapper_proc_raise signal
  | CallSchedYield => WasiWrapper_sched_yield
  | CallRandomGet buf_ptr length => WasiWrapper_random_get buf_ptr length
  | CallSockRecv socket ri_address ri_len ri_flag ro_data_len ro_flag =>
      WasiWrapper_sock_recv socket ri_address ri_len ri_flag ro_data_len ro_flag
  | CallSockSend socket si_address si_len si_flag address =>
      WasiWrapper_sock_send socket si_address si_len si_flag address
  | CallSockShutdown socket sd_flag => WasiWrapper_sock_shutdown socket sd_flag
  | CallFdCreate address => WasiWrapper_fd_create address
  end.
End calls.

(** ** The simulation *)

(** The arguments of the traces, and the calls: the traced call, then its
    arguments one by one. *)
Ltac sim_arg :=
  first
    [ apply sim_arg_info
    | apply sim_arg_iovec
    | apply sim_arg_prestat_out
    | apply sim_arg_read; auto with simulation ].

(** The state is read for the wrapper's fields and the filesystem. *)
Ltac sim_host :=
  repeat first
    [ progress simulate
    | apply sim_get; let h1 := fresh "h" in let h2 := fresh "h" in let HR := fresh "HR" in
      intros h1 h2 HR; destruct (related_wrapper _ _ _ HR) as (_ & ?He & ?Ha & _ & ?Hk);
      rewrite ?He, ?Ha, ?Hk, ?(related_fs _ _ _ HR) ].

Ltac sim_call :=
  apply sim_traced; [sim_host|intros ?; repeat (apply Forall2_cons; split; [sim_arg|]);
                              apply Forall2_nil; done].

Section simulation.
Context {BP : BuildProfile} {WR : WasiRights} {HO : HashOrder} {NL : NativeLibs}
  {SL : StructLayout} {ED : ErrNoDebug} {WC : WasiCodes}
  {T1 T2 P : Type} {M1 : MemoryHandler T1} {M2 : MemoryHandler T2} {PI : PlatformImp P}
  {Rm : T1 → T2 → Prop} {MS : MemorySim M1 M2 Rm} (strict : bool).

Abbreviation simulates m1 m2 := (sim (related (P:=P) Rm strict) strict m1 m2).

Lemma sim_decode {A} (try_from : Z → option A) arg :
  simulates (decode_wasi_arg try_from arg) (decode_wasi_arg try_from arg).
Proof. apply sim_ok_or. Qed.

Lemma sim_read_path a n : simulates (read_path a n) (read_path a n).
Proof. unfold read_path. simulate. Qed.

Lemma sim_filestat_time : simulates filestat_time filestat_time.
Proof. unfold filestat_time. sim_host. Qed.

Lemma sim_clock_value read id : simulates (clock_value read id) (clock_value read id).
Proof. unfold clock_value. sim_host. Qed.
#[local] Hint Resolve sim_decode sim_read_path sim_filestat_time sim_clock_value : simulation.

Lemma sim_proc_exit code : simulates (WasiWrapper_proc_exit code) (WasiWrapper_proc_exit code).
Proof.
  intros h1 h2 HR. unfold WasiWrapper_proc_exit, Strace_func, bind, get, ret, modify, info. simpl.
  destruct (related_wrapper _ _ _ HR) as (Hf & He & Ha & _ & Hk), HR as (_ & Hs & Hw & Hm & Hp).
  assert (∀ l1 l2, related Rm strict
    (mkHost (set_exit_code (Some code) (wrapper h1)) (host_world h1) (linear_memory h1)
       (platform h1) l1)
    (mkHost (set_exit_code (Some code) (wrapper h2)) (host_world h2) (linear_memory h2)
       (platform h2) l2)) as HR'.
  { intros l1 l2. split_and!; [|done..]. unfold untraced, set_enables. simpl.
    by rewrite Hf, He, Ha, Hk. }
  destruct (enable_strace (wrapper h1)), (enable_strace (wrapper h2)); simpl; (split; [done|apply HR']).
Qed.

(** Every call respects the simulation. *)
Lemma sim_wasi_call c : simulates (run_wasi_call c) (run_wasi_call c).
Proof.
  destruct c; simpl;
    first [apply sim_proc_exit | sim_call | unfold WasiWrapper_fd_create; sim_host].
Qed.
End simulation.

(** ** What a call does to the filesystem *)

Section effect.
Context {BP : BuildProfile} {WR : WasiRights} {HO : HashOrder} {NL : NativeLibs}
  {SL : StructLayout} {ED : ErrNoDebug} {WC : WasiCodes}
  {T P : Type} {MH : MemoryHandler T} {PI : PlatformImp P}.

(** The state of the filesystem is left as it is. *)
Abbreviation same_fs m := (∀ f, preserves (λ h : Host T P, fs_of h = f) m).

Lemma same_fs_on_memory {A} (op : ST T ErrNo.t A) : same_fs (on_memory op).
Proof. intros f h Hh. unfold on_memory, zoom. destruct (op (linear_memory h)) as [[] m]; exact Hh. Qed.
Lemma same_fs_on_platform {A} (op : P → A * P) : same_fs (on_platform op).
Proof. intros f h Hh. unfold on_platform. destruct (op (platform h)). exact Hh. Qed.
Lemma same_fs_info msg : same_fs (info msg).
Proof. by intros f h Hh. Qed.
#[local] Hint Resolve same_fs_on_memory same_fs_on_platform same_fs_info : veracruz.

Lemma same_fs_strace_arg p st : same_fs p → same_fs (strace_arg p st).
Proof. intros Hp f. unfold strace_arg, arg_print_comma. specialize (Hp f). preserve. Qed.
Lemma same_fs_print_read {A} (op : ST T ErrNo.t A) k msg :
  (∀ a, same_fs (k a)) → same_fs (print_read op k msg).
Proof. intros Hk f. unfold print_read. preserve. Qed.

(** At most [n] operations of the handler, whatever the outcome. *)
Definition fs_calls (n : nat) {A} (m : HostM T P A) : Prop := ∀ h,
  ∃ cs, (length cs ≤ n)%nat ∧ fs_of (m h).2 = run_calls cs (fs_of h).

Lemma fs_calls_0 {A} (m : HostM T P A) : same_fs m → ∀ n, fs_calls n m.
Proof.
  intros Hm n h. exists []. split; [simpl; lia|]. specialize (Hm (fs_of h) h eq_refl).
  by destruct (m h) as [[] ?].
Qed.

Lemma fs_calls_bind {A B} n k (m : HostM T P A) (f : A → HostM T P B) :
  fs_calls n m → (∀ a, fs_calls k (f a)) → fs_calls (n + k) (bind m f).
Proof.
  intros Hm Hf h. destruct (Hm h) as (cs & Hl & Hcs). unfold bind.
  destruct (m h) as [[a|e|p] h']; simpl in Hcs.
  - destruct (Hf a h') as (cs' & Hl' & Hcs'). exists (cs ++ cs').
    rewrite length_app, Hcs', Hcs. unfold run_calls. rewrite foldl_app. split; [lia|done].
  - exists cs. split; [lia|done].
  - exists cs. split; [lia|done].
Qed.

Lemma fs_calls_after {A B} n (m : HostM T P A) (f : A → HostM T P B) :
  same_fs m → (∀ a, fs_calls n (f a)) → fs_calls n (bind m f).
Proof. intros Hm Hf. apply (fs_calls_bind 0 n); [by apply fs_calls_0|done]. Qed.

Lemma fs_calls_before {A B} n (m : HostM T P A) (f : A → HostM T P B) :
  fs_calls n m → (∀ a, same_fs (f a)) → fs_calls n (bind m f).
Proof.
  intros Hm Hf. rewrite <- (Nat.add_0_r n).
  apply fs_calls_bind; [done|intros a; apply fs_calls_0, Hf].
Qed.

Lemma fs_calls_get {A} n (f : Host T P → HostM T P A) :
  (∀ h, fs_calls n (f h)) → fs_calls n (bind get f).
Proof. intros Hf h. apply Hf. Qed.

Lemma fs_calls_attempt {A} n (m : HostM T P A) : fs_calls n m → fs_calls n (attempt m).
Proof.
  intros Hm h. destruct (Hm h) as (cs & Hl & Hcs). exists cs. split; [done|].
  unfold attempt, try_match. by destruct (m h) as [[] ?].
Qed.

Lemma fs_calls_on_fs {A} c (op : M A) :
  (∀ f, (op f).2 = (run_call c f).2) → fs_calls 1 (on_fs op).
Proof.
  intros Hop h. exists [c]. split; [done|]. unfold on_fs, zoom. simpl. rewrite <- Hop.
  destruct (op (fs_of h)) as [r f]. by destruct f.
Qed.

Lemma void_run {A} (m : M A) f : (m f).2 = (void m f).2.
Proof. unfold void, bind. by destruct (m f) as [[] ?]. Qed.

Lemma fs_calls_read_path {A} n a k (f : Path → HostM T P A) :
  (∀ s, fs_calls n (f (path s))) → fs_calls n (bind (read_path a k) f).
Proof.
  intros Hf h. unfold read_path, bind.
  pose proof (same_fs_on_memory (read_cstring a k) (fs_of h) h eq_refl) as Hs.
  destruct (on_memory (read_cstring a k) h) as [[s|e|p] h']; simpl in *.
  - rewrite <- Hs. apply (Hf s h').
  - exists []. split; [simpl; lia|done].
  - exists []. split; [simpl; lia|done].
Qed.

Lemma fs_calls_traced n name (call : HostM T P unit) args :
  fs_calls n call → (∀ res, Forall (λ arg, ∀ st, same_fs (arg st)) (args res)) →
  fs_calls n (traced name call args).
Proof.
  intros Hcall Hargs. apply fs_calls_get. intros h0.
  apply fs_calls_after; [intros f; unfold Strace_func; preserve|intros st].
  apply fs_calls_before; [by apply fs_calls_attempt|intros res f].
  apply preserves_bind; [|intros st'; unfold Strace_result, print_result; preserve].
  specialize (Hargs res). revert st. induction Hargs as [|arg l Harg _ IH]; intros st; simpl; preserve.
Qed.

(** Which operation of the handler a call of the filesystem is. *)
Ltac fs_operation :=
  lazymatch goal with
  | |- fs_calls _ (on_fs (fd_advise ?a ?b ?c ?d)) =>
      apply (fs_calls_on_fs (FdAdvise a b c d)); intros ?; reflexivity
  | |- fs_calls _ (on_fs (fd_allocate ?a ?b ?c)) =>
      apply (fs_calls_on_fs (FdAllocate a b c)); intros ?; reflexivity
  | |- fs_calls _ (on_fs (fd_close ?a)) => apply (fs_calls_on_fs (FdClose a)); intros ?; reflexivity
  | |- fs_calls _ (on_fs (fd_datasync ?a)) => apply (fs_calls_on_fs (FdDatasync a)); intros ?; reflexivity
  | |- fs_calls _ (on_fs (fd_fdstat_get ?a)) =>
      apply (fs_calls_on_fs (FdFdstatGet a)); apply void_run
  | |- fs_calls _ (on_fs (fd_fdstat_set_flags ?a ?b)) =>
      apply (fs_calls_on_fs (FdFdstatSetFlags a b)); intros ?; reflexivity
  | |- fs_calls _ (on_fs (fd_fdstat_set_rights ?a ?b ?c)) =>
      apply (fs_calls_on_fs (FdFdstatSetRights a b c)); intros ?; reflexivity
  | |- fs_calls _ (on_fs (fd_filestat_get ?a)) =>
      apply (fs_calls_on_fs (FdFilestatGet a)); apply void_run
  | |- fs_calls _ (on_fs (fd_filestat_set_size ?a ?b)) =>
      apply (fs_calls_on_fs (FdFilestatSetSize a b)); intros ?; reflexivity
  | |- fs_calls _ (on_fs (fd_filestat_set_times ?a ?b ?c ?d ?e)) =>
      apply (fs_calls_on_fs (FdFilestatSetTimes a b c d e)); intros ?; reflexivity
  | |- fs_calls _ (on_fs (fd_pread ?a ?b ?c)) =>
      apply (fs_calls_on_fs (FdPread a b c)); apply void_run
  | |- fs_calls _ (on_fs (fd_prestat_get ?a)) =>
      apply (fs_calls_on_fs (FdPrestatGet a)); apply void_run
  | |- fs_calls _ (on_fs (fd_prestat_dir_name ?a)) =>
      apply (fs_calls_on_fs (FdPrestatDirName a)); apply void_run
  | |- fs_calls _ (on_fs (fd_pwrite ?a ?b ?c)) =>
      apply (fs_calls_on_fs (FdPwrite a b c)); apply void_run
  | |- fs_calls _ (on_fs (fd_read ?a ?b)) => apply (fs_calls_on_fs (FdRead a b)); apply void_run
  | |- fs_calls _ (on_fs (fd_readdir ?a ?b)) =>
      apply (fs_calls_on_fs (FdReaddir a b)); apply void_run
  | |- fs_calls _ (on_fs (fd_renumber ?a ?b)) => apply (fs_calls_on_fs (FdRenumber a b)); intros ?; reflexivity
  | |- fs_calls _ (on_fs (fd_seek ?a ?b ?c)) =>
      apply (fs_calls_on_fs (FdSeek a b c)); apply void_run
  | |- fs_calls _ (on_fs (fd_sync ?a)) => apply (fs_calls_on_fs (FdSync a)); intros ?; reflexivity
  | |- fs_calls _ (on_fs (fd_tell ?a)) => apply (fs_calls_on_fs (FdTell a)); apply void_run
  | |- fs_calls _ (on_fs (fd_write ?a ?b)) => apply (fs_calls_on_fs (FdWrite a b)); apply void_run
  | |- fs_calls _ (on_fs (path_create_directory ?a (path ?b))) =>
      apply (fs_calls_on_fs (PathCreateDirectory a b)); intros ?; reflexivity
  | |- fs_calls _ (on_fs (path_filestat_get ?a (path ?b))) =>
      apply (fs_calls_on_fs (PathFilestatGet a b)); apply void_run
  | |- fs_calls _ (on_fs (path_filestat_set_times ?a (path ?b) ?c ?d ?e ?f)) =>
      apply (fs_calls_on_fs (PathFilestatSetTimes a b c d e f)); intros ?; reflexivity
  | |- fs_calls _ (on_fs (path_link ?a (path ?b) ?c (path ?d))) =>
      apply (fs_calls_on_fs (PathLink a b c d)); intros ?; reflexivity
  | |- fs_calls _ (on_fs (path_open ?a (path ?b) ?c ?d ?e ?f)) =>
      apply (fs_calls_on_fs (PathOpen a b c d e f)); apply void_run
  | |- fs_calls _ (on_fs (path_readlink ?a (path ?b))) =>
      apply (fs_calls_on_fs (PathReadlink a b)); apply void_run
  | |- fs_calls _ (on_fs (path_remove_directory ?a (path ?b))) =>
      apply (fs_calls_on_fs (PathRemoveDirectory a b)); intros ?; reflexivity
  | |- fs_calls _ (on_fs (path_rename ?a (path ?b) ?c (path ?d))) =>
      apply (fs_calls_on_fs (PathRename a b c d)); intros ?; reflexivity
  | |- fs_calls _ (on_fs (path_symlink (path ?a) ?b (path ?c))) =>
      apply (fs_calls_on_fs (PathSymlink a b c)); intros ?; reflexivity
  | |- fs_calls _ (on_fs (path_unlink_file ?a (path ?b))) =>
      apply (fs_calls_on_fs (PathUnlinkFile a b)); intros ?; reflexivity
  | |- fs_calls _ (on_fs poll_oneoff) => apply (fs_calls_on_fs PollOneoff); apply void_run
  | |- fs_calls _ (on_fs (sock_recv ?a)) => apply (fs_calls_on_fs (SockRecv a)); apply void_run
  | |- fs_calls _ (on_fs (sock_send ?a)) => apply (fs_calls_on_fs (SockSend a)); apply void_run
  | |- fs_calls _ (on_fs (sock_shutdown ?a)) => apply (fs_calls_on_fs (SockShutdown a)); intros ?; reflexivity
  | |- fs_calls _ (on_fs fd_create) => apply (fs_calls_on_fs FdCreate); apply void_run
  end.

(** Decoding before the operation, storing after it. *)
Ltac fs_effect :=
  repeat lazymatch goal with
  | |- fs_calls _ (on_fs _) => fs_operation
  | |- fs_calls _ (attempt _) => apply fs_calls_attempt
  | |- fs_calls _ (bind get _) => apply fs_calls_get; intros ?; cbv zeta
  | |- fs_calls _ (bind (read_path _ _) _) => apply fs_calls_read_path; intros ?
  | |- fs_calls _ (bind (on_fs _) _) => apply fs_calls_before; [|intros ? ?; cbv zeta; preserve]
  | |- fs_calls _ (bind (attempt (on_fs _)) _) => apply fs_calls_before; [|intros ? ?; cbv zeta; preserve]
  | |- fs_calls _ (bind _ _) => apply fs_calls_after; [intros ?; preserve|intros ?]
  | |- fs_calls _ _ => apply fs_calls_0; intros ?; preserve
  end.

Lemma same_fs_decode {A} (try_from : Z → option A) arg : same_fs (decode_wasi_arg try_from arg).
Proof. intros f. apply preserves_ok_or. Qed.
Lemma same_fs_filestat_time : same_fs filestat_time.
Proof. intros f. unfold filestat_time. preserve. Qed.
Lemma same_fs_clock_value read id : same_fs (clock_value read id).
Proof. intros f. unfold clock_value. preserve. Qed.
#[local] Hint Resolve same_fs_decode same_fs_filestat_time same_fs_clock_value same_fs_strace_arg
  same_fs_print_read : veracruz.

Lemma same_fs_proc_exit code : same_fs (WasiWrapper_proc_exit code).
Proof.
  intros f. unfold WasiWrapper_proc_exit, Strace_func. preserve. by intros h Hh.
Qed.

Lemma same_fs_arg_iovec res base count address st : same_fs (arg_iovec res base count address st).
Proof. intros f. apply same_fs_strace_arg. intros f'. destruct res; preserve. Qed.
Lemma same_fs_arg_prestat_out res adr st : same_fs (arg_prestat_out res adr st).
Proof.
  intros f. apply same_fs_strace_arg. intros f'. destruct res; [|preserve].
  apply same_fs_print_read. intros a f''. preserve.
Qed.
#[local] Hint Resolve same_fs_arg_iovec same_fs_arg_prestat_out : veracruz.

Ltac same_fs_args :=
  intros ?; repeat (apply Forall_cons; split;
    [intros ? ?; first [apply same_fs_arg_iovec | apply same_fs_arg_prestat_out
                       | apply same_fs_strace_arg; intros ?; preserve]|]); apply Forall_nil; done.

Lemma fs_calls_fd_read fd base count address :
  fs_calls 1 (WasiWrapper_fd_read fd base count address).
Proof.
  apply fs_calls_traced; [|same_fs_args].
  apply fs_calls_after; [intros ?; apply same_fs_on_memory|intros iov].
  apply fs_calls_get. intros h. cbv zeta. generalize (read_fills fd iov.*2 (fs_of h)). intros filled.
  apply fs_calls_before; [apply fs_calls_attempt; fs_operation|].
  intros r f. apply preserves_bind; [apply same_fs_on_memory|intros _].
  destruct r; [apply same_fs_on_memory|apply preserves_throw].
Qed.

Lemma wasi_call_effect c : fs_calls 1 (run_wasi_call c).
Proof.
  destruct c; cbn [run_wasi_call];
  lazymatch goal with
  | |- fs_calls _ (WasiWrapper_proc_exit _) => apply fs_calls_0, same_fs_proc_exit
  | |- fs_calls _ (WasiWrapper_fd_read _ _ _ _) => apply fs_calls_fd_read
  | |- fs_calls _ (WasiWrapper_fd_create _) => unfold WasiWrapper_fd_create; fs_effect
  | _ => apply fs_calls_traced; [fs_effect|same_fs_args]
  end.
Qed.
End effect.
