(* ===== verification/Engines.v ===== *)
(** * The two execution engines

    The interpreter and the compiler decode the arguments of a host call each
    in its own way.  [decode] says what both should make of it: the call of
    the WASI wrapper.  Both engines implement it, so that a program sees the
    same behaviour under either, and a run of a program is a sequence of
    operations of the handler it is given. *)

From S2P Require Import Prelude RustPath WasiTypes Policy InodeTable FileSystem FsOps Services.
From S2P Require Import FsSystem Runtime Platform WasiMemory WasiHost Strace Wasi WasiSim.
From S2P Require Import WasiCalls WasmApi Wasmi Wasmtime.
Local Open Scope Z_scope.

(** ** What a host call means *)

(** A parameter narrower than the value that carries it. *)
Definition narrow (v bound : Z) (c : option wasi_call) : option wasi_call :=
  if v <? bound then c else None.

Definition decode (f : APIName) (args : list RuntimeValue) : option wasi_call :=
  match f, args with
  | WasiAPIName WasiAPIName.ARGS_GET, [VI32 a0; VI32 a1] =>
      Some (CallArgsGet (as_u32 a0) (as_u32 a1))
  | WasiAPIName WasiAPIName.ARGS_SIZES_GET, [VI32 a0; VI32 a1] =>
      Some (CallArgsSizesGet (as_u32 a0) (as_u32 a1))
  | WasiAPIName WasiAPIName.ENVIRON_GET, [VI32 a0; VI32 a1] =>
      Some (CallEnvironGet (as_u32 a0) (as_u32 a1))
  | WasiAPIName WasiAPIName.ENVIRON_SIZES_GET, [VI32 a0; VI32 a1] =>
      Some (CallEnvironSizesGet (as_u32 a0) (as_u32 a1))
  | WasiAPIName WasiAPIName.CLOCK_RES_GET, [VI32 a0; VI32 a1] =>
      Some (CallClockResGet (as_u32 a0) (as_u32 a1))
  | WasiAPIName WasiAPIName.CLOCK_TIME_GET, [VI32 a0; VI64 a1; VI32 a2] =>
      Some (CallClockTimeGet (as_u32 a0) (as_u64 a1) (as_u32 a2))
  | WasiAPIName WasiAPIName.FD_ADVISE, [VI32 a0; VI64 a1; VI64 a2; VI32 a3] =>
      narrow (as_u32 a3) u8_bound (Some (CallFdAdvise (as_u32 a0) (as_u64 a1) (as_u64 a2)
        (as_u32 a3)))
  | WasiAPIName WasiAPIName.FD_ALLOCATE, [VI32 a0; VI64 a1; VI64 a2] =>
      Some (CallFdAllocate (as_u32 a0) (as_u64 a1) (as_u64 a2))
  | WasiAPIName WasiAPIName.FD_CLOSE, [VI32 a0] =>
      Some (CallFdClose (as_u32 a0))
  | WasiAPIName WasiAPIName.FD_DATASYNC, [VI32 a0] =>
      Some (CallFdDatasync (as_u32 a0))
  | WasiAPIName WasiAPIName.FD_FDSTAT_GET, [VI32 a0; VI32 a1] =>
      Some (CallFdFdstatGet (as_u32 a0) (as_u32 a1))
  | WasiAPIName WasiAPIName.FD_FDSTAT_SET_FLAGS, [VI32 a0; VI32 a1] =>
      narrow (as_u32 a1) u16_bound (Some (CallFdFdstatSetFlags (as_u32 a0) (as_u32 a1)))
  | WasiAPIName WasiAPIName.FD_FDSTAT_SET_RIGHTS, [VI32 a0; VI64 a1; VI64 a2] =>
      Some (CallFdFdstatSetRights (as_u32 a0) (as_u64 a1) (as_u64 a2))
  | WasiAPIName WasiAPIName.FD_FILESTAT_GET, [VI32 a0; VI32 a1] =>
      Some (CallFdFilestatGet (as_u32 a0) (as_u32 a1))
  | WasiAPIName WasiAPIName.FD_FILESTAT_SET_SIZE, [VI32 a0; VI64 a1] =>
      Some (CallFdFilestatSetSize (as_u32 a0) (as_u64 a1))
  | WasiAPIName WasiAPIName.FD_FILESTAT_SET_TIMES, [VI32 a0; VI64 a1; VI64 a2; VI32 a3] =>
      narrow (as_u32 a3) u16_bound (Some (CallFdFilestatSetTimes (as_u32 a0) (as_u64 a1)
        (as_u64 a2) (as_u32 a3)))
  | WasiAPIName WasiAPIName.FD_PREAD, [VI32 a0; VI32 a1; VI32 a2; VI64 a3; VI32 a4] =>
      Some (CallFdPread (as_u32 a0) (as_u32 a1) (as_u32 a2) (as_u64 a3) (as_u32 a4))
  | WasiAPIName WasiAPIName.FD_PRESTAT_GET, [VI32 a0; VI32 a1] =>
      Some (CallFdPrestatGet (as_u32 a0) (as_u32 a1))
  | WasiAPIName WasiAPIName.FD_PRESTAT_DIR_NAME, [VI32 a0; VI32 a1; VI32 a2] =>
      Some (CallFdPrestatDirName (as_u32 a0) (as_u32 a1) (as_u32 a2))
  | WasiAPIName WasiAPIName.FD_PWRITE, [VI32 a0; VI32 a1; VI32 a2; VI64 a3; VI32 a4] =>
      Some (CallFdPwrite (as_u32 a0) (as_u32 a1) (as_u32 a2) (as_u64 a3) (as_u32 a4))
  | WasiAPIName WasiAPIName.FD_READ, [VI32 a0; VI32 a1; VI32 a2; VI32 a3] =>
      Some (CallFdRead (as_u32 a0) (as_u32 a1) (as_u32 a2) (as_u32 a3))
  | WasiAPIName WasiAPIName.FD_READDIR, [VI32 a0; VI32 a1; VI32 a2; VI64 a3; VI32 a4] =>
      Some (CallFdReaddir (as_u32 a0) (as_u32 a1) (as_u32 a2) (as_u64 a3) (as_u32 a4))
  | WasiAPIName WasiAPIName.FD_RENUMBER, [VI32 a0; VI32 a1] =>
      Some (CallFdRenumber (as_u32 a0) (as_u32 a1))
  | WasiAPIName WasiAPIName.FD_SEEK, [VI32 a0; VI64 a1; VI32 a2; VI32 a3] =>
      narrow (as_u32 a2) u8_bound (Some (CallFdSeek (as_u32 a0) a1 (as_u32 a2) (as_u32 a3)))
  | WasiAPIName WasiAPIName.FD_SYNC, [VI32 a0] =>
      Some (CallFdSync (as_u32 a0))
  | WasiAPIName WasiAPIName.FD_TELL, [VI32 a0; VI32 a1] =>
      Some (CallFdTell (as_u32 a0) (as_u32 a1))
  | WasiAPIName WasiAPIName.FD_WRITE, [VI32 a0; VI32 a1; VI32 a2; VI32 a3] =>
      Some (CallFdWrite (as_u32 a0) (as_u32 a1) (as_u32 a2) (as_u32 a3))
  | WasiAPIName WasiAPIName.PATH_CREATE_DIRECTORY, [VI32 a0; VI32 a1; VI32 a2] =>
      Some (CallPathCreateDirectory (as_u32 a0) (as_u32 a1) (as_u32 a2))
  | WasiAPIName WasiAPIName.PATH_FILESTAT_GET, [VI32 a0; VI32 a1; VI32 a2; VI32 a3; VI32 a4] =>
      Some (CallPathFilestatGet (as_u32 a0) (as_u32 a1) (as_u32 a2) (as_u32 a3) (as_u32 a4))
  | WasiAPIName WasiAPIName.PATH_FILESTAT_SET_TIMES, [VI32 a0; VI32 a1; VI32 a2; VI32 a3; VI64
        a4; VI64 a5; VI32 a6] =>
      narrow (as_u32 a6) u16_bound (Some (CallPathFilestatSetTimes (as_u32 a0) (as_u32 a1)
        (as_u32 a2) (as_u32 a3) (as_u64 a4) (as_u64 a5) (as_u32 a6)))
  | WasiAPIName WasiAPIName.PATH_LINK, [VI32 a0; VI32 a1; VI32 a2; VI32 a3; VI32 a4; VI32 a5;
        VI32 a6] =>
      Some (CallPathLink (as_u32 a0) (as_u32 a1) (as_u32 a2) (as_u32 a3) (as_u32 a4) (as_u32 a5)
        (as_u32 a6))
  | WasiAPIName WasiAPIName.PATH_OPEN, [VI32 a0; VI32 a1; VI32 a2; VI32 a3; VI32 a4; VI64 a5;
        VI64 a6; VI32 a7; VI32 a8] =>
      narrow (as_u32 a4) u16_bound (narrow (as_u32 a7) u16_bound (Some (CallPathOpen (as_u32 a0)
        (as_u32 a1) (as_u32 a2) (as_u32 a3) (as_u32 a4) (as_u64 a5) (as_u64 a6) (as_u32 a7)
        (as_u32 a8))))
  | WasiAPIName WasiAPIName.PATH_READLINK, [VI32 a0; VI32 a1; VI32 a2; VI32 a3; VI32 a4; VI32
        a5] =>
      Some (CallPathReadlink (as_u32 a0) (as_u32 a1) (as_u32 a2) (as_u32 a3) (as_u32 a4)
        (as_u32 a5))
  | WasiAPIName WasiAPIName.PATH_REMOVE_DIRECTORY, [VI32 a0; VI32 a1; VI32 a2] =>
      Some (CallPathRemoveDirectory (as_u32 a0) (as_u32 a1) (as_u32 a2))
  | WasiAPIName WasiAPIName.PATH_RENAME, [VI32 a0; VI32 a1; VI32 a2; VI32 a3; VI32 a4; VI32 a5] =>
      Some (CallPathRename (as_u32 a0) (as_u32 a1) (as_u32 a2) (as_u32 a3) (as_u32 a4)
        (as_u32 a5))
  | WasiAPIName WasiAPIName.PATH_SYMLINK, [VI32 a0; VI32 a1; VI32 a2; VI32 a3; VI32 a4] =>
      Some (CallPathSymlink (as_u32 a0) (as_u32 a1) (as_u32 a2) (as_u32 a3) (as_u32 a4))
  | WasiAPIName WasiAPIName.PATH_UNLINK_FILE, [VI32 a0; VI32 a1; VI32 a2] =>
      Some (CallPathUnlinkFile (as_u32 a0) (as_u32 a1) (as_u32 a2))
  | WasiAPIName WasiAPIName.POLL_ONEOFF, [VI32 a0; VI32 a1; VI32 a2; VI32 a3] =>
      Some (CallPollOneoff (as_u32 a0) (as_u32 a1) (as_u32 a2) (as_u32 a3))
  | WasiAPIName WasiAPIName.PROC_EXIT, [VI32 a0] =>
      Some (CallProcExit (as_u32 a0))
  | WasiAPIName WasiAPIName.PROC_RAISE, [VI32 a0] =>
      narrow (as_u32 a0) u8_bound (Some (CallProcRaise (as_u32 a0)))
  | WasiAPIName WasiAPIName.SCHED_YIELD, [] =>
      Some CallSchedYield
  | WasiAPIName WasiAPIName.RANDOM_GET, [VI32 a0; VI32 a1] =>
      Some (CallRandomGet (as_u32 a0) (as_u32 a1))
  | WasiAPIName WasiAPIName.SOCK_RECV, [VI32 a0; VI32 a1; VI32 a2; VI32 a3; VI32 a4; VI32 a5] =>
      narrow (as_u32 a3) u16_bound (Some (CallSockRecv (as_u32 a0) (as_u32 a1) (as_u32 a2)
        (as_u32 a3) (as_u32 a4) (as_u32 a5)))
  | WasiAPIName WasiAPIName.SOCK_SEND, [VI32 a0; VI32 a1; VI32 a2; VI32 a3; VI32 a4] =>
      narrow (as_u32 a3) u16_bound (Some (CallSockSend (as_u32 a0) (as_u32 a1) (as_u32 a2)
        (as_u32 a3) (as_u32 a4)))
  | WasiAPIName WasiAPIName.SOCK_SHUTDOWN, [VI32 a0; VI32 a1] =>
      narrow (as_u32 a1) u8_bound (Some (CallSockShutdown (as_u32 a0) (as_u32 a1)))
  | VeracruzAPIName VeracruzAPIName.FD_CREATE, [VI32 a0] =>
      Some (CallFdCreate (as_u32 a0))
  | _, _ => None
  end.

(** The values are integers of their width. *)
Definition wf_value (v : RuntimeValue) : Prop :=
  match v with
  | VI32 z => - 2147483648 ≤ z < 2147483648
  | VI64 z => - i64_bound ≤ z < i64_bound
  | _ => True
  end.

(** The value of [run_wasi_call] that a call of the wrapper is. *)
Ltac as_wasi_call m :=
  lazymatch m with
  | WasiWrapper_args_get ?a ?b => constr:(CallArgsGet a b)
  | WasiWrapper_args_sizes_get ?a ?b => constr:(CallArgsSizesGet a b)
  | WasiWrapper_environ_get ?a ?b => constr:(CallEnvironGet a b)
  | WasiWrapper_environ_sizes_get ?a ?b => constr:(CallEnvironSizesGet a b)
  | WasiWrapper_clock_res_get ?a ?b => constr:(CallClockResGet a b)
  | WasiWrapper_clock_time_get ?a ?b ?c => constr:(CallClockTimeGet a b c)
  | WasiWrapper_fd_advise ?a ?b ?c ?d => constr:(CallFdAdvise a b c d)
  | WasiWrapper_fd_allocate ?a ?b ?c => constr:(CallFdAllocate a b c)
  | WasiWrapper_fd_close ?a => constr:(CallFdClose a)
  | WasiWrapper_fd_datasync ?a => constr:(CallFdDatasync a)
  | WasiWrapper_fd_fdstat_get ?a ?b => constr:(CallFdFdstatGet a b)
  | WasiWrapper_fd_fdstat_set_flags ?a ?b => constr:(CallFdFdstatSetFlags a b)
  | WasiWrapper_fd_fdstat_set_rights ?a ?b ?c => constr:(CallFdFdstatSetRights a b c)
  | WasiWrapper_fd_filestat_get ?a ?b => constr:(CallFdFilestatGet a b)
  | WasiWrapper_fd_filestat_set_size ?a ?b => constr:(CallFdFilestatSetSize a b)
  | WasiWrapper_fd_filestat_set_times ?a ?b ?c ?d => constr:(CallFdFilestatSetTimes a b c d)
  | WasiWrapper_fd_pread ?a ?b ?c ?d ?e => constr:(CallFdPread a b c d e)
  | WasiWrapper_fd_prestat_get ?a ?b => constr:(CallFdPrestatGet a b)
  | WasiWrapper_fd_prestat_dir_name ?a ?b ?c => constr:(CallFdPrestatDirName a b c)
  | WasiWrapper_fd_pwrite ?a ?b ?c ?d ?e => constr:(CallFdPwrite a b c d e)
  | WasiWrapper_fd_read ?a ?b ?c ?d => constr:(CallFdRead a b c d)
  | WasiWrapper_fd_readdir ?a ?b ?c ?d ?e => constr:(CallFdReaddir a b c d e)
  | WasiWrapper_fd_renumber ?a ?b => constr:(CallFdRenumber a b)
  | WasiWrapper_fd_seek ?a ?b ?c ?d => constr:(CallFdSeek a b c d)
  | WasiWrapper_fd_sync ?a => constr:(CallFdSync a)
  | WasiWrapper_fd_tell ?a ?b => constr:(CallFdTell a b)
  | WasiWrapper_fd_write ?a ?b ?c ?d => constr:(CallFdWrite a b c d)
  | WasiWrapper_path_create_directory ?a ?b ?c => constr:(CallPathCreateDirectory a b c)
  | WasiWrapper_path_filestat_get ?a ?b ?c ?d ?e => constr:(CallPathFilestatGet a b c d e)
  | WasiWrapper_path_filestat_set_times ?a ?b ?c ?d ?e ?f ?g =>
      constr:(CallPathFilestatSetTimes a b c d e f g)
  | WasiWrapper_path_link ?a ?b ?c ?d ?e ?f ?g => constr:(CallPathLink a b c d e f g)
  | WasiWrapper_path_open ?a ?b ?c ?d ?e ?f ?g ?h ?i => constr:(CallPathOpen a b c d e f g h i)
  | WasiWrapper_path_readlink ?a ?b ?c ?d ?e ?f => constr:(CallPathReadlink a b c d e f)
  | WasiWrapper_path_remove_directory ?a ?b ?c => constr:(CallPathRemoveDirectory a b c)
  | WasiWrapper_path_rename ?a ?b ?c ?d ?e ?f => constr:(CallPathRename a b c d e f)
  | WasiWrapper_path_symlink ?a ?b ?c ?d ?e => constr:(CallPathSymlink a b c d e)
  | WasiWrapper_path_unlink_file ?a ?b ?c => constr:(CallPathUnlinkFile a b c)
  | WasiWrapper_poll_oneoff ?a ?b ?c ?d => constr:(CallPollOneoff a b c d)
  | WasiWrapper_proc_exit ?a => constr:(CallProcExit a)
  | WasiWrapper_proc_raise ?a => constr:(CallProcRaise a)
  | WasiWrapper_sched_yield => constr:(CallSchedYield)
  | WasiWrapper_random_get ?a ?b => constr:(CallRandomGet a b)
  | WasiWrapper_sock_recv ?a ?b ?c ?d ?e ?f => constr:(CallSockRecv a b c d e f)
  | WasiWrapper_sock_send ?a ?b ?c ?d ?e => constr:(CallSockSend a b c d e)
  | WasiWrapper_sock_shutdown ?a ?b => constr:(CallSockShutdown a b)
  | WasiWrapper_fd_create ?a => constr:(CallFdCreate a)
  end.

(** The definitions of the host calls of the two engines. *)
Ltac unfold_host_call :=
  cbn [host_call]; unfold
    wasi_args_get, wasi_args_sizes_get, wasi_environ_get, wasi_environ_sizes_get,
    wasi_clock_res_get, wasi_clock_time_get, wasi_fd_advise, wasi_fd_allocate, wasi_fd_close,
    wasi_fd_datasync, wasi_fd_fdstat_get, wasi_fd_fdstat_set_flags, wasi_fd_fdstat_set_rights,
    wasi_fd_filestat_get, wasi_fd_filestat_set_size, wasi_fd_filestat_set_times, wasi_fd_pread,
    wasi_fd_prestat_get, wasi_fd_prestat_dir_name, wasi_fd_pwrite, wasi_fd_read,
    wasi_fd_readdir, wasi_fd_renumber, wasi_fd_seek, wasi_fd_sync, wasi_fd_tell, wasi_fd_write,
    wasi_path_create_directory, wasi_path_filestat_get, wasi_path_filestat_set_times,
    wasi_path_link, wasi_path_open, wasi_path_readlink, wasi_path_remove_directory,
    wasi_path_rename, wasi_path_symlink, wasi_path_unlink_file, wasi_poll_oneoff,
    wasi_proc_exit, wasi_proc_raise, wasi_sched_yield, wasi_random_get, wasi_sock_send,
    wasi_sock_recv, wasi_sock_shutdown, veracruz_fd_create.

Ltac unfold_linked_code :=
  cbn [linked_code]; unfold
    Wasmtime_wasi_arg_get, Wasmtime_wasi_args_sizes_get, Wasmtime_wasi_environ_get,
    Wasmtime_wasi_environ_size_get, Wasmtime_wasi_clock_res_get, Wasmtime_wasi_clock_time_get,
    Wasmtime_wasi_fd_advise, Wasmtime_wasi_fd_allocate, Wasmtime_wasi_fd_close,
    Wasmtime_wasi_fd_datasync, Wasmtime_wasi_fd_fdstat_get, Wasmtime_wasi_fd_fdstat_set_flags,
    Wasmtime_wasi_fd_fdstat_set_rights, Wasmtime_wasi_fd_filestat_get,
    Wasmtime_wasi_fd_filestat_set_size, Wasmtime_wasi_fd_filestat_set_times,
    Wasmtime_wasi_fd_pread, Wasmtime_wasi_fd_prestat_get, Wasmtime_wasi_fd_prestat_dir_name,
    Wasmtime_wasi_fd_pwrite, Wasmtime_wasi_fd_read, Wasmtime_wasi_fd_readdir,
    Wasmtime_wasi_fd_renumber, Wasmtime_wasi_fd_seek, Wasmtime_wasi_fd_sync,
    Wasmtime_wasi_fd_tell, Wasmtime_wasi_fd_write, Wasmtime_wasi_path_create_directory,
    Wasmtime_wasi_path_filestat_get, Wasmtime_wasi_path_filestat_set_times,
    Wasmtime_wasi_path_link, Wasmtime_wasi_path_open, Wasmtime_wasi_path_readlink,
    Wasmtime_wasi_path_remove_directory, Wasmtime_wasi_path_rename, Wasmtime_wasi_path_symlink,
    Wasmtime_wasi_path_unlink_file, Wasmtime_wasi_poll_oneoff, Wasmtime_wasi_proc_exit,
    Wasmtime_wasi_proc_raise, Wasmtime_wasi_sched_yield, Wasmtime_wasi_random_get,
    Wasmtime_wasi_sock_recv, Wasmtime_wasi_sock_send, Wasmtime_wasi_sock_shutdown,
    Wasmtime_veracruz_si_fd_create.

Section engines.
Context {BP : BuildProfile} {WR : WasiRights} {HO : HashOrder} {NL : NativeLibs}
  {P : Type} {PI : PlatformImp P} {SL : StructLayout} {ED : ErrNoDebug} {WC : WasiCodes}
  {RV : RuntimeValues} {RL : RuntimeValuesLaws RV} {EC : ErrNoCodes} {WL : WasmiLib}
  {WT : WasmtimeLib}.

(** *** The interpreter *)

Lemma bind_ret {S E A B} (a : A) (k : A → ST S E B) : bind (ret a) k = k a.
Proof. reflexivity. Qed.

Lemma check_args_ok args x ps :
  TypeCheck.get_params (E:=WasmApi.FatalEngineError) (WasiAPIName x) = Ok ps →
  length args = length ps →
  check_args_number (P:=P) args x = ret tt.
Proof.
  intros Hp Hl. unfold check_args_number. rewrite Hp. unfold bind, lift.
  by rewrite decide_True by done.
Qed.

Lemma nth_u32 args i v :
  args !! i = Some (VI32 v) → nth_checked (P:=P) value_u32 args i = ret (as_u32 v).
Proof. intros Hi. unfold nth_checked. rewrite Hi. simpl. by rewrite value_u32_I32. Qed.
Lemma nth_panic_u32 args i v :
  args !! i = Some (VI32 v) → nth (P:=P) value_u32 args i = ret (as_u32 v).
Proof. intros Hi. unfold nth. rewrite Hi. simpl. by rewrite value_u32_I32. Qed.
Lemma nth_u64 args i v :
  args !! i = Some (VI64 v) → nth_checked (P:=P) value_u64 args i = ret (as_u64 v).
Proof. intros Hi. unfold nth_checked. rewrite Hi. simpl. by rewrite value_u64_I64. Qed.
Lemma nth_i64 args i v :
  args !! i = Some (VI64 v) → nth_checked (P:=P) value_i64 args i = ret v.
Proof. intros Hi. unfold nth_checked. rewrite Hi. simpl. by rewrite value_i64_I64. Qed.

Lemma as_u32_narrow v bound :
  wf_value (VI32 v) → as_u32 v < bound → bound ≤ u16_bound → 0 ≤ v < bound ∧ as_u32 v = v.
Proof.
  unfold as_u32. simpl. intros Hv Hb Hbound. destruct (Z.lt_ge_cases v 0).
  - rewrite <- (Z.mod_add v 1), Z.mod_small in Hb by lia. lia.
  - rewrite Z.mod_small in * by lia. lia.
Qed.

Lemma nth_u16 args i v :
  args !! i = Some (VI32 v) → Forall wf_value args → as_u32 v < u16_bound →
  nth_checked (P:=P) value_u16 args i = ret (as_u32 v).
Proof.
  intros Hi Hwf Hv. apply (Forall_lookup_1 _ _ _ _ Hwf) in Hi as Hv'.
  destruct (as_u32_narrow v _ Hv' Hv ltac:(lia)) as [? ->].
  unfold nth_checked. rewrite Hi. simpl. by rewrite value_u16_I32.
Qed.
Lemma nth_u8 args i v :
  args !! i = Some (VI32 v) → Forall wf_value args → as_u32 v < u8_bound →
  nth (P:=P) value_u8 args i = ret (as_u32 v).
Proof.
  intros Hi Hwf Hv. apply (Forall_lookup_1 _ _ _ _ Hwf) in Hi as Hv'.
  destruct (as_u32_narrow v _ Hv' Hv ltac:(lia)) as [? ->].
  unfold nth. rewrite Hi. simpl. by rewrite value_u8_I32.
Qed.

(** The arguments of a decoded call, one by one. *)
Ltac decode_inv Hd :=
  unfold decode, narrow in Hd; repeat (case_match; try discriminate Hd);
  repeat match goal with H : (_ <? _) = true |- _ => apply Z.ltb_lt in H end; simplify_eq.

Ltac read_args Hwf :=
  repeat first
    [ rewrite bind_ret
    | erewrite check_args_ok by reflexivity
    | erewrite nth_u32 by reflexivity
    | erewrite nth_panic_u32 by reflexivity
    | erewrite nth_u64 by reflexivity
    | erewrite nth_i64 by reflexivity
    | erewrite nth_u16 by first [reflexivity | exact Hwf | assumption]
    | erewrite nth_u8 by first [reflexivity | exact Hwf | assumption] ].

(** The interpreter implements [decode]. *)
Lemma host_call_decodes f args c :
  Forall wf_value args → decode f args = Some c →
  host_call (P:=P) f args = on_vfs (run_wasi_call c).
Proof.
  intros Hwf Hd. destruct f as [x|x]; destruct x; decode_inv Hd;
    unfold_host_call; read_args Hwf; reflexivity.
Qed.

(** *** The compiler *)

Lemma convert_wasi_arg_ok v bound (k : Z → HostM (option bytes) P Z) :
  v < bound → convert_wasi_arg v bound k = k v.
Proof. intros Hv. unfold convert_wasi_arg. by rewrite (proj2 (Z.ltb_lt _ _) Hv). Qed.

(** The compiler implements [decode], up to what it logs. *)
Lemma linked_code_decodes f args c h :
  decode f args = Some c →
  ∃ l, linked_code (P:=P) f args h = vfs_call (run_wasi_call c) (set_log l h).
Proof.
  intros Hd. destruct f as [x|x]; destruct x; decode_inv Hd; unfold_linked_code;
    rewrite ?convert_wasi_arg_ok by done.
  all: first [by exists (log h); destruct h | by eexists].
Qed.

(** *** Agreement *)

(** Two hosts that differ at most in their logs. *)
Definition same_but_log {T} (h1 h2 : Host T P) : Prop := set_log [] h1 = set_log [] h2.

(** One call of the wrapper, on the two kinds of memory. *)
Lemma wasi_call_engines c m (h : Host (option bytes) P) l :
  linear_memory h = Some m →
  match run_wasi_call c (with_linear_memory m h), run_wasi_call c (set_log l h) with
  | (r1, h1), (r2, h2) =>
      r1 = r2 ∧ same_but_log (with_linear_memory (Some (linear_memory h1)) h1) h2
  end.
Proof.
  intros Hm.
  assert (related exported true (with_linear_memory m h) (set_log l h)) as HR
    by done.
  pose proof (sim_wasi_call (P:=P) true c _ _ HR) as Hsim.
  destruct (run_wasi_call c (with_linear_memory m h)) as [r1 h1],
    (run_wasi_call c (set_log l h)) as [r2 h2].
  assert (∀ h1 h2, related (P:=P) exported true h1 h2 →
    same_but_log (with_linear_memory (Some (linear_memory h1)) h1) h2) as Hsame.
  { clear. intros [[] w1 m1 p1 l1] [[] w2 m2 p2 l2] (Hw & Hs & Hwo & Hm & Hp). simpl in *.
    unfold untraced, set_enables in Hw. simpl in Hw. specialize (Hs eq_refl).
    unfold same_but_log, set_log, with_linear_memory, exported in *. simpl.
    injection Hw as -> -> -> -> ->. by rewrite Hs, Hwo, Hm, Hp. }
  destruct r1, r2; try done; [destruct Hsim as [-> HR']; auto..|].
  destruct (Hsim eq_refl) as [-> HR']. auto.
Qed.


(** ** Types *)

(** The narrow parameters: position and bound. *)
Definition narrow_params (f : APIName) : list (nat * Z) :=
  match f with
  | WasiAPIName WasiAPIName.FD_ADVISE => [(3%nat, u8_bound)]
  | WasiAPIName WasiAPIName.FD_FDSTAT_SET_FLAGS => [(1%nat, u16_bound)]
  | WasiAPIName WasiAPIName.FD_FILESTAT_SET_TIMES => [(3%nat, u16_bound)]
  | WasiAPIName WasiAPIName.FD_SEEK => [(2%nat, u8_bound)]
  | WasiAPIName WasiAPIName.PATH_FILESTAT_SET_TIMES => [(6%nat, u16_bound)]
  | WasiAPIName WasiAPIName.PATH_OPEN => [(4%nat, u16_bound); (7%nat, u16_bound)]
  | WasiAPIName WasiAPIName.PROC_RAISE => [(0%nat, u8_bound)]
  | WasiAPIName WasiAPIName.SOCK_RECV => [(3%nat, u16_bound)]
  | WasiAPIName WasiAPIName.SOCK_SEND => [(3%nat, u16_bound)]
  | WasiAPIName WasiAPIName.SOCK_SHUTDOWN => [(1%nat, u8_bound)]
  | _ => []
  end.

Definition narrow_ok (args : list RuntimeValue) (p : nat * Z) : bool :=
  match args !! p.1 with Some (VI32 v) => as_u32 v <? p.2 | _ => false end.

(** The types the interpreter checks are those the linker has. *)
Lemma get_params_linked {E} f :
  f ≠ WasiAPIName WasiAPIName._LAST → TypeCheck.get_params (E:=E) f = Ok (linked_params f).
Proof. destruct f as [x|x]; destruct x; done. Qed.

Lemma map_type_cons args t ts :
  value_type <$> args = t :: ts →
  ∃ v args', args = v :: args' ∧ value_type v = t ∧ value_type <$> args' = ts.
Proof. destruct args as [|v args']; simpl; intros; simplify_eq. eauto. Qed.

Lemma decode_typed f args :
  f ≠ WasiAPIName WasiAPIName._LAST →
  value_type <$> args = linked_params f → forallb (narrow_ok args) (narrow_params f) = true →
  ∃ c, decode f args = Some c.
Proof.
  intros Hf Ht Hn.
  destruct f as [x|x]; destruct x; cbn [linked_params narrow_params forallb] in Ht, Hn; try done;
    repeat match type of Ht with
           | _ = _ :: _ =>
               let v := fresh "v" in let l := fresh "l" in
               apply map_type_cons in Ht as (v & l & -> & Hv & Ht);
               destruct v; try discriminate Hv; clear Hv
           | _ = [] => apply fmap_nil_inv in Ht as ->
           end;
    unfold narrow_ok in Hn; cbn in Hn; rewrite ?andb_true_r in Hn;
    repeat match type of Hn with _ && _ = true => apply andb_true_iff in Hn as [?Hn Hn] end;
    unfold decode, narrow; rewrite ?Hn, ?Hn0; eauto.
Qed.
End engines.
