(* ===== verification/EngineRuns.v ===== *)
(** * Runs of a program

    Whatever a program does, a run of it acts on the filesystem through the
    operations of the handler it was given, one for each host call at most.
    The two engines are thereby the engines the runtime manager relies on. *)

From S2P Require Import Prelude RustPath WasiTypes Policy InodeTable FileSystem FsOps Services.
From S2P Require Import FsSystem Runtime Platform WasiMemory WasiHost Strace Wasi WasiSim.
From S2P Require Import WasiCalls WasmApi Wasmi Wasmtime Engines.
Local Open Scope Z_scope.

Section runs.
Context {BP : BuildProfile} {WR : WasiRights} {HO : HashOrder} {NL : NativeLibs}
  {P : Type} {PI : PlatformImp P} {SL : StructLayout} {ED : ErrNoDebug} {WC : WasiCodes}
  {RV : RuntimeValues} {EC : ErrNoCodes} {WL : WasmiLib} {WT : WasmtimeLib}.

(** ** Operations made by a computation *)

(** A state and the one it becomes by at most [n] operations of the handler. *)
Definition reached (n : nat) (f f' : fs_state) : Prop :=
  ∃ cs, (length cs ≤ n)%nat ∧ f' = run_calls cs f.

Lemma reached_refl n f : reached n f f.
Proof. exists []. split; [simpl; lia|done]. Qed.

Lemma reached_trans n k f g h : reached n f g → reached k g h → reached (n + k) f h.
Proof.
  intros (cs & Hl & ->) (cs' & Hl' & ->). exists (cs ++ cs'). rewrite length_app.
  unfold run_calls. rewrite foldl_app. split; [lia|done].
Qed.

(** Code that makes at most [n] operations on the filesystem in its state. *)
Definition calls_at_most {S E A} (view : S → fs_state) (n : nat) (m : ST S E A) : Prop :=
  ∀ s, reached n (view s) (view (m s).2).

Section rules.
Context {S E : Type} (view : S → fs_state).

Lemma at_most_bind {A B} n (m : ST S E A) (k : A → ST S E B) :
  calls_at_most view 0 m → (∀ a, calls_at_most view n (k a)) → calls_at_most view n (bind m k).
Proof.
  intros Hm Hk s. unfold bind. specialize (Hm s). destruct (m s) as [[a|e|p] s']; simpl in *;
    (apply (reached_trans 0 n _ (view s')); [done|]); [apply Hk|apply reached_refl..].
Qed.

Lemma at_most_before {A B} n (m : ST S E A) (k : A → ST S E B) :
  calls_at_most view n m → (∀ a, calls_at_most view 0 (k a)) → calls_at_most view n (bind m k).
Proof.
  intros Hm Hk s. unfold bind. specialize (Hm s). rewrite <- (Nat.add_0_r n).
  destruct (m s) as [[a|e|p] s']; simpl in *;
    (apply (reached_trans n 0 _ (view s')); [done|]); [apply Hk|apply reached_refl..].
Qed.

Lemma at_most_seq {A B} n k (m : ST S E A) (f : A → ST S E B) :
  calls_at_most view n m → (∀ a, calls_at_most view k (f a)) →
  calls_at_most view (n + k) (bind m f).
Proof.
  intros Hm Hf s. unfold bind. specialize (Hm s). destruct (m s) as [[a|e|p] s']; simpl in *;
    (apply (reached_trans n k _ (view s')); [done|]); [apply Hf|apply reached_refl..].
Qed.

Lemma at_most_get {A} n (k : S → ST S E A) :
  (∀ s, calls_at_most view n (k s)) → calls_at_most view n (bind get k).
Proof. intros Hk s. apply Hk. Qed.

Lemma at_most_map_err {F A} n (f : E → F) (m : ST S E A) :
  calls_at_most view n m → calls_at_most view n (map_err f m).
Proof. intros Hm s. specialize (Hm s). unfold map_err. by destruct (m s) as [[] ?]. Qed.

(** The state, or what is seen of it, is left as it is. *)
Lemma at_most_view {A} n (m : ST S E A) :
  (∀ s, view (m s).2 = view s) → calls_at_most view n m.
Proof. intros Hm s. rewrite Hm. apply reached_refl. Qed.

Lemma at_most_pure {A} n (m : ST S E A) : (∀ s, (m s).2 = s) → calls_at_most view n m.
Proof. intros Hm. apply at_most_view. intros s. by rewrite Hm. Qed.

Lemma at_most_fold {A X} (body : A → X → ST S E A) l acc :
  (∀ a x, calls_at_most view 0 (body a x)) → calls_at_most view 0 (fold_st body l acc).
Proof.
  intros Hb. revert acc. induction l as [|x l IH]; intros acc; simpl; [by apply at_most_pure|].
  by apply at_most_bind.
Qed.
End rules.

(** ** The interpreter *)

Definition wasmi_fs (s : WASMIRuntimeState (P:=P)) : fs_state := fs_of (host s).

Lemma on_vfs_at_most c : calls_at_most wasmi_fs 1 (on_vfs (run_wasi_call c)).
Proof.
  intros s. unfold wasmi_fs, on_vfs, with_memory, convert_to_errno, bind, ret.
  destruct (linear_memory (host s)) as [m|]; [|apply reached_refl].
  pose proof (wasi_call_effect c (with_linear_memory m (host s))) as Hc.
  destruct (run_wasi_call c (with_linear_memory m (host s))) as [r h]. by destruct r.
Qed.

Lemma check_args_state args x s : (check_args_number (P:=P) args x s).2 = s.
Proof.
  unfold check_args_number, bind, lift. destruct (TypeCheck.get_params (WasiAPIName x)); [|done..].
  by case_decide.
Qed.
Lemma nth_checked_state conv args i s : (nth_checked (P:=P) conv args i s).2 = s.
Proof. unfold nth_checked, ok_or. by destruct (args !! i ≫= conv). Qed.
Lemma nth_state conv args i s : (nth (P:=P) conv args i s).2 = s.
Proof. unfold nth. by destruct (args !! i ≫= conv). Qed.

(** Every host call makes at most one operation of the handler, whatever its
    arguments. *)
Lemma host_call_at_most f args : calls_at_most wasmi_fs 1 (host_call f args).
Proof.
  destruct f as [x|x]; destruct x; unfold_host_call;
    repeat (apply at_most_bind;
      [apply at_most_pure; intros ?;
       first [apply check_args_state | apply nth_checked_state | apply nth_state]|intros ?]);
    lazymatch goal with
    | |- calls_at_most _ _ (on_vfs ?m) => let c := as_wasi_call m in apply (on_vfs_at_most c)
    | |- _ => by apply at_most_pure
    end.
Qed.

Lemma invoke_index_at_most index args : calls_at_most wasmi_fs 1 (invoke_index index args).
Proof.
  apply at_most_map_err. apply at_most_bind; [by apply at_most_pure|intros name].
  apply at_most_bind; [apply at_most_pure; intros s; unfold ok_or; by destruct name|intros f].
  apply at_most_before; [apply host_call_at_most|intros e; by apply at_most_pure].
Qed.

Lemma run_guest_at_most fuel g : calls_at_most wasmi_fs fuel (run_guest fuel g).
Proof.
  revert g. induction fuel as [|fuel IH]; intros g s; simpl; [apply reached_refl|].
  destruct (guest_step g _) as [v|t|m g'|i args k]; [apply reached_refl..| |].
  - apply (reached_trans 1 fuel _ (wasmi_fs (set_host (set_memory (Some m) (host s)) s)));
      [apply reached_refl|apply IH].
  - pose proof (invoke_index_at_most i args s) as Hi.
    destruct (invoke_index i args s) as [[v|t|p] s'];
      (apply (reached_trans 1 fuel _ (wasmi_fs s')); [exact Hi|]); [apply IH|apply reached_refl..].
Qed.

Lemma load_program_at_most program : calls_at_most wasmi_fs 0 (load_program (P:=P) program).
Proof.
  assert (∀ A (r : outcome Error A), calls_at_most wasmi_fs 0 (wasmi_error r)) as Herr.
  { intros A r. apply at_most_pure. intros s. unfold wasmi_error, map_err, lift. by destruct r. }
  unfold load_program. apply at_most_bind; [apply Herr|intros m].
  apply at_most_bind.
  - apply at_most_fold. intros acc i.
    apply at_most_bind; [apply Herr|intros; by apply at_most_pure].
  - intros funcs. apply at_most_bind; [apply Herr|intros mref].
    apply at_most_bind; [apply at_most_pure; intros s; unfold fail_if; by case_match|intros _].
    apply at_most_bind; [|intros mem s; apply reached_refl].
    apply at_most_pure. intros s. unfold get_module_memory. by repeat case_match.
Qed.

Lemma invoke_entry_point_at_most fuel program options :
  calls_at_most wasmi_fs fuel (invoke_entry_point fuel program options).
Proof.
  unfold invoke_entry_point. apply at_most_bind; [apply load_program_at_most|intros _].
  apply at_most_bind; [intros s; apply reached_refl|intros _ s].
  assert (calls_at_most wasmi_fs fuel (invoke_export fuel ENTRY_POINT_NAME)) as He.
  { apply at_most_get. intros s0. destruct (program_module s0) as [m|]; [|by apply at_most_pure].
    apply at_most_bind; [apply at_most_pure; intros s1; by case_match|intros args].
    apply at_most_bind; [by apply at_most_pure|intros g]. apply run_guest_at_most. }
  specialize (He s). by destruct (invoke_export fuel ENTRY_POINT_NAME s).
Qed.

(** ** The compiler *)

Abbreviation wt_fs := (fs_of (T:=option bytes) (P:=P)).

Lemma vfs_call_at_most c : calls_at_most wt_fs 1 (vfs_call (run_wasi_call c)).
Proof.
  apply at_most_before; [|intros r; by apply at_most_pure].
  intros h. pose proof (wasi_call_effect c h) as Hc. unfold attempt, try_match.
  by destruct (run_wasi_call c h) as [[] ?].
Qed.

Lemma linked_code_at_most f args : calls_at_most wt_fs 1 (linked_code f args).
Proof.
  destruct f as [x|x]; destruct x; cbn [linked_code]; repeat case_match;
    unfold_linked_code; unfold convert_wasi_arg; repeat case_match;
    repeat (apply at_most_bind; [by apply at_most_view|intros ?]);
    lazymatch goal with
    | |- calls_at_most _ _ (vfs_call ?m) => let c := as_wasi_call m in apply (vfs_call_at_most c)
    | |- _ => by apply at_most_pure
    end.
Qed.

Lemma wt_run_at_most fuel g : calls_at_most wt_fs fuel (wt_run fuel g).
Proof.
  revert g. induction fuel as [|fuel IH]; intros g s; simpl; [apply reached_refl|].
  destruct (wt_step g _) as [v|t|m g'|f args k]; [apply reached_refl..| |].
  - apply (reached_trans 1 fuel _ (wt_fs (set_memory (Some m) s)));
      [apply reached_refl|apply IH].
  - assert (calls_at_most wt_fs 1 (linked_call f args)) as Hf.
    { apply at_most_before; [apply linked_code_at_most|intros; by apply at_most_pure]. }
    specialize (Hf s). destruct (linked_call f args s) as [[v|t|p] s'];
      (apply (reached_trans 1 fuel _ (wt_fs s')); [exact Hf|]); [apply IH|apply reached_refl..].
Qed.

Lemma log_info_at_most msg : calls_at_most wt_fs 0 (log_info msg).
Proof. by apply at_most_view. Qed.
Lemma anyhow_at_most {A} (r : outcome string A) : calls_at_most wt_fs 0 (anyhow (P:=P) r).
Proof. apply at_most_pure. intros s. unfold anyhow, map_err, lift. by destruct r. Qed.
Lemma ok_or_at_most {E A} (o : option A) (e : E) : calls_at_most wt_fs 0 (ok_or o e).
Proof. apply at_most_pure. intros s. unfold ok_or. by destruct o. Qed.

Lemma wt_run_start_at_most fuel i : calls_at_most wt_fs fuel (wt_run_start fuel i).
Proof.
  unfold wt_run_start. destruct (wt_start i) as [g|]; [|by apply at_most_pure].
  apply at_most_before; [apply at_most_map_err, wt_run_at_most|intros; by apply at_most_pure].
Qed.

Lemma wt_invoke_at_most fuel i results args :
  calls_at_most wt_fs fuel (wt_invoke fuel i results args).
Proof.
  apply at_most_bind.
  - apply at_most_pure. intros s. unfold fail_if. by case_match.
  - intros _ s. pose proof (wt_run_at_most fuel (wt_call i ENTRY_POINT_NAME args) s) as Hr.
    by destruct (wt_run fuel _ s) as [[] ?].
Qed.

Lemma invoke_engine_at_most fuel binary :
  calls_at_most wt_fs (fuel + fuel) (invoke_engine fuel binary).
Proof.
  unfold invoke_engine. apply at_most_bind; [apply anyhow_at_most|intros m].
  do 2 (apply at_most_bind; [apply log_info_at_most|intros _]).
  apply at_most_bind; [apply ok_or_at_most|intros funcs].
  apply at_most_bind; [apply anyhow_at_most|intros i].
  apply at_most_bind; [by apply at_most_view|intros _].
  apply at_most_seq; [apply wt_run_start_at_most|intros _].
  apply at_most_bind; [apply log_info_at_most|intros _].
  apply at_most_bind; [apply ok_or_at_most|intros e].
  apply at_most_bind; [apply log_info_at_most|intros _]. cbv zeta.
  apply at_most_before.
  - case_match; [by apply at_most_pure|apply wt_invoke_at_most..].
  - intros r. apply at_most_bind; [apply log_info_at_most|intros _].
    apply at_most_get. intros s. cbv zeta. apply at_most_bind; [apply log_info_at_most|intros _].
    case_match; [by apply at_most_pure|]. apply at_most_bind; [apply log_info_at_most|intros _].
    case_match; by apply at_most_pure.
Qed.

(** ** The engines of the runtime manager *)

(** The run of a program over a handler, as [execute] of [lib.rs] starts it
    with the options of the runtime manager: the clock as the policy says and
    defaults otherwise. *)
Definition run_options (clock : bool) : Options :=
  mkOptions (opt_environment_variables Options_default) (opt_program_arguments Options_default)
    clock (opt_enable_strace Options_default).

Definition wasmi_engine (fuel : nat) (p : P) (clock : bool) (program : bytes) :
  ST fs_state WasmApi.FatalEngineError Z := λ f,
  let '(r, s) := invoke_entry_point fuel program (run_options clock)
                   (WASMIRuntimeState_new (handle f) clock (world f) p) in
  (r, wasmi_fs s).

Definition wasmtime_engine (fuel : nat) (p : P) (clock : bool) (program : bytes) :
  ST fs_state WasmApi.FatalEngineError Z := λ f,
  let '(r, s) := Wasmtime_invoke_entry_point fuel program (run_options clock)
                   (mkHost (WasiWrapper_new (handle f) clock) (world f) None p []) in
  (r, wt_fs s).

Definition engines (fuel : nat) (p : P) (jit : bool) : WasmEngines := {|
  Runtime.FatalEngineError := WasmApi.FatalEngineError;
  Runtime.EngineIsNotReady := WasmApi.EngineIsNotReady;
  jit_available := jit;
  wasmi_run := wasmi_engine fuel p;
  wasmtime_run := wasmtime_engine fuel p;
|}.

Lemma wasmi_engine_calls fuel p clock program f :
  reached fuel f (wasmi_engine fuel p clock program f).2.
Proof.
  unfold wasmi_engine.
  pose proof (invoke_entry_point_at_most fuel program (run_options clock)
    (WASMIRuntimeState_new (handle f) clock (world f) p)) as Hr.
  destruct (invoke_entry_point _ _ _ _) as [r s]. by destruct f.
Qed.

Lemma wasmtime_engine_calls fuel p clock program f :
  reached (fuel + fuel) f (wasmtime_engine fuel p clock program f).2.
Proof.
  unfold wasmtime_engine, Wasmtime_invoke_entry_point.
  set (h := mkHost _ _ _ _ _). unfold bind at 1, modify.
  pose proof (invoke_engine_at_most fuel program
    (set_wrapper (set_enables clock false (set_environment [] [] (wrapper h))) h)) as Hr.
  cbn [run_options opt_enable_clock opt_enable_strace opt_environment_variables
       opt_program_arguments Options_default].
  destruct (invoke_engine _ _ _) as [r s]. by destruct f.
Qed.

(** C28: the engines meet what the runtime manager assumes of them: whatever
    the program, however long it is let run and however the run ends, the
    state of the filesystem it leaves is reached by a sequence of operations
    of the handler it was given. *)
Theorem engines_refine fuel p jit : WasmEnginesLaws (engines fuel p jit).
Proof.
  split; intros clk prog f.
  - destruct (wasmi_engine_calls fuel p clk prog f) as (cs & _ & Hcs). by exists cs.
  - destruct (wasmtime_engine_calls fuel p clk prog f) as (cs & _ & Hcs). by exists cs.
Qed.
End runs.
