(* ===== verification/Freestanding.v ===== *)
(** * The freestanding execution engine ([freestanding-execution-engine])

    The tool for offline development: it copies files of the host into a
    virtual filesystem, runs programs on it one after the other, each with a
    handler of its own, and copies the output files back.

    Sources: [sdk/freestanding-execution-engine/src/main.rs];
    [execution-engine/src/lib.rs] ([execute]).

    [clap] gives the values of the options, [CommandMatches].  The engines
    are those of [Wasmi] and [Wasmtime], with any number of steps; what is
    written on the standard error stream is left out. *)

From S2P Require Import Prelude RustFmt RustStr RustPath WasiTypes Policy InodeTable FileSystem FsOps Services.
From S2P Require Import FsSystem Runtime Platform WasiMemory WasiHost Strace Wasi WasiSim WasiCalls WasmApi.
From S2P Require Import Wasmi Wasmtime Engines EngineRuns Client Host.
Local Open Scope Z_scope.

(** ** The command line *)

Record CommandMatches := mkCommandMatches {
  cm_input : option (list string);
  cm_output : option (list string);
  cm_program : option (list string);
  cm_execution_strategy : option string;
  cm_dump_stdout : bool;
  cm_dump_stderr : bool;
  cm_enable_clock : bool;
  cm_arg : option (list string);
  cm_env : option (list string);
  cm_strace : bool;
}.

Record CommandLineOptions := mkCommandLineOptions {
  input_sources : list string;
  output_sources : list string;
  program_sources : list string;
  cl_execution_strategy : ExecutionStrategy;
  dump_stdout : bool;
  dump_stderr : bool;
  cl_enable_clock : bool;
  environment_variables : list (string * string);
  program_arguments : list string;
  enable_strace : bool;
}.

(** [Box<dyn Error>], by where the error comes from *)
Inductive ToolError :=
  | CommandError (msg : string)
  | HostError
  | VfsError (e : ErrNo.t)
  | EngineError (e : WasmApi.FatalEngineError)
  | Utf8DumpError.

(** [VAR=VAL]; a text without [=] panics. *)
Definition split_variable (e : string) : outcome ToolError (string * string) :=
  match split_at_char "=" e with Some p => Ok p | None => Abort UnwrapOnErr end.

Definition parse_command_line (m : CommandMatches) : outcome ToolError CommandLineOptions :=
  let strategy := default "jit" (cm_execution_strategy m) in
  match
    (if decide (strategy = "interp") then Some Interpretation
     else if decide (strategy = "jit") then Some JIT else None)
  with
  | None => Err (CommandError "Expecting 'interp' or 'jit' as selectable execution strategies")
  | Some execution_strategy =>
      match cm_program m with
      | None => Err (CommandError "No binary file provided.")
      | Some program_sources =>
          match collect (split_variable <$> default [] (cm_env m)) with
          | Ok environment_variables => Ok {|
              input_sources := default [] (cm_input m); output_sources := default [] (cm_output m);
              program_sources := program_sources; cl_execution_strategy := execution_strategy;
              dump_stdout := cm_dump_stdout m; dump_stderr := cm_dump_stderr m;
              cl_enable_clock := cm_enable_clock m; environment_variables := environment_variables;
              program_arguments := default [] (cm_arg m); enable_strace := cm_strace m |}
          | Err e => Err e
          | Abort p => Abort p
          end
      end
  end.

Section freestanding.
Context {BP : BuildProfile} {WR : WasiRights} {HO : HashOrder} {NL : NativeLibs}
  {P : Type} {PI : PlatformImp P} {SL : StructLayout} {ED : ErrNoDebug} {WC : WasiCodes}
  {RV : RuntimeValues} {EC : ErrNoCodes} {WL : WasmiLib} {WT : WasmtimeLib}
  {D : Type} {HS : HostSystem D}.

(** ** [execute] with all its options *)

(** [jit] says whether the build has the compiler; [p] is the platform. *)
Definition execute_with (fuel : nat) (p : P) (jit : bool) (strategy : ExecutionStrategy)
    (program : bytes) (options : Options) : ST fs_state WasmApi.FatalEngineError Z :=
  match strategy with
  | Interpretation => λ f,
      let '(r, s) := invoke_entry_point fuel program options
                       (WASMIRuntimeState_new (handle f) (opt_enable_clock options) (world f) p) in
      (r, wasmi_fs s)
  | JIT =>
      if jit then λ f,
        let '(r, s) := Wasmtime_invoke_entry_point fuel program options
                         (mkHost (WasiWrapper_new (handle f) (opt_enable_clock options)) (world f) None p []) in
        (r, fs_of s)
      else throw WasmApi.EngineIsNotReady
  end.

(** ** The tool *)

(** The host and the root handler of the virtual filesystem *)
Record Tool := mkTool { tl_host : D; tl_vfs : fs_state }.
Definition set_tl_host (d : D) (t : Tool) : Tool := mkTool d (tl_vfs t).
Definition set_tl_vfs (v : fs_state) (t : Tool) : Tool := mkTool (tl_host t) v.
Abbreviation TL A := (ST Tool ToolError A).

Definition on_vfs_of {A} (m : M A) : TL A := map_err VfsError (zoom tl_vfs set_tl_vfs m).

(** [Path::new("/").join(p)] *)
Definition from_root (p : string) : Path := push (path "/") (path p).

(** [read_to_end(..)?], [create_dir_all(..)?], [File::create(..)?], [write_all(..)?] *)
Definition tool_read (p : string) : TL bytes :=
  let! t := get in ok_or (fs_read p (tl_host t)) HostError.
Definition tool_create_dir_all (p : string) : TL unit := λ t,
  match host_create_dir_all p (tl_host t) with
  | Some d => (Ok tt, set_tl_host d t)
  | None => (Err HostError, t)
  end.
Definition tool_write (p : string) (data : bytes) : TL unit := λ t,
  let '(written, d) := fs_write p data (tl_host t) in
  (if written : bool then Ok tt else Err HostError, set_tl_host d t).
Definition tool_print (text : bytes) : TL unit := λ t,
  let '(written, d) := stdout_write_all text (tl_host t) in
  (if written : bool then Ok tt else Abort UnwrapOnErr, set_tl_host d t).

Fixpoint for_each_tool {A} (body : A → TL unit) (l : list A) : TL unit :=
  match l with [] => ret tt | x :: l' => do! body x in for_each_tool body l' end.

(** The fuel bounds the depth of the directories of the host. *)
Fixpoint load_input_source (fuel : nat) (file_path : string) : TL unit :=
  match fuel with
  | O => panic OutOfFuel
  | S fuel' =>
      let! t := get in
      if host_is_file file_path (tl_host t) then
        let! buffer := tool_read file_path in
        on_vfs_of (write_file_by_absolute_path (from_root file_path) buffer false)
      else if host_is_dir file_path (tl_host t) then
        let! entries := ok_or (host_read_dir file_path (tl_host t)) HostError in
        for_each_tool (λ dir, let! p := ok_or dir HostError in load_input_source fuel' p) entries
      else throw (CommandError "Error on load")
  end.

Definition load_input_sources (fuel : nat) (input_sources : list string) : TL unit :=
  for_each_tool (load_input_source fuel) input_sources.

Definition read_right : Rights :=
  rights_union (rights_union (rights_union (right_of PATH_OPEN) (right_of FD_READ)) (right_of FD_SEEK))
    (right_of FD_READDIR).
Definition write_right : Rights :=
  rights_union (rights_union (rights_union (rights_union read_right (right_of FD_WRITE))
    (right_of PATH_CREATE_FILE)) (right_of PATH_FILESTAT_SET_SIZE)) (right_of PATH_CREATE_DIRECTORY).

(** The files of every program: the streams, the inputs, the outputs *)
Definition file_table (cmdline : CommandLineOptions) : PathMap Rights :=
  let table := pm_insert (path CANONICAL_STDERR_FILE_PATH) write_right
                 (pm_insert (path CANONICAL_STDOUT_FILE_PATH) write_right
                    (pm_insert (path CANONICAL_STDIN_FILE_PATH) read_right ∅)) in
  let table := foldl (λ t p, pm_insert (from_root p) read_right t) table (input_sources cmdline) in
  foldl (λ t p, pm_insert (from_root p) write_right t) table (output_sources cmdline).

(** The paths of the programs are made absolute. *)
Definition absolute (e : string) : string := if starts_with_slash e then e else ("/" ++ e)%string.

Definition right_table (cmdline : CommandLineOptions) (programs : list string) : RightsTable :=
  <[InternalSuperUser := pm_insert (path "/") read_right ∅]>
    (foldl (λ t p, <[ProgramP p := file_table cmdline]> t) ∅ programs).

Definition dump (read : M bytes) (print : bytes → TL unit) : TL unit :=
  let! buf := on_vfs_of read in
  do! fail_if (negb (utf8_valid (String.string_of_list_byte buf))) Utf8DumpError in
  print buf.

Definition framed (buf : bytes) : bytes :=
  as_bytes ("---- stdout dump ----" ++ newline) ++ buf ++ as_bytes ("---- stdout dump end ----" ++ newline).

Definition run_program (fuel : nat) (p : P) (jit : bool) (cmdline : CommandLineOptions) (prog_path : string) :
  TL unit :=
  let options := mkOptions (environment_variables cmdline) (program_arguments cmdline)
                   (cl_enable_clock cmdline) (enable_strace cmdline) in
  let! program := on_vfs_of (read_file_by_absolute_path (path prog_path)) in
  let! h := on_vfs_of (spawn (ProgramP prog_path)) in
  let! _return_code := map_err EngineError (zoom tl_vfs set_tl_vfs
    (with_handle h (execute_with fuel p jit (cl_execution_strategy cmdline) program options))) in
  do! (if dump_stdout cmdline then dump read_stdout (λ buf, tool_print (framed buf)) else ret tt) in
  if dump_stderr cmdline then dump read_stderr (λ _, ret tt) else ret tt.

Definition store_output (e : Path * bytes) : TL unit :=
  let output_path := default e.1 (strip_prefix e.1 (path "/")) in
  do! match parent output_path with
      | Some parent_path =>
          if path_eqb parent_path (path "") then ret tt else tool_create_dir_all (p_raw parent_path)
      | None => ret tt
      end in
  tool_write (p_raw output_path) e.2.

Definition store_outputs (file_path : string) : TL unit :=
  let! files := on_vfs_of (read_all_files_by_absolute_path (from_root file_path)) in
  for_each_tool store_output files.

(** Once there is a filesystem *)
Definition work (fuel depth : nat) (p : P) (jit : bool) (cmdline : CommandLineOptions) (programs : list string) :
  TL unit :=
  do! load_input_sources depth (input_sources cmdline) in
  do! for_each_tool (run_program fuel p jit cmdline) programs in
  for_each_tool store_outputs (output_sources cmdline).

Definition freestanding_main (fuel depth : nat) (p : P) (jit : bool) (m : CommandMatches) (d : D) :
  outcome ToolError unit * D :=
  match parse_command_line m with
  | Err e => (Err e, d)
  | Abort a => (Abort a, d)
  | Ok cmdline =>
      let programs := absolute <$> program_sources cmdline in
      match FileSystem_new (right_table cmdline programs) with
      | Err e => (Err (VfsError e), d)
      | Abort a => (Abort a, d)
      | Ok vfs => let '(o, t) := work fuel depth p jit cmdline programs (mkTool d vfs) in (o, tl_host t)
      end
  end.
End freestanding.
