(* ===== verification/FreestandingProps.v ===== *)
(** * Properties of the freestanding execution engine

    However a run of the tool goes, its virtual filesystem stays well formed,
    and no program ever holds a right that the tool does not give to all of
    them: to read the inputs, and to read and write the outputs.

    Source: [sdk/freestanding-execution-engine/src/main.rs]. *)

From S2P Require Import Prelude RustFmt RustStr RustPath WasiTypes Policy InodeTable FileSystem FsOps Services.
From S2P Require Import InodeWf FsWf FsInv FsSystem FsProps Runtime RuntimeProps Platform WasiMemory WasiHost.
From S2P Require Import Strace Wasi WasiSim WasiCalls WasmApi Wasmi Wasmtime Engines EngineRuns Client.
From S2P Require Import ClientCliProps Host Freestanding.
Local Open Scope Z_scope.

Section freestanding.
Context {BP : BuildProfile} {WR : WasiRights} {WRL : WasiRightsLaws WR} {HO : HashOrder}
  {HOL : HashOrderLaws HO} {NL : NativeLibs}
  {P : Type} {PI : PlatformImp P} {SL : StructLayout} {ED : ErrNoDebug} {WC : WasiCodes}
  {RV : RuntimeValues} {EC : ErrNoCodes} {WL : WasmiLib} {WT : WasmtimeLib}
  {D : Type} {HS : HostSystem D}.
Abbreviation Tl := (Tool (D:=D)).

(** ** A program keeps the filesystem well formed *)

Lemma execute_with_calls fuel (p : P) jit strategy program options f :
  ∃ cs, (execute_with fuel p jit strategy program options f).2 = run_calls cs f.
Proof.
  destruct strategy; simpl; [|destruct jit; [|by exists []]].
  - pose proof (invoke_entry_point_at_most fuel program options
      (WASMIRuntimeState_new (handle f) (opt_enable_clock options) (world f) p)) as (cs & _ & Hcs).
    destruct (invoke_entry_point _ _ _ _) as [r s]. exists cs. simpl in *. by destruct f.
  - unfold Wasmtime_invoke_entry_point. set (h := mkHost _ _ _ _ _). unfold bind at 1, modify.
    pose proof (invoke_engine_at_most fuel program
      (set_wrapper (set_enables (opt_enable_clock options) (opt_enable_strace options)
        (set_environment (opt_environment_variables options) (opt_program_arguments options) (wrapper h))) h))
      as (cs & _ & Hcs).
    destruct (invoke_engine _ _ _) as [r s]. exists cs. simpl in *. by destruct f.
Qed.

Lemma execute_with_wf n t0 fuel (p : P) jit strategy program options :
  preserves (fs_inv n t0) (execute_with fuel p jit strategy program options).
Proof.
  intros s Hs. destruct (execute_with_calls fuel p jit strategy program options s) as [cs Hcs].
  apply (run_calls_inv n t0 cs) in Hs. rewrite <- Hcs in Hs. by destruct (execute_with _ _ _ _ _ _ s) as [[] ?].
Qed.

(** ** The steps of the tool *)

Definition vfs_inv (t0 : InodeTable) (t : Tl) : Prop := fs_inv 2 t0 (tl_vfs t).

Lemma zoom_vfs_inv {A E} t0 (m : ST fs_state E A) :
  preserves (fs_inv 2 t0) m → preserves (vfs_inv t0) (zoom (tl_vfs (D:=D)) set_tl_vfs m).
Proof.
  intros Hm t Ht. specialize (Hm _ Ht). unfold zoom. by destruct (m (tl_vfs t)) as [[] ?].
Qed.
Lemma on_vfs_inv {A} t0 (m : M A) : preserves (fs_inv 2 t0) m → preserves (vfs_inv t0) (on_vfs_of m).
Proof. intros Hm. by apply preserves_map_err, zoom_vfs_inv. Qed.

Lemma tool_read_inv t0 p : preserves (vfs_inv t0) (tool_read p).
Proof. unfold tool_read. preserve. Qed.
Lemma tool_create_dir_all_inv t0 p : preserves (vfs_inv t0) (tool_create_dir_all p).
Proof. intros t Ht. unfold tool_create_dir_all. by destruct (host_create_dir_all _ _). Qed.
Lemma tool_write_inv t0 p b : preserves (vfs_inv t0) (tool_write p b).
Proof. intros t Ht. unfold tool_write. by destruct (fs_write _ _ _) as [[] ?]. Qed.
Lemma tool_print_inv t0 b : preserves (vfs_inv t0) (tool_print b).
Proof. intros t Ht. unfold tool_print. by destruct (stdout_write_all _ _) as [[] ?]. Qed.
#[local] Hint Resolve on_vfs_inv tool_read_inv tool_create_dir_all_inv tool_write_inv tool_print_inv : veracruz.

Lemma for_each_inv {A} t0 (body : A → ST Tl ToolError unit) l :
  (∀ a, preserves (vfs_inv t0) (body a)) → preserves (vfs_inv t0) (for_each_tool body l).
Proof. intros Hb. induction l as [|a l IH]; simpl; preserve. Qed.

Lemma from_root_path p : from_root p = path (p_raw (from_root p)).
Proof. unfold from_root, push. by destruct (p_comps (path p)) as [|[] ?]. Qed.
Lemma from_root_ok p : path_ok (from_root p).
Proof. rewrite from_root_path. apply path_path_ok. Qed.
#[local] Hint Resolve from_root_ok read_file_by_absolute_path_wf write_file_by_absolute_path_wf
  read_std_stream_wf : veracruz.

Lemma load_input_source_inv t0 fuel p : preserves (vfs_inv t0) (load_input_source fuel p).
Proof.
  revert p. induction fuel as [|fuel IH]; intros p; cbn [load_input_source]; [eauto with veracruz|].
  preserve. apply for_each_inv. intros dir. preserve.
Qed.

Lemma run_program_inv t0 fuel (p : P) jit cmdline prog_path :
  preserves (vfs_inv t0) (run_program fuel p jit cmdline prog_path).
Proof.
  unfold run_program. cbv zeta. apply preserves_bind; [eauto with veracruz|]. intros program.
  eapply triple_bind with (R := λ h t, vfs_inv t0 t ∧ handle_wf (inode_table (world (tl_vfs t))) h).
  { intros t Ht. pose proof (spawn_triple 2 t0 (ProgramP prog_path) _ Ht) as Hsp.
    unfold on_vfs_of, map_err, zoom. by destruct (spawn _ _) as [[] ?]. }
  intros h. eapply triple_bind with (R := λ _, vfs_inv t0).
  { intros t [Ht Hh]. unfold map_err, zoom.
    pose proof (with_handle_triple 2 t0 h _ (λ t1, execute_with_wf 2 t1 fuel p jit
      (cl_execution_strategy cmdline) program (mkOptions (environment_variables cmdline)
        (program_arguments cmdline) (cl_enable_clock cmdline) (enable_strace cmdline))) _ (conj Ht Hh)) as Hr.
    destruct (with_handle _ _ _) as [[] ?]; [apply Hr|done..]. }
  intros _. change (preserves (vfs_inv t0) (do! (if dump_stdout cmdline
    then dump read_stdout (λ buf, tool_print (framed buf)) else ret tt) in
    if dump_stderr cmdline then dump read_stderr (λ _, ret tt) else ret tt)).
  unfold dump, read_stdout, read_stderr. preserve.
Qed.

Lemma store_outputs_inv t0 p : preserves (vfs_inv t0) (store_outputs p).
Proof.
  unfold store_outputs. apply preserves_bind.
  - apply on_vfs_inv. unfold read_all_files_by_absolute_path. apply preserves_bind; [eauto with veracruz|].
    intros s. apply read_all_files_wf, from_root_ok.
  - intros l. apply for_each_inv. intros e. unfold store_output. cbv zeta. preserve.
Qed.

Lemma work_inv t0 fuel depth (p : P) jit cmdline programs :
  preserves (vfs_inv t0) (work fuel depth p jit cmdline programs).
Proof.
  unfold work, load_input_sources. apply preserves_bind; [apply for_each_inv, load_input_source_inv|]. intros _.
  apply preserves_bind; [apply for_each_inv; intros; apply run_program_inv|]. intros _.
  apply for_each_inv. intros. apply store_outputs_inv.
Qed.

(** ** The rights of the programs *)

Definition tool_rights (m : PathMap Rights) : Prop :=
  keys_ok m ∧ ∀ cs raw r, m !! cs = Some (raw, r) → r = read_right ∨ r = write_right.

Lemma tool_rights_insert m s r :
  tool_rights m → r = read_right ∨ r = write_right → tool_rights (pm_insert (path s) r m).
Proof.
  intros [Hk Hm] Hr. split; [by apply keys_ok_insert|]. intros cs raw r'. unfold pm_insert.
  rewrite lookup_insert. case_decide; [by intros [= _ <-]|]. apply Hm.
Qed.

Lemma tool_rights_roots r l m :
  tool_rights m → r = read_right ∨ r = write_right →
  tool_rights (foldl (λ t p, pm_insert (from_root p) r t) m l).
Proof.
  intros Hm Hr. revert m Hm. induction l as [|p l IH]; intros m Hm; [done|]. apply IH.
  rewrite from_root_path. by apply tool_rights_insert.
Qed.

Lemma file_table_rights cmdline : tool_rights (file_table cmdline).
Proof.
  unfold file_table. cbv zeta. apply tool_rights_roots; [|auto]. apply tool_rights_roots; [|auto].
  repeat (apply tool_rights_insert; [|auto]). split; [apply keys_ok_empty|]. intros cs raw r.
  by rewrite lookup_empty.
Qed.

Lemma program_table l m0 prog :
  (foldl (λ t p, <[ProgramP p := m0]> t) (∅ : RightsTable) l) !! ProgramP prog =
    if decide (prog ∈ l) then Some m0 else None.
Proof.
  induction l as [|p l IH] using rev_ind; [done|]. rewrite foldl_app. simpl. rewrite lookup_insert, IH.
  repeat case_decide; set_solver.
Qed.

Lemma programs_table_other (l : list string) m0 pr m :
  (foldl (λ t p, <[ProgramP p := m0]> t) (∅ : RightsTable) l) !! pr = Some m → m = m0.
Proof.
  induction l as [|p l IH] using rev_ind; [done|]. rewrite foldl_app. simpl. rewrite lookup_insert.
  case_decide; [congruence|done].
Qed.

Lemma right_table_keys cmdline programs pr m : right_table cmdline programs !! pr = Some m → keys_ok m.
Proof.
  unfold right_table. rewrite lookup_insert. case_decide.
  - intros [= <-]. apply keys_ok_insert, keys_ok_empty.
  - intros ->%programs_table_other. apply file_table_rights.
Qed.

Lemma write_right_read : rights_contains write_right read_right = true.
Proof.
  pose proof (contains_refl write_right) as H. unfold write_right at 2 in H.
  rewrite !contains_union_r, !andb_true_iff in H. tauto.
Qed.

Lemma tool_rights_confined m h :
  tool_rights m → confined (granted m) h →
  ∀ fd e, fd_table h !! fd = Some e → rights_contains write_right (rights_base (fd_stat e)) = true.
Proof.
  intros [_ Hm] Hc fd e He. destruct (Hc _ _ He) as (r & Hr & Hb & _).
  unfold granted in Hr. apply list_elem_of_fmap in Hr as ([q r'] & -> & Hin). apply elem_of_pm_iter in Hin.
  simpl in *. destruct (Hm _ _ _ Hin) as [->| ->]; [|done].
  by eapply contains_trans; [apply write_right_read|].
Qed.

End freestanding.
