(* ===== verification/WasiDemo.v ===== *)
(** * A concrete host

    Instances of the parameters of the WASI layer, with the codes and layouts
    of the WASI snapshot preview 1 interface, and a host with a small memory,
    on which the theorems of the other files are evaluated. *)

From S2P Require Import Prelude RustPath WasiTypes Policy InodeTable FileSystem FsOps Services.
From S2P Require Import Demo Platform WasiMemory WasiHost Strace Wasi WasmApi Wasmi Wasmtime.
Local Open Scope Z_scope.

Module WasiDemo.
Export Demo.

#[export] Existing Instance icecap_imp.
#[export] Existing Instance icecap_laws.

#[export] Instance layout : StructLayout := {|
  sizeof_IoVec := 8;
  sizeof_Subscription := 48;
  sizeof_Event := 32;
  unexpected_eof := ErrNo.Inval;
  ClockId_valid z := z <? 4;
  ErrNo_valid z := z <? 77;
  EventType_valid z := z <? 3;
  EventType_FdRead := 1;
  EventType_FdWrite := 2;
  EventRwFlags_valid z := z <? 2;
|}.
#[export] Instance layout_laws : StructLayoutLaws layout.
Proof. by split. Qed.

#[export] Instance debug : ErrNoDebug := {|
  errno_debug e :=
    match e with
    | ErrNo.Success => "Success" | ErrNo.Access => "Access" | ErrNo.BadF => "BadF"
    | ErrNo.Inval => "Inval" | ErrNo.NoSys => "NoSys" | _ => "ErrNo"
    end;
|}.

(** [Some z] for a code below [n], and the [i]-th bit of flags. *)
Definition below (n z : Z) : option Z := if (0 <=? z) && (z <? n) then Some z else None.

Definition file_type_code (t : FileType) : Z :=
  match t with Unknown => 0 | Directory_t => 3 | RegularFile => 4 end.

Definition file_stat_bytes (s : FileStat) : bytes :=
  to_le_bytes 8 (device s) ++ to_le_bytes 8 (st_inode s)
  ++ to_le_bytes 8 (file_type_code (st_file_type s)) ++ to_le_bytes 8 (num_links s)
  ++ to_le_bytes 8 (file_size s) ++ to_le_bytes 8 (atime s) ++ to_le_bytes 8 (mtime s)
  ++ to_le_bytes 8 (ctime s).

#[export] Instance errno_codes : ErrNoCodes := {|
  errno_code e :=
    match e with
    | ErrNo.Success => 0 | ErrNo.Access => 2 | ErrNo.Again => 6 | ErrNo.BadF => 8
    | ErrNo.Busy => 10 | ErrNo.Canceled => 11 | ErrNo.Exist => 20 | ErrNo.IlSeq => 25
    | ErrNo.Inval => 28 | ErrNo.IsDir => 31 | ErrNo.NFile => 41 | ErrNo.NameTooLong => 37
    | ErrNo.NoEnt => 44 | ErrNo.NoMem => 48 | ErrNo.NoSys => 52 | ErrNo.NotDir => 54
    | ErrNo.SPipe => 70
    end;
|}.
#[export] Instance errno_codes_laws : ErrNoCodesLaws errno_codes.
Proof. split; [done|]. intros []; simpl; lia. Qed.

#[export] Instance codes : WasiCodes := {|
  Advice_try_from z :=
    [AdviceNormal; Sequential; Random; WillNeed; DontNeed; NoReuse] !! Z.to_nat z;
  FdFlags_try_from := below 32;
  Rights_try_from := rights_from_bits;
  SetTimeFlags_try_from z :=
    (λ z, mkSetTimeFlags (Z.testbit z 0) (Z.testbit z 1) (Z.testbit z 2) (Z.testbit z 3))
      <$> below 16 z;
  Whence_try_from z := [Start; Current; End_] !! Z.to_nat z;
  LookupFlags_try_from := below 2;
  OpenFlags_try_from z :=
    (λ z, mkOpenFlags (Z.testbit z 0) (Z.testbit z 1) (Z.testbit z 2) (Z.testbit z 3))
      <$> below 16 z;
  Signal_try_from := below 31;
  RiFlags_try_from := below 4;
  SiFlags_try_from := below 1;
  SdFlags_try_from := below 4;
  ClockId_RealTime := 0;
  sizeof_DirEnt := 24;
  FdStat_repr s :=
    to_le_bytes 2 (file_type_code (fs_file_type s)) ++ to_le_bytes 6 (flags s)
    ++ to_le_bytes 8 (rights_bits (rights_base s)) ++ to_le_bytes 8 (rights_bits (rights_inheriting s));
  FileStat_repr := file_stat_bytes;
  FileStatResult_repr r :=
    match r with
    | inl s => to_le_bytes 8 0 ++ file_stat_bytes s
    | inr e => to_le_bytes 8 (1 + 65536 * errno_code e) ++ replicate 64 Byte.x00
    end;
  Prestat_repr p :=
    match resource_type p with PreopenDir n => to_le_bytes 4 0 ++ to_le_bytes 4 n end;
  DirEnt_repr d :=
    to_le_bytes 8 (d_next d) ++ to_le_bytes 8 (d_inode d) ++ to_le_bytes 4 (d_name_len d)
    ++ to_le_bytes 4 (file_type_code (d_file_type d));
|}.
#[export] Instance codes_laws : WasiCodesLaws codes.
Proof. by split. Qed.

#[export] Instance values : RuntimeValues := {|
  value_u8 v := match v with VI32 z => below 256 z | _ => None end;
  value_u16 v := match v with VI32 z => below 65536 z | _ => None end;
  value_u32 v := match v with VI32 z => Some (z mod u32_bound) | _ => None end;
  value_u64 v := match v with VI64 z => Some (z mod u64_bound) | _ => None end;
  value_i64 v := match v with VI64 z => Some z | _ => None end;
|}.
#[export] Instance values_laws : RuntimeValuesLaws values.
Proof.
  split; try done; intros v Hv; simpl; unfold below;
    by rewrite (proj2 (Z.leb_le _ _)), (proj2 (Z.ltb_lt _ _)) by lia.
Qed.

(** ** A program

    A module is a script of host calls, each with its arguments; the run
    makes the calls and then returns.  The text of the one valid program is
    [Byte.x01]. *)
Definition script : Type := list (APIName * list RuntimeValue).

Definition demo_script : script :=
  [(WasiAPIName WasiAPIName.FD_WRITE, [VI32 7; VI32 0; VI32 1; VI32 64]);
   (WasiAPIName WasiAPIName.PROC_EXIT, [VI32 3])].

(** The memory of the program: descriptors of the buffers at 32 and 48, of
    five bytes each, the first of which holds [hello]. *)
Definition iovec_bytes (buf n : Z) : bytes := to_le_bytes 4 buf ++ to_le_bytes 4 n.
Definition demo_memory : bytes :=
  iovec_bytes 32 5 ++ iovec_bytes 48 5 ++ replicate 16 Byte.x00 ++ hello
  ++ replicate 219 Byte.x2e.

#[export] Instance wasmi_lib : WasmiLib := {|
  Module_t := unit;
  ModuleRef := unit;
  guest := script;
  Module_from_buffer b := if decide (b = [Byte.x01]) then Ok tt else Err (ErrorOther "parse");
  module_imports _ :=
    [mkImport WASI_SNAPSHOT_MODULE_NAME "fd_write"
       (ImportFunc (mkSignature [I32; I32; I32; I32] (Some I32)))];
  ModuleInstance_new _ _ := Ok tt;
  has_start _ := false;
  export_by_name _ name :=
    if decide (name = ENTRY_POINT_NAME) then Some (ExFunc (mkSignature [] None))
    else if decide (name = LINEAR_MEMORY_NAME) then Some (ExMemory demo_memory)
    else None;
  guest_start _ _ _ := Ok demo_script;
  guest_step g _ :=
    match g with
    | [] => GuestReturn None
    | (f, args) :: g' =>
        GuestCall (match APIName_to_u64 (E:=unit) f with Ok n => n | _ => 0 end) args (λ _, g')
    end;
|}.

#[export] Instance wasmtime_lib : WasmtimeLib := {|
  wt_module := unit;
  wt_instance := unit;
  wt_guest := script;
  wt_module_new b := if decide (b = [Byte.x01]) then Ok tt else Err "parse";
  wt_imports _ :=
    [mkImport WASI_SNAPSHOT_MODULE_NAME "fd_write"
       (ImportFunc (mkSignature [I32; I32; I32; I32] (Some I32)))];
  wt_instantiate _ _ := Ok tt;
  wt_memory _ := Some demo_memory;
  wt_start _ := None;
  wt_export _ name :=
    if decide (name = ENTRY_POINT_NAME) then Some (FuncType [] []) else None;
  wt_call _ _ _ := demo_script;
  wt_step g _ :=
    match g with
    | [] => GuestReturn None
    | (f, args) :: g' => GuestCall f args (λ _, g')
    end;
  wt_trap_debug _ := "trap";
|}.

(** ** A host over the state [st1], in which descriptor 7 is a new file *)
Definition demo_wrapper : WasiWrapper :=
  mkWasiWrapper (handle st1) [("HOME", "/")] ["prog"; "x"] None false false.
Definition demo_host {T} (m : T) : Host T Z := mkHost demo_wrapper (world st1) m 0 [].
End WasiDemo.
