(* ===== verification/ToolsDemo.v ===== *)
(** * Small runs of the command-line tools

    Instances of the libraries of the tools, and a run of each of them, on
    which their theorems are evaluated. *)

From S2P Require Import Prelude RustFmt RustStr RustPath WasiTypes Policy InodeTable FileSystem FsOps Services.
From S2P Require Import FsSystem FsProps PolicyProps Demo Transport TransportProps Framing Session SessionProps Csr Runtime.
From S2P Require Import RuntimeProps Enclave Server.
From S2P Require Import Proxy Client ClientProps EnclaveDemo SystemDemo Host PolicyGen PolicyGenProps.
From S2P Require Import ClientCli ClientCliProps Platform WasiMemory WasiHost Strace Wasi WasmApi Wasmi Wasmtime.
From S2P Require Import WasiDemo Freestanding FreestandingProps FsWf.
Local Open Scope Z_scope.

Definition disk_of (l : list (string * bytes)) : Disk := mkDisk (list_to_map l) ∅ [] [].

(** ** The policy generator *)

Module SmallGenerator.
Import Demo SmallTls SmallRuntime.

#[export] Instance addresses : NetAddr :=
  {| SocketAddr := string; SocketAddr_from_str := Some; SocketAddr_fmt s := s |}.
#[export] Instance times : Chrono := {|
  DateTime := Z; parse_from_rfc2822 _ := Some 2030;
  dt_year y := y; dt_month _ := 1; dt_day _ := 1; dt_hour _ := 0; dt_minute _ := 0;
|}.
#[export] Instance hex : DataEncoding := {| HEXLOWER_encode := to_hex |}.
#[export] Instance regex : Regex :=
  {| regex_is_match _ s := contains_char "r" s || contains_char "w" s || contains_char "x" s |}.

Definition matches : Matches := {|
  m_certificate := Some ["alice.pem"; "bob.pem"];
  m_capability := Some ["/data/:w,program.wasm:w"; "output:r,/data/:66"; "/data/:r,output:rw,stdout:w"];
  m_veracruz_server_ip := Some "127.0.0.1:3017"; m_proxy_attestation_server_ip := Some "127.0.0.1:3010";
  m_proxy_attestation_server_cert := Some "ca.pem"; m_css_file := Some "runtime"; m_pcr_file := None;
  m_output_policy_file := Some "policy.json"; m_certificate_expiry := Some "Tue, 01 Jan 2030 00:00:00 +0000";
  m_binary := Some ["program.wasm=target/p.wasm"]; m_debug := false; m_execution_strategy := None;
  m_enable_clock := false; m_max_memory_mib := Some "512"; m_hash := None;
|}.

Definition cert_file (name : string) : bytes :=
  as_bytes ("-----BEGIN CERTIFICATE-----" ++ newline ++ name ++ newline ++ "-----END CERTIFICATE-----" ++ newline).
Definition disk : Disk := disk_of
  [("alice.pem", cert_file "alice"); ("bob.pem", cert_file "bob"); ("ca.pem", cert_file "ca");
   ("runtime", hello); ("target/p.wasm", hello)].

Definition arguments : option Arguments :=
  match PolicyGen.parse_command_line matches disk with (Ok a, _) => Some a | _ => None end.
Definition the_policy : Policy :=
  match arguments with
  | Some a => match build_policy a disk with (Ok p, _) => p | _ => demo_policy end
  | None => demo_policy
  end.

#[export] Instance Timepoint_eq_dec : EqDecision Timepoint.
Proof. solve_decision. Defined.
#[export] Instance FileRights_eq_dec : EqDecision FileRights.
Proof. solve_decision. Defined.
#[export] Instance FileHash_eq_dec : EqDecision FileHash.
Proof. solve_decision. Defined.
#[export] Instance Program_eq_dec : EqDecision Program.
Proof. solve_decision. Defined.
#[export] Instance Identity_eq_dec : EqDecision (Identity string).
Proof. solve_decision. Defined.
#[export] Instance ExecutionStrategy_eq_dec : EqDecision ExecutionStrategy.
Proof. solve_decision. Defined.
#[export] Instance Policy_eq_dec : EqDecision Policy.
Proof. solve_decision. Defined.

(** JSON for one policy, besides that of [Demo] *)
#[export] Instance json : SerdeJson := {|
  Value := Policy; to_value := Some;
  to_string_pretty p := if decide (p = the_policy) then Some "{generated}" else None;
|}.
Definition libs : PolicyLibs := {|
  sha256 := sha256 (PolicyLibs:=policy_libs); hex_encode := to_hex; hex_decode := of_hex;
  policy_from_str s :=
    if decide (s = "{generated}") then Some (set_policy_hash None the_policy)
    else policy_from_str (PolicyLibs:=policy_libs) s;
|}.
#[export] Instance laws : PolicyGenLaws (PL:=libs) hex regex json.
Proof.
  split; [exact of_to_hex|done|]. intros p v t. simpl. intros [= <-]. case_decide; [|done]. subst p.
  by intros [= <-].
Qed.

Definition written : Disk := (generate_policy (PL:=libs) matches disk).2.

Lemma generated_policy_loads_witness :
  ∃ a policy, certificates a = [path "alice.pem"; path "bob.pem"] ∧
    host_read "policy.json" written = Some (as_bytes "{generated}", ReadDone) ∧
    Policy_from_json (PL:=libs) "{generated}" = Ok policy ∧ rights_recorded a policy.
Proof.
  destruct (generated_policy_loads (PL:=libs) (MT:=SmallSystem.mbed_types) matches disk written)
    as (a & d1 & text & policy & Ha & Hc & Hr & Hp & _ & _ & _ & Hrights).
  - vm_compute. reflexivity.
  - assert (arguments = Some a) as Heq by (unfold arguments; by rewrite Ha).
    assert (certificates a = [path "alice.pem"; path "bob.pem"] ∧
      p_raw (output_policy_file a) = "policy.json") as [Hcert Hout].
    { assert (match arguments with Some a => bool_decide (certificates a = [path "alice.pem"; path "bob.pem"] ∧
        p_raw (output_policy_file a) = "policy.json") | None => false end = true) as H by by vm_compute.
      rewrite Heq in H. by apply bool_decide_eq_true in H. }
    rewrite Hout in Hr.
    assert (host_read "policy.json" written = Some (as_bytes "{generated}", ReadDone)) as Hr' by by vm_compute.
    rewrite Hr' in Hr. injection Hr as Htext. apply as_bytes_inj in Htext. subst text. exists a, policy.
    exact (conj Hcert (conj Hr' (conj Hp Hrights))).
Defined.
End SmallGenerator.

(** ** The command line of the client *)

Module SmallCli.
Import Demo SmallCodec SmallTls SmallRuntime SmallEnclave SmallSystem.

(** A session that has the answers of the enclave ready *)
#[export] Instance ready_mbed : Mbedtls := {|
  from_pem_multiple := from_pem_multiple; mbed_private_key := mbed_private_key; mbed_public_key := mbed_public_key;
  write_public_der := write_public_der; mbed_lookup_ciphersuite := mbed_lookup_ciphersuite;
  set_min_version := set_min_version; set_max_version := set_max_version; rng_new := rng_new;
  push_cert := push_cert;
  establish D cb config := ret [hash_answer (to_hex (replicate 32 Byte.x07));
                                wire_of (serialize_result (ResponseStatus_as_i32 SUCCESS) (Some hello))];
  ctx_write_all D := ctx_write_all; ctx_read_to_end D := ctx_read_to_end; peer_cert := peer_cert;
|}.
#[export] Instance x509 : X509Parser :=
  {| Pem := bytes; pem_read := Some; parse_x509 b := Some (b ++ [Byte.x00], true) |}.

Definition fetch : Opt := mkOpt (path "policy.json") true (path "id.pem") (path "key.pem") [] [] []
  [[("f", path "out.txt")]] true false.
Definition cli_disk : Disk :=
  disk_of [("policy.json", as_bytes "{policy}"); ("id.pem", hello); ("key.pem", hello)].
Definition fetched : outcome Exit unit * Disk * unit := client_main (MB:=ready_mbed) (P1:=any_request) fetch cli_disk tt.

End SmallCli.

(** ** The freestanding engine *)

Module SmallFreestanding.
Import Demo WasiDemo.

Definition free_disk : Disk :=
  mkDisk (list_to_map [("in/a", hello); ("p.wasm", [Byte.x01])]) {["in" := ["a"]]} [] [].
Definition free_matches : CommandMatches := {|
  cm_input := Some ["in"; "p.wasm"]; cm_output := Some ["out"]; cm_program := Some ["p.wasm"];
  cm_execution_strategy := Some "interp"; cm_dump_stdout := false; cm_dump_stderr := false;
  cm_enable_clock := false; cm_arg := None; cm_env := Some ["A=B"]; cm_strace := false |}.
Definition cmdline : CommandLineOptions :=
  mkCommandLineOptions ["in"; "p.wasm"] ["out"] ["p.wasm"] Interpretation false false false [("A", "B")] [] false.

Example free_parse : Freestanding.parse_command_line free_matches = Ok cmdline.
Proof. by vm_compute. Qed.

Definition programs : list string := absolute <$> program_sources cmdline.
Definition free_fs : fs_state :=
  match FileSystem_new (right_table cmdline programs) with Ok s => s | _ => dummy end.
Definition free_end := work 10 10 0%Z false cmdline programs (mkTool free_disk free_fs).

Lemma free_new : FileSystem_new (right_table cmdline programs) = Ok free_fs.
Proof.
  assert (is_ok (FileSystem_new (right_table cmdline programs)) = true) as H by by vm_compute.
  unfold free_fs. by destruct (FileSystem_new _).
Qed.

End SmallFreestanding.
