(* ===== verification/WasiProps.v ===== *)
(** * Properties of the WASI layer

    Tracing is transparent, type-checked calls reach the wrapper, directory
    listings stay within the buffer of the program, and the arguments of the
    program are laid out as it is told. *)

From S2P Require Import Prelude RustPath WasiTypes Policy InodeTable FileSystem FsOps Services.
From S2P Require Import FsSystem Runtime Platform WasiMemory WasiMemoryProps WasiHost Strace Wasi.
From S2P Require Import WasiSim WasiCalls WasmApi Wasmi Wasmtime Engines EngineRuns WasiDemo.
Local Open Scope Z_scope.

Section props.
Context {BP : BuildProfile} {WR : WasiRights} {HO : HashOrder} {NL : NativeLibs}
  {SL : StructLayout} {ED : ErrNoDebug} {WC : WasiCodes} {P : Type} {PI : PlatformImp P}.

(** ** Tracing *)

Definition returns {A} (r : outcome ErrNo.t A) : bool :=
  match r with Abort _ => false | _ => true end.

(** The host with tracing on or off, and any log. *)
Definition set_tracing {T} (on : bool) (l : list string) (h : Host T P) : Host T P :=
  set_log l (set_wrapper (set_enables (enable_clock (wrapper h)) on (wrapper h)) h).

Lemma set_tracing_related {T} on l (h : Host T P) : related eq false h (set_tracing on l h).
Proof. destruct h as [[] w m p l']. by split_and!. Qed.

(** C32: tracing the calls of a program does not change what they do: a traced
    and an untraced run of a call that both return have the same result and
    leave the same memory, filesystem, exit code and platform. *)
Theorem strace_transparent {T} {MH : MemoryHandler T} c on l (h h1 h2 : Host T P) r1 r2 :
  run_wasi_call c h = (r1, h1) → run_wasi_call c (set_tracing on l h) = (r2, h2) →
  returns r1 = true → returns r2 = true →
  r1 = r2 ∧ linear_memory h1 = linear_memory h2 ∧ fs_of h1 = fs_of h2 ∧
  exit_code (wrapper h1) = exit_code (wrapper h2) ∧ platform h1 = platform h2.
Proof.
  intros Hc1 Hc2 Hr1 Hr2.
  pose proof (sim_wasi_call (P:=P) false c _ _ (set_tracing_related on l h)) as Hsim.
  rewrite Hc1, Hc2 in Hsim.
  assert (r1 = r2 ∧ related eq false h1 h2) as [-> HR]
    by (destruct r1, r2; try done; by destruct Hsim as [-> ?]).
  pose proof (related_fs _ _ _ HR) as Hf. pose proof (related_wrapper _ _ _ HR) as (_ & _ & _ & Hx & _).
  destruct HR as (_ & _ & _ & Hm & Hp). auto.
Qed.

(** ** Typed calls *)

Section typed.
Context {RV : RuntimeValues} {RL : RuntimeValuesLaws RV} {EC : ErrNoCodes} {WL : WasmiLib}
  {WT : WasmtimeLib}.

(** C33: a call that an accepted import makes, with values of the types that
    were checked and narrow parameters in range, reaches the wrapper in both
    engines: the interpreter never answers it with bad arguments or a trap. *)
Theorem typed_call_reaches_wrapper f sig args :
  TypeCheck.check_signature (E:=unit) f sig = Ok true →
  value_type <$> args = params sig → Forall wf_value args →
  forallb (narrow_ok args) (narrow_params f) = true →
  ∃ c, host_call (P:=P) f args = on_vfs (run_wasi_call c) ∧
       ∀ h, ∃ l, linked_code (P:=P) f args h = vfs_call (run_wasi_call c) (set_log l h).
Proof.
  intros Hs Ht Hwf Hn.
  assert (f ≠ WasiAPIName WasiAPIName._LAST) as Hf by (intros ->; discriminate Hs).
  unfold TypeCheck.check_signature in Hs. rewrite (get_params_linked f Hf) in Hs.
  destruct (decide (params sig = linked_params f)) as [Hp|]; [|discriminate Hs].
  rewrite Hp in Ht. destruct (decode_typed f args Hf Ht Hn) as [c Hc].
  exists c. split; [by apply host_call_decodes|intros h; by apply linked_code_decodes].
Qed.

(** The numbers of the calls and their names determine each other: the
    number the resolver gives to a function is the one the dispatcher finds
    it by, and no other number finds a function. *)
Theorem api_name_roundtrip (n : Z) (f : APIName) :
  APIName_from_u64 (E:=unit) n = Ok (Some f) ↔ APIName_to_u64 (E:=unit) f = Ok n.
Proof.
  split.
  - unfold APIName_from_u64. destruct (Z.eqb_spec n 0); [done|].
    destruct (Z.ltb_spec n (WasiAPIName.to_u64 WasiAPIName._LAST)) as [Hlt|Hge].
    + destruct (WasiAPIName.from_u64 n) as [x|] eqn:Hx; [|done]. intros [= <-].
      unfold WasiAPIName.from_u64 in Hx.
      apply fmap_Some in Hx as ([i y] & (_ & Hy & _)%list_find_Some & ->). simpl.
      destruct y; simpl in *; subst; done.
    + unfold VeracruzAPIName.from_u64.
      destruct (Z.eqb_spec (n - WasiAPIName.to_u64 WasiAPIName._LAST) 0); [|done].
      intros [= <-]. simpl in *. f_equal. lia.
  - destruct f as [x|x]; destruct x; intros [= <-]; vm_compute; reflexivity.
Qed.
End typed.

(** ** Listing a directory *)

Section memory.
Context {T : Type} {MH : MemoryHandler T} {ML : MemoryHandlerLaws MH} {CL : WasiCodesLaws WC}.

(** Outside the range [lo, hi) the memories have the same bytes. *)
Definition same_outside (lo hi : Z) (m m' : T) : Prop := ∀ c n,
  0 ≤ c → 0 ≤ n → c + n ≤ lo ∨ hi ≤ c → get_slice c n m' = get_slice c n m.

Lemma same_outside_trans lo hi m m1 m2 :
  same_outside lo hi m m1 → same_outside lo hi m1 m2 → same_outside lo hi m m2.
Proof. intros H1 H2 c n Hc Hn Hd. by rewrite (H2 c n Hc Hn Hd), (H1 c n Hc Hn Hd). Qed.

Lemma write_buffer_outside lo hi a b m m' :
  0 ≤ a → lo ≤ a → a + len b ≤ hi → write_buffer a b m = (Ok tt, m') → same_outside lo hi m m'.
Proof.
  intros Ha Hlo Hhi Hw c n Hc Hn Hd. apply (write_buffer_other a b m m' c n Ha Hc Hn); [lia|done].
Qed.

(** A loop state: the entries go from [buf + w] on, [w] bytes are used. *)
Lemma write_dirents_bounded entries buf w L m r m' :
  0 ≤ buf → 0 ≤ w ≤ L → buf + L + 2 * u16_bound < u32_bound →
  Forall (λ e : DirEnt * bytes, len e.2 < u16_bound) entries →
  write_dirents entries (buf + w) w L m = (Ok r, m') →
  0 ≤ r ≤ L ∧ same_outside buf (buf + L) m m'.
Proof.
  intros Hb Hw HL Hes. pose proof sizeof_DirEnt_range as Hsz. revert w m Hw.
  induction Hes as [|[d p] es Hp Hes IH]; intros w m Hw; simpl.
  { intros [= <- <-]. split; [lia|by intros c n]. }
  simpl in Hp. pose proof (len_nonneg p) as Hp0. unfold u32_add, bind at 1, lift.
  rewrite unsigned_add_small by lia. destruct (Z.ltb_spec L (w + sizeof_DirEnt)).
  { intros [= <- <-]. split; [lia|by intros c n]. }
  intros ([] & m1 & Hw1 & Hrest)%bind_ok. unfold bind at 1, lift in Hrest.
  rewrite unsigned_add_small in Hrest by lia. unfold bind at 1, lift in Hrest.
  rewrite (Z.mod_small (len p)), unsigned_add_small in Hrest by lia.
  assert (same_outside buf (buf + L) m m1) as Hs1.
  { apply (write_buffer_outside _ _ (buf + w) (DirEnt_repr d)); [lia|lia| |exact Hw1].
    rewrite len_DirEnt_repr. lia. }
  destruct (Z.ltb_spec L (w + sizeof_DirEnt + len p)).
  { injection Hrest as <- <-. split; [lia|done]. }
  apply bind_ok in Hrest as ([] & m2 & Hw2 & Hrest). unfold bind at 1, lift in Hrest.
  rewrite unsigned_add_small in Hrest by lia.
  replace (buf + w + sizeof_DirEnt + len p) with (buf + (w + sizeof_DirEnt + len p)) in Hrest by lia.
  apply IH in Hrest as [Hr Hs]; [|lia]. split; [done|].
  eapply same_outside_trans; [exact Hs1|]. eapply same_outside_trans; [|exact Hs].
  apply (write_buffer_outside _ _ (buf + w + sizeof_DirEnt) p); [lia|lia|lia|exact Hw2].
Qed.

(** What is observed of a host, and not its log. *)
Lemma traced_ok name (call : HostM T P unit) args (h h' : Host T P) :
  (∀ res, Forall (λ f, ∀ st, quiet (f st)) (args res)) →
  traced name call args h = (Ok tt, h') →
  ∃ l l' h'', call (set_log l h) = (Ok tt, h'') ∧ h' = set_log l' h''.
Proof. intros Ha Hr. by apply (traced_run name call args h (Ok tt) h' Ha Hr). Qed.

Lemma on_memory_ok {A} (op : ST T ErrNo.t A) (h h' : Host T P) a :
  on_memory op h = (Ok a, h') →
  op (linear_memory h) = (Ok a, linear_memory h') ∧ h' = set_memory (linear_memory h') h.
Proof.
  unfold on_memory, zoom. destruct (op (linear_memory h)) as [r m]. by intros [= -> <-].
Qed.

Lemma on_fs_ok {A} (op : M A) (h h' : Host T P) a :
  on_fs op h = (Ok a, h') →
  op (fs_of h) = (Ok a, fs_of h') ∧ linear_memory h' = linear_memory h ∧
  program_arguments (wrapper h') = program_arguments (wrapper h).
Proof.
  unfold on_fs, zoom. destruct (op (fs_of h)) as [r f]. intros [= -> <-]. by destruct f.
Qed.

Ltac quiet_args :=
  intros ?; repeat (apply Forall_cons; split;
    [intros ?; apply quiet_strace_arg;
     first [apply quiet_info | apply quiet_print_read; [auto with simulation|intros; apply quiet_info]]|]);
  apply Forall_nil; done.

(** C34: [fd_readdir] stays within the buffer the program gives: it changes no
    byte of the memory but those of the buffer and the four bytes of the
    result, and the result is at most the length of the buffer.  (The lengths
    of names, and the sum of address and length, are assumed to leave room
    for the 32-bit counters of the loop.) *)
Theorem fd_readdir_bounded fd buf L cookie rp (h h' : Host T P) :
  0 ≤ buf → 0 ≤ L → 0 ≤ rp → buf + L + 2 * u16_bound < u32_bound →
  (∀ es, (fd_readdir fd cookie (fs_of h)).1 = Ok es →
     Forall (λ e : DirEnt * bytes, len e.2 < u16_bound) es) →
  WasiWrapper_fd_readdir fd buf L cookie rp h = (Ok tt, h') →
  (∀ c n, 0 ≤ c → 0 ≤ n → c + n ≤ buf ∨ buf + L ≤ c → c + n ≤ rp ∨ rp + 4 ≤ c →
     get_slice c n (linear_memory h') = get_slice c n (linear_memory h)) ∧
  ∃ written, (read_u32 rp (linear_memory h')).1 = Ok written ∧ written ≤ L.
Proof.
  intros Hb HL Hrp Hsum Hnames Hrun.
  apply traced_ok in Hrun as (l & l' & h3 & Hrun & ->); [|quiet_args].
  apply bind_ok in Hrun as (es & h1 & Hes & Hrun). apply on_fs_ok in Hes as (Hes & Hm1 & _).
  apply bind_ok in Hrun as (r & h2 & Hd & Hw). apply on_memory_ok in Hd as [Hd _].
  apply on_memory_ok in Hw as [Hw _]. rewrite Hm1 in Hd. simpl in *.
  specialize (Hnames es). unfold fs_of in Hnames, Hes. simpl in Hes. rewrite Hes in Hnames.
  rewrite <- (Z.add_0_r buf) in Hd.
  apply write_dirents_bounded in Hd as [Hr Hs]; [|lia|lia|lia|by apply Hnames].
  split.
  - intros c n Hc Hn Hd1 Hd2. rewrite (write_u32_other rp r _ _ c n Hrp Hc Hn Hd2 Hw). by apply Hs.
  - rewrite (write_u32_get rp r _ _ Hrp Hw). exists (r mod u32_bound). split; [done|].
    rewrite Z.mod_small; lia.
Qed.

(** The arguments of the program are laid out as WASI says: after
    [args_get] the array holds the address of each argument, and each
    argument stands there, terminated by a zero byte, one after the other; as
    many bytes as [args_sizes_get] reports are used, and nothing else is
    written. *)
Theorem args_get_layout ptrs buf (h h' : Host T P) :
  let content := nul_terminated <$> program_arguments (wrapper h) in
  0 ≤ buf → 0 ≤ ptrs → buf + len (concat content) < u32_bound →
  ptrs + 4 * len content < u32_bound →
  buf + len (concat content) ≤ ptrs ∨ ptrs + 4 * len content ≤ buf →
  WasiWrapper_args_get ptrs buf h = (Ok tt, h') →
  strings_at content buf ptrs (linear_memory h') ∧
  (∀ c n, 0 ≤ c → 0 ≤ n → c + n ≤ buf ∨ buf + buf_size content ≤ c →
     c + n ≤ ptrs ∨ ptrs + 4 * len content ≤ c →
     get_slice c n (linear_memory h') = get_slice c n (linear_memory h)).
Proof.
  intros content Hb Hp Hbb Hpb Hd Hrun.
  apply traced_ok in Hrun as (l & l' & h1 & Hrun & ->); [|quiet_args].
  unfold bind at 1, get in Hrun. apply on_memory_ok in Hrun as [Hrun _].
  apply bind_ok in Hrun as (r & m & Hrun & Hm). injection Hm as Hm. subst m.
  change (linear_memory (set_log l' h1)) with (linear_memory h1). simpl in Hrun.
  fold content in Hrun.
  pose proof (len_nonneg (concat content)).
  split; [exact (write_strings_at content buf ptrs r _ _ Hb Hp Hbb Hpb Hd Hrun)|].
  intros c n Hc Hn. unfold buf_size. rewrite Z.mod_small by lia. intros Hd1 Hd2.
  exact (write_strings_frame content buf ptrs r _ _ c n Hb Hp Hc Hn Hbb Hpb Hd1 Hd2 Hrun).
Qed.
End memory.
End props.

Section witnesses.
Import WasiDemo.

Lemma host_ok {T} (m : HostM T Z unit) h : is_ok (m h).1 = true → m h = (Ok tt, (m h).2).
Proof. by destruct (m h) as [[[]| |] ?]. Qed.

Definition demo_call : wasi_call := CallFdWrite 7 0 1 64.

Lemma strace_transparent_witness :
  (run_wasi_call demo_call (demo_host demo_memory)).1 =
  (run_wasi_call demo_call (set_tracing true [] (demo_host demo_memory))).1.
Proof.
  refine (proj1 (strace_transparent demo_call true [] (demo_host demo_memory) _ _ _ _
    (surjective_pairing _) (surjective_pairing _) _ _)); by vm_compute.
Defined.

Definition seek_args : list RuntimeValue := [VI32 7; VI64 2; VI32 0; VI32 64].

Lemma typed_call_reaches_wrapper_witness :
  ∃ c, host_call (P:=Z) (WasiAPIName WasiAPIName.FD_SEEK) seek_args = on_vfs (run_wasi_call c) ∧
       ∀ h, ∃ l, linked_code (P:=Z) (WasiAPIName WasiAPIName.FD_SEEK) seek_args h =
                 vfs_call (run_wasi_call c) (set_log l h).
Proof.
  apply (typed_call_reaches_wrapper (WasiAPIName WasiAPIName.FD_SEEK)
           (mkSignature [I32; I64; I32; I32] (Some I32)) seek_args);
    [by vm_compute|by vm_compute|repeat constructor; lia|by vm_compute].
Defined.

Definition demo_wasmi : WASMIRuntimeState := mkWASMI (demo_host (Some demo_memory)) None.
Definition write_args : list RuntimeValue := [VI32 7; VI32 0; VI32 1; VI32 64].


Lemma demo_names es :
  (fd_readdir 3 0 (fs_of (demo_host demo_memory))).1 = Ok es →
  Forall (λ e : DirEnt * bytes, len e.2 < u16_bound) es.
Proof.
  intros Hes.
  assert (match (fd_readdir 3 0 (fs_of (demo_host demo_memory))).1 with
          | Ok es => forallb (λ e : DirEnt * bytes, len e.2 <? u16_bound) es
          | _ => false end = true) as Hall by by vm_compute.
  rewrite Hes in Hall. apply Forall_forall. intros e He. apply Z.ltb_lt.
  apply (proj1 (List.forallb_forall _ _) Hall), list_elem_of_In, He.
Qed.

Lemma demo_readdir_ok :
  is_ok (WasiWrapper_fd_readdir 3 100 60 0 64 (demo_host demo_memory)).1 = true.
Proof. by vm_compute. Qed.

Lemma fd_readdir_bounded_witness :
  ∃ written, (read_u32 64 (linear_memory
    (WasiWrapper_fd_readdir 3 100 60 0 64 (demo_host demo_memory)).2)).1 = Ok written ∧ written ≤ 60.
Proof.
  refine (proj2 (fd_readdir_bounded 3 100 60 0 64 (demo_host demo_memory) _ _ _ _ _ demo_names
                   (host_ok _ _ demo_readdir_ok))); lia.
Defined.

Lemma demo_args_ok : is_ok (WasiWrapper_args_get 100 120 (demo_host demo_memory)).1 = true.
Proof. by vm_compute. Qed.

Lemma args_get_layout_witness :
  strings_at [nul_terminated "prog"; nul_terminated "x"] 120 100
    (linear_memory (WasiWrapper_args_get 100 120 (demo_host demo_memory)).2).
Proof.
  refine (proj1 (args_get_layout 100 120 (demo_host demo_memory) _ _ _ _ _ _
                   (host_ok _ _ demo_args_ok)));
    [lia|lia|by vm_compute|by vm_compute|right; by vm_compute].
Defined.
End witnesses.
