(* ===== verification/GuestIo.v ===== *)
(** * Data through the WASI layer

    What a program writes from its memory to a file, it reads back into its
    memory: the array of buffers is decoded, the bytes pass through the
    filesystem, and the results are stored. *)

From S2P Require Import Prelude RustPath WasiTypes Policy InodeTable FileSystem FsOps Services.
From S2P Require Import InodeWf FsProps FsData Platform WasiMemory WasiMemoryProps WasiHost Strace.
From S2P Require Import Wasi WasiSim WasiDemo.
Local Open Scope Z_scope.

Section memory.
Context {BP : BuildProfile} {SL : StructLayout} {LL : StructLayoutLaws SL}
  {T : Type} {MH : MemoryHandler T} {ML : MemoryHandlerLaws MH}.
Implicit Types m : T.

(** A descriptor of the buffer [buf, buf + n) at address [a], within the
    address space. *)
Record iovec_at m (a buf n : Z) : Prop := {
  iovec_bytes : get_slice a 8 m = Ok (to_le_bytes 4 buf ++ to_le_bytes 4 n);
  iovec_range : 0 ≤ a ∧ a + 8 < u32_bound;
  iovec_buf : 0 ≤ buf ∧ 0 ≤ n ∧ buf + n < u32_bound;
}.

Lemma get_slice_in a n m size b :
  0 ≤ a → 0 ≤ n → get_size m = Ok size → get_slice a n m = Ok b → a + n ≤ size.
Proof.
  intros Ha Hn Hs Hb. pose proof (get_slice_size a n m size Ha Hn Hs) as Hok.
  rewrite Hb in Hok. simpl in Hok. by apply eq_sym, Z.leb_le in Hok.
Qed.

(** The whole memory, and a slice of it taken by index. *)
Lemma whole_slice m size whole a n b :
  0 ≤ a → 0 ≤ n → get_size m = Ok size → get_slice 0 size m = Ok whole →
  get_slice a n m = Ok b → index_slice (E:=ErrNo.t) whole a (a + n) = Ok b.
Proof.
  intros Ha Hn Hs Hw Hb. pose proof (get_slice_in a n m size b Ha Hn Hs Hb) as Hin.
  pose proof (get_slice_len 0 size m whole ltac:(lia) ltac:(lia) Hw) as Hlen.
  apply index_slice_Ok. split_and!; [lia|lia|].
  pose proof (get_slice_sub 0 size m whole a n ltac:(lia) Ha Hn ltac:(lia) Hw) as Hsub.
  rewrite Hsub in Hb. injection Hb as <-. f_equal; [|f_equal]; f_equal; lia.
Qed.

Lemma whole_exists m size a n b :
  0 ≤ a → 0 ≤ n → get_size m = Ok size → get_slice a n m = Ok b →
  ∃ whole, get_slice 0 size m = Ok whole.
Proof.
  intros Ha Hn Hs Hb. pose proof (get_slice_in a n m size b Ha Hn Hs Hb).
  pose proof (get_slice_size 0 size m size ltac:(lia) ltac:(lia) Hs) as Hok.
  rewrite (proj2 (Z.leb_le _ _)) in Hok by lia. destruct (get_slice 0 size m); [eauto|done..].
Qed.

Lemma read_le_app n l rest :
  length l = n → read_le n (l ++ rest) = (Ok (from_le_bytes l), rest).
Proof.
  intros Hl. unfold read_le. rewrite length_app, decide_True by lia.
  by rewrite take_app_length', drop_app_length' by done.
Qed.

Lemma IoVec_unpack_bytes buf n :
  0 ≤ buf < u32_bound → 0 ≤ n < u32_bound →
  IoVec_unpack (to_le_bytes 4 buf ++ to_le_bytes 4 n) = Ok (mkIoVec buf n).
Proof.
  intros Hb Hn. unfold IoVec_unpack, from_cursor. rewrite sizeof_IoVec_8.
  unfold len. rewrite length_app, !length_to_le_bytes.
  change (Z.of_nat (4 + 4) =? 8) with true. cbv iota.
  unfold bind. rewrite read_le_app by apply length_to_le_bytes.
  rewrite <- (app_nil_r (to_le_bytes 4 n)), read_le_app by apply length_to_le_bytes.
  rewrite !from_to_le_bytes. change (256 ^ Z.of_nat 4) with u32_bound.
  by rewrite !Z.mod_small by lia.
Qed.

(** An array of one descriptor. *)
Lemma unpack_one m size a buf n b :
  get_size m = Ok size → iovec_at m a buf n → get_slice buf n m = Ok b →
  unpack_iovec_mut a 1 m = (Ok [(buf, b)], m).
Proof.
  intros Hs [Hiov Ha Hbuf] Hb.
  destruct (whole_exists m size a 8 _ ltac:(lia) ltac:(lia) Hs Hiov) as [whole Hw].
  pose proof (whole_slice m size whole a 8 _ ltac:(lia) ltac:(lia) Hs Hw Hiov) as Hi1.
  pose proof (whole_slice m size whole buf n b ltac:(lia) ltac:(lia) Hs Hw Hb) as Hi2.
  unfold unpack_iovec_mut, mem_read, bind. rewrite Hs, Hw.
  change (seqZ 0 1) with [0]. unfold collect_st, fold_st, iovec_slice, u32_mul, u32_add, bind, lift, ret.
  rewrite sizeof_IoVec_8. rewrite !unsigned_mul_small by lia.
  change ((0 + 1) * 8) with 8. change (0 * 8) with 0.
  rewrite !unsigned_add_small by lia. rewrite Z.add_0_r, !try_from_or_errno_in by lia.
  rewrite Hi1, IoVec_unpack_bytes by lia. simpl.
  rewrite unsigned_add_small, !try_from_or_errno_in by lia. by rewrite Hi2.
Qed.

Lemma unpack_one_shared m size a buf n b :
  get_size m = Ok size → iovec_at m a buf n → get_slice buf n m = Ok b →
  unpack_iovec a 1 m = (Ok [b], m).
Proof.
  intros Hs Hi Hb. pose proof (unpack_one m size a buf n b Hs Hi Hb) as Hu.
  unfold unpack_iovec_mut, mem_read, bind in Hu. unfold unpack_iovec, mem_read, bind.
  rewrite Hs in *. destruct (get_slice 0 size m); [|done..]. by rewrite Hu.
Qed.

(** A write to a range that can be read succeeds. *)
Lemma put_in a b m : 0 ≤ a → is_ok (get_slice a (len b) m) = true → ∃ m', put_slice a b m = Ok m'.
Proof.
  intros Ha Hok. rewrite <- put_like_get in Hok by done.
  destruct (put_slice a b m); [eauto|done..].
Qed.

Lemma write_u32_in a z m :
  0 ≤ a → is_ok (get_slice a 4 m) = true → ∃ m', write_u32 a z m = (Ok tt, m').
Proof.
  intros Ha Hok. destruct (put_in a (to_le_bytes 4 z) m Ha) as [m' Hm'].
  { unfold len. by rewrite length_to_le_bytes. }
  exists m'. apply write_buffer_ok. split; [|done]. unfold len. rewrite length_to_le_bytes. lia.
Qed.

Lemma fill_one a old buf m :
  0 ≤ a → len old = len buf → is_ok (get_slice a (len buf) m) = true →
  ∃ m', fill_slices [(a, old)] [buf] (len buf) m = (Ok tt, m') ∧ put_slice a buf m = Ok m'.
Proof.
  intros Ha Hl Hok. destruct (put_in a buf m Ha Hok) as [m' Hm']. exists m'. split; [|done].
  simpl. rewrite Hl, Z.min_id, take_ge by (unfold len; lia).
  unfold bind. by rewrite (proj2 (mem_write_ok _ _ _ _) Hm').
Qed.
End memory.

Section host.
Context {BP : BuildProfile} {WR : WasiRights} {HO : HashOrder} {NL : NativeLibs}
  {SL : StructLayout} {LL : StructLayoutLaws SL} {ED : ErrNoDebug} {WC : WasiCodes}
  {P : Type} {PI : PlatformImp P} {T : Type} {MH : MemoryHandler T} {ML : MemoryHandlerLaws MH}.
Implicit Types h : Host T P.

(** Without tracing a call is the call itself. *)
Lemma traced_off name (call : HostM T P unit) args h h' r :
  enable_strace (wrapper h) = false →
  (∀ res, Forall (λ arg, ∃ p, arg = strace_arg p) (args res)) →
  call h = (r, h') → traced name call args h = (r, h').
Proof.
  intros Hoff Hargs Hcall. unfold traced, bind at 1, get. rewrite Hoff.
  unfold Strace_func, bind at 1, ret. simpl. unfold bind at 1, attempt, try_match. rewrite Hcall.
  assert (∀ res s, fold_st (λ st arg, arg st) (args res) (mkStrace false Func) s =
    (Ok (mkStrace false Func), s)) as Hfold.
  { intros res. induction (Hargs res) as [|arg l [p ->] _ IH]; [done|]. intros s. apply IH. }
  destruct r as [[]|e|p]; unfold ret, bind; [by rewrite Hfold..|done].
Qed.

Lemma on_memory_run {A} (op : ST T ErrNo.t A) h r m :
  op (linear_memory h) = (r, m) → on_memory op h = (r, set_memory m h).
Proof. intros Hop. unfold on_memory, zoom. by rewrite Hop. Qed.

Lemma on_memory_read {A} (op : ST T ErrNo.t A) h r :
  op (linear_memory h) = (r, linear_memory h) → on_memory op h = (r, h).
Proof. intros Hop. rewrite (on_memory_run _ _ _ _ Hop). by destruct h. Qed.

Lemma on_fs_run {A} (op : M A) h r f : op (fs_of h) = (r, f) → on_fs op h = (r, set_fs f h).
Proof. intros Hop. unfold on_fs, zoom. by rewrite Hop. Qed.

Ltac off_args := intros ?; repeat (apply Forall_cons; split; [by eexists|]); by apply Forall_nil.

(** A write of one buffer to a regular file. *)
Lemma guest_pwrite h fd i e f b size iov buf n data off res :
  enable_strace (wrapper h) = false →
  on_file (fs_of h) fd i e f b → has_right e FD_WRITE → 0 ≤ off → off + n < i64_bound →
  get_size (linear_memory h) = Ok size → iovec_at (linear_memory h) iov buf n →
  get_slice buf n (linear_memory h) = Ok data →
  0 ≤ res → is_ok (get_slice res 4 (linear_memory h)) = true →
  ∃ m', write_u32 res n (linear_memory h) = (Ok tt, m') ∧
    WasiWrapper_fd_pwrite fd iov 1 off res h =
      (Ok tt, set_memory m' (set_fs (set_entry i (with_bytes (splice b (Z.to_nat off) data) f)
                                       (fs_of h)) h)).
Proof.
  intros Hoff Hon Hr Ho Hfit Hsize Hiov Hdata Hres Hok.
  destruct (write_u32_in res n _ Hres Hok) as [m' Hm']. exists m'. split; [done|].
  pose proof Hiov as [_ _ Hbuf].
  assert (len data = n) as Hlen by (apply (get_slice_len buf n (linear_memory h)); [lia|lia|done]).
  assert (concat [data] = data) as Hcat by apply app_nil_r.
  apply traced_off; [done|off_args|]. unfold bind at 1.
  rewrite (on_memory_read _ _ _ (unpack_one_shared _ _ _ _ _ _ Hsize Hiov Hdata)).
  unfold bind at 1.
  assert (fd_pwrite fd [data] off (fs_of h) = (Ok n,
    set_entry i (with_bytes (splice b (Z.to_nat off) data) f) (fs_of h))) as Hfs.
  { unfold fd_pwrite. rewrite (fd_pwrite_with_run _ fd [data] off (fs_of h) i e f b);
      rewrite ?Hcat, ?Hlen; done. }
  rewrite (on_fs_run _ _ _ _ Hfs), Z.mod_small by lia. by apply on_memory_run.
Qed.

(** A read into one buffer, from a regular file that has the bytes. *)
Lemma guest_pread h fd i e f b size iov buf n off res :
  enable_strace (wrapper h) = false →
  on_file (fs_of h) fd i e f b → has_right e FD_READ → 0 ≤ off → off + n ≤ len b →
  get_size (linear_memory h) = Ok size → iovec_at (linear_memory h) iov buf n →
  is_ok (get_slice buf n (linear_memory h)) = true →
  0 ≤ res → is_ok (get_slice res 4 (linear_memory h)) = true →
  res + 4 ≤ buf ∨ buf + n ≤ res →
  ∃ h', WasiWrapper_fd_pread fd iov 1 off res h = (Ok tt, h') ∧
    get_slice buf n (linear_memory h') = Ok (slice b (Z.to_nat off) (Z.to_nat n)) ∧
    (read_u32 res (linear_memory h')).1 = Ok n.
Proof.
  intros Hoff Hon Hr Ho Hfit Hsize Hiov Hbuf Hres Hok Hdis. pose proof Hiov as [_ _ Hrange].
  destruct (get_slice buf n (linear_memory h)) as [old| |] eqn:Hold; [|done..].
  assert (len old = n) as Hlen by (apply (get_slice_len buf n (linear_memory h)); [lia|lia|done]).
  destruct (fd_pread_run fd [old] off (fs_of h) i e f b Hon Hr ltac:(lia)) as (bufs & Hrun & Hcat & Hl).
  cbn zeta in Hrun, Hcat. simpl in Hcat, Hrun. rewrite app_nil_r in Hcat, Hrun.
  rewrite Hlen, Z.min_l in Hcat, Hrun by lia.
  apply Forall2_cons_inv_l in Hl as (new & rest & Hnew & Hrest%Forall2_nil_inv_l & ->). subst rest.
  simpl in Hcat. rewrite app_nil_r, (drop_ge old) in Hcat by (unfold len in Hlen; lia).
  rewrite app_nil_r in Hcat. subst new.
  set (data := slice b (Z.to_nat off) (Z.to_nat n)) in *.
  assert (len data = n) as Hdata by (unfold len in *; lia).
  destruct (fill_one buf old data (linear_memory h)) as (m1 & Hfill & Hput); [lia|lia|by rewrite Hdata, Hold|].
  assert (get_slice res 4 m1 = get_slice res 4 (linear_memory h)) as Hsame
    by (apply (put_get_other buf data (linear_memory h)); [lia..|done]).
  destruct (write_u32_in res n m1 Hres ltac:(by rewrite Hsame)) as [m2 Hm2].
  exists (set_memory m2 (set_memory m1 h)). split; [|split].
  - apply traced_off; [done|off_args|]. unfold bind at 1.
    rewrite (on_memory_read _ _ _ (unpack_one _ _ _ _ _ _ Hsize Hiov Hold)). unfold bind at 1.
    change ([(buf, old)].*2) with [old]. rewrite (on_fs_run _ _ _ _ Hrun). unfold bind at 1. simpl fst. simpl snd.
    rewrite Hdata in Hfill. erewrite on_memory_run by exact Hfill.
    rewrite Z.mod_small by lia. erewrite on_memory_run by exact Hm2. by destruct h as [[] ? ? ? ?].
  - simpl. rewrite (write_u32_other res n m1 m2 buf n Hres) by (lia || done).
    rewrite <- Hdata. apply (put_get_slice buf data (linear_memory h)); [lia|done].
  - simpl. rewrite (write_u32_get res n m1 m2 Hres Hm2). simpl. by rewrite Z.mod_small by lia.
Qed.

(** C31: a program that writes a buffer of its memory to a file and reads the
    file back at the same offset into another buffer has the same bytes
    there, and both calls report the number of bytes: through the decoding of
    the buffer descriptors, the filesystem, and the stores into memory.  The
    ranges lie in the memory, and the words for the results do not overlap
    the descriptor and the buffer of the read. *)
Theorem guest_write_read h fd i e f b size wiov wbuf riov rbuf n data off wres rres :
  enable_strace (wrapper h) = false →
  on_file (fs_of h) fd i e f b → has_right e FD_WRITE → has_right e FD_READ →
  0 ≤ off → off + n < i64_bound → get_size (linear_memory h) = Ok size →
  iovec_at (linear_memory h) wiov wbuf n → iovec_at (linear_memory h) riov rbuf n →
  get_slice wbuf n (linear_memory h) = Ok data →
  is_ok (get_slice rbuf n (linear_memory h)) = true →
  0 ≤ wres → is_ok (get_slice wres 4 (linear_memory h)) = true →
  0 ≤ rres → is_ok (get_slice rres 4 (linear_memory h)) = true →
  wres + 4 ≤ riov ∨ riov + 8 ≤ wres → rres + 4 ≤ rbuf ∨ rbuf + n ≤ rres →
  ∃ h1 h2,
    WasiWrapper_fd_pwrite fd wiov 1 off wres h = (Ok tt, h1) ∧
    (read_u32 wres (linear_memory h1)).1 = Ok n ∧
    WasiWrapper_fd_pread fd riov 1 off rres h1 = (Ok tt, h2) ∧
    (read_u32 rres (linear_memory h2)).1 = Ok n ∧
    get_slice rbuf n (linear_memory h2) = Ok data.
Proof.
  intros Htr Hon Hw Hr Hoff Hfit Hsize Hwi Hri Hdata Hrb Hwr Hwok Hrr Hrok Hd1 Hd2.
  pose proof Hwi as [_ _ Hwrange]. pose proof Hri as [Hrbytes Hriov Hrrange].
  assert (len data = n) as Hlen by (apply (get_slice_len wbuf n (linear_memory h)); [lia|lia|done]).
  destruct (guest_pwrite h fd i e f b size wiov wbuf n data off wres) as (m1 & Hm1 & Hrun1); [done..|].
  set (b' := splice b (Z.to_nat off) data) in *.
  set (h1 := set_memory m1 (set_fs (set_entry i (with_bytes b' f) (fs_of h)) h)) in *.
  pose proof (len_splice b off data Hoff) as Hb'. destruct Hon as [Hfd Hi Hf Hd Hb].
  assert (on_file (fs_of h1) fd i e (with_bytes b' f) b') as Hon1.
  { split; [done|done|by apply lookup_insert_eq|done|]. subst b'. lia. }
  assert (∀ a k, 0 ≤ a → 0 ≤ k → is_ok (get_slice a k m1) = is_ok (get_slice a k (linear_memory h)))
    as Hranges.
  { intros a k Ha Hk. apply write_buffer_ok in Hm1 as [_ Hput].
    rewrite (get_slice_size a k m1 size), (get_slice_size a k _ size); try done.
    by rewrite (put_get_size wres (to_le_bytes 4 n) (linear_memory h) m1). }
  destruct (guest_pread h1 fd i e (with_bytes b' f) b' size riov rbuf n off rres) as (h2 & Hrun2 & Hb2 & Hres2).
  - done.
  - done.
  - done.
  - done.
  - subst b'. lia.
  - simpl. apply write_buffer_ok in Hm1 as [_ Hput].
    by rewrite (put_get_size wres (to_le_bytes 4 n) (linear_memory h) m1).
  - split; [|done|done]. simpl. by rewrite (write_u32_other wres n (linear_memory h) m1 riov 8) by (lia || done).
  - simpl. rewrite Hranges by lia. done.
  - done.
  - simpl. rewrite Hranges by lia. done.
  - done.
  - exists h1, h2. split_and!; [done| |done|done|].
    + simpl. rewrite (write_u32_get wres n _ _ Hwr Hm1). simpl. by rewrite Z.mod_small by lia.
    + rewrite Hb2. f_equal. subst b'. rewrite <- Hlen. unfold len. rewrite Nat2Z.id.
      apply slice_splice.
Qed.
End host.

Section witnesses.
Import WasiDemo.

Lemma demo_host_file :
  on_file (fs_of (demo_host demo_memory)) 7 9 (fd_entry st1 7) (inode_entry st1 9) [].
Proof. split; by vm_compute. Qed.

Lemma guest_write_read_witness :
  ∃ h1 h2,
    WasiWrapper_fd_pwrite 7 0 1 0 64 (demo_host demo_memory) = (Ok tt, h1) ∧
    (read_u32 64 (linear_memory h1)).1 = Ok 5 ∧
    WasiWrapper_fd_pread 7 8 1 0 68 h1 = (Ok tt, h2) ∧
    (read_u32 68 (linear_memory h2)).1 = Ok 5 ∧
    get_slice 48 5 (linear_memory h2) = Ok hello.
Proof.
  apply (guest_write_read (demo_host demo_memory) 7 9 (fd_entry st1 7) (inode_entry st1 9) [] 256
           0 32 8 48 5 hello 0 64 68);
    [reflexivity|exact demo_host_file|by vm_compute|by vm_compute|lia|lia|by vm_compute|
     split; [by vm_compute|lia|lia]|split; [by vm_compute|lia|lia]|by vm_compute|by vm_compute|lia|
     by vm_compute|lia|by vm_compute|lia|lia].
Defined.
End witnesses.
