(* ===== verification/Findings.v ===== *)
(** * Behaviours worth a second look

    Runs of the model that show what the code does in corner cases where a
    reader of its comments would expect something else.

    Sources: [execution-engine/src/fs.rs],
    [runtime-manager/src/managers/mod.rs]. *)

From S2P Require Import Prelude RustPath WasiTypes Policy InodeTable FileSystem FsOps Services.
From S2P Require Import FsSystem FsSafe Demo FsProps FsReadAll FsData Session TransportProps.
From S2P Require Import SessionProps Csr Runtime RuntimeProps.
From S2P Require Import Platform WasiMemory WasiMemoryProps WasiHost Strace Wasi WasiSim WasiCalls WasmApi Wasmi.
From S2P Require Import Wasmtime Engines EngineRuns WasiDemo GuestIo.

Section general.
Context {BP : BuildProfile} {WR : WasiRights} {HO : HashOrder} {NL : NativeLibs}.
Local Open Scope Z_scope.

(** Changing the rights of a descriptor assigns to a copy: nothing changes. *)
Lemma set_rights_ignored fd base inh s : (fd_fdstat_set_rights fd base inh s).2 = s.
Proof.
  unfold fd_fdstat_set_rights, bind. rewrite fd_get_run. by destruct (fd_table _ !! fd).
Qed.

(** Reading at an offset behind the end of a file panics, whatever the
    buffer: [split_at] is called without a check. *)
Theorem read_past_end_panics s fd i e f b buf off :
  on_file s fd i e f b → has_right e FD_READ → len b < off < u64_bound →
  fd_pread fd [buf] off s = (Abort SliceOutOfRange, s).
Proof.
  intros [Hfd Hi Hf Hd Hb] Hr Hoff. unfold fd_pread, bind at 1. rewrite check_right_run, Hfd, Hr.
  unfold bind at 1. rewrite get_inode_by_fd_run, Hfd, Hi. unfold bind at 1. rewrite lock_get_run, Hf.
  assert (0 ≤ len b) by apply len_nonneg.
  assert ((InodeEntry_read_file buf off f).1 = Abort SliceOutOfRange) as Hrd.
  { unfold InodeEntry_read_file, on_data, zoom, InodeImpl_read_file, bind, get, ok_or, lift. simpl.
    rewrite Hd. simpl. unfold read_bytes_from_offset. rewrite try_from_or_errno_in by lia.
    by destruct (Z.leb_spec off (len b)); [lia|]. }
  unfold bind at 1. simpl. unfold bind at 1, pread_step, bind at 1, lift at 1. by rewrite Hrd.
Qed.
End general.

Section runs.
Import Demo.
Local Open Scope Z_scope.

(** The outcomes of a sequence of calls of the root handler. *)
Fixpoint outcomes (s : fs_state) (cs : list syscall) : list bool :=
  match cs with
  | [] => []
  | c :: cs' => let r := run_call c s in is_ok r.1 :: outcomes r.2 cs'
  end.

Lemma read_past_end_panics_witness : fd_pread 7 [hello] 100 st_w = (Abort SliceOutOfRange, st_w).
Proof.
  refine (read_past_end_panics st_w 7 9 (fd_entry st_w 7) (inode_entry st_w 9) st_w_bytes hello 100
    demo_on_file_w _ _); by vm_compute.
Defined.

(** Creating [/a/b] replaces the directory [/a], and the file in it is gone. *)
Example create_directory_replaces :
  outcomes st0
    [WriteFileByAbsolutePath "/a/f" hello false; ReadFileByAbsolutePath "/a/f";
     PathCreateDirectory 3 "a/b"; ReadFileByAbsolutePath "/a/f"] = [true; true; true; false].
Proof. by vm_compute. Qed.

(** The file [/secret], and a program whose only directory is [/data]. *)
Definition st_secret : fs_state :=
  after (write_file_by_absolute_path (path "/secret") hello false) st0.
Definition prog_outside : fs_state :=
  mkState (match (spawn prog st_secret).1 with Ok h => h | _ => empty_handle end)
    (world (after (spawn prog) st_secret)).
(** A program whose only preopened directory is [/data] reads the file
    [/secret] by the path [/data/../secret]: path lookup follows the entry [..]
    of the directory. *)
Example parent_directory_escapes :
  (read_file_by_absolute_path (path "/data/../secret") prog_outside).1 = Ok hello.
Proof. by vm_compute. Qed.
End runs.

Section digests.
Import Demo SmallTls SmallRuntime SmallCodec.

Definition is_access {A} (r : outcome RuntimeManagerError A) : bool :=
  match r with Err (FileSystemError ErrNo.Access) => true | _ => false end.

(** The digest of a file is looked up by the path as written: once the file
    exists, a path with [..] overwrites it with contents that the path of the policy
    is refused. *)
Example digest_bypassed :
  let '(r1, p1) := write_file (Participant 1) "/program/p.wasm" hello protocol in
  let '(r2, p2) := write_file (Participant 1) "/program/p.wasm" [] p1 in
  let '(r3, p3) := write_file (Participant 1) "/program/../program/p.wasm" [] p2 in
  let '(r4, _) := read_file InternalSuperUser "/program/p.wasm" p3 in
  (is_ok r1, is_access r2, is_ok r3, match r4 with Ok None => true | _ => false end) =
    (true, true, true, true).
Proof. by vm_compute. Qed.
End digests.

(** * Behaviours of the WASI layer worth a second look

    What a program under the engines sees where a reader of the interface
    would expect something else.

    Sources: [execution-engine/src/wasi/common.rs],
    [execution-engine/src/wasi/wasmi.rs]. *)

Section wasi.
Context {BP : BuildProfile} {WR : WasiRights} {HO : HashOrder} {NL : NativeLibs}
  {SL : StructLayout} {ED : ErrNoDebug} {WC : WasiCodes} {P : Type} {PI : PlatformImp P}.
Local Open Scope Z_scope.

(** [fd_filestat_get] reports success on a descriptor that is not open:
    the result of the filesystem, error included, is stored in the memory of
    the program as if it were the status of a file. *)
Theorem filestat_error_hidden {T} {MH : MemoryHandler T} {ML : MemoryHandlerLaws MH}
    fd address (h : Host T P) :
  let stored := FileStatResult_repr (inr ErrNo.BadF) in
  enable_strace (wrapper h) = false → fd_table (filesystem (wrapper h)) !! fd = None →
  0 ≤ address → len stored < u32_bound →
  is_ok (get_slice address (len stored) (linear_memory h)) = true →
  fd_filestat_get fd (fs_of h) = (Err ErrNo.BadF, fs_of h) ∧
  ∃ h', WasiWrapper_fd_filestat_get fd address h = (Ok tt, h') ∧
    get_slice address (len stored) (linear_memory h') = Ok stored.
Proof.
  intros stored Htr Hfd Ha Hlen Hok.
  assert (fd_filestat_get fd (fs_of h) = (Err ErrNo.BadF, fs_of h)) as Hfs.
  { unfold fd_filestat_get, get_inode_by_fd, fd_get, bind, get, ok_or. simpl. by rewrite Hfd. }
  split; [done|]. destruct (put_in address stored (linear_memory h) Ha Hok) as [m' Hm'].
  exists (set_memory m' (set_fs (fs_of h) h)). split.
  - apply traced_off; [done| |].
    { intros _. repeat (apply Forall_cons; split; [by eexists|]). by apply Forall_nil. }
    unfold bind, attempt, try_match. rewrite (on_fs_run _ _ _ _ Hfs).
    apply on_memory_run, write_buffer_ok. by split.
  - simpl. exact (put_get_slice address stored (linear_memory h) m' Ha Hm').
Qed.

(** The environment and the arguments of the program. *)
Abbreviation keeps_env env m :=
  (preserves (λ h : Host _ P, (environment_variables (wrapper h), program_arguments (wrapper h)) = env) m).

Section env.
Context {T : Type} {MH : MemoryHandler T} (env : list (string * string) * list string).

Lemma env_on_memory {A} (op : ST T ErrNo.t A) : keeps_env env (on_memory op).
Proof. intros h Hh. unfold on_memory, zoom. destruct (op (linear_memory h)) as [[] m]; exact Hh. Qed.
Lemma env_on_fs {A} (op : M A) : keeps_env env (on_fs (T:=T) op).
Proof. intros h Hh. unfold on_fs, zoom. destruct (op (fs_of h)) as [[] m]; exact Hh. Qed.
Lemma env_on_platform {A} (op : P → A * P) : keeps_env env (on_platform (T:=T) op).
Proof. intros h Hh. unfold on_platform. destruct (op (platform h)). exact Hh. Qed.
Lemma env_info msg : keeps_env env (info (T:=T) msg).
Proof. by intros h Hh. Qed.
#[local] Hint Resolve env_on_memory env_on_fs env_on_platform env_info : veracruz.

Lemma env_strace_arg p st : keeps_env env p → keeps_env env (strace_arg (T:=T) p st).
Proof. intros Hp. unfold strace_arg, arg_print_comma. preserve. Qed.
Lemma env_attempt {A} (m : HostM T P A) : keeps_env env m → keeps_env env (attempt m).
Proof. intros Hm. unfold attempt. preserve. Qed.
Lemma env_decode {A} (try_from : Z → option A) arg : keeps_env env (decode_wasi_arg (T:=T) try_from arg).
Proof. apply preserves_ok_or. Qed.
Lemma env_read_path a n : keeps_env env (read_path (T:=T) a n).
Proof. unfold read_path. preserve. Qed.
Lemma env_filestat_time : keeps_env env (filestat_time (T:=T)).
Proof. unfold filestat_time. preserve. Qed.
Lemma env_clock_value read id : keeps_env env (clock_value (T:=T) read id).
Proof. unfold clock_value. preserve. Qed.
#[local] Hint Resolve env_attempt env_decode env_read_path env_filestat_time env_clock_value : veracruz.

Lemma env_traced name (call : HostM T P unit) args :
  keeps_env env call → (∀ res, Forall (λ arg, ∀ st, keeps_env env (arg st)) (args res)) →
  keeps_env env (traced name call args).
Proof.
  intros Hcall Hargs. unfold traced, Strace_func, Strace_result, print_result.
  apply preserves_bind; [preserve|intros h0]. apply preserves_bind; [preserve|intros st].
  apply preserves_bind; [by apply env_attempt|intros res].
  apply preserves_bind; [|intros st'; preserve]. specialize (Hargs res). revert st.
  induction Hargs as [|arg l Harg _ IH]; intros st; simpl; preserve.
Qed.

Ltac env_arg := apply env_strace_arg; unfold print_read; repeat case_match; preserve.
Ltac env_args := intros ?; repeat (apply Forall_cons; split; [intros ?; env_arg|]); by apply Forall_nil.

(** No call of the wrapper changes them. *)
Lemma env_wasi_call c : keeps_env env (run_wasi_call (T:=T) c).
Proof.
  destruct c; cbn [run_wasi_call];
  lazymatch goal with
  | |- preserves _ (WasiWrapper_proc_exit _) => unfold WasiWrapper_proc_exit, Strace_func; preserve; by intros h Hh
  | |- preserves _ (WasiWrapper_fd_create _) => unfold WasiWrapper_fd_create; preserve
  | _ => apply env_traced; [cbv zeta; preserve|env_args]
  end.
Qed.
End env.

(** ** The options of a run *)

Context {RV : RuntimeValues} {EC : ErrNoCodes} {WL : WasmiLib}.
Definition options_of (s : WASMIRuntimeState (P:=P)) : list (string * string) * list string :=
  (environment_variables (wrapper (host s)), program_arguments (wrapper (host s))).
Abbreviation keeps_options env m := (preserves (λ s, options_of s = env) m).

Section options.
Context (env : list (string * string) * list string).

Lemma options_pure {E A} (m : ST (WASMIRuntimeState (P:=P)) E A) :
  (∀ s, (m s).2 = s) → keeps_options env m.
Proof. intros Hm s Hs. specialize (Hm s). destruct (m s) as [[] ?]; simpl in Hm; by subst. Qed.

Lemma options_on_vfs c : keeps_options env (on_vfs (run_wasi_call c)).
Proof.
  intros s Hs. unfold on_vfs, with_memory, convert_to_errno, bind, ret.
  destruct (linear_memory (host s)) as [m|]; [|exact Hs].
  pose proof (env_wasi_call env c (with_linear_memory m (host s)) Hs) as Hc.
  destruct (run_wasi_call c (with_linear_memory m (host s))) as [r h]. by destruct r.
Qed.

Lemma options_host_call f args : keeps_options env (host_call f args).
Proof.
  destruct f as [x|x]; destruct x; unfold_host_call;
    repeat (apply preserves_bind;
      [apply options_pure; intros ?;
       first [apply check_args_state | apply nth_checked_state | apply nth_state]|intros ?]);
    lazymatch goal with
    | |- preserves _ (on_vfs ?m) => let c := as_wasi_call m in apply (options_on_vfs c)
    | |- _ => by apply options_pure
    end.
Qed.

Lemma options_invoke_index index args : keeps_options env (invoke_index index args).
Proof.
  assert (keeps_options env (let! name := lift (APIName_from_u64 index) in
    let! call_index := ok_or name (UnknownHostFunction (Index index)) in
    let! return_code := host_call call_index args in
    ret (Some (VI32 (as_i16 (errno_code return_code)))))) as Hc.
  { preserve. apply options_host_call. }
  intros s Hs. specialize (Hc s Hs). unfold invoke_index, map_err.
  by destruct (bind _ _ s) as [[] ?].
Qed.

Lemma options_run_guest fuel g : keeps_options env (run_guest fuel g).
Proof.
  revert g. induction fuel as [|fuel IH]; intros g s Hs; simpl; [exact Hs|].
  destruct (guest_step g _) as [v|t|m g'|i args k]; [exact Hs..|by apply IH|].
  pose proof (options_invoke_index i args s Hs) as Hi.
  by destruct (invoke_index i args s) as [[v|t|p] s']; [apply IH|..].
Qed.

Lemma options_load_program program : keeps_options env (load_program (P:=P) program).
Proof.
  assert (∀ A (r : outcome Error A), keeps_options env (wasmi_error r)) as Herr.
  { intros A r. apply options_pure. intros s. unfold wasmi_error, map_err, lift. by destruct r. }
  unfold load_program. preserve; try apply Herr.
  - apply options_pure. intros s. unfold get_module_memory. by repeat case_match.
  - by intros s Hs.
Qed.
End options.

(** Under the interpreter a run leaves the environment and the arguments
    of the program as the new runtime has them, whatever the options say:
    unlike the compiler, it never reads them from the options. *)
Theorem wasmi_ignores_options fuel program options (s : WASMIRuntimeState (P:=P)) :
  options_of (invoke_entry_point fuel program options s).2 = options_of s.
Proof.
  assert (keeps_options (options_of s) (invoke_entry_point fuel program options)) as Hrun.
  { unfold invoke_entry_point. apply preserves_bind; [apply options_load_program|intros _].
    apply preserves_bind; [by intros s' Hs|intros _ s' Hs].
    assert (keeps_options (options_of s) (invoke_export fuel ENTRY_POINT_NAME)) as He.
    { unfold invoke_export. preserve. apply options_run_guest. }
    specialize (He s' Hs). destruct (invoke_export fuel ENTRY_POINT_NAME s') as [r s''].
    simpl. assert (options_of s'' = options_of s) by (by destruct r).
    by destruct (entry_result r _). }
  specialize (Hrun s eq_refl). by destruct (invoke_entry_point fuel program options s) as [[] ?].
Qed.
End wasi.

Section examples.
Import WasiDemo.
Local Open Scope Z_scope.

Lemma filestat_error_hidden_witness :
  ∃ h', WasiWrapper_fd_filestat_get 99 100 (demo_host demo_memory) = (Ok tt, h') ∧
    get_slice 100 72 (linear_memory h') = Ok (FileStatResult_repr (inr ErrNo.BadF)).
Proof.
  assert (len (FileStatResult_repr (inr ErrNo.BadF)) = 72) as <- by done.
  apply (filestat_error_hidden 99 100 (demo_host demo_memory)); by vm_compute.
Defined.

(** A host whose clock is off. *)
Definition clockless (strace : bool) : Host bytes Z :=
  mkHost (set_enables false strace demo_wrapper) (world st1) demo_memory 0 [].

(** A call that is refused when it is not traced panics when it is: tracing
    reads the result at the address the program gave for it. *)
Example tracing_panics :
  (WasiWrapper_clock_time_get 0 0 4096 (clockless false)).1 = Err ErrNo.Access ∧
  (WasiWrapper_clock_time_get 0 0 4096 (clockless true)).1 = Abort SliceOutOfRange.
Proof. by vm_compute. Qed.

(** An address outside the memory of the program stops the host, and not only
    the program. *)
Example bad_address_panics :
  (WasiWrapper_fd_prestat_get 3 4096 (demo_host demo_memory)).1 = Abort SliceOutOfRange.
Proof. by vm_compute. Qed.
End examples.
